(** * Hash messaging: a shallow embedding of the fragment-slot protocol

    The development follows the two scripts of the library:
    - [hash-messaging-bg.js] (module [BG]): the background side, one
      outgoing session per tab;
    - the content-side script (module [Contents]): one session, guarded by
      the session secret negotiated by [INIT].

    Shared by both: the codec ([encodeBase64], [decodeBase64],
    [chunkString]), the frame grammar and the reassembly array. *)

From Stdlib Require Import String Ascii ZArith NArith Lia List Bool.
From Stdlib Require Import DecimalString DecimalZ DecimalPos Decimal.
From stdpp Require Import base option list gmap strings.

Local Open Scope string_scope.
Local Open Scope list_scope.
Local Open Scope nat_scope.

#[local] Arguments String.append : simpl nomatch.

(** ** Strings

    A frame, a base64 text and a binary string ([btoa]'s argument,
    [atob]'s result) are [string]: sequences of code units below 256. *)

Module Str.

Fixpoint take (n : nat) (s : string) : string :=
  match n, s with
  | S n', String c s' => String c (take n' s')
  | _, _ => EmptyString
  end.

Fixpoint drop (n : nat) (s : string) : string :=
  match n, s with
  | S n', String _ s' => drop n' s'
  | _, _ => s
  end.

(** [str.slice(i, j)] for [0 <= i <= j]. *)
Definition slice (s : string) (i j : nat) : string := substring i (j - i) s.

(** [str.slice(i)] *)
Definition slice_from (s : string) (i : nat) : string := drop i s.

Definition startsWith (s p : string) : bool := String.prefix p s.

Fixpoint map (f : ascii -> ascii) (s : string) : string :=
  match s with
  | EmptyString => EmptyString
  | String c s' => String (f c) (map f s')
  end.

Fixpoint forallb (f : ascii -> bool) (s : string) : bool :=
  match s with
  | EmptyString => true
  | String c s' => f c && forallb f s'
  end.

Fixpoint existsb (f : ascii -> bool) (s : string) : bool :=
  match s with
  | EmptyString => false
  | String c s' => f c || existsb f s'
  end.

Fixpoint filter (f : ascii -> bool) (s : string) : string :=
  match s with
  | EmptyString => EmptyString
  | String c s' => if f c then String c (filter f s') else filter f s'
  end.

Fixpoint repeat (c : ascii) (n : nat) : string :=
  match n with
  | O => EmptyString
  | S n' => String c (repeat c n')
  end.

(** [Array.prototype.join('')] over strings. *)
Fixpoint concat (l : list string) : string :=
  match l with
  | [] => EmptyString
  | s :: l' => s +:+ concat l'
  end.

End Str.

(** ** Codec: chunking *)

Definition MAX_HASH_BYTES : nat := 4000.
Definition OVERHEAD : nat := 120.

(** The [for] loop of [chunkString]: [i] is the loop variable, [out] the
    array built so far.  The loop does not terminate for [size = 0] on a
    non-empty string; the embedding runs it on fuel and yields [None] when
    the fuel is exhausted. *)
Fixpoint chunkString_loop (fuel : nat) (str : string) (size i : nat)
    (out : list string) : option (list string) :=
  if i <? String.length str then
    match fuel with
    | O => None
    | S fuel' =>
        chunkString_loop fuel' str size (i + size)
          (out ++ [Str.slice str i (i + size)])
    end
  else Some out.

Definition chunkString (str : string) (size : nat) : option (list string) :=
  chunkString_loop (String.length str) str size 0 [].

(** ** Codec: the transport encoding

    [encodeBase64] and [decodeBase64] compose platform functions.  They are
    modelled as the platform defines them:
    - [unescape(encodeURIComponent(str))] is the UTF-8 encoding of [str] as
      a binary string, [decodeURIComponent(escape(bin))] the strict UTF-8
      decoding, which throws [URIError] on a malformed sequence;
    - [btoa] is base64 with padding, [atob] the forgiving base64 decoder
      (throws [InvalidCharacterError]).
    A text (the result of [JSON.stringify], the argument of [JSON.parse])
    is given by its Unicode scalar values. *)

Definition text := list N.

Definition byte_of (n : N) : ascii := ascii_of_N n.
Definition code_of (c : ascii) : N := N_of_ascii c.

Definition is_scalar (c : N) : Prop :=
  (c < 0xD800 \/ 0xE000 <= c < 0x110000)%N.

Definition utf8_encode_cp (c : N) : string :=
  if (c <? 0x80)%N then
    String (byte_of c) ""
  else if (c <? 0x800)%N then
    String (byte_of (0xC0 + c / 64))
      (String (byte_of (0x80 + c mod 64)) "")
  else if (c <? 0x10000)%N then
    String (byte_of (0xE0 + c / 4096))
      (String (byte_of (0x80 + (c / 64) mod 64))
         (String (byte_of (0x80 + c mod 64)) ""))
  else
    String (byte_of (0xF0 + c / 262144))
      (String (byte_of (0x80 + (c / 4096) mod 64))
         (String (byte_of (0x80 + (c / 64) mod 64))
            (String (byte_of (0x80 + c mod 64)) ""))).

(** [unescape(encodeURIComponent(str))] *)
Fixpoint utf8_encode (t : text) : string :=
  match t with
  | [] => ""
  | c :: t' => utf8_encode_cp c +:+ utf8_encode t'
  end.

Definition is_cont (b : N) : bool := (0x80 <=? b)%N && (b <? 0xC0)%N.

(** [decodeURIComponent(escape(bin))]: [None] stands for [URIError]. *)
Fixpoint utf8_decode (s : string) : option text :=
  match s with
  | "" => Some []
  | String a s1 =>
      let a := code_of a in
      if (a <? 0x80)%N then
        cons a <$> utf8_decode s1
      else if (a <? 0xC2)%N then None
      else
        match s1 with
        | "" => None
        | String b s2 =>
            let b := code_of b in
            if negb (is_cont b) then None
            else if (a <? 0xE0)%N then
              cons ((a - 0xC0) * 64 + (b - 0x80))%N <$> utf8_decode s2
            else
              match s2 with
              | "" => None
              | String c s3 =>
                  let c := code_of c in
                  if negb (is_cont c) then None
                  else if (a <? 0xF0)%N then
                    let cp := ((a - 0xE0) * 4096 + (b - 0x80) * 64
                               + (c - 0x80))%N in
                    if (cp <? 0x800)%N
                       || ((0xD800 <=? cp)%N && (cp <? 0xE000)%N)
                    then None
                    else cons cp <$> utf8_decode s3
                  else
                    match s3 with
                    | "" => None
                    | String d s4 =>
                        let d := code_of d in
                        if negb (is_cont d) then None
                        else
                          let cp := ((a - 0xF0) * 262144 + (b - 0x80) * 4096
                                     + (c - 0x80) * 64 + (d - 0x80))%N in
                          if (cp <? 0x10000)%N || (0x110000 <=? cp)%N
                             || (0xF8 <=? a)%N
                          then None
                          else cons cp <$> utf8_decode s4
                    end
              end
        end
  end.

(** The base64 alphabet: value to character and back. *)
Definition b64_char (n : N) : ascii :=
  if (n <? 26)%N then byte_of (n + 65)
  else if (n <? 52)%N then byte_of (n + 71)
  else if (n <? 62)%N then byte_of (n - 4)
  else if (n =? 62)%N then "+"%char
  else "/"%char.

Definition b64_index (c : ascii) : option N :=
  let n := code_of c in
  if (65 <=? n)%N && (n <=? 90)%N then Some (n - 65)%N
  else if (97 <=? n)%N && (n <=? 122)%N then Some (n - 71)%N
  else if (48 <=? n)%N && (n <=? 57)%N then Some (n + 4)%N
  else if (n =? 43)%N then Some 62%N
  else if (n =? 47)%N then Some 63%N
  else None.

(** [btoa] on a binary string. *)
Fixpoint btoa (s : string) : string :=
  match s with
  | "" => ""
  | String a "" =>
      let n := (code_of a * 65536)%N in
      String (b64_char (n / 262144))
        (String (b64_char ((n / 4096) mod 64)) "==")
  | String a (String b "") =>
      let n := (code_of a * 65536 + code_of b * 256)%N in
      String (b64_char (n / 262144))
        (String (b64_char ((n / 4096) mod 64))
           (String (b64_char ((n / 64) mod 64)) "="))
  | String a (String b (String c rest)) =>
      let n := (code_of a * 65536 + code_of b * 256 + code_of c)%N in
      String (b64_char (n / 262144))
        (String (b64_char ((n / 4096) mod 64))
           (String (b64_char ((n / 64) mod 64))
              (String (b64_char (n mod 64)) (btoa rest))))
  end.

Definition is_ascii_whitespace (c : ascii) : bool :=
  let n := code_of c in
  (n =? 9)%N || (n =? 10)%N || (n =? 12)%N || (n =? 13)%N || (n =? 32)%N.

Definition is_eq_sign (c : ascii) : bool := Ascii.eqb c "="%char.

(** One or two [=] at the end are removed (forgiving-base64, step 2). *)
Fixpoint remove_padding (s : string) : string :=
  if String.eqb s "=" || String.eqb s "==" then ""
  else match s with
       | "" => ""
       | String c s' => String c (remove_padding s')
       end.

Fixpoint sextets (s : string) : option (list N) :=
  match s with
  | "" => Some []
  | String c s' =>
      match b64_index c, sextets s' with
      | Some n, Some l => Some (n :: l)
      | _, _ => None
      end
  end.

Fixpoint atob_groups (l : list N) : string :=
  match l with
  | a :: b :: c :: d :: rest =>
      let n := (((a * 64 + b) * 64 + c) * 64 + d)%N in
      String (byte_of (n / 65536))
        (String (byte_of ((n / 256) mod 256))
           (String (byte_of (n mod 256)) (atob_groups rest)))
  | [a; b; c] =>
      let n := (((a * 64 + b) * 64 + c) / 4)%N in
      String (byte_of (n / 256)) (String (byte_of (n mod 256)) "")
  | [a; b] =>
      let n := ((a * 64 + b) / 16)%N in
      String (byte_of n) ""
  | _ => ""
  end.

(** [atob]: [None] stands for [InvalidCharacterError]. *)
Definition atob (data : string) : option string :=
  let data := Str.filter (fun c => negb (is_ascii_whitespace c)) data in
  let data :=
    if String.length data mod 4 =? 0 then remove_padding data else data in
  if String.length data mod 4 =? 1 then None
  else atob_groups <$> sextets data.

(** [.replace(/\+/g, '-').replace(/\//g, '_')] *)
Definition to_urlsafe (c : ascii) : ascii :=
  if Ascii.eqb c "+"%char then "-"%char
  else if Ascii.eqb c "/"%char then "_"%char else c.

(** [.replace(/-/g, '+').replace(/_/g, '/')] *)
Definition from_urlsafe (c : ascii) : ascii :=
  if Ascii.eqb c "-"%char then "+"%char
  else if Ascii.eqb c "_"%char then "/"%char else c.

(** [.replace(/=+$/, '')] *)
Fixpoint strip_trailing_eq (s : string) : string :=
  match s with
  | "" => ""
  | String c s' =>
      let r := strip_trailing_eq s' in
      if is_eq_sign c && String.eqb r "" then "" else String c r
  end.

(** [while (str.length % 4) str += '=';] the loop runs at most three
    times. *)
Fixpoint pad_loop (fuel : nat) (str : string) : string :=
  if String.length str mod 4 =? 0 then str
  else match fuel with
       | O => str
       | S fuel' => pad_loop fuel' (str +:+ "=")
       end.

Definition encodeBase64 (str : text) : string :=
  strip_trailing_eq (Str.map to_urlsafe (btoa (utf8_encode str))).

Definition decodeBase64 (str : string) : option text :=
  let str := Str.map from_urlsafe str in
  let str := pad_loop 3 str in
  atob str ≫= utf8_decode.

(** The characters of the URL-safe alphabet without padding:
    [A-Za-z0-9_-]. *)
Definition is_urlsafe_char (c : ascii) : bool :=
  let n := code_of c in
  ((65 <=? n) && (n <=? 90) || (97 <=? n) && (n <=? 122)
   || (48 <=? n) && (n <=? 57) || (n =? 45) || (n =? 95))%N.

(** A character [atob] cannot read once [decodeBase64] has replaced [-]
    and [_]: in neither alphabet, not [=], not white space. *)
Definition is_foreign_char (c : ascii) : bool :=
  (match b64_index (from_urlsafe c) with Some _ => false | None => true end)
  && negb (is_eq_sign c) && negb (is_ascii_whitespace c).

(** Text of an ASCII literal. *)
Definition text_of_string (s : string) : text :=
  List.map code_of (list_ascii_of_string s).

(** ** The platform

    [JSON.stringify], [JSON.parse] and [crypto.randomUUID] belong to the
    host.  [JSValue] is the domain of values a caller or a handler passes;
    [JSON_stringify v] is the text [encodeURIComponent] receives for [v]
    (a well-formed string, given by its scalar values; [undefined] is
    coerced to the text [undefined]); [JSON_parse] yields [None] where
    [JSON.parse] throws [SyntaxError]; [randomUUID n] is the result of
    the [n]-th call of [crypto.randomUUID]. *)

Class Platform := {
  JSValue : Type;
  JSON_stringify : JSValue -> text;
  JSON_parse : text -> option JSValue;
  randomUUID : nat -> string
}.

(** The identifier generator is globally unique: no two calls agree. *)
Definition unique_ids `{Platform} : Prop :=
  forall m n, randomUUID m = randomUUID n -> m = n.

(** A message is JSON-serializable when its text is well formed and parses
    back to it. *)
Definition JSON_serializable `{Platform} (m : JSValue) : Prop :=
  Forall is_scalar (JSON_stringify m)
  /\ JSON_parse (JSON_stringify m) = Some m.

(** ** Numbers in frames *)

(** The result of [parseInt]: [NaN], or the Number for the integer [z]
    the digits denote.  That Number is the double nearest to [z]
    ([double_of_pos]; an infinity beyond the largest double): [Num] keeps
    [z] itself and the operations below account for the rounding.  It
    leaves every integer of magnitude up to 2^53 as it is and maps a larger
    one to a double of magnitude 2^53 at least, so what [new Array],
    [buffer[index] = data] and [===] against a count of slots do is read
    off [z] ([rounding_invisible]); the text of the Number
    ([jsnum_toString]) is that of the double. *)
Inductive jsnum := NaN | Num (z : Z).

Definition jsnum_eqb (a b : jsnum) : bool :=
  match a, b with
  | Num x, Num y => (x =? y)%Z
  | _, _ => false
  end.

(** [String(n)] for an integer of magnitude below 2^53, as every index
    and total of a sender is (a JavaScript string has fewer than 2^53 code
    units): its decimal digits. *)
Definition Number_toString (z : Z) : string :=
  NilZero.string_of_int (Z.to_int z).

(** The double nearest to the positive integer [z], ties to the even
    significand; [None] where that is beyond the largest double. *)
Definition double_of_pos (z : Z) : option Z :=
  let bits := (Z.log2 z + 1)%Z in
  if (bits <=? 53)%Z then Some z
  else
    let e := (bits - 53)%Z in
    let q := Z.shiftr z e in
    let r := (z - Z.shiftl q e)%Z in
    let half := Z.shiftl 1 (e - 1) in
    let q' := if (half <? r)%Z || ((r =? half)%Z && Z.odd q)
              then (q + 1)%Z else q in
    let v := Z.shiftl q' e in
    if (2 ^ 1024 <=? v)%Z then None else Some v.

(** The decimal [v] denotes the double [d]. *)
Definition reads_as (d v : Z) : bool :=
  match double_of_pos v with
  | Some d' => (d' =? d)%Z
  | None => false
  end.

(** The digits [Number::toString] chooses for the double [d] of [n]
    decimal digits: the decimal with the fewest significant digits that
    denotes [d], the one closest to [d] if there are several, the even
    one if two are as close.  [k] significant digits are tried first; 17
    always suffice. *)
Fixpoint shortest_from (fuel : nat) (k n d : Z) : Z :=
  match fuel with
  | O => d
  | S fuel' =>
      if (n <=? k)%Z then d
      else
        let p := (10 ^ (n - k))%Z in
        let lo := (d / p * p)%Z in
        let hi := (lo + p)%Z in
        match reads_as d lo, reads_as d hi with
        | true, true =>
            if (d - lo <? hi - d)%Z then lo
            else if (hi - d <? d - lo)%Z then hi
            else if Z.even (d / p) then lo else hi
        | true, false => lo
        | false, true => hi
        | false, false => shortest_from fuel' (k + 1)%Z n d
        end
  end.

Definition shortest (d : Z) : Z :=
  shortest_from 17 1 (Z.of_nat (String.length (Number_toString d))) d.

Fixpoint strip_trailing_zeros (s : string) : string :=
  match s with
  | "" => ""
  | String c s' =>
      let r := strip_trailing_zeros s' in
      if Ascii.eqb c "0"%char && String.eqb r "" then "" else String c r
  end.

(** The text of the positive integer [v] chosen by [shortest]: its digits
    in full up to 21 of them, and with an exponent beyond
    ([1e+21], [1.2345678901234568e+29]). *)
Definition exponent_text (v : Z) : string :=
  let str := Number_toString v in
  let n := String.length str in
  if n <=? 21 then str
  else
    match strip_trailing_zeros str with
    | String c "" => String c ("e+" +:+ Number_toString (Z.of_nat (n - 1)))
    | String c rest =>
        String c ("." +:+ rest +:+ "e+" +:+ Number_toString (Z.of_nat (n - 1)))
    | "" => str
    end.

(** [String(n)] for the Number of an integer [z] of magnitude 2^53 or
    more: [9007199254740993] prints as [9007199254740992], 2^64 as
    [18446744073709552000], 10^21 as [1e+21], and an integer that rounds
    to 2^1024 or more as [Infinity]. *)
Definition large_Number_text (z : Z) : string :=
  let sign := if (z <? 0)%Z then "-" else "" in
  match double_of_pos (Z.abs z) with
  | None => sign +:+ "Infinity"
  | Some d => sign +:+ exponent_text (shortest d)
  end.

(** [`${n}`] for a result of [parseInt]. *)
Definition jsnum_toString (n : jsnum) : string :=
  match n with
  | NaN => "NaN"
  | Num z =>
      if (Z.abs z <? 2 ^ 53)%Z then Number_toString z
      else large_Number_text z
  end.

Definition is_digit (c : ascii) : bool :=
  ((48 <=? code_of c) && (code_of c <=? 57))%N.

(** White space and line terminators below 256, skipped by [parseInt]. *)
Definition is_StrWhiteSpaceChar (c : ascii) : bool :=
  let n := code_of c in
  ((9 <=? n) && (n <=? 13) || (n =? 32) || (n =? 160))%N.

Fixpoint trim_left (s : string) : string :=
  match s with
  | String c s' => if is_StrWhiteSpaceChar c then trim_left s' else s
  | "" => ""
  end.

Fixpoint parse_digits (s : string) (acc : Z) : Z :=
  match s with
  | String c s' =>
      if is_digit c
      then parse_digits s' (acc * 10 + (Z.of_N (code_of c) - 48))%Z
      else acc
  | "" => acc
  end.

Definition starts_with_digit (s : string) : bool :=
  match s with
  | String c _ => is_digit c
  | "" => false
  end.

(** [parseInt(str, 10)]: white space is skipped, a sign is read, and the
    longest run of digits gives the integer; [NaN] without a digit.  The
    Number returned is the double of that integer (see [jsnum]), rounded
    correctly (for more than 20 significant digits the standard lets a
    host round less exactly). *)
Definition parseInt10 (str : string) : jsnum :=
  let s := trim_left str in
  let '(negative, s) :=
    match s with
    | String c s' =>
        if Ascii.eqb c "-"%char then (true, s')
        else if Ascii.eqb c "+"%char then (false, s')
        else (false, s)
    | "" => (false, s)
    end in
  if starts_with_digit s then
    let z := parse_digits s 0 in
    Num (if negative then - z else z)%Z
  else NaN.

(** ** Frames *)

Inductive FrameType := REQ | RES.

Definition FrameType_text (t : FrameType) : string :=
  match t with REQ => "REQ" | RES => "RES" end.

Definition FrameType_of_text (s : string) : option FrameType :=
  if String.eqb s "REQ" then Some REQ
  else if String.eqb s "RES" then Some RES
  else None.

(** Splits at the first occurrence of [c]. *)
Fixpoint split_at (c : ascii) (s : string) : option (string * string) :=
  match s with
  | "" => None
  | String x s' =>
      if Ascii.eqb x c then Some ("", s')
      else match split_at c s' with
           | Some (a, b) => Some (String x a, b)
           | None => None
           end
  end.

(** [([^:]+):] a non-empty field closed by a colon, and the rest. *)
Definition colon_field (s : string) : option (string * string) :=
  match split_at ":"%char s with
  | Some (String c f, rest) => Some (String c f, rest)
  | _ => None
  end.

(** The texts [[^:]+] can match: an identifier returned by
    [crypto.randomUUID()] is one. *)
Definition no_colon (s : string) : Prop :=
  Str.forallb (fun c => negb (Ascii.eqb c ":"%char)) s = true.

Definition is_line_terminator (c : ascii) : bool :=
  ((code_of c =? 10) || (code_of c =? 13))%N.

(** [(.+)$] the rest of the input, non-empty, no line terminator. *)
Definition dot_plus_end (s : string) : option string :=
  match s with
  | "" => None
  | _ => if Str.forallb (fun c => negb (is_line_terminator c)) s
         then Some s else None
  end.

(** [const [indexStr, totalStr] = seq.split('/')]: the second component is
    [None] where [totalStr] is [undefined]. *)
Definition split_seq (seq : string) : string * option string :=
  match split_at "/"%char seq with
  | None => (seq, None)
  | Some (a, rest) =>
      (a, Some (match split_at "/"%char rest with
                | None => rest
                | Some (b, _) => b
                end))
  end.

(** [parseInt(totalStr, 10)]: [undefined] reads as the text [undefined]. *)
Definition parseInt10_opt (s : option string) : jsnum :=
  match s with
  | Some s => parseInt10 s
  | None => NaN
  end.

(** The value of [chunks[index]] inside a template literal. *)
Definition chunk_text (chunks : list string) (index : nat) : string :=
  match chunks !! index with
  | Some c => c
  | None => "undefined"
  end.

Definition chunkSize : nat := MAX_HASH_BYTES - OVERHEAD.

(** [chunkString(base64, chunkSize)]: the loop terminates for this size
    ([chunkString_spec]). *)
Definition chunks_of (base64 : string) : list string :=
  match chunkString base64 chunkSize with
  | Some chunks => chunks
  | None => []
  end.

(** The least [n] with [a <= n * b]. *)
Definition ceil_div (a b : nat) : nat := (a + (b - 1)) / b.

(** The text [`${index}/${total}`] of a frame. *)
Definition seq_text (index total : nat) : string :=
  Number_toString (Z.of_nat index) +:+ "/" +:+ Number_toString (Z.of_nat total).

(** ** The reassembly array

    A JavaScript array with holes: [None] is a hole. *)

Definition jsarray := list (option string).

Inductive Error := RangeError | DecodeError | SyntaxError.

(** [new Array(total)]: [RangeError] unless [total] is an integer in
    [0, 2^32 - 1]. *)
Definition new_Array (total : jsnum) : option jsarray :=
  match total with
  | Num z =>
      if ((0 <=? z) && (z <=? 4294967295))%Z
      then Some (replicate (Z.to_nat z) None)
      else None
  | NaN => None
  end.

(** [buffer[index] = data]: an array index below the length fills the
    slot, one at or above it extends the array; any other key (NaN, a
    negative number, 2^32 - 1 or more) names a property that neither
    [filter], [join] nor [length] reads. *)
Definition array_set (buffer : jsarray) (index : jsnum) (data : string)
    : jsarray :=
  match index with
  | Num z =>
      if ((0 <=? z) && (z <? 4294967295))%Z then
        let i := Z.to_nat z in
        if i <? length buffer then <[i := Some data]> buffer
        else buffer ++ replicate (i - length buffer) None ++ [Some data]
      else buffer
  | NaN => buffer
  end.

(** [buffer.filter(v => v !== undefined).length] *)
Definition filled (buffer : jsarray) : nat :=
  length (List.filter (fun v => match v with Some _ => true | None => false end)
            buffer).

(** [buffer.join('')] *)
Definition join (buffer : jsarray) : string :=
  Str.concat (List.map (fun v => match v with Some s => s | None => "" end)
                buffer).

(** [filled === total] *)
Definition is_complete (buffer : jsarray) (total : jsnum) : bool :=
  jsnum_eqb (Num (Z.of_nat (filled buffer))) total.

(** [JSON.parse(decodeBase64(full))] *)
Definition decode_message `{Platform} (full : string)
    : Error + JSValue :=
  match decodeBase64 full with
  | None => inl DecodeError
  | Some t =>
      match JSON_parse t with
      | None => inl SyntaxError
      | Some m => inr m
      end
  end.

(** [encodeBase64(JSON.stringify(data))] *)
Definition encode_message `{Platform} (data : JSValue) : string :=
  encodeBase64 (JSON_stringify data).

(** The array after the chunks of the indices [arrived] have been stored,
    in this order: [buffer[index] = data] for each. *)
Definition fill (chunks : list string) (arrived : list nat)
    (buffer : jsarray) : jsarray :=
  fold_left
    (fun b i => array_set b (Num (Z.of_nat i)) (chunk_text chunks i))
    arrived buffer.

(** ** The content-side script

    The script runs on one event loop: its state changes only inside a
    callback, and a callback runs to its end (or to an uncaught exception)
    before another starts.  Each callback is a function on [State]; the
    host chooses which one runs next ([Event]).  What the script does to
    the outside is appended to [log]. *)

Module Contents.

Section Script.

Context `{Platform}.

(** A registered handler: [None] when it returns [undefined], otherwise
    the value [await] yields for what it returned. *)
Definition Handler := JSValue -> option JSValue.

Inductive Effect :=
| Wrote (payload : string)          (* [sendRaw(payload)] *)
| Resolved (promise : nat) (result : JSValue)   (* [resolve(result)] *)
| Rejected (promise : nat)          (* [reject(new Error('Timeout'))] *)
| Uncaught (e : Error).             (* the callback ended by a throw *)

(** An entry of [sendQueue]; [q_promise] numbers the promise whose
    [resolve] and [reject] the entry holds. *)
Record QueueEntry := {
  q_message : JSValue;
  q_promise : nat
}.

(** The variables one call of [sendChunks] closes over; the entry stands
    for its [handleAck] listener while that is registered. *)
Record Sender := {
  s_type : FrameType;
  s_id : string;
  s_chunks : list string;
  s_total : nat;
  s_index : nat
}.

(** A call of [dispatchRequest] suspended at [await]: [d_next] is the
    position of the array iterator, [d_awaited] the value [await] will
    yield. *)
Record Dispatch := {
  d_id : string;
  d_message : JSValue;
  d_responded : bool;
  d_next : nat;
  d_awaited : JSValue
}.

Record State := {
  pendingRequests : gmap string nat;
  incomingBuffers : gmap string jsarray;
  messageHandlers : list Handler;
  sendQueue : list QueueEntry;
  isSending : bool;
  secret : option string;
  (* the host *)
  location_hash : string;             (* [location.hash.slice(1)] *)
  senders : gmap nat Sender;          (* [hashchange] listeners of [sendChunks] *)
  timers : gmap nat (string * nat);   (* armed timeouts: request id, promise *)
  dispatches : gmap nat Dispatch;
  handles : nat;                      (* next listener, timer or task handle *)
  uuid_calls : nat;
  promises : nat;
  log : list Effect
}.

Definition set_pendingRequests v (s : State) : State :=
  {| pendingRequests := v; incomingBuffers := incomingBuffers s;
     messageHandlers := messageHandlers s; sendQueue := sendQueue s;
     isSending := isSending s; secret := secret s;
     location_hash := location_hash s; senders := senders s;
     timers := timers s; dispatches := dispatches s; handles := handles s;
     uuid_calls := uuid_calls s; promises := promises s; log := log s |}.

Definition set_incomingBuffers v (s : State) : State :=
  {| pendingRequests := pendingRequests s; incomingBuffers := v;
     messageHandlers := messageHandlers s; sendQueue := sendQueue s;
     isSending := isSending s; secret := secret s;
     location_hash := location_hash s; senders := senders s;
     timers := timers s; dispatches := dispatches s; handles := handles s;
     uuid_calls := uuid_calls s; promises := promises s; log := log s |}.

Definition set_messageHandlers v (s : State) : State :=
  {| pendingRequests := pendingRequests s;
     incomingBuffers := incomingBuffers s;
     messageHandlers := v; sendQueue := sendQueue s;
     isSending := isSending s; secret := secret s;
     location_hash := location_hash s; senders := senders s;
     timers := timers s; dispatches := dispatches s; handles := handles s;
     uuid_calls := uuid_calls s; promises := promises s; log := log s |}.

Definition set_sendQueue v (s : State) : State :=
  {| pendingRequests := pendingRequests s;
     incomingBuffers := incomingBuffers s;
     messageHandlers := messageHandlers s; sendQueue := v;
     isSending := isSending s; secret := secret s;
     location_hash := location_hash s; senders := senders s;
     timers := timers s; dispatches := dispatches s; handles := handles s;
     uuid_calls := uuid_calls s; promises := promises s; log := log s |}.

Definition set_isSending v (s : State) : State :=
  {| pendingRequests := pendingRequests s;
     incomingBuffers := incomingBuffers s;
     messageHandlers := messageHandlers s; sendQueue := sendQueue s;
     isSending := v; secret := secret s;
     location_hash := location_hash s; senders := senders s;
     timers := timers s; dispatches := dispatches s; handles := handles s;
     uuid_calls := uuid_calls s; promises := promises s; log := log s |}.

Definition set_secret v (s : State) : State :=
  {| pendingRequests := pendingRequests s;
     incomingBuffers := incomingBuffers s;
     messageHandlers := messageHandlers s; sendQueue := sendQueue s;
     isSending := isSending s; secret := v;
     location_hash := location_hash s; senders := senders s;
     timers := timers s; dispatches := dispatches s; handles := handles s;
     uuid_calls := uuid_calls s; promises := promises s; log := log s |}.

Definition set_location_hash v (s : State) : State :=
  {| pendingRequests := pendingRequests s;
     incomingBuffers := incomingBuffers s;
     messageHandlers := messageHandlers s; sendQueue := sendQueue s;
     isSending := isSending s; secret := secret s;
     location_hash := v; senders := senders s;
     timers := timers s; dispatches := dispatches s; handles := handles s;
     uuid_calls := uuid_calls s; promises := promises s; log := log s |}.

Definition set_senders v (s : State) : State :=
  {| pendingRequests := pendingRequests s;
     incomingBuffers := incomingBuffers s;
     messageHandlers := messageHandlers s; sendQueue := sendQueue s;
     isSending := isSending s; secret := secret s;
     location_hash := location_hash s; senders := v;
     timers := timers s; dispatches := dispatches s; handles := handles s;
     uuid_calls := uuid_calls s; promises := promises s; log := log s |}.

Definition set_timers v (s : State) : State :=
  {| pendingRequests := pendingRequests s;
     incomingBuffers := incomingBuffers s;
     messageHandlers := messageHandlers s; sendQueue := sendQueue s;
     isSending := isSending s; secret := secret s;
     location_hash := location_hash s; senders := senders s;
     timers := v; dispatches := dispatches s; handles := handles s;
     uuid_calls := uuid_calls s; promises := promises s; log := log s |}.

Definition set_dispatches v (s : State) : State :=
  {| pendingRequests := pendingRequests s;
     incomingBuffers := incomingBuffers s;
     messageHandlers := messageHandlers s; sendQueue := sendQueue s;
     isSending := isSending s; secret := secret s;
     location_hash := location_hash s; senders := senders s;
     timers := timers s; dispatches := v; handles := handles s;
     uuid_calls := uuid_calls s; promises := promises s; log := log s |}.

Definition set_handles v (s : State) : State :=
  {| pendingRequests := pendingRequests s;
     incomingBuffers := incomingBuffers s;
     messageHandlers := messageHandlers s; sendQueue := sendQueue s;
     isSending := isSending s; secret := secret s;
     location_hash := location_hash s; senders := senders s;
     timers := timers s; dispatches := dispatches s; handles := v;
     uuid_calls := uuid_calls s; promises := promises s; log := log s |}.

Definition set_uuid_calls v (s : State) : State :=
  {| pendingRequests := pendingRequests s;
     incomingBuffers := incomingBuffers s;
     messageHandlers := messageHandlers s; sendQueue := sendQueue s;
     isSending := isSending s; secret := secret s;
     location_hash := location_hash s; senders := senders s;
     timers := timers s; dispatches := dispatches s; handles := handles s;
     uuid_calls := v; promises := promises s; log := log s |}.

Definition set_promises v (s : State) : State :=
  {| pendingRequests := pendingRequests s;
     incomingBuffers := incomingBuffers s;
     messageHandlers := messageHandlers s; sendQueue := sendQueue s;
     isSending := isSending s; secret := secret s;
     location_hash := location_hash s; senders := senders s;
     timers := timers s; dispatches := dispatches s; handles := handles s;
     uuid_calls := uuid_calls s; promises := v; log := log s |}.

Definition set_log v (s : State) : State :=
  {| pendingRequests := pendingRequests s;
     incomingBuffers := incomingBuffers s;
     messageHandlers := messageHandlers s; sendQueue := sendQueue s;
     isSending := isSending s; secret := secret s;
     location_hash := location_hash s; senders := senders s;
     timers := timers s; dispatches := dispatches s; handles := handles s;
     uuid_calls := uuid_calls s; promises := promises s; log := v |}.

Definition emit (e : Effect) (s : State) : State :=
  set_log (log s ++ [e]) s.

(** The state after the declarations of the script, before its first
    [handleIncoming()]; [h] is the fragment the page was loaded with. *)
Definition blank (h : string) : State :=
  {| pendingRequests := ∅; incomingBuffers := ∅; messageHandlers := [];
     sendQueue := []; isSending := false; secret := None;
     location_hash := h; senders := ∅; timers := ∅; dispatches := ∅;
     handles := 0; uuid_calls := 0; promises := 0; log := [] |}.

(** [`${secret}`] *)
Definition secret_text (sec : option string) : string :=
  match sec with
  | Some x => x
  | None => "null"
  end.

(** [!secret] *)
Definition secret_falsy (sec : option string) : bool :=
  match sec with
  | Some x => String.eqb x ""
  | None => true
  end.

(** [`MSG:${secret}:${type}:${id}:${index}/${total}:${chunks[index]}`] *)
Definition msg_frame (sec : option string) (sd : Sender) : string :=
  "MSG:" +:+ secret_text sec +:+ ":" +:+ FrameType_text (s_type sd) +:+ ":"
  +:+ s_id sd +:+ ":" +:+ Number_toString (Z.of_nat (s_index sd)) +:+ "/"
  +:+ Number_toString (Z.of_nat (s_total sd)) +:+ ":"
  +:+ chunk_text (s_chunks sd) (s_index sd).

(** [`ACK:${secret}:${id}:${index - 1}`] as [handleAck] expects it. *)
Definition expected_ack (sec : option string) (sd : Sender) : string :=
  "ACK:" +:+ secret_text sec +:+ ":" +:+ s_id sd +:+ ":"
  +:+ Number_toString (Z.of_nat (s_index sd) - 1).

(** [`ACK:${secret}:${id}:${index}`] as [handleIncoming] writes it. *)
Definition ack_frame (sec : option string) (id : string) (index : jsnum)
    : string :=
  "ACK:" +:+ secret_text sec +:+ ":" +:+ id +:+ ":" +:+ jsnum_toString index.

(** [history.replaceState(null, '', '#' + payload)] *)
Definition sendRaw (payload : string) (s : State) : State :=
  emit (Wrote payload) (set_location_hash payload s).

Definition bump_index (sd : Sender) : Sender :=
  {| s_type := s_type sd; s_id := s_id sd; s_chunks := s_chunks sd;
     s_total := s_total sd; s_index := S (s_index sd) |}.

(** [sendNext()] of the sender registered under [key]. *)
Definition sendNext (key : nat) (sd : Sender) (s : State) : State :=
  let s := sendRaw (msg_frame (secret s) sd) s in
  set_senders (<[key := bump_index sd]> (senders s)) s.

Definition sendChunks (type : FrameType) (id : string) (data : JSValue)
    (s : State) : State :=
  let base64 := encode_message data in
  let chunks := chunks_of base64 in
  let sd := {| s_type := type; s_id := id; s_chunks := chunks;
               s_total := length chunks; s_index := 0 |} in
  let key := handles s in
  let s := set_handles (S key) s in
  sendNext key sd s.

(** The listener [handleAck] of the sender registered under [key]; a
    listener that was removed is not called. *)
Definition handleAck (key : nat) (s : State) : State :=
  match senders s !! key with
  | None => s
  | Some sd =>
      if String.eqb (location_hash s) (expected_ack (secret s) sd) then
        if s_index sd <? s_total sd then sendNext key sd s
        else set_senders (delete key (senders s)) s
      else s
  end.

(** The body of [processQueue] below its three guards; [entry] is the
    result of [sendQueue.shift()], [rest] what stays queued. *)
Definition start_request (entry : QueueEntry) (rest : list QueueEntry)
    (s : State) : State :=
  let s := set_isSending true s in
  let s := set_sendQueue rest s in
  let id := randomUUID (uuid_calls s) in
  let s := set_uuid_calls (S (uuid_calls s)) s in
  let s := set_pendingRequests
             (<[id := q_promise entry]> (pendingRequests s)) s in
  let s := sendChunks REQ id (q_message entry) s in
  let s := set_timers
             (<[handles s := (id, q_promise entry)]> (timers s)) s in
  set_handles (S (handles s)) s.

Definition processQueue (s : State) : State :=
  if isSending s then s
  else match sendQueue s with
       | [] => s
       | entry :: rest =>
           if secret_falsy (secret s) then s
           else start_request entry rest s
       end.

(** The resolver stored in [pendingRequests] for promise [p]. *)
Definition resolver (p : nat) (result : JSValue) (s : State) : State :=
  let s := emit (Resolved p result) s in
  let s := set_isSending false s in
  processQueue s.

(** The callback of the timeout armed under [key]. *)
Definition onTimeout (key : nat) (s : State) : State :=
  match timers s !! key with
  | None => s
  | Some (id, p) =>
      let s := set_timers (delete key (timers s)) s in
      match pendingRequests s !! id with
      | Some _ =>
          let s := set_pendingRequests (delete id (pendingRequests s)) s in
          let s := emit (Rejected p) s in
          let s := set_isSending false s in
          processQueue s
      | None => s
      end
  end.

Definition sendMessage (message : JSValue) (s : State) : State :=
  let p := promises s in
  let s := set_promises (S p) s in
  let s := set_sendQueue
             (sendQueue s ++ [{| q_message := message; q_promise := p |}]) s in
  processQueue s.

Definition onMessage (handler : Handler) (s : State) : State :=
  set_messageHandlers (messageHandlers s ++ [handler]) s.

(** The [for ... of] loop of [dispatchRequest] from position [i] of the
    array to the first handler whose result is not [undefined]: the
    position after that handler and the value to await. *)
Fixpoint first_response (hs : list Handler) (message : JSValue) (i : nat)
    : option (nat * JSValue) :=
  match hs with
  | [] => None
  | h :: hs' =>
      match h message with
      | Some v => Some (S i, v)
      | None => first_response hs' message (S i)
      end
  end.

(** Runs the loop of the task [key] on: it suspends at the next [await]
    or ends. *)
Definition run_handlers (key : nat) (id : string) (message : JSValue)
    (responded : bool) (next : nat) (s : State) : State :=
  match first_response (drop next (messageHandlers s)) message next with
  | Some (next', v) =>
      set_dispatches
        (<[key := {| d_id := id; d_message := message;
                     d_responded := responded; d_next := next';
                     d_awaited := v |}]> (dispatches s)) s
  | None => set_dispatches (delete key (dispatches s)) s
  end.

Definition dispatchRequest (id : string) (message : JSValue) (s : State)
    : State :=
  let key := handles s in
  let s := set_handles (S key) s in
  run_handlers key id message false 0 s.

(** The task [key] resumes: [sendResponse(await response)], then the loop
    goes on. *)
Definition resume (key : nat) (s : State) : State :=
  match dispatches s !! key with
  | None => s
  | Some d =>
      let s := if d_responded d then s
               else sendChunks RES (d_id d) (d_awaited d) s in
      run_handlers key (d_id d) (d_message d) true (d_next d) s
  end.

(** [h.match(/^MSG:([^:]+):(REQ|RES):([^:]+):([^:]+):(.+)$/)]: the groups
    1 to 5. *)
Definition match_msg (h : string)
    : option (string * FrameType * string * string * string) :=
  if negb (Str.startsWith h "MSG:") then None
  else
    match colon_field (Str.drop 4 h) with
    | None => None
    | Some (sec, r1) =>
        match split_at ":"%char r1 with
        | None => None
        | Some (ty, r2) =>
            match FrameType_of_text ty, colon_field r2 with
            | Some type, Some (id, r3) =>
                match colon_field r3 with
                | Some (seq, r4) =>
                    match dot_plus_end r4 with
                    | Some data => Some (sec, type, id, seq, data)
                    | None => None
                    end
                | None => None
                end
            | _, _ => None
            end
        end
    end.

(** [match[1] !== secret] *)
Definition secret_differs (m1 : string) (sec : option string) : bool :=
  match sec with
  | Some x => negb (String.eqb m1 x)
  | None => true
  end.

Definition handleIncoming (s : State) : State :=
  let h := location_hash s in
  if Str.startsWith h "INIT:" then
    let s := set_secret (Some (Str.slice_from h 5)) s in
    let s := sendRaw ("ACK-INIT:" +:+ secret_text (secret s)) s in
    processQueue s
  else if negb (Str.startsWith h "MSG:") then s
  else
    match match_msg h with
    | None => s
    | Some (m1, type, id, seq, data) =>
        if secret_differs m1 (secret s) then s
        else
          let '(indexStr, totalStr) := split_seq seq in
          let index := parseInt10 indexStr in
          let total := parseInt10_opt totalStr in
          let created :=
            match incomingBuffers s !! id with
            | Some buffer => Some (s, buffer)
            | None =>
                match new_Array total with
                | Some buffer =>
                    Some (set_incomingBuffers
                            (<[id := buffer]> (incomingBuffers s)) s, buffer)
                | None => None
                end
            end in
          match created with
          | None => emit (Uncaught RangeError) s
          | Some (s, buffer) =>
              let buffer := array_set buffer index data in
              let s := set_incomingBuffers
                         (<[id := buffer]> (incomingBuffers s)) s in
              let s := sendRaw (ack_frame (secret s) id index) s in
              if is_complete buffer total then
                let full := join buffer in
                match decode_message full with
                | inl e => emit (Uncaught e) s
                | inr message =>
                    let s := set_incomingBuffers
                               (delete id (incomingBuffers s)) s in
                    match type with
                    | REQ => dispatchRequest id message s
                    | RES =>
                        match pendingRequests s !! id with
                        | Some p =>
                            let s := resolver p message s in
                            set_pendingRequests
                              (delete id (pendingRequests s)) s
                        | None => s
                        end
                    end
                end
              else s
          end
    end.

(** The promises settled so far, in the order of their settlement. *)
Definition settled (l : list Effect) : list nat :=
  flat_map (fun e => match e with
                     | Resolved p _ | Rejected p => [p]
                     | _ => []
                     end) l.

(** The frames written so far, oldest first. *)
Definition written (l : list Effect) : list string :=
  flat_map (fun e => match e with
                     | Wrote payload => [payload]
                     | _ => []
                     end) l.

(** The promises of the requests in flight. *)
Definition in_flight (s : State) : list nat :=
  (map_to_list (pendingRequests s)).*2.

(** What the host can make happen. *)
Inductive Event :=
| SendMessage (message : JSValue)   (* a caller calls [sendMessage] *)
| OnMessage (handler : Handler)     (* a caller calls [onMessage] *)
| PeerWrites (h : string)           (* the peer overwrites the fragment *)
| HashChange                        (* [hashchange] reaches [handleIncoming] *)
| AckListener (key : nat)           (* [hashchange] reaches a [handleAck] *)
| Timeout (key : nat)               (* a timer fires *)
| Resume (key : nat).               (* an awaited result arrives *)

Definition step (s : State) (e : Event) : State :=
  match e with
  | SendMessage m => sendMessage m s
  | OnMessage h => onMessage h s
  | PeerWrites h => set_location_hash h s
  | HashChange => handleIncoming s
  | AckListener key => handleAck key s
  | Timeout key => onTimeout key s
  | Resume key => resume key s
  end.

(** The script is loaded ([handleIncoming()] runs once), then the events
    happen in order. *)
Definition init (h : string) : State := handleIncoming (blank h).

Definition run (h : string) (events : list Event) : State :=
  fold_left step events (init h).

(** *** The state of the queue

    [issued s id]: [id] was returned by a call of [generateId]. *)
Definition issued (s : State) (id : string) : Prop :=
  exists n, n < uuid_calls s /\ id = randomUUID n.

(** The invariant of the outgoing session: nothing or exactly one request
    is in flight, as [isSending] says; the promises settled, in flight and
    queued are, in this order, the promises handed out; a pending request
    and an armed timer carry issued identifiers, and the timer of an
    identifier rejects the promise its resolver resolves. *)
Definition queue_inv (s : State) : Prop :=
  ((isSending s = false /\ pendingRequests s = ∅)
   \/ (isSending s = true /\ exists id p, pendingRequests s = {[id := p]}))
  /\ settled (log s) ++ in_flight s ++ map q_promise (sendQueue s)
     = seq 0 (promises s)
  /\ (forall id p, pendingRequests s !! id = Some p -> issued s id)
  /\ (forall key id p, timers s !! key = Some (id, p) ->
        issued s id
        /\ forall p', pendingRequests s !! id = Some p' -> p' = p).

(** What [queue_inv] reads of a state. *)
Definition core (s : State) :=
  (pendingRequests s, sendQueue s, isSending s, settled (log s),
   promises s, uuid_calls s, timers s).

(** *** The senders

    The results of the handlers that are not [undefined], in the order of
    registration. *)
Definition present_results (hs : list Handler) (m : JSValue)
    : list JSValue :=
  omap (fun h : Handler => h m) hs.

(** The variables of a call [sendChunks(type, id, data)] before its first
    [sendNext()]. *)
Definition new_sender (type : FrameType) (id : string) (data : JSValue)
    : Sender :=
  {| s_type := type; s_id := id;
     s_chunks := chunks_of (encode_message data);
     s_total := length (chunks_of (encode_message data)); s_index := 0 |}.

(** Every registered sender was registered under a handle already given
    out. *)
Definition keys_inv (s : State) : Prop :=
  forall key, is_Some (senders s !! key) -> key < handles s.

(** [s'] comes from [s] by registering senders under new handles only. *)
Definition stable (s s' : State) : Prop :=
  keys_inv s ->
  keys_inv s'
  /\ handles s <= handles s'
  /\ forall key, key < handles s -> senders s' !! key = senders s !! key.

(** The messages handed to [sendMessage], in the order of the calls. *)
Definition submitted_messages (events : list Event) : list JSValue :=
  omap (fun e => match e with SendMessage m => Some m | _ => None end)
    events.

(** *** Messages in transit

    The variables of the sender [sd] when it is at chunk [k]. *)
Definition at_index (k : nat) (sd : Sender) : Sender :=
  {| s_type := s_type sd; s_id := s_id sd; s_chunks := s_chunks sd;
     s_total := s_total sd; s_index := k |}.

(** The frames of a message, chunk by chunk. *)
Definition frames_of (sec : option string) (sd : Sender) : list string :=
  map (fun k => msg_frame sec (at_index k sd)) (seq 0 (s_total sd)).

(** The peer puts [frame] into the slot and [hashchange] reaches
    [handleIncoming]. *)
Definition receive (frame : string) (s : State) : State :=
  handleIncoming (set_location_hash frame s).

Definition receive_all (frames : list string) (s : State) : State :=
  fold_left (fun s frame => receive frame s) frames s.

(** The acknowledgement of chunk [k] of [id], [ACK:<secret>:<id>:<k>],
    shows in the slot and [hashchange] reaches the listener [key]. *)
Definition acknowledge (key : nat) (id : string) (k : nat) (s : State)
    : State :=
  handleAck key
    (set_location_hash
       ("ACK:" +:+ secret_text (secret s) +:+ ":" +:+ id +:+ ":"
        +:+ Number_toString (Z.of_nat k)) s).

(** [s'] differs from [s] at most in the slot, the log and the reassembly
    buffers. *)
Definition undisturbed (s s' : State) : Prop :=
  pendingRequests s' = pendingRequests s
  /\ messageHandlers s' = messageHandlers s
  /\ sendQueue s' = sendQueue s
  /\ isSending s' = isSending s
  /\ secret s' = secret s
  /\ senders s' = senders s
  /\ timers s' = timers s
  /\ dispatches s' = dispatches s
  /\ handles s' = handles s
  /\ uuid_calls s' = uuid_calls s
  /\ promises s' = promises s.

(** What [handleIncoming] does with a message [m] of type [type] it has
    put together, in the state [s]. *)
Definition deliver (type : FrameType) (id : string) (m : JSValue)
    (s : State) : State :=
  match type with
  | REQ => dispatchRequest id m s
  | RES =>
      match pendingRequests s !! id with
      | Some p =>
          let s := resolver p m s in
          set_pendingRequests (delete id (pendingRequests s)) s
      | None => s
      end
  end.

End Script.

End Contents.

(** ** The background script ([hash-messaging-bg.js])

    Same event loop as the content side.  The slot of a tab is its URL
    fragment: the script writes it with [browser.tabs.update] and is told
    of a change by [browser.tabs.onUpdated], which hands the new URL to
    every listener.  An event carries the URL as [base] (origin, path and
    query) and [h] (the fragment without its [#]). *)

Module BG.

Section Script.

Context `{Platform}.

(** A registered handler: [None] when it returns [undefined], otherwise
    the value [await] yields for what it returned. *)
Definition Handler := JSValue -> option JSValue.

(** A promise is named by the tab [sendMessage] was called for and by
    its number among all promises. *)
Inductive Effect :=
| Wrote (tab : nat) (baseUrl payload : string)  (* [updateTabHash] *)
| Promised (tab promise : nat)      (* [sendMessage] returns its promise *)
| Resolved (tab promise : nat) (result : JSValue)   (* [resolve(result)] *)
| Rejected (tab promise : nat)      (* [reject(new Error('Timeout'))] *)
| Uncaught (e : Error).             (* the callback ended by a throw *)

Record QueueEntry := {
  q_message : JSValue;
  q_promise : nat
}.

(** [{ queue: [], isSending: false }] *)
Record TabState := {
  queue : list QueueEntry;
  isSending : bool
}.

(** The variables one call of [sendChunks] closes over.  [s_listening]:
    its [onUpdated] listener is registered; [s_getting]: the callback it
    gave to [browser.tabs.get] has not run yet. *)
Record Sender := {
  s_tab : nat;
  s_type : FrameType;
  s_id : string;
  s_chunks : list string;
  s_total : nat;
  s_index : nat;
  s_listening : bool;
  s_getting : bool
}.

(** A call of [dispatchRequest] suspended at an [await]: at
    [browser.tabs.get] ([d_awaited = None]) or at a handler's result. *)
Record Dispatch := {
  d_tab : nat;
  d_id : string;
  d_message : JSValue;
  d_responded : bool;
  d_next : nat;
  d_awaited : option JSValue
}.

Record State := {
  pendingRequests : gmap string (nat * nat);  (* id: tab, promise *)
  incomingBuffers : gmap string jsarray;
  messageHandlers : list Handler;
  tabState : gmap nat TabState;
  (* the host *)
  senders : gmap nat Sender;
  timers : gmap nat (string * nat * nat);     (* id, tab, promise *)
  dispatches : gmap nat Dispatch;
  handles : nat;
  uuid_calls : nat;
  promises : nat;
  log : list Effect
}.

Definition set_pendingRequests v (s : State) : State :=
  {| pendingRequests := v; incomingBuffers := incomingBuffers s;
     messageHandlers := messageHandlers s; tabState := tabState s;
     senders := senders s; timers := timers s; dispatches := dispatches s;
     handles := handles s; uuid_calls := uuid_calls s;
     promises := promises s; log := log s |}.

Definition set_incomingBuffers v (s : State) : State :=
  {| pendingRequests := pendingRequests s; incomingBuffers := v;
     messageHandlers := messageHandlers s; tabState := tabState s;
     senders := senders s; timers := timers s; dispatches := dispatches s;
     handles := handles s; uuid_calls := uuid_calls s;
     promises := promises s; log := log s |}.

Definition set_messageHandlers v (s : State) : State :=
  {| pendingRequests := pendingRequests s;
     incomingBuffers := incomingBuffers s; messageHandlers := v;
     tabState := tabState s; senders := senders s; timers := timers s;
     dispatches := dispatches s; handles := handles s;
     uuid_calls := uuid_calls s; promises := promises s; log := log s |}.

Definition set_tabState v (s : State) : State :=
  {| pendingRequests := pendingRequests s;
     incomingBuffers := incomingBuffers s;
     messageHandlers := messageHandlers s; tabState := v;
     senders := senders s; timers := timers s; dispatches := dispatches s;
     handles := handles s; uuid_calls := uuid_calls s;
     promises := promises s; log := log s |}.

Definition set_senders v (s : State) : State :=
  {| pendingRequests := pendingRequests s;
     incomingBuffers := incomingBuffers s;
     messageHandlers := messageHandlers s; tabState := tabState s;
     senders := v; timers := timers s; dispatches := dispatches s;
     handles := handles s; uuid_calls := uuid_calls s;
     promises := promises s; log := log s |}.

Definition set_timers v (s : State) : State :=
  {| pendingRequests := pendingRequests s;
     incomingBuffers := incomingBuffers s;
     messageHandlers := messageHandlers s; tabState := tabState s;
     senders := senders s; timers := v; dispatches := dispatches s;
     handles := handles s; uuid_calls := uuid_calls s;
     promises := promises s; log := log s |}.

Definition set_dispatches v (s : State) : State :=
  {| pendingRequests := pendingRequests s;
     incomingBuffers := incomingBuffers s;
     messageHandlers := messageHandlers s; tabState := tabState s;
     senders := senders s; timers := timers s; dispatches := v;
     handles := handles s; uuid_calls := uuid_calls s;
     promises := promises s; log := log s |}.

Definition set_handles v (s : State) : State :=
  {| pendingRequests := pendingRequests s;
     incomingBuffers := incomingBuffers s;
     messageHandlers := messageHandlers s; tabState := tabState s;
     senders := senders s; timers := timers s; dispatches := dispatches s;
     handles := v; uuid_calls := uuid_calls s; promises := promises s;
     log := log s |}.

Definition set_uuid_calls v (s : State) : State :=
  {| pendingRequests := pendingRequests s;
     incomingBuffers := incomingBuffers s;
     messageHandlers := messageHandlers s; tabState := tabState s;
     senders := senders s; timers := timers s; dispatches := dispatches s;
     handles := handles s; uuid_calls := v; promises := promises s;
     log := log s |}.

Definition set_promises v (s : State) : State :=
  {| pendingRequests := pendingRequests s;
     incomingBuffers := incomingBuffers s;
     messageHandlers := messageHandlers s; tabState := tabState s;
     senders := senders s; timers := timers s; dispatches := dispatches s;
     handles := handles s; uuid_calls := uuid_calls s; promises := v;
     log := log s |}.

Definition set_log v (s : State) : State :=
  {| pendingRequests := pendingRequests s;
     incomingBuffers := incomingBuffers s;
     messageHandlers := messageHandlers s; tabState := tabState s;
     senders := senders s; timers := timers s; dispatches := dispatches s;
     handles := handles s; uuid_calls := uuid_calls s;
     promises := promises s; log := v |}.

Definition emit (e : Effect) (s : State) : State :=
  set_log (log s ++ [e]) s.

(** The state after the script is loaded. *)
Definition init : State :=
  {| pendingRequests := ∅; incomingBuffers := ∅; messageHandlers := [];
     tabState := ∅; senders := ∅; timers := ∅; dispatches := ∅;
     handles := 0; uuid_calls := 0; promises := 0; log := [] |}.

Definition fresh_tab : TabState := {| queue := []; isSending := false |}.

Definition ensureTabState (tabId : nat) (s : State) : State :=
  match tabState s !! tabId with
  | Some _ => s
  | None => set_tabState (<[tabId := fresh_tab]> (tabState s)) s
  end.

(** [tabState.get(tabId)] once [ensureTabState] has run. *)
Definition tab_state (tabId : nat) (s : State) : TabState :=
  default fresh_tab (tabState s !! tabId).

Definition set_tab_isSending (tabId : nat) (b : bool) (s : State) : State :=
  set_tabState
    (<[tabId := {| queue := queue (tab_state tabId s); isSending := b |}]>
       (tabState s)) s.

Definition set_tab_queue (tabId : nat) (q : list QueueEntry) (s : State)
    : State :=
  set_tabState
    (<[tabId := {| queue := q; isSending := isSending (tab_state tabId s) |}]>
       (tabState s)) s.

(** [`MSG:${type}:${id}:${index}/${total}:${chunks[index]}`] *)
Definition msg_frame (sd : Sender) : string :=
  "MSG:" +:+ FrameType_text (s_type sd) +:+ ":"
  +:+ s_id sd +:+ ":" +:+ Number_toString (Z.of_nat (s_index sd)) +:+ "/"
  +:+ Number_toString (Z.of_nat (s_total sd)) +:+ ":"
  +:+ chunk_text (s_chunks sd) (s_index sd).

(** [`ACK:${id}:${index-1}`] as the listener of [sendChunks] expects it. *)
Definition expected_ack (sd : Sender) : string :=
  "ACK:" +:+ s_id sd +:+ ":" +:+ Number_toString (Z.of_nat (s_index sd) - 1).

(** [`ACK:${id}:${index}`] as [handleIncoming] writes it. *)
Definition ack_frame (id : string) (index : jsnum) : string :=
  "ACK:" +:+ id +:+ ":" +:+ jsnum_toString index.

Definition updateTabHash (tabId : nat) (baseUrl payload : string)
    (s : State) : State :=
  emit (Wrote tabId baseUrl payload) s.

Definition bump_index (sd : Sender) : Sender :=
  {| s_tab := s_tab sd; s_type := s_type sd; s_id := s_id sd;
     s_chunks := s_chunks sd; s_total := s_total sd;
     s_index := S (s_index sd); s_listening := s_listening sd;
     s_getting := s_getting sd |}.

Definition stop_listening (sd : Sender) : Sender :=
  {| s_tab := s_tab sd; s_type := s_type sd; s_id := s_id sd;
     s_chunks := s_chunks sd; s_total := s_total sd;
     s_index := s_index sd; s_listening := false;
     s_getting := s_getting sd |}.

Definition got_tab (sd : Sender) : Sender :=
  {| s_tab := s_tab sd; s_type := s_type sd; s_id := s_id sd;
     s_chunks := s_chunks sd; s_total := s_total sd;
     s_index := s_index sd; s_listening := s_listening sd;
     s_getting := false |}.

(** [sendNext(baseUrl)] of the sender [key]. *)
Definition sendNext (key : nat) (sd : Sender) (baseUrl : string)
    (s : State) : State :=
  let s := updateTabHash (s_tab sd) baseUrl (msg_frame sd) s in
  set_senders (<[key := bump_index sd]> (senders s)) s.

(** [sendChunks]: the listener is registered and [browser.tabs.get] is
    called; the first chunk is written when its callback runs
    ([onTabGot]). *)
Definition sendChunks (tabId : nat) (type : FrameType) (id : string)
    (data : JSValue) (s : State) : State :=
  let base64 := encode_message data in
  let chunks := chunks_of base64 in
  let sd := {| s_tab := tabId; s_type := type; s_id := id;
               s_chunks := chunks; s_total := length chunks; s_index := 0;
               s_listening := true; s_getting := true |} in
  let key := handles s in
  let s := set_handles (S key) s in
  set_senders (<[key := sd]> (senders s)) s.

(** The listener [onUpdated] of the sender [key], called with the tab and
    URL of an update. *)
Definition onUpdated (key : nat) (updatedTabId : nat) (baseUrl h : string)
    (s : State) : State :=
  match senders s !! key with
  | None => s
  | Some sd =>
      if negb (s_listening sd) then s
      else if negb (updatedTabId =? s_tab sd) then s
      else if String.eqb h (expected_ack sd) then
        if s_index sd <? s_total sd then sendNext key sd baseUrl s
        else set_senders (<[key := stop_listening sd]> (senders s)) s
      else s
  end.

(** The callback the sender [key] gave to [browser.tabs.get]. *)
Definition onTabGot (key : nat) (baseUrl : string) (s : State) : State :=
  match senders s !! key with
  | None => s
  | Some sd =>
      if s_getting sd then sendNext key (got_tab sd) baseUrl s
      else s
  end.

(** The body of [processQueue] below its two guards; [entry] is the
    result of [state.queue.shift()], [rest] what stays queued. *)
Definition start_request (tabId : nat) (entry : QueueEntry)
    (rest : list QueueEntry) (s : State) : State :=
  let s := set_tab_isSending tabId true s in
  let s := set_tab_queue tabId rest s in
  let id := randomUUID (uuid_calls s) in
  let s := set_uuid_calls (S (uuid_calls s)) s in
  let s := set_pendingRequests
             (<[id := (tabId, q_promise entry)]> (pendingRequests s)) s in
  let s := sendChunks tabId REQ id (q_message entry) s in
  let s := set_timers
             (<[handles s := (id, tabId, q_promise entry)]> (timers s)) s in
  set_handles (S (handles s)) s.

Definition processQueue (tabId : nat) (s : State) : State :=
  let s := ensureTabState tabId s in
  if isSending (tab_state tabId s) then s
  else match queue (tab_state tabId s) with
       | [] => s
       | entry :: rest => start_request tabId entry rest s
       end.

(** The resolver stored in [pendingRequests] by [processQueue(tabId)] for
    promise [p]. *)
Definition resolver (tabId p : nat) (result : JSValue) (s : State)
    : State :=
  let s := emit (Resolved tabId p result) s in
  let s := set_tab_isSending tabId false s in
  processQueue tabId s.

(** The callback of the timeout armed under [key]. *)
Definition onTimeout (key : nat) (s : State) : State :=
  match timers s !! key with
  | None => s
  | Some (id, tabId, p) =>
      let s := set_timers (delete key (timers s)) s in
      match pendingRequests s !! id with
      | Some _ =>
          let s := set_pendingRequests (delete id (pendingRequests s)) s in
          let s := emit (Rejected tabId p) s in
          let s := set_tab_isSending tabId false s in
          processQueue tabId s
      | None => s
      end
  end.

Definition sendMessage (tabId : nat) (message : JSValue) (s : State)
    : State :=
  let s := ensureTabState tabId s in
  let p := promises s in
  let s := set_promises (S p) s in
  let s := emit (Promised tabId p) s in
  let s := set_tab_queue tabId
             (queue (tab_state tabId s)
              ++ [{| q_message := message; q_promise := p |}]) s in
  processQueue tabId s.

Definition onMessage (handler : Handler) (s : State) : State :=
  set_messageHandlers (messageHandlers s ++ [handler]) s.

(** The [for ... of] loop of [dispatchRequest] from position [i] to the
    first handler whose result is not [undefined]. *)
Fixpoint first_response (hs : list Handler) (message : JSValue) (i : nat)
    : option (nat * JSValue) :=
  match hs with
  | [] => None
  | h :: hs' =>
      match h message with
      | Some v => Some (S i, v)
      | None => first_response hs' message (S i)
      end
  end.

Definition run_handlers (key tabId : nat) (id : string) (message : JSValue)
    (responded : bool) (next : nat) (s : State) : State :=
  match first_response (drop next (messageHandlers s)) message next with
  | Some (next', v) =>
      set_dispatches
        (<[key := {| d_tab := tabId; d_id := id; d_message := message;
                     d_responded := responded; d_next := next';
                     d_awaited := Some v |}]> (dispatches s)) s
  | None => set_dispatches (delete key (dispatches s)) s
  end.

(** [dispatchRequest] suspends at [await browser.tabs.get(tabId)]. *)
Definition dispatchRequest (tabId : nat) (id : string) (message : JSValue)
    (s : State) : State :=
  let key := handles s in
  let s := set_handles (S key) s in
  set_dispatches
    (<[key := {| d_tab := tabId; d_id := id; d_message := message;
                 d_responded := false; d_next := 0;
                 d_awaited := None |}]> (dispatches s)) s.

Definition resume (key : nat) (s : State) : State :=
  match dispatches s !! key with
  | None => s
  | Some d =>
      match d_awaited d with
      | None =>
          run_handlers key (d_tab d) (d_id d) (d_message d) false 0 s
      | Some v =>
          let s := if d_responded d then s
                   else sendChunks (d_tab d) RES (d_id d) v s in
          run_handlers key (d_tab d) (d_id d) (d_message d) true (d_next d) s
      end
  end.

(** [h.match(/^MSG:(REQ|RES):([^:]+):([^:]+):(.+)$/)]: the groups 1 to
    4. *)
Definition match_msg (h : string)
    : option (FrameType * string * string * string) :=
  if negb (Str.startsWith h "MSG:") then None
  else
    match split_at ":"%char (Str.drop 4 h) with
    | None => None
    | Some (ty, r2) =>
        match FrameType_of_text ty, colon_field r2 with
        | Some type, Some (id, r3) =>
            match colon_field r3 with
            | Some (seq, r4) =>
                match dot_plus_end r4 with
                | Some data => Some (type, id, seq, data)
                | None => None
                end
            | None => None
            end
        | _, _ => None
        end
    end.

Definition handleIncoming (tabId : nat) (baseUrl h : string) (s : State)
    : State :=
  if negb (Str.startsWith h "MSG:") then s
  else
    match match_msg h with
    | None => s
    | Some (type, id, seq, data) =>
        let '(indexStr, totalStr) := split_seq seq in
        let index := parseInt10 indexStr in
        let total := parseInt10_opt totalStr in
        let created :=
          match incomingBuffers s !! id with
          | Some buffer => Some (s, buffer)
          | None =>
              match new_Array total with
              | Some buffer =>
                  Some (set_incomingBuffers
                          (<[id := buffer]> (incomingBuffers s)) s, buffer)
              | None => None
              end
          end in
        match created with
        | None => emit (Uncaught RangeError) s
        | Some (s, buffer) =>
            let buffer := array_set buffer index data in
            let s := set_incomingBuffers
                       (<[id := buffer]> (incomingBuffers s)) s in
            let s := updateTabHash tabId baseUrl (ack_frame id index) s in
            if is_complete buffer total then
              let full := join buffer in
              match decode_message full with
              | inl e => emit (Uncaught e) s
              | inr message =>
                  let s := set_incomingBuffers
                             (delete id (incomingBuffers s)) s in
                  match type with
                  | REQ => dispatchRequest tabId id message s
                  | RES =>
                      match pendingRequests s !! id with
                      | Some (tab, p) =>
                          let s := resolver tab p message s in
                          set_pendingRequests
                            (delete id (pendingRequests s)) s
                      | None => s
                      end
                  end
              end
            else s
        end
    end.

(** The promises of [tabId] settled so far, in the order of their
    settlement. *)
Definition settled (tabId : nat) (l : list Effect) : list nat :=
  flat_map (fun e => match e with
                     | Resolved t p _ | Rejected t p =>
                         if t =? tabId then [p] else []
                     | _ => []
                     end) l.

(** The promises handed out for [tabId], in the order of the calls. *)
Definition submitted (tabId : nat) (l : list Effect) : list nat :=
  flat_map (fun e => match e with
                     | Promised t p => if t =? tabId then [p] else []
                     | _ => []
                     end) l.

(** The promises of the requests in flight to [tabId]. *)
Definition in_flight (tabId : nat) (s : State) : list nat :=
  (map_to_list
     (filter (fun kv => kv.2.1 = tabId) (pendingRequests s))).*2.*2.

(** The frames written so far to the slot of [tabId], oldest first. *)
Definition written (tabId : nat) (l : list Effect) : list string :=
  flat_map (fun e => match e with
                     | Wrote t _ payload =>
                         if t =? tabId then [payload] else []
                     | _ => []
                     end) l.

(** What the host can make happen. *)
Inductive Event :=
| SendMessage (tabId : nat) (message : JSValue)
| OnMessage (handler : Handler)
| Updated (tabId : nat) (baseUrl h : string)
    (* [tabs.onUpdated] reaches the listener that calls [handleIncoming] *)
| AckListener (key : nat) (tabId : nat) (baseUrl h : string)
    (* [tabs.onUpdated] reaches the listener of a sender *)
| TabGot (key : nat) (baseUrl : string)
    (* [browser.tabs.get] answers a sender *)
| Timeout (key : nat)
| Resume (key : nat).

Definition step (s : State) (e : Event) : State :=
  match e with
  | SendMessage tabId m => sendMessage tabId m s
  | OnMessage h => onMessage h s
  | Updated tabId baseUrl h => handleIncoming tabId baseUrl h s
  | AckListener key tabId baseUrl h => onUpdated key tabId baseUrl h s
  | TabGot key baseUrl => onTabGot key baseUrl s
  | Timeout key => onTimeout key s
  | Resume key => resume key s
  end.

Definition run (events : list Event) : State := fold_left step events init.

(** *** The state of the queues

    [issued s id]: [id] was returned by a call of [generateId]. *)
Definition issued (s : State) (id : string) : Prop :=
  exists n, n < uuid_calls s /\ id = randomUUID n.

(** The invariant of the outgoing session of [tabId]. *)
Definition tab_inv (tabId : nat) (s : State) : Prop :=
  ((isSending (tab_state tabId s) = false
    /\ forall id p, pendingRequests s !! id <> Some (tabId, p))
   \/ (isSending (tab_state tabId s) = true
       /\ exists id p, pendingRequests s !! id = Some (tabId, p)
            /\ forall id' p', pendingRequests s !! id' = Some (tabId, p') ->
                 id' = id))
  /\ settled tabId (log s) ++ in_flight tabId s
       ++ map q_promise (queue (tab_state tabId s))
     = submitted tabId (log s).

Definition queue_inv (s : State) : Prop :=
  (forall tabId, tab_inv tabId s)
  /\ (forall id tp, pendingRequests s !! id = Some tp -> issued s id)
  /\ (forall key id tabId p, timers s !! key = Some (id, tabId, p) ->
        issued s id
        /\ forall tp, pendingRequests s !! id = Some tp -> tp = (tabId, p)).

(** Two states [queue_inv] cannot tell apart. *)
Definition same_core (s s' : State) : Prop :=
  pendingRequests s = pendingRequests s'
  /\ (forall t, tab_state t s = tab_state t s')
  /\ (forall t, settled t (log s) = settled t (log s'))
  /\ (forall t, submitted t (log s) = submitted t (log s'))
  /\ uuid_calls s = uuid_calls s'
  /\ timers s = timers s'
  /\ promises s = promises s'.

(** *** The senders

    The results of the handlers that are not [undefined], in the order of
    registration. *)
Definition present_results (hs : list Handler) (m : JSValue)
    : list JSValue :=
  omap (fun h : Handler => h m) hs.

(** The variables of a call [sendChunks(tabId, type, id, data)] when it
    returns: nothing is written yet. *)
Definition new_sender (tabId : nat) (type : FrameType) (id : string)
    (data : JSValue) : Sender :=
  {| s_tab := tabId; s_type := type; s_id := id;
     s_chunks := chunks_of (encode_message data);
     s_total := length (chunks_of (encode_message data)); s_index := 0;
     s_listening := true; s_getting := true |}.

(** Every registered sender was registered under a handle already given
    out. *)
Definition keys_inv (s : State) : Prop :=
  forall key, is_Some (senders s !! key) -> key < handles s.

(** [s'] comes from [s] by registering senders under new handles only,
    and these have written nothing yet. *)
Definition stable (s s' : State) : Prop :=
  keys_inv s ->
  keys_inv s'
  /\ handles s <= handles s'
  /\ (forall key, key < handles s -> senders s' !! key = senders s !! key)
  /\ (forall key sd, handles s <= key -> senders s' !! key = Some sd ->
        s_index sd = 0).

(** The tab does not show the acknowledgement of a chunk before the
    first: no sender has written the identifier such a frame would have
    to carry. *)
Definition no_early_ack (e : Event) : Prop :=
  match e with
  | AckListener _ _ _ h => forall id, h <> "ACK:" +:+ id +:+ ":-1"
  | _ => True
  end.

(** A sender whose [tabs.get] callback has not run is at chunk 0. *)
Definition fresh_senders (s : State) : Prop :=
  forall key sd, senders s !! key = Some sd -> s_getting sd = true ->
    s_index sd = 0.

(** *** Messages in transit

    The variables of the sender [sd] when it is at chunk [k]. *)
Definition at_index (k : nat) (sd : Sender) : Sender :=
  {| s_tab := s_tab sd; s_type := s_type sd; s_id := s_id sd;
     s_chunks := s_chunks sd; s_total := s_total sd; s_index := k;
     s_listening := s_listening sd; s_getting := s_getting sd |}.

(** The frames of a message, chunk by chunk. *)
Definition frames_of (sd : Sender) : list string :=
  map (fun k => msg_frame (at_index k sd)) (seq 0 (s_total sd)).

(** The tab [tabId] shows the frames one after the other and
    [tabs.onUpdated] reaches [handleIncoming] for each. *)
Definition receive_all (tabId : nat) (baseUrl : string)
    (frames : list string) (s : State) : State :=
  fold_left (fun s frame => handleIncoming tabId baseUrl frame s) frames s.

(** The tab shows the acknowledgement of chunk [k] of [id],
    [ACK:<id>:<k>], and [tabs.onUpdated] reaches the listener [key]. *)
Definition acknowledge (key tabId : nat) (baseUrl id : string) (k : nat)
    (s : State) : State :=
  onUpdated key tabId baseUrl
    ("ACK:" +:+ id +:+ ":" +:+ Number_toString (Z.of_nat k)) s.

(** [s'] differs from [s] at most in the log and the reassembly
    buffers. *)
Definition undisturbed (s s' : State) : Prop :=
  pendingRequests s' = pendingRequests s
  /\ messageHandlers s' = messageHandlers s
  /\ tabState s' = tabState s
  /\ senders s' = senders s
  /\ timers s' = timers s
  /\ dispatches s' = dispatches s
  /\ handles s' = handles s
  /\ uuid_calls s' = uuid_calls s
  /\ promises s' = promises s.

(** What [handleIncoming] does with a message [m] of type [type] it has
    put together from the frames of the tab [tabId], in the state [s]. *)
Definition deliver (tabId : nat) (type : FrameType) (id : string)
    (m : JSValue) (s : State) : State :=
  match type with
  | REQ => dispatchRequest tabId id m s
  | RES =>
      match pendingRequests s !! id with
      | Some (tab, p) =>
          let s := resolver tab p m s in
          set_pendingRequests (delete id (pendingRequests s)) s
      | None => s
      end
  end.

End Script.

End BG.

(** ** A sample host

    A host whose values are [undefined], [null], [true], [false] and the
    strings made of the letter [a], with the JSON texts of these values and
    decimal identifiers.  The examples run on it. *)

Module Sample.

Inductive value :=
| Undefined
| Null
| True_
| False_
| Letters (n : nat).

Definition quote : N := 34.

Definition stringify (v : value) : text :=
  match v with
  | Undefined => text_of_string "undefined"
  | Null => text_of_string "null"
  | True_ => text_of_string "true"
  | False_ => text_of_string "false"
  | Letters n => quote :: replicate n 97%N ++ [quote]
  end.

Definition is_json_space (c : N) : bool :=
  ((c =? 32) || (c =? 9) || (c =? 10) || (c =? 13))%N.

Fixpoint skip_space (t : text) : text :=
  match t with
  | c :: t' => if is_json_space c then skip_space t' else t
  | [] => []
  end.

Definition trim (t : text) : text :=
  rev (skip_space (rev (skip_space t))).

Definition text_eqb (a b : text) : bool := bool_decide (a = b).

(** The letters of a string literal made of [a] only, up to its closing
    quote. *)
Fixpoint letters (t : text) (n : nat) : option nat :=
  match t with
  | [] => None
  | c :: t' =>
      if (c =? quote)%N then
        match t' with [] => Some n | _ => None end
      else if (c =? 97)%N then letters t' (S n)
      else None
  end.

Definition parse (t : text) : option value :=
  let t := trim t in
  if text_eqb t (text_of_string "null") then Some Null
  else if text_eqb t (text_of_string "true") then Some True_
  else if text_eqb t (text_of_string "false") then Some False_
  else match t with
       | c :: t' => if (c =? quote)%N then Letters <$> letters t' 0 else None
       | [] => None
       end.

Definition uuid (n : nat) : string := "id-" +:+ Number_toString (Z.of_nat n).

#[export] Instance host : Platform :=
  {| JSValue := value; JSON_stringify := stringify; JSON_parse := parse;
     randomUUID := uuid |}.

End Sample.

(** Bounded universal check, used to settle facts about the 64 letters of
    the alphabet by evaluation. *)
Fixpoint N_forall_below (n : nat) (f : N -> bool) : bool :=
  match n with
  | O => true
  | S n' => f (N.of_nat n') && N_forall_below n' f
  end.

Definition b64_char_ok (k : N) : bool :=
  bool_decide (b64_index (b64_char k) = Some k)
  && negb (is_ascii_whitespace (b64_char k))
  && negb (is_eq_sign (b64_char k))
  && negb (is_eq_sign (to_urlsafe (b64_char k)))
  && Ascii.eqb (from_urlsafe (to_urlsafe (b64_char k))) (b64_char k).

Definition urlsafe_char_ok (k : N) : bool :=
  is_urlsafe_char (to_urlsafe (b64_char k))
  && Ascii.eqb (from_urlsafe (b64_char k)) (b64_char k).

(** A character [atob] cannot read. *)
Definition unreadable (c : ascii) : bool :=
  (match b64_index c with Some _ => false | None => true end)
  && negb (is_eq_sign c) && negb (is_ascii_whitespace c).

(** * Properties *)

Section StrFacts.

Lemma str_append_nil_r s : s +:+ "" = s.
Proof. induction s as [|c s IH]; simpl; [reflexivity | now rewrite IH]. Qed.

Lemma str_append_assoc s1 s2 s3 : (s1 +:+ s2) +:+ s3 = s1 +:+ (s2 +:+ s3).
Proof. induction s1 as [|c s1 IH]; simpl; [reflexivity | now rewrite IH]. Qed.

Lemma str_length_append s1 s2 :
  String.length (s1 +:+ s2) = String.length s1 + String.length s2.
Proof. induction s1 as [|c s1 IH]; simpl; [reflexivity | now rewrite IH]. Qed.

Lemma str_take_drop n s : Str.take n s +:+ Str.drop n s = s.
Proof.
  revert s; induction n as [|n IH]; intros [|c s]; simpl; try reflexivity.
  now rewrite IH.
Qed.

Lemma str_length_take n s : String.length (Str.take n s) = Nat.min n (String.length s).
Proof.
  revert s; induction n as [|n IH]; intros [|c s]; simpl; try reflexivity.
  now rewrite IH.
Qed.

Lemma str_length_drop n s : String.length (Str.drop n s) = String.length s - n.
Proof.
  revert s; induction n as [|n IH]; intros [|c s]; simpl; try reflexivity.
  apply IH.
Qed.

Lemma str_drop_drop n m s : Str.drop n (Str.drop m s) = Str.drop (m + n) s.
Proof.
  revert s; induction m as [|m IH]; intros s; simpl; [reflexivity|].
  destruct s as [|c s]; [now destruct n | apply IH].
Qed.

Lemma str_drop_all n s : String.length s <= n -> Str.drop n s = "".
Proof.
  revert s; induction n as [|n IH]; intros [|c s]; simpl; intros H;
    try reflexivity; try lia.
  apply IH; lia.
Qed.

Lemma length_zero_empty s : String.length s = 0 -> s = "".
Proof. destruct s; simpl; [reflexivity | discriminate]. Qed.

Lemma substring_take_drop i n s :
  substring i n s = Str.take n (Str.drop i s).
Proof.
  revert s; induction i as [|i IH]; intros s.
  - simpl. revert s; induction n as [|n IHn]; intros [|c s]; simpl;
      try reflexivity. now rewrite IHn.
  - destruct s as [|c s]; simpl; [now destruct n | apply IH].
Qed.

Lemma slice_take_drop s i n :
  Str.slice s i (i + n) = Str.take n (Str.drop i s).
Proof.
  unfold Str.slice. replace (i + n - i) with n by lia.
  apply substring_take_drop.
Qed.

Lemma str_concat_app l1 l2 :
  Str.concat (l1 ++ l2) = Str.concat l1 +:+ Str.concat l2.
Proof.
  induction l1 as [|s l1 IH]; simpl; [reflexivity|].
  now rewrite IH, str_append_assoc.
Qed.

End StrFacts.

(** ** The transport encoding *)

Lemma code_of_byte_of n : (n < 256)%N -> code_of (byte_of n) = n.
Proof. apply N_ascii_embedding. Qed.
Lemma byte_of_code_of c : byte_of (code_of c) = c.
Proof. apply ascii_N_embedding. Qed.
Lemma code_of_bound c : (code_of c < 256)%N.
Proof. apply N_ascii_bounded. Qed.

Lemma N_forall_below_spec n f :
  N_forall_below n f = true -> forall k, (k < N.of_nat n)%N -> f k = true.
Proof.
  induction n as [|n IH]; simpl; intros H k Hk; [lia|].
  apply andb_true_iff in H as [H1 H2].
  destruct (N.eq_dec k (N.of_nat n)) as [->|Hne]; [assumption|].
  apply IH; [assumption | lia].
Qed.

Lemma b64_char_facts k :
  (k < 64)%N ->
  b64_index (b64_char k) = Some k
  /\ is_ascii_whitespace (b64_char k) = false
  /\ is_eq_sign (b64_char k) = false
  /\ is_eq_sign (to_urlsafe (b64_char k)) = false
  /\ from_urlsafe (to_urlsafe (b64_char k)) = b64_char k.
Proof.
  intros Hk.
  assert (H : b64_char_ok k = true).
  { apply (N_forall_below_spec 64); [vm_compute; reflexivity | exact Hk]. }
  unfold b64_char_ok in H.
  repeat (apply andb_true_iff in H as [H ?]).
  apply bool_decide_eq_true in H.
  repeat match goal with
         | X : negb _ = true |- _ => apply negb_true_iff in X
         | X : Ascii.eqb _ _ = true |- _ => apply Ascii.eqb_eq in X
         end.
  auto.
Qed.

Lemma string_ind3 (P : string -> Prop) :
  P "" ->
  (forall a, P (String a "")) ->
  (forall a b, P (String a (String b ""))) ->
  (forall a b c rest, P rest -> P (String a (String b (String c rest)))) ->
  forall s, P s.
Proof.
  intros H0 H1 H2 H3.
  fix IH 1.
  intros [|a [|b [|c rest]]];
    [exact H0 | apply H1 | apply H2 | apply H3, IH].
Qed.

Lemma sextets_regroup n :
  ((((n / 262144 * 64 + (n / 4096) mod 64) * 64 + (n / 64) mod 64) * 64
     + n mod 64) = n)%N.
Proof.
  change 262144%N with (64 * 64 * 64)%N. change 4096%N with (64 * 64)%N.
  rewrite <- !N.Div0.div_div.
  pose proof (N.div_mod n 64 ltac:(lia)).
  pose proof (N.div_mod (n / 64) 64 ltac:(lia)).
  pose proof (N.div_mod (n / 64 / 64) 64 ltac:(lia)).
  lia.
Qed.

Lemma sextet_bounds n :
  (n < 16777216 ->
   n / 262144 < 64 /\ (n / 4096) mod 64 < 64 /\ (n / 64) mod 64 < 64
   /\ n mod 64 < 64)%N.
Proof.
  intros H. repeat split; try (apply N.mod_lt; lia).
  apply N.Div0.div_lt_upper_bound; lia.
Qed.

Lemma bytes3 a b c :
  (a < 256 -> b < 256 -> c < 256 ->
   let n := a * 65536 + b * 256 + c in
   n / 65536 = a /\ (n / 256) mod 256 = b /\ n mod 256 = c)%N.
Proof.
  intros Ha Hb Hc n. subst n. repeat split.
  - symmetry. apply (N.div_unique _ _ _ (b * 256 + c)); lia.
  - replace (a * 65536 + b * 256 + c)%N with (c + (a * 256 + b) * 256)%N by lia.
    rewrite N.div_add by lia. rewrite (N.div_small c) by lia.
    replace (0 + (a * 256 + b))%N with (b + a * 256)%N by lia.
    rewrite N.Div0.mod_add. apply N.mod_small; lia.
  - replace (a * 65536 + b * 256 + c)%N with (c + (a * 256 + b) * 256)%N by lia.
    rewrite N.Div0.mod_add. apply N.mod_small; lia.
Qed.

(** The groups [atob] reads back from the characters [btoa] wrote. *)
Lemma atob_group3 a b c l :
  let n := (code_of a * 65536 + code_of b * 256 + code_of c)%N in
  atob_groups ((n / 262144) :: ((n / 4096) mod 64) :: ((n / 64) mod 64)
               :: (n mod 64) :: l)%N
  = String a (String b (String c (atob_groups l))).
Proof.
  intros n. cbn [atob_groups]. rewrite sextets_regroup.
  destruct (bytes3 (code_of a) (code_of b) (code_of c)) as (E1 & E2 & E3);
    try apply code_of_bound.
  fold n in E1, E2, E3. rewrite E1, E2, E3, !byte_of_code_of. reflexivity.
Qed.

Lemma atob_group2 a b :
  let n := (code_of a * 65536 + code_of b * 256)%N in
  atob_groups [n / 262144; (n / 4096) mod 64; (n / 64) mod 64]%N
  = String a (String b "").
Proof.
  intros n. cbn [atob_groups].
  pose proof (sextets_regroup n) as R.
  pose proof (code_of_bound a). pose proof (code_of_bound b).
  assert (E0 : (n mod 64 = 0)%N).
  { subst n. replace (code_of a * 65536 + code_of b * 256)%N
      with (0 + (code_of a * 1024 + code_of b * 4) * 64)%N by lia.
    now rewrite N.Div0.mod_add. }
  rewrite E0 in R.
  replace ((n / 262144 * 64 + (n / 4096) mod 64) * 64 + (n / 64) mod 64)%N
    with (n / 64)%N.
  2:{ symmetry. apply (N.div_unique _ _ _ 0); lia. }
  assert (E1 : (n / 64 = code_of a * 1024 + code_of b * 4)%N).
  { subst n. symmetry. apply (N.div_unique _ _ _ 0); lia. }
  rewrite E1.
  replace ((code_of a * 1024 + code_of b * 4) / 4)%N
    with (code_of a * 256 + code_of b)%N.
  2:{ apply (N.div_unique _ _ _ 0); lia. }
  replace ((code_of a * 256 + code_of b) / 256)%N with (code_of a).
  2:{ apply (N.div_unique _ _ _ (code_of b)); lia. }
  replace ((code_of a * 256 + code_of b) mod 256)%N with (code_of b).
  2:{ apply (N.mod_unique _ _ (code_of a)); lia. }
  now rewrite !byte_of_code_of.
Qed.

Lemma atob_group1 a :
  let n := (code_of a * 65536)%N in
  atob_groups [n / 262144; (n / 4096) mod 64]%N = String a "".
Proof.
  intros n. cbn [atob_groups].
  pose proof (code_of_bound a).
  replace (n / 262144 * 64 + (n / 4096) mod 64)%N with (n / 4096)%N.
  2:{ change 262144%N with (4096 * 64)%N. rewrite <- N.Div0.div_div.
      pose proof (N.div_mod (n / 4096) 64 ltac:(lia)). lia. }
  rewrite N.Div0.div_div. change (4096 * 16)%N with 65536%N.
  subst n. rewrite N.div_mul by lia. now rewrite byte_of_code_of.
Qed.

Lemma code_of_n3_bound a b c :
  (code_of a * 65536 + code_of b * 256 + code_of c < 16777216)%N.
Proof.
  pose proof (code_of_bound a). pose proof (code_of_bound b).
  pose proof (code_of_bound c). lia.
Qed.

Lemma code_of_n2_bound a b :
  (code_of a * 65536 + code_of b * 256 < 16777216)%N.
Proof. pose proof (code_of_bound a). pose proof (code_of_bound b). lia. Qed.

Lemma code_of_n1_bound a : (code_of a * 65536 < 16777216)%N.
Proof. pose proof (code_of_bound a). lia. Qed.

(** Unfolds [btoa] on a group and records the facts of its characters. *)
Ltac btoa_group :=
  cbn [btoa];
  match goal with
  | |- context [b64_char (?n / 262144)] =>
      let B := fresh "B" in
      assert (B : (n < 16777216)%N)
        by first [apply code_of_n3_bound | apply code_of_n2_bound
                 | apply code_of_n1_bound];
      destruct (sextet_bounds n B) as (? & ? & ? & ?);
      destruct (b64_char_facts (n / 262144)) as (? & ? & ? & ? & ?);
        [assumption|];
      destruct (b64_char_facts ((n / 4096) mod 64)) as (? & ? & ? & ? & ?);
        [assumption|];
      destruct (b64_char_facts ((n / 64) mod 64)) as (? & ? & ? & ? & ?);
        [assumption|];
      destruct (b64_char_facts (n mod 64)) as (? & ? & ? & ? & ?);
        [assumption|]
  end.

Lemma filter_ws_btoa s :
  Str.filter (fun c => negb (is_ascii_whitespace c)) (btoa s) = btoa s.
Proof.
  induction s as [|a|a b|a b c rest IH] using string_ind3;
    [reflexivity | btoa_group .. ]; cbn [Str.filter];
    repeat match goal with
           | H : is_ascii_whitespace _ = false |- _ => rewrite H; clear H
           end; cbn [negb]; try reflexivity.
  now rewrite IH.
Qed.

Lemma length_btoa s : String.length (btoa s) mod 4 = 0.
Proof.
  induction s as [|a|a b|a b c rest IH] using string_ind3;
    try reflexivity.
  cbn [btoa String.length].
  change (S (S (S (S (String.length (btoa rest))))))
    with (4 + String.length (btoa rest)).
  rewrite <- Nat.Div0.add_mod_idemp_r, IH. reflexivity.
Qed.

Lemma remove_padding_cons c s :
  is_eq_sign c = false ->
  remove_padding (String c s) = String c (remove_padding s).
Proof.
  intros H. cbn [remove_padding]. unfold is_eq_sign in H.
  cbn [String.eqb]. rewrite H. reflexivity.
Qed.

Lemma length_mod4_cons4 c0 c1 c2 c3 s :
  String.length (String c0 (String c1 (String c2 (String c3 s)))) mod 4
  = String.length s mod 4.
Proof.
  cbn [String.length].
  change (S (S (S (S (String.length s))))) with (4 + String.length s).
  rewrite <- Nat.Div0.add_mod_idemp_l. reflexivity.
Qed.

Lemma atob_body_btoa s :
  (String.length (remove_padding (btoa s)) mod 4 =? 1) = false
  /\ atob_groups <$> sextets (remove_padding (btoa s)) = Some s.
Proof.
  induction s as [|a|a b|a b c rest IH] using string_ind3;
    [split; reflexivity | btoa_group .. ];
    rewrite !remove_padding_cons by assumption.
  - change (remove_padding "==") with "". split; [reflexivity|].
    cbn [sextets]. repeat match goal with
                          | H : b64_index _ = Some _ |- _ => rewrite H; clear H
                          end.
    cbn [fmap option_fmap option_map]. f_equal. apply atob_group1.
  - change (remove_padding "=") with "". split; [reflexivity|].
    cbn [sextets]. repeat match goal with
                          | H : b64_index _ = Some _ |- _ => rewrite H; clear H
                          end.
    cbn [fmap option_fmap option_map]. f_equal. apply atob_group2.
  - destruct IH as [IH1 IH2]. rewrite length_mod4_cons4. split; [exact IH1|].
    destruct (sextets (remove_padding (btoa rest))) as [l|] eqn:El;
      [|discriminate].
    cbn [sextets]. rewrite El.
    repeat match goal with
           | H : b64_index _ = Some _ |- _ => rewrite H; clear H
           end.
    cbn [fmap option_fmap option_map] in IH2 |- *. f_equal.
    injection IH2 as <-. apply atob_group3.
Qed.

Lemma atob_btoa s : atob (btoa s) = Some s.
Proof.
  unfold atob. rewrite filter_ws_btoa, length_btoa. cbn [Nat.eqb].
  destruct (atob_body_btoa s) as [-> H]. exact H.
Qed.

Lemma strip_trailing_eq_cons c s :
  is_eq_sign c = false ->
  strip_trailing_eq (String c s) = String c (strip_trailing_eq s).
Proof. intros H. cbn [strip_trailing_eq]. now rewrite H. Qed.

Lemma pad_loop_cons4 fuel c0 c1 c2 c3 s :
  pad_loop fuel (String c0 (String c1 (String c2 (String c3 s))))
  = String c0 (String c1 (String c2 (String c3 (pad_loop fuel s)))).
Proof.
  revert s. induction fuel as [|fuel IH]; intros s; cbn [pad_loop];
    rewrite length_mod4_cons4;
    destruct (String.length s mod 4 =? 0); try reflexivity.
  cbn [append]. apply IH.
Qed.

(** What [decodeBase64] hands to [atob] is what [btoa] returned. *)
Lemma urlsafe_round_trip s :
  pad_loop 3
    (Str.map from_urlsafe (strip_trailing_eq (Str.map to_urlsafe (btoa s))))
  = btoa s.
Proof.
  induction s as [|a|a b|a b c rest IH] using string_ind3;
    [reflexivity | btoa_group .. ]; cbn [Str.map];
    rewrite !strip_trailing_eq_cons by assumption; cbn [Str.map];
    repeat match goal with
           | H : from_urlsafe (to_urlsafe _) = _ |- _ => rewrite H; clear H
           end.
  - reflexivity.
  - reflexivity.
  - rewrite pad_loop_cons4. now rewrite IH.
Qed.

(** *** UTF-8 *)

Ltac N_bool :=
  repeat match goal with
  | |- context [N.ltb ?a ?b] =>
      first [ replace (N.ltb a b) with true by (symmetry; apply N.ltb_lt; lia)
            | replace (N.ltb a b) with false by (symmetry; apply N.ltb_ge; lia) ]
  | |- context [N.leb ?a ?b] =>
      first [ replace (N.leb a b) with true by (symmetry; apply N.leb_le; lia)
            | replace (N.leb a b) with false by (symmetry; apply N.leb_gt; lia) ]
  end.


Lemma div64_split c :
  exists q1 r1 q2 r2 q3 r3 : N,
    (c / 64 = q1 /\ c mod 64 = r1 /\ c / 4096 = q2 /\ (c / 64) mod 64 = r2
     /\ c / 262144 = q3 /\ (c / 4096) mod 64 = r3
     /\ c = 64 * q1 + r1 /\ q1 = 64 * q2 + r2 /\ q2 = 64 * q3 + r3
     /\ r1 < 64 /\ r2 < 64 /\ r3 < 64)%N.
Proof.
  exists (c / 64)%N, (c mod 64)%N, (c / 4096)%N, ((c / 64) mod 64)%N,
         (c / 262144)%N, ((c / 4096) mod 64)%N.
  change 262144%N with (64 * 64 * 64)%N. change 4096%N with (64 * 64)%N.
  rewrite <- !N.Div0.div_div.
  pose proof (N.div_mod c 64 ltac:(lia)).
  pose proof (N.div_mod (c / 64) 64 ltac:(lia)).
  pose proof (N.div_mod (c / 64 / 64) 64 ltac:(lia)).
  pose proof (N.mod_lt c 64 ltac:(lia)).
  pose proof (N.mod_lt (c / 64) 64 ltac:(lia)).
  pose proof (N.mod_lt (c / 64 / 64) 64 ltac:(lia)).
  repeat split; assumption.
Qed.

Lemma utf8_decode_encode_cp c s :
  is_scalar c ->
  utf8_decode (utf8_encode_cp c +:+ s) = cons c <$> utf8_decode s.
Proof.
  intros Hc. unfold is_scalar in Hc. unfold utf8_encode_cp.
  destruct (div64_split c)
    as (q1 & r1 & q2 & r2 & q3 & r3 & -> & -> & -> & -> & -> & -> & ?).
  destruct (N.ltb_spec c 0x80);
    [|destruct (N.ltb_spec c 0x800); [|destruct (N.ltb_spec c 0x10000)]];
    cbn [append utf8_decode]; unfold is_cont;
    rewrite !code_of_byte_of by lia; N_bool; cbn [negb andb orb].
  - reflexivity.
  - do 2 f_equal. lia.
  - replace ((224 + q2 - 224) * 4096 + (128 + r2 - 128) * 64
             + (128 + r1 - 128))%N with c by lia.
    destruct Hc; N_bool; reflexivity.
  - replace ((240 + q3 - 240) * 262144 + (128 + r3 - 128) * 4096
             + (128 + r2 - 128) * 64 + (128 + r1 - 128))%N with c by lia.
    N_bool. reflexivity.
Qed.

Lemma utf8_decode_encode t :
  Forall is_scalar t -> utf8_decode (utf8_encode t) = Some t.
Proof.
  induction 1 as [|c t Hc Ht IH]; [reflexivity|].
  cbn [utf8_encode]. now rewrite utf8_decode_encode_cp, IH.
Qed.

(** *** [decodeBase64] inverts [encodeBase64] *)

Theorem decodeBase64_encodeBase64 t :
  Forall is_scalar t -> decodeBase64 (encodeBase64 t) = Some t.
Proof.
  intros Ht. unfold decodeBase64, encodeBase64.
  rewrite urlsafe_round_trip, atob_btoa. cbn [mbind option_bind].
  now apply utf8_decode_encode.
Qed.

Example encodeBase64_ping :
  encodeBase64 (text_of_string "{'op':'ping'}") = "eydvcCc6J3BpbmcnfQ".
Proof. vm_compute. reflexivity. Qed.

Example decodeBase64_ping :
  decodeBase64 "eydvcCc6J3BpbmcnfQ" = Some (text_of_string "{'op':'ping'}").
Proof. vm_compute. reflexivity. Qed.

Example chunkString_ping :
  chunkString "eydvcCc6J3BpbmcnfQ" 7 = Some ["eydvcCc"; "6J3Bpbm"; "cnfQ"].
Proof. reflexivity. Qed.

(** ** [chunkString] *)

Lemma ceil_div_spec a b :
  0 < b -> a <= ceil_div a b * b /\ (0 < a -> (ceil_div a b - 1) * b < a).
Proof.
  intros Hb. unfold ceil_div.
  pose proof (Nat.div_mod_eq (a + (b - 1)) b) as E.
  pose proof (Nat.mod_upper_bound (a + (b - 1)) b ltac:(lia)) as U.
  set (q := (a + (b - 1)) / b) in *. set (r := (a + (b - 1)) mod b) in *.
  split; [nia|]. intros Ha. destruct q as [|q]; [nia|]. simpl. nia.
Qed.

Lemma ceil_div_step a b : 0 < b -> 0 < a -> ceil_div a b = S (ceil_div (a - b) b).
Proof.
  intros Hb Ha. unfold ceil_div.
  destruct (Nat.le_gt_cases b a) as [Hle|Hlt].
  - replace (a + (b - 1)) with ((a - b + (b - 1)) + 1 * b) by lia.
    rewrite Nat.div_add by lia. lia.
  - replace (a - b) with 0 by lia. simpl.
    rewrite (Nat.div_small (b - 1) b) by lia.
    symmetry. apply (Nat.div_unique _ _ 1 (a - 1)); lia.
Qed.

Lemma ceil_div_zero b : 0 < b -> ceil_div 0 b = 0.
Proof. intros Hb. unfold ceil_div. simpl. apply Nat.div_small. lia. Qed.

Section ChunkLoop.

Variables (str : string) (size : nat).
Hypothesis size_pos : 0 < size.

Let len := String.length str.

Lemma chunkString_loop_spec fuel : forall i out,
  len - i <= fuel ->
  exists rest,
    chunkString_loop fuel str size i out = Some (out ++ rest)
    /\ Str.concat rest = Str.drop i str
    /\ Forall (fun c => 0 < String.length c <= size) rest
    /\ length rest = ceil_div (len - i) size
    /\ (forall k, k < length rest ->
          rest !! k = Some (Str.slice str (i + k * size) (i + k * size + size))).
Proof.
  induction fuel as [|fuel IH]; intros i out Hfuel.
  - exists []. simpl. fold len.
    assert (Hi : (i <? len) = false) by (apply Nat.ltb_ge; lia).
    rewrite Hi, app_nil_r. repeat split.
    + symmetry. apply str_drop_all. fold len. lia.
    + constructor.
    + replace (len - i) with 0 by lia. now rewrite ceil_div_zero.
    + simpl. intros k Hk. lia.
  - simpl. fold len. destruct (i <? len) eqn:Hi.
    + apply Nat.ltb_lt in Hi.
      destruct (IH (i + size) (out ++ [Str.slice str i (i + size)]))
        as (rest & Hrun & Hcat & Hall & Hlen & Hget); [lia|].
      exists (Str.slice str i (i + size) :: rest).
      rewrite Hrun, <- app_assoc. simpl. repeat split.
      * rewrite Hcat, slice_take_drop, <- str_drop_drop. apply str_take_drop.
      * constructor; [|assumption].
        rewrite slice_take_drop, str_length_take, str_length_drop. fold len. lia.
      * rewrite Hlen, (ceil_div_step (len - i) size) by lia.
        do 2 f_equal. lia.
      * intros [|k] Hk; simpl.
        -- now rewrite Nat.add_0_r.
        -- rewrite Hget by (simpl in Hk; lia). do 2 f_equal; lia.
    + apply Nat.ltb_ge in Hi. exists []. rewrite app_nil_r. repeat split.
      * symmetry. apply str_drop_all. fold len. lia.
      * constructor.
      * replace (len - i) with 0 by lia. now rewrite ceil_div_zero.
      * simpl. intros k Hk. lia.
Qed.

(** For a positive size the loop terminates: the fuel given by
    [chunkString] is enough. *)
Lemma chunkString_spec :
  exists chunks,
    chunkString str size = Some chunks
    /\ Str.concat chunks = str
    /\ Forall (fun c => 0 < String.length c <= size) chunks
    /\ length chunks = ceil_div len size
    /\ (forall k, k < length chunks ->
          chunks !! k = Some (Str.slice str (k * size) (k * size + size))).
Proof.
  destruct (chunkString_loop_spec len 0 []) as (rest & H1 & H2 & H3 & H4 & H5);
    [lia|].
  exists rest. unfold chunkString. fold len. rewrite H1. simpl.
  repeat split; try assumption.
  now rewrite Nat.sub_0_r in H4.
Qed.

End ChunkLoop.

(** ** Frames *)

Lemma startsWith_MSG_not_INIT h :
  Str.startsWith h "MSG:" = true -> Str.startsWith h "INIT:" = false.
Proof.
  unfold Str.startsWith. destruct h as [|c h]; [discriminate|].
  cbn [String.prefix]. destruct (ascii_dec "M" c) as [<-|]; [|discriminate].
  intros _. reflexivity.
Qed.

Lemma startsWith_ACK_not_INIT h :
  Str.startsWith h "ACK:" = true -> Str.startsWith h "INIT:" = false.
Proof.
  unfold Str.startsWith. destruct h as [|c h]; [discriminate|].
  cbn [String.prefix]. destruct (ascii_dec "A" c) as [<-|]; [|discriminate].
  intros _. reflexivity.
Qed.

Lemma startsWith_ACK_not_MSG h :
  Str.startsWith h "ACK:" = true -> Str.startsWith h "MSG:" = false.
Proof.
  unfold Str.startsWith. destruct h as [|c h]; [discriminate|].
  cbn [String.prefix]. destruct (ascii_dec "A" c) as [<-|]; [|discriminate].
  intros _. reflexivity.
Qed.

Lemma Number_toString_inj z z' :
  Number_toString z = Number_toString z' -> z = z'.
Proof.
  unfold Number_toString. intros E.
  assert (Hnn : forall x, Z.to_int x <> Pos Nil /\ Z.to_int x <> Neg Nil).
  { intros [|p|p]; cbn; split; try discriminate;
      intros [= E']; now apply (Unsigned.to_uint_nonnil p). }
  apply DecimalZ.to_int_inj.
  assert (Some (Z.to_int z) = Some (Z.to_int z')) as [= ->]; [|reflexivity].
  destruct (Hnn z), (Hnn z').
  rewrite <- (NilZero.isi (Z.to_int z)), <- (NilZero.isi (Z.to_int z')) by assumption.
  now rewrite E.
Qed.

(** Below 2^53 the text of a Number is the decimal of the integer. *)
Lemma jsnum_toString_small z :
  (Z.abs z < 2 ^ 53)%Z -> jsnum_toString (Num z) = Number_toString z.
Proof.
  intros Hz. cbn [jsnum_toString]. apply Z.ltb_lt in Hz. now rewrite Hz.
Qed.

(** ** Numbers: what the rounding of [parseInt] can change *)

Section Rounding.
Local Open Scope Z_scope.

(** An integer of magnitude below 2^53 is its own double. *)
Lemma double_of_pos_small z :
  0 <= z < 2 ^ 53 -> double_of_pos z = Some z.
Proof.
  intros [H0 H1]. unfold double_of_pos.
  assert (Hb : Z.log2 z + 1 <= 53).
  { destruct (Z.eq_dec z 0) as [->|Hz]; [cbn; lia|].
    assert (Z.log2 z < 53) by (apply Z.log2_lt_pow2; lia). lia. }
  apply Z.leb_le in Hb. cbv zeta. now rewrite Hb.
Qed.

(** A larger one has a double of 2^53 at least. *)
Lemma double_of_pos_large z d :
  2 ^ 53 <= z -> double_of_pos z = Some d -> 2 ^ 53 <= d.
Proof.
  intros Hz. unfold double_of_pos. cbv zeta.
  destruct (Z.log2 z + 1 <=? 53) eqn:Eb; [intros [= <-]; exact Hz|].
  apply Z.leb_gt in Eb.
  set (e := Z.log2 z + 1 - 53) in *.
  assert (He : 1 <= e) by (unfold e; lia).
  set (q := Z.shiftr z e).
  assert (Hq : 2 ^ 52 <= q).
  { unfold q. rewrite Z.shiftr_div_pow2 by lia.
    apply Z.div_le_lower_bound; [apply Z.pow_pos_nonneg; lia|].
    rewrite <- Z.pow_add_r by lia.
    replace (e + 52) with (Z.log2 z) by (unfold e; lia).
    apply Z.log2_spec. lia. }
  match goal with
  | |- context [if ?c then q + 1 else q] =>
      set (q' := if c then q + 1 else q);
      assert (Hq' : 2 ^ 52 <= q') by (unfold q'; destruct c; lia)
  end.
  destruct (2 ^ 1024 <=? Z.shiftl q' e); [discriminate|].
  intros [= <-]. rewrite Z.shiftl_mul_pow2 by lia.
  assert (2 ^ 1 <= 2 ^ e) by (apply Z.pow_le_mono_r; lia).
  change (2 ^ 53) with (2 ^ 52 * 2 ^ 1). apply Z.mul_le_mono_nonneg; lia.
Qed.

(** So the reassembly array does not tell the integer read from its
    double: [new Array], [buffer[index] = data] and the comparison with a
    count of slots give the same on both. *)
Lemma rounding_invisible z d b x :
  double_of_pos (Z.abs z) = Some d ->
  let d' := if z <? 0 then - d else d in
  new_Array (Num z) = new_Array (Num d')
  /\ array_set b (Num z) x = array_set b (Num d') x
  /\ (Z.of_nat (filled b) < 2 ^ 53 ->
      is_complete b (Num z) = is_complete b (Num d')).
Proof.
  intros Hd d'. destruct (Z.lt_ge_cases (Z.abs z) (2 ^ 53)) as [Hs|Hl].
  - rewrite double_of_pos_small in Hd by lia. injection Hd as <-.
    assert (d' = z) as -> by (unfold d'; destruct (Z.ltb_spec z 0); lia).
    auto.
  - pose proof (double_of_pos_large _ _ Hl Hd) as Hd'.
    assert (Hz : (z <= - 2 ^ 53 /\ d' <= - 2 ^ 53)
                 \/ (2 ^ 53 <= z /\ 2 ^ 53 <= d')).
    { unfold d'. destruct (Z.ltb_spec z 0); lia. }
    clearbody d'. split; [|split].
    + cbn [new_Array].
      replace ((0 <=? z) && (z <=? 4294967295)) with false
        by (symmetry; apply andb_false_iff; destruct Hz;
            [left; apply Z.leb_gt | right; apply Z.leb_gt]; lia).
      replace ((0 <=? d') && (d' <=? 4294967295)) with false
        by (symmetry; apply andb_false_iff; destruct Hz;
            [left; apply Z.leb_gt | right; apply Z.leb_gt]; lia).
      reflexivity.
    + cbn [array_set].
      replace ((0 <=? z) && (z <? 4294967295)) with false
        by (symmetry; apply andb_false_iff; destruct Hz;
            [left; apply Z.leb_gt | right; apply Z.ltb_ge]; lia).
      replace ((0 <=? d') && (d' <? 4294967295)) with false
        by (symmetry; apply andb_false_iff; destruct Hz;
            [left; apply Z.leb_gt | right; apply Z.ltb_ge]; lia).
      reflexivity.
    + intros Hf. unfold is_complete. cbn [jsnum_eqb].
      replace (Z.of_nat (filled b) =? z) with false
        by (symmetry; apply Z.eqb_neq; lia).
      replace (Z.of_nat (filled b) =? d') with false
        by (symmetry; apply Z.eqb_neq; lia).
      reflexivity.
Qed.

End Rounding.

Lemma prefix_append p t : String.prefix p (p +:+ t) = true.
Proof.
  induction p as [|a p IH]; [now destruct t|].
  cbn [String.prefix append]. destruct (ascii_dec a a); [exact IH | congruence].
Qed.

Lemma append_inv_head s a b : s +:+ a = s +:+ b -> a = b.
Proof. induction s as [|c s IH]; cbn; [auto|]. intros [= E]. auto. Qed.

Lemma colon_separated_inj a b x y :
  no_colon a -> no_colon b ->
  a +:+ ":" +:+ x = b +:+ ":" +:+ y -> a = b /\ x = y.
Proof.
  unfold no_colon. revert b. induction a as [|c a IH]; intros [|d b]; cbn.
  - intros _ _ [= ->]. auto.
  - intros _ Hb [= <- _]. discriminate.
  - intros Ha _ [= -> _]. discriminate.
  - intros [Hc Ha]%andb_true_iff [Hd Hb]%andb_true_iff [= <- E].
    destruct (IH b Ha Hb E) as [-> ->]. auto.
Qed.

Lemma split_at_no_sep c s a b :
  split_at c s = Some (a, b) ->
  Str.forallb (fun x => negb (Ascii.eqb x c)) a = true.
Proof.
  revert a. induction s as [|x s IH]; intros a; cbn; [discriminate|].
  destruct (Ascii.eqb x c) eqn:E.
  - intros [= <- _]. reflexivity.
  - destruct (split_at c s) as [[a' b']|]; [|discriminate].
    intros [= <- <-]. cbn. rewrite E. cbn. now apply IH.
Qed.

Lemma colon_field_no_colon s f rest :
  colon_field s = Some (f, rest) -> no_colon f.
Proof.
  unfold colon_field. destruct (split_at ":" s) as [[a b]|] eqn:E; [|discriminate].
  destruct a; [discriminate|]. intros [= <- _].
  apply (split_at_no_sep _ _ _ _ E).
Qed.

(** ** The content-side script *)

(** The projections of a state built by the setters, and the calls that
    only set fields. *)
Ltac fields :=
  unfold Contents.core;
  cbn [Contents.pendingRequests Contents.incomingBuffers
       Contents.messageHandlers Contents.sendQueue Contents.isSending
       Contents.secret Contents.location_hash Contents.senders
       Contents.timers Contents.dispatches Contents.handles
       Contents.uuid_calls Contents.promises Contents.log
       Contents.q_promise Contents.q_message Contents.set_pendingRequests
       Contents.set_incomingBuffers Contents.set_messageHandlers
       Contents.set_sendQueue Contents.set_isSending Contents.set_secret
       Contents.set_location_hash Contents.set_senders Contents.set_timers
       Contents.set_dispatches Contents.set_handles Contents.set_uuid_calls
       Contents.set_promises Contents.set_log Contents.resolver
       Contents.start_request Contents.sendChunks Contents.sendNext
       Contents.sendRaw Contents.emit Contents.dispatchRequest
       Contents.core].

Tactic Notation "fields" "in" hyp(H) :=
  cbn [Contents.pendingRequests Contents.incomingBuffers
       Contents.messageHandlers Contents.sendQueue Contents.isSending
       Contents.secret Contents.location_hash Contents.senders
       Contents.timers Contents.dispatches Contents.handles
       Contents.uuid_calls Contents.promises Contents.log
       Contents.q_promise Contents.q_message Contents.set_pendingRequests
       Contents.set_incomingBuffers Contents.set_messageHandlers
       Contents.set_sendQueue Contents.set_isSending Contents.set_secret
       Contents.set_location_hash Contents.set_senders Contents.set_timers
       Contents.set_dispatches Contents.set_handles Contents.set_uuid_calls
       Contents.set_promises Contents.set_log Contents.resolver
       Contents.start_request Contents.sendChunks Contents.sendNext
       Contents.sendRaw Contents.emit Contents.dispatchRequest
       Contents.core] in H.

Section ContentsFacts.

Context `{Platform}.

Import Contents.

Lemma match_msg_startsWith h g :
  match_msg h = Some g -> Str.startsWith h "MSG:" = true.
Proof.
  unfold match_msg. destruct (Str.startsWith h "MSG:"); [reflexivity|discriminate].
Qed.


Lemma queue_inv_core s s' : core s = core s' -> queue_inv s -> queue_inv s'.
Proof.
  unfold core, queue_inv, in_flight, issued.
  intros [= E1 E2 E3 E4 E5 E6 E7].
  rewrite E1, E2, E3, E4, E5, E6, E7. auto.
Qed.

Lemma settled_app l1 l2 : settled (l1 ++ l2) = settled l1 ++ settled l2.
Proof. unfold settled. apply flat_map_app. Qed.

Lemma written_app l1 l2 : written (l1 ++ l2) = written l1 ++ written l2.
Proof. unfold written. apply flat_map_app. Qed.

(** Reads a field off a state built by the operations of the script. *)
Lemma core_sendChunks type id data s : core (sendChunks type id data s) = core s.
Proof. fields. rewrite settled_app. cbn. now rewrite app_nil_r. Qed.

Lemma core_handleAck key s : core (handleAck key s) = core s.
Proof.
  unfold handleAck. destruct (senders s !! key) as [sd|]; [|reflexivity].
  destruct (String.eqb (location_hash s) _); [|reflexivity].
  destruct (s_index sd <? s_total sd).
  - fields. rewrite settled_app. cbn. now rewrite app_nil_r.
  - reflexivity.
Qed.

Lemma core_run_handlers key id m r n s :
  core (run_handlers key id m r n s) = core s.
Proof. unfold run_handlers. destruct first_response as [[? ?]|]; reflexivity. Qed.

Lemma core_resume key s : core (resume key s) = core s.
Proof.
  unfold resume. destruct (dispatches s !! key) as [d|]; [|reflexivity].
  rewrite core_run_handlers. destruct (d_responded d); [reflexivity|].
  apply core_sendChunks.
Qed.

Lemma core_dispatchRequest id m s : core (dispatchRequest id m s) = core s.
Proof. unfold dispatchRequest. now rewrite core_run_handlers. Qed.

Lemma in_flight_empty s : pendingRequests s = ∅ -> in_flight s = [].
Proof. unfold in_flight. intros ->. now rewrite map_to_list_empty. Qed.

Lemma in_flight_singleton s id p :
  pendingRequests s = {[id := p]} -> in_flight s = [p].
Proof. unfold in_flight. intros ->. now rewrite map_to_list_singleton. Qed.

Lemma seq_S_end n : seq 0 (S n) = seq 0 n ++ [n].
Proof. rewrite seq_S. reflexivity. Qed.

Hypothesis uuid_unique : unique_ids.

Lemma issued_fresh s id : issued s id -> id <> randomUUID (uuid_calls s).
Proof.
  intros (n & Hn & ->) E. apply uuid_unique in E. lia.
Qed.

(** [start_request] from a state whose request in flight, if any, is the
    one named by [old]: the new request is the only one left once [old]
    is deleted. *)
Lemma queue_inv_start_request s entry rest (old : option string) :
  sendQueue s = entry :: rest ->
  (forall id p, pendingRequests s !! id = Some p -> old = Some id) ->
  (forall id, old = Some id -> issued s id) ->
  settled (log s) ++ map q_promise (sendQueue s) = seq 0 (promises s) ->
  (forall key id p, timers s !! key = Some (id, p) -> issued s id) ->
  let s' := start_request entry rest s in
  let s'' := match old with
             | Some id => set_pendingRequests (delete id (pendingRequests s')) s'
             | None => s'
             end in
  queue_inv s''.
Proof.
  intros Hq Hold Hiss Hfifo Htim s' s''.
  remember (randomUUID (uuid_calls s)) as id' eqn:Eid'.
  assert (Hpend : pendingRequests s'' = {[id' := q_promise entry]}).
  { subst s'' s'. apply map_eq. intros i.
    destruct old as [id|]; fields; rewrite <- ?Eid'.
    - pose proof (issued_fresh s id (Hiss id eq_refl)) as Hne. rewrite <- Eid' in Hne.
      destruct (decide (i = id)) as [->|Hi].
      + rewrite lookup_delete_eq, lookup_singleton_ne by done. reflexivity.
      + rewrite lookup_delete_ne by congruence.
        destruct (decide (i = id')) as [->|Hi'].
        * now rewrite lookup_insert_eq, lookup_singleton_eq.
        * rewrite lookup_insert_ne, lookup_singleton_ne by congruence.
          destruct (pendingRequests s !! i) eqn:E; [|reflexivity].
          apply Hold in E. congruence.
    - destruct (decide (i = id')) as [->|Hi'].
      + now rewrite lookup_insert_eq, lookup_singleton_eq.
      + rewrite lookup_insert_ne, lookup_singleton_ne by congruence.
        destruct (pendingRequests s !! i) eqn:E; [|reflexivity].
        apply Hold in E. discriminate. }
  assert (Hrest : isSending s'' = true /\ sendQueue s'' = rest
                  /\ settled (log s'') = settled (log s)
                  /\ promises s'' = promises s
                  /\ uuid_calls s'' = S (uuid_calls s)
                  /\ timers s'' = <[S (handles s) := (id', q_promise entry)]> (timers s)).
  { subst s'' s'. destruct old; fields; rewrite <- ?Eid', settled_app; cbn;
      rewrite app_nil_r; repeat split. }
  destruct Hrest as (E1 & E2 & E3 & E4 & E5 & E6).
  assert (Hnew : issued s'' id').
  { exists (uuid_calls s). rewrite E5. split; [lia | exact Eid']. }
  unfold queue_inv. split; [|split; [|split]].
  - right. split; [exact E1|]. exists id', (q_promise entry). exact Hpend.
  - rewrite E2, E3, E4, (in_flight_singleton _ _ _ Hpend).
    rewrite Hq in Hfifo. exact Hfifo.
  - intros id p. rewrite Hpend. now intros [<- _]%lookup_singleton_Some.
  - intros key id p Hk. rewrite E6 in Hk.
    apply lookup_insert_Some in Hk as [[_ [= <- <-]]|[_ Ht]].
    + split; [exact Hnew|].
      intros p'. rewrite Hpend. now intros [_ <-]%lookup_singleton_Some.
    + split.
      * destruct (Htim _ _ _ Ht) as (n & Hn & ->). exists n.
        rewrite E5. split; [lia | reflexivity].
      * intros p'. rewrite Hpend. intros [<- _]%lookup_singleton_Some.
        exfalso. apply (issued_fresh s id'); [eauto | exact Eid'].
Qed.

Lemma queue_inv_processQueue s : queue_inv s -> queue_inv (processQueue s).
Proof.
  intros Hinv. unfold processQueue.
  destruct (isSending s) eqn:Hs; [assumption|].
  destruct (sendQueue s) as [|entry rest] eqn:Hq; [assumption|].
  destruct (secret_falsy (secret s)); [assumption|].
  destruct Hinv as ([[_ Hp]|[Hs' _]] & Hfifo & Hids & Htim); [|congruence].
  apply (queue_inv_start_request s entry rest None).
  - assumption.
  - intros id p. rewrite Hp, lookup_empty. discriminate.
  - discriminate.
  - now rewrite (in_flight_empty _ Hp) in Hfifo.
  - intros key id p Ht. now apply (Htim key id p).
Qed.

(** The request in flight is settled: what is left is an idle session. *)
Lemma queue_inv_settled s s1 id p :
  queue_inv s ->
  pendingRequests s !! id = Some p ->
  pendingRequests s1 = delete id (pendingRequests s) ->
  isSending s1 = false ->
  sendQueue s1 = sendQueue s ->
  settled (log s1) = settled (log s) ++ [p] ->
  promises s1 = promises s ->
  uuid_calls s1 = uuid_calls s ->
  timers s1 ⊆ timers s ->
  queue_inv s1.
Proof.
  intros ([[_ Hp]|[_ (id0 & p0 & Hp)]] & Hfifo & Hids & Htim) Hl E1 E2 E3 E4 E5 E6 E7.
  { rewrite Hp, lookup_empty in Hl. discriminate. }
  rewrite Hp in Hl. apply lookup_singleton_Some in Hl as [<- <-].
  assert (Hempty : pendingRequests s1 = ∅).
  { rewrite E1, Hp. apply delete_singleton_eq. }
  unfold queue_inv, issued. rewrite E2, E3, E4, E5, E6.
  rewrite (in_flight_empty _ Hempty), Hempty. repeat split.
  - left. auto.
  - rewrite (in_flight_singleton _ _ _ Hp) in Hfifo.
    rewrite <- app_assoc. exact Hfifo.
  - intros id p. rewrite lookup_empty. discriminate.
  - eapply Htim. eapply lookup_weaken; eassumption.
  - intros p'. rewrite lookup_empty. discriminate.
Qed.

Lemma queue_inv_onTimeout key s : queue_inv s -> queue_inv (onTimeout key s).
Proof.
  intros Hinv. unfold onTimeout.
  destruct (timers s !! key) as [[id p]|] eqn:Ht; [|assumption].
  cbn [pendingRequests set_timers].
  destruct (pendingRequests s !! id) as [p'|] eqn:Hp.
  - assert (p' = p) as ->.
    { destruct Hinv as (_ & _ & _ & Htim). now apply (Htim key id p). }
    apply queue_inv_processQueue.
    apply (queue_inv_settled s _ id p); try assumption; try reflexivity.
    + fields. rewrite settled_app. reflexivity.
    + fields. apply delete_subseteq.
  - destruct Hinv as (H1 & H2 & H3 & H4). repeat split; try assumption.
    + cbn in H0. apply lookup_delete_Some in H0 as [_ H0]. now apply (H4 key0 id0 p0).
    + cbn in H0. apply lookup_delete_Some in H0 as [_ H0]. now apply (H4 key0 id0 p0).
Qed.

Lemma queue_inv_resolve s id p result :
  queue_inv s ->
  pendingRequests s !! id = Some p ->
  let s' := resolver p result s in
  queue_inv (set_pendingRequests (delete id (pendingRequests s')) s').
Proof.
  intros Hinv Hp s'. subst s'. unfold resolver, processQueue.
  fields.
  destruct (sendQueue s) as [|entry rest] eqn:Hq;
    [|destruct (secret_falsy (secret s))].
  1,2: apply (queue_inv_settled s _ id p); try assumption; try reflexivity;
       fields; rewrite ?settled_app, ?Hq; reflexivity.
  destruct Hinv as ([[_ Hpe]|[_ (id0 & p0 & Hpe)]] & Hfifo & Hids & Htim).
  { rewrite Hpe, lookup_empty in Hp. discriminate. }
  pose proof Hp as Hp'. rewrite Hpe in Hp'.
  apply lookup_singleton_Some in Hp' as [<- <-].
  apply (queue_inv_start_request
           (set_isSending false (emit (Resolved p0 result) s)) entry rest (Some id0)).
  - exact Hq.
  - intros id p. fields. rewrite Hpe. now intros [-> _]%lookup_singleton_Some.
  - intros id [= <-]. apply (Hids id0 p0 Hp).
  - fields. rewrite settled_app. cbn.
    rewrite (in_flight_singleton _ _ _ Hpe) in Hfifo.
    rewrite <- app_assoc. exact Hfifo.
  - intros key id p Ht. now apply (Htim key id p).
Qed.

Lemma core_created s id total :
  core (match incomingBuffers s !! id with
        | Some buffer => s
        | None => match new_Array total with
                  | Some buffer => set_incomingBuffers (<[id := buffer]> (incomingBuffers s)) s
                  | None => s
                  end
        end) = core s.
Proof. destruct (incomingBuffers s !! id); [reflexivity|]. now destruct new_Array. Qed.

Lemma queue_inv_handleIncoming s : queue_inv s -> queue_inv (handleIncoming s).
Proof.
  intros Hinv. unfold handleIncoming.
  destruct (Str.startsWith (location_hash s) "INIT:").
  { apply queue_inv_processQueue. revert Hinv. apply queue_inv_core.
    fields. rewrite settled_app. cbn. now rewrite app_nil_r. }
  destruct (negb _); [assumption|].
  destruct (match_msg _) as [[[[[m1 type] id] seq] data]|]; [|assumption].
  destruct (secret_differs _ _); [assumption|].
  destruct (split_seq seq) as [indexStr totalStr].
  set (index := parseInt10 indexStr). set (total := parseInt10_opt totalStr).
  match goal with
  | |- queue_inv (match ?c with _ => _ end) =>
      assert (Hc : match c with Some (s1, _) => core s1 = core s | None => True end)
  end.
  { destruct (incomingBuffers s !! id); [reflexivity|]. now destruct (new_Array total). }
  match goal with
  | |- queue_inv (match ?c with _ => _ end) => destruct c as [[s1 buffer]|]
  end.
  2:{ revert Hinv. apply queue_inv_core. fields.
      rewrite settled_app. cbn. now rewrite app_nil_r. }
  set (s2 := sendRaw _ _).
  assert (Hs2 : queue_inv s2).
  { revert Hinv. apply queue_inv_core. rewrite <- Hc. subst s2.
    fields. rewrite settled_app. cbn. now rewrite app_nil_r. }
  destruct (is_complete _ _); [|assumption].
  destruct (decode_message _) as [e|message].
  { revert Hs2. apply queue_inv_core. fields.
    rewrite !settled_app. cbn. now rewrite !app_nil_r. }
  set (s3 := set_incomingBuffers _ s2).
  assert (Hs3 : queue_inv s3).
  { revert Hs2. apply queue_inv_core. reflexivity. }
  destruct type.
  - revert Hs3. apply queue_inv_core. symmetry. apply core_dispatchRequest.
  - destruct (pendingRequests s3 !! id) as [p|] eqn:Hp; [|assumption].
    now apply queue_inv_resolve.
Qed.

Lemma queue_inv_sendMessage m s : queue_inv s -> queue_inv (sendMessage m s).
Proof.
  intros (H1 & H2 & H3 & H4). unfold sendMessage.
  apply queue_inv_processQueue. unfold queue_inv, issued, in_flight in *.
  fields. repeat split; try assumption.
  - rewrite map_app, !app_assoc. cbn [map q_promise].
    rewrite seq_S_end. f_equal. rewrite <- app_assoc. exact H2.
  - eapply H4; eassumption.
  - eapply H4; eassumption.
Qed.

Lemma queue_inv_step s e : queue_inv s -> queue_inv (step s e).
Proof.
  destruct e; cbn [step].
  - apply queue_inv_sendMessage.
  - apply queue_inv_core. reflexivity.
  - apply queue_inv_core. reflexivity.
  - apply queue_inv_handleIncoming.
  - apply queue_inv_core. symmetry. apply core_handleAck.
  - apply queue_inv_onTimeout.
  - apply queue_inv_core. symmetry. apply core_resume.
Qed.

Lemma queue_inv_blank h : queue_inv (blank h).
Proof.
  unfold queue_inv. split; [|split; [|split]].
  - left. split; reflexivity.
  - unfold in_flight. cbn [blank pendingRequests]. rewrite map_to_list_empty.
    reflexivity.
  - intros id p. cbn [blank pendingRequests]. rewrite lookup_empty. discriminate.
  - intros key id p. cbn [blank timers]. rewrite lookup_empty. discriminate.
Qed.

Lemma queue_inv_fold evs : forall s, queue_inv s -> queue_inv (fold_left step evs s).
Proof.
  induction evs as [|e evs IH]; intros s Hs; [assumption|].
  cbn [fold_left]. apply IH, queue_inv_step, Hs.
Qed.

Lemma queue_inv_run h evs : queue_inv (run h evs).
Proof.
  unfold run, init. apply queue_inv_fold, queue_inv_handleIncoming, queue_inv_blank.
Qed.


End ContentsFacts.

(** *** The senders *)

Section ContentsSenders.
Context `{Platform}.
Import Contents.

Lemma stable_refl s : stable s s.
Proof. intros Hk. auto. Qed.

Lemma stable_trans s1 s2 s3 : stable s1 s2 -> stable s2 s3 -> stable s1 s3.
Proof.
  intros H12 H23 Hk. destruct (H12 Hk) as (Hk2 & Hle2 & Hs2).
  destruct (H23 Hk2) as (Hk3 & Hle3 & Hs3).
  split; [exact Hk3|]. split; [lia|].
  intros key Hlt. rewrite Hs3 by lia. now apply Hs2.
Qed.

Lemma stable_same s s' :
  senders s' = senders s -> handles s' = handles s -> stable s s'.
Proof.
  intros Es Eh Hk. unfold keys_inv. rewrite Es, Eh. auto.
Qed.

Lemma stable_sendChunks type id data s : stable s (sendChunks type id data s).
Proof.
  intros Hk. unfold keys_inv. fields. split; [|split; [lia|]].
  - intros key [sd Hsd].
    apply lookup_insert_Some in Hsd as [[<- _]|[_ Hsd]]; [lia|].
    apply le_S. apply Hk. eauto.
  - intros key Hlt. apply lookup_insert_ne. lia.
Qed.

Lemma stable_start_request entry rest s : stable s (start_request entry rest s).
Proof.
  intros Hk. unfold keys_inv. fields. split; [|split; [lia|]].
  - intros key [sd Hsd].
    apply lookup_insert_Some in Hsd as [[<- _]|[_ Hsd]]; [lia|].
    do 2 apply le_S. apply Hk. eauto.
  - intros key Hlt. apply lookup_insert_ne. lia.
Qed.

Lemma stable_processQueue s : stable s (processQueue s).
Proof.
  unfold processQueue. destruct (isSending s); [apply stable_refl|].
  destruct (sendQueue s); [apply stable_refl|].
  destruct (secret_falsy (secret s)); [apply stable_refl|].
  apply stable_start_request.
Qed.

Lemma stable_resolver p v s : stable s (resolver p v s).
Proof.
  unfold resolver. eapply stable_trans; [|apply stable_processQueue].
  now apply stable_same.
Qed.

Lemma stable_onTimeout key s : stable s (onTimeout key s).
Proof.
  unfold onTimeout. destruct (timers s !! key) as [[id p]|]; [|apply stable_refl].
  fields. destruct (pendingRequests s !! id).
  - eapply stable_trans; [|apply stable_processQueue]. now apply stable_same.
  - now apply stable_same.
Qed.

Lemma stable_sendMessage m s : stable s (sendMessage m s).
Proof.
  unfold sendMessage. eapply stable_trans; [|apply stable_processQueue].
  now apply stable_same.
Qed.

Lemma stable_run_handlers key id m r n s : stable s (run_handlers key id m r n s).
Proof.
  unfold run_handlers. destruct first_response as [[? ?]|]; now apply stable_same.
Qed.

Lemma stable_dispatchRequest id m s : stable s (dispatchRequest id m s).
Proof.
  unfold dispatchRequest. eapply stable_trans; [|apply stable_run_handlers].
  intros Hk. unfold keys_inv. fields. split; [|split; [lia | reflexivity]].
  intros key Hs. apply le_S. now apply Hk.
Qed.

Lemma stable_resume key s : stable s (resume key s).
Proof.
  unfold resume. destruct (dispatches s !! key) as [d|]; [|apply stable_refl].
  eapply stable_trans; [|apply stable_run_handlers].
  destruct (d_responded d); [apply stable_refl | apply stable_sendChunks].
Qed.

Lemma stable_handleIncoming s : stable s (handleIncoming s).
Proof.
  unfold handleIncoming.
  destruct (Str.startsWith (location_hash s) "INIT:").
  { eapply stable_trans; [|apply stable_processQueue]. now apply stable_same. }
  destruct (negb _); [apply stable_refl|].
  destruct (match_msg _) as [[[[[m1 type] id] seq] data]|]; [|apply stable_refl].
  destruct (secret_differs _ _); [apply stable_refl|].
  destruct (split_seq seq) as [indexStr totalStr].
  set (index := parseInt10 indexStr). set (total := parseInt10_opt totalStr).
  match goal with
  | |- stable s (match ?c with _ => _ end) =>
      assert (Hc : match c with
                   | Some (s1, _) => senders s1 = senders s /\ handles s1 = handles s
                   | None => True
                   end)
  end.
  { destruct (incomingBuffers s !! id); [auto|]. now destruct (new_Array total). }
  match goal with
  | |- stable s (match ?c with _ => _ end) => destruct c as [[s1 buffer]|]
  end.
  2:{ now apply stable_same. }
  destruct Hc as [Hc1 Hc2].
  set (s2 := sendRaw _ _).
  assert (Hs2 : stable s s2) by now apply stable_same.
  destruct (is_complete _ _); [|assumption].
  destruct (decode_message _) as [e|message].
  { eapply stable_trans; [exact Hs2|]. now apply stable_same. }
  set (s3 := set_incomingBuffers _ s2).
  assert (Hs3 : stable s s3).
  { eapply stable_trans; [exact Hs2|]. now apply stable_same. }
  destruct type.
  - eapply stable_trans; [exact Hs3|]. apply stable_dispatchRequest.
  - destruct (pendingRequests s3 !! id) as [p|]; [|assumption].
    eapply stable_trans; [exact Hs3|].
    eapply stable_trans; [apply stable_resolver|]. now apply stable_same.
Qed.

(** [handleAck] touches the sender it belongs to, and no other. *)
Lemma handleAck_cases key s :
  match senders s !! key with
  | None => handleAck key s = s
  | Some sd =>
      if String.eqb (location_hash s) (expected_ack (secret s) sd) then
        if s_index sd <? s_total sd then
          handleAck key s = sendNext key sd s
        else handleAck key s = set_senders (delete key (senders s)) s
      else handleAck key s = s
  end.
Proof.
  unfold handleAck. destruct (senders s !! key) as [sd|]; [|reflexivity].
  destruct (String.eqb _ _); [|reflexivity].
  destruct (s_index sd <? s_total sd); reflexivity.
Qed.

Lemma handleAck_other key key' s :
  key' <> key -> senders (handleAck key s) !! key' = senders s !! key'.
Proof.
  intros Hne. unfold handleAck.
  destruct (senders s !! key) as [sd|]; [|reflexivity].
  destruct (String.eqb _ _); [|reflexivity].
  destruct (s_index sd <? s_total sd); fields.
  - now apply lookup_insert_ne.
  - now apply lookup_delete_ne.
Qed.

Lemma keys_inv_handleAck key s : keys_inv s -> keys_inv (handleAck key s).
Proof.
  intros Hk. unfold handleAck.
  destruct (senders s !! key) as [sd|] eqn:E; [|exact Hk].
  destruct (String.eqb _ _); [|exact Hk].
  destruct (s_index sd <? s_total sd); intros key' [sd' Hs]; fields in Hs; fields.
  - apply lookup_insert_Some in Hs as [[<- _]|[_ Hs]]; apply Hk; eauto.
  - apply lookup_delete_Some in Hs as [_ Hs]. apply Hk; eauto.
Qed.

Lemma keys_inv_step s e : keys_inv s -> keys_inv (step s e).
Proof.
  intros Hk. destruct e; cbn [step].
  - now apply stable_sendMessage.
  - exact Hk.
  - exact Hk.
  - now apply stable_handleIncoming.
  - now apply keys_inv_handleAck.
  - now apply stable_onTimeout.
  - now apply stable_resume.
Qed.

Lemma keys_inv_run h evs : keys_inv (run h evs).
Proof.
  unfold run.
  assert (Hinit : keys_inv (init h)).
  { apply stable_handleIncoming. intros key [sd Hs].
    cbn [blank senders] in Hs. now rewrite lookup_empty in Hs. }
  revert Hinit. generalize (init h).
  induction evs as [|e evs IH]; intros s Hs; [exact Hs|].
  cbn [fold_left]. apply IH, keys_inv_step, Hs.
Qed.

(** Unless it is the listener of the sender itself, a callback leaves a
    registered sender as it is. *)
Lemma sender_untouched s e key sd :
  keys_inv s ->
  senders s !! key = Some sd ->
  e <> AckListener key ->
  senders (step s e) !! key = Some sd.
Proof.
  intros Hk Hs He.
  assert (Hlt : key < handles s) by (apply Hk; eauto).
  destruct e; cbn [step].
  - destruct (stable_sendMessage message s Hk) as (_ & _ & E). now rewrite E.
  - exact Hs.
  - exact Hs.
  - destruct (stable_handleIncoming s Hk) as (_ & _ & E). now rewrite E.
  - rewrite handleAck_other; [exact Hs | congruence].
  - destruct (stable_onTimeout key0 s Hk) as (_ & _ & E). now rewrite E.
  - destruct (stable_resume key0 s Hk) as (_ & _ & E). now rewrite E.
Qed.


(** *** Stop and wait *)

Lemma sendNext_spec key sd s :
  log (sendNext key sd s) = log s ++ [Wrote (msg_frame (secret s) sd)]
  /\ location_hash (sendNext key sd s) = msg_frame (secret s) sd
  /\ senders (sendNext key sd s) = <[key := bump_index sd]> (senders s).
Proof. repeat split. Qed.

Lemma sendChunks_spec type id data s :
  let chunks := chunks_of (encode_message data) in
  let sd := {| s_type := type; s_id := id; s_chunks := chunks;
               s_total := length chunks; s_index := 0 |} in
  log (sendChunks type id data s) = log s ++ [Wrote (msg_frame (secret s) sd)]
  /\ senders (sendChunks type id data s)
     = <[handles s := bump_index sd]> (senders s)
  /\ handles (sendChunks type id data s) = S (handles s).
Proof. repeat split. Qed.

Lemma contents_ack_gating s e key sd :
  keys_inv s ->
  senders s !! key = Some sd ->
  senders (step s e) !! key <> Some sd ->
  e = AckListener key
  /\ location_hash s = expected_ack (secret s) sd
  /\ step s e = if s_index sd <? s_total sd
                then sendNext key sd s
                else set_senders (delete key (senders s)) s.
Proof.
  intros Hk Hs Hch.
  assert (He : e = AckListener key).
  { destruct e as [m|hd|w| |key0|key0|key0];
      try (destruct Hch; now apply sender_untouched).
    destruct (decide (key0 = key)) as [->|Hne]; [reflexivity|].
    destruct Hch. apply sender_untouched; [assumption..|congruence]. }
  subst e. split; [reflexivity|]. cbn [step] in *.
  pose proof (handleAck_cases key s) as Hc. rewrite Hs in Hc.
  destruct (String.eqb (location_hash s) (expected_ack (secret s) sd)) eqn:E.
  - apply String.eqb_eq in E. split; [exact E|].
    destruct (s_index sd <? s_total sd); exact Hc.
  - rewrite Hc in Hch. contradiction.
Qed.

Lemma contents_ack_mismatch s key sd :
  senders s !! key = Some sd ->
  location_hash s <> expected_ack (secret s) sd ->
  handleAck key s = s.
Proof.
  intros Hs Hne. pose proof (handleAck_cases key s) as Hc. rewrite Hs in Hc.
  apply String.eqb_neq in Hne. now rewrite Hne in Hc.
Qed.

Lemma ack_frame_expected sec (sd : Sender) id i :
  no_colon id -> no_colon (s_id sd) ->
  "ACK:" +:+ secret_text sec +:+ ":" +:+ id +:+ ":" +:+ Number_toString i
  = expected_ack sec sd ->
  id = s_id sd /\ i = (Z.of_nat (s_index sd) - 1)%Z.
Proof.
  unfold expected_ack.
  intros Hid Hsd E. do 3 apply append_inv_head in E.
  apply colon_separated_inj in E as [-> E]; [|assumption..].
  split; [reflexivity|]. now apply Number_toString_inj.
Qed.

Lemma contents_ack_not_incoming s :
  Str.startsWith (location_hash s) "ACK:" = true -> handleIncoming s = s.
Proof.
  intros Hp. unfold handleIncoming.
  now rewrite (startsWith_ACK_not_INIT _ Hp), (startsWith_ACK_not_MSG _ Hp).
Qed.

Lemma ack_frame_startsWith sec id index :
  Str.startsWith (ack_frame sec id index) "ACK:" = true.
Proof. unfold ack_frame, Str.startsWith. apply prefix_append. Qed.

End ContentsSenders.

Section ContentsCallbacks.
Context `{Platform}.
Import Contents.

(** *** The queue *)

Lemma processQueue_fire s entry rest :
  isSending s = false -> sendQueue s = entry :: rest ->
  secret_falsy (secret s) = false ->
  processQueue s = start_request entry rest s.
Proof. intros H1 H2 H3. unfold processQueue. now rewrite H1, H2, H3. Qed.

Lemma processQueue_busy s : isSending s = true -> processQueue s = s.
Proof. intros H1. unfold processQueue. now rewrite H1. Qed.

Lemma processQueue_empty s : sendQueue s = [] -> processQueue s = s.
Proof. intros H1. unfold processQueue. rewrite H1. now destruct (isSending s). Qed.

Lemma processQueue_no_secret s :
  secret_falsy (secret s) = true -> processQueue s = s.
Proof.
  intros H1. unfold processQueue. rewrite H1.
  destruct (isSending s); [reflexivity|]. now destruct (sendQueue s).
Qed.

(** What [start_request] leaves behind: the entry is off the queue, the
    session is busy, the request is pending under a new identifier, its
    chunk 0 is written, its sender waits for the acknowledgement of chunk
    0 and its timer is armed. *)
Lemma start_request_spec entry rest s :
  let id := randomUUID (uuid_calls s) in
  let chunks := chunks_of (encode_message (q_message entry)) in
  let sd := {| s_type := REQ; s_id := id; s_chunks := chunks;
               s_total := length chunks; s_index := 0 |} in
  let s' := start_request entry rest s in
  sendQueue s' = rest
  /\ isSending s' = true
  /\ pendingRequests s' = <[id := q_promise entry]> (pendingRequests s)
  /\ log s' = log s ++ [Wrote (msg_frame (secret s) sd)]
  /\ senders s' = <[handles s := bump_index sd]> (senders s)
  /\ timers s' = <[S (handles s) := (id, q_promise entry)]> (timers s).
Proof. repeat split. Qed.

Lemma contents_timeout s key id p p' :
  timers s !! key = Some (id, p) ->
  pendingRequests s !! id = Some p' ->
  let s1 := set_isSending false
              (emit (Rejected p)
                 (set_pendingRequests (delete id (pendingRequests s))
                    (set_timers (delete key (timers s)) s))) in
  onTimeout key s = processQueue s1
  /\ pendingRequests s1 = delete id (pendingRequests s)
  /\ log s1 = log s ++ [Rejected p]
  /\ isSending s1 = false
  /\ sendQueue s1 = sendQueue s
  /\ (sendQueue s = [] -> onTimeout key s = s1)
  /\ (secret_falsy (secret s) = true -> onTimeout key s = s1)
  /\ (forall entry rest,
        sendQueue s = entry :: rest -> secret_falsy (secret s) = false ->
        onTimeout key s = start_request entry rest s1).
Proof.
  intros Ht Hp s1.
  assert (E : onTimeout key s = processQueue s1).
  { unfold onTimeout. rewrite Ht. fields. now rewrite Hp. }
  split; [exact E|]. do 4 (split; [reflexivity|]). split; [|split].
  - intros Hq. rewrite E. now apply processQueue_empty.
  - intros Hsec. rewrite E. now apply processQueue_no_secret.
  - intros entry rest Hq Hsec. rewrite E. now apply processQueue_fire.
Qed.

(** *** Reassembly *)

(** [handleIncoming] on a frame it accepts; [buffer0] is the array the
    chunk goes into: the entry of [id], or a new array. *)
Lemma handleIncoming_accepted s m1 type id seq data buffer0 :
  match_msg (location_hash s) = Some (m1, type, id, seq, data) ->
  secret s = Some m1 ->
  let index := parseInt10 (split_seq seq).1 in
  let total := parseInt10_opt (split_seq seq).2 in
  (incomingBuffers s !! id = Some buffer0
   \/ (incomingBuffers s !! id = None /\ new_Array total = Some buffer0)) ->
  let buffer := array_set buffer0 index data in
  let s2 := sendRaw (ack_frame (secret s) id index)
              (set_incomingBuffers (<[id := buffer]> (incomingBuffers s)) s) in
  handleIncoming s
  = if is_complete buffer total then
      match decode_message (join buffer) with
      | inl e => emit (Uncaught e) s2
      | inr message =>
          let s3 := set_incomingBuffers (delete id (incomingBuffers s2)) s2 in
          match type with
          | REQ => dispatchRequest id message s3
          | RES =>
              match pendingRequests s3 !! id with
              | Some p =>
                  let s4 := resolver p message s3 in
                  set_pendingRequests (delete id (pendingRequests s4)) s4
              | None => s3
              end
          end
      end
    else s2.
Proof.
  intros Hm Hsec index total Hbuf buffer s2.
  pose proof (match_msg_startsWith _ _ Hm) as Hp.
  unfold handleIncoming.
  rewrite (startsWith_MSG_not_INIT _ Hp), Hp, Hm. cbn [negb].
  replace (secret_differs m1 (secret s)) with false.
  2:{ rewrite Hsec. cbn. symmetry. apply negb_false_iff, String.eqb_refl. }
  subst index total buffer s2.
  destruct (split_seq seq) as [indexStr totalStr]. cbn [fst snd] in *.
  destruct Hbuf as [Hb|[Hb Hnew]]; rewrite Hb; [reflexivity|].
  rewrite Hnew. fields. rewrite insert_insert_eq. reflexivity.
Qed.


Lemma incomingBuffers_processQueue s :
  incomingBuffers (processQueue s) = incomingBuffers s.
Proof.
  unfold processQueue. destruct (isSending s); [reflexivity|].
  destruct (sendQueue s); [reflexivity|].
  now destruct (secret_falsy (secret s)).
Qed.

Lemma incomingBuffers_run_handlers key id m r n s :
  incomingBuffers (run_handlers key id m r n s) = incomingBuffers s.
Proof. unfold run_handlers. now destruct first_response as [[? ?]|]. Qed.

(** A chunk for an identifier that has an entry goes into that entry and
    is acknowledged, whatever total it reports; the entry is complete
    when its filled slots are as many as the total of this chunk. *)
Lemma contents_chunk_into_entry s m1 type id seq data buffer0 :
  match_msg (location_hash s) = Some (m1, type, id, seq, data) ->
  secret s = Some m1 ->
  incomingBuffers s !! id = Some buffer0 ->
  let index := parseInt10 (split_seq seq).1 in
  let total := parseInt10_opt (split_seq seq).2 in
  let buffer := array_set buffer0 index data in
  is_complete buffer total = false ->
  incomingBuffers (handleIncoming s) = <[id := buffer]> (incomingBuffers s)
  /\ log (handleIncoming s) = log s ++ [Wrote (ack_frame (secret s) id index)].
Proof.
  intros Hm Hsec Hb index total buffer Hinc.
  rewrite (handleIncoming_accepted s m1 type id seq data buffer0 Hm Hsec (or_introl Hb)).
  fold index total buffer. rewrite Hinc. split; reflexivity.
Qed.

(** A completed entry: it is removed when its text decodes; when it does
    not, the callback ends by the exception, after the acknowledgement,
    and the entry stays. *)
Lemma contents_completed_entry s m1 type id seq data buffer0 :
  match_msg (location_hash s) = Some (m1, type, id, seq, data) ->
  secret s = Some m1 ->
  let index := parseInt10 (split_seq seq).1 in
  let total := parseInt10_opt (split_seq seq).2 in
  (incomingBuffers s !! id = Some buffer0
   \/ (incomingBuffers s !! id = None /\ new_Array total = Some buffer0)) ->
  let buffer := array_set buffer0 index data in
  is_complete buffer total = true ->
  match decode_message (join buffer) with
  | inr message =>
      incomingBuffers (handleIncoming s) = delete id (incomingBuffers s)
  | inl e =>
      handleIncoming s
      = emit (Uncaught e)
          (sendRaw (ack_frame (secret s) id index)
             (set_incomingBuffers (<[id := buffer]> (incomingBuffers s)) s))
      /\ incomingBuffers (handleIncoming s) !! id = Some buffer
      /\ (forall id', id' <> id ->
            incomingBuffers (handleIncoming s) !! id'
            = incomingBuffers s !! id')
      /\ log (handleIncoming s)
         = log s ++ [Wrote (ack_frame (secret s) id index); Uncaught e]
      /\ pendingRequests (handleIncoming s) = pendingRequests s
      /\ sendQueue (handleIncoming s) = sendQueue s
      /\ isSending (handleIncoming s) = isSending s
      /\ dispatches (handleIncoming s) = dispatches s
      /\ senders (handleIncoming s) = senders s
  end.
Proof.
  intros Hm Hsec index total Hbuf buffer Hc.
  rewrite (handleIncoming_accepted s m1 type id seq data buffer0 Hm Hsec Hbuf).
  fold index total buffer. rewrite Hc.
  destruct (decode_message (join buffer)) as [e|message].
  - split; [reflexivity|]. fields. split; [apply lookup_insert_eq|].
    split; [intros id' Hne; now apply lookup_insert_ne|].
    split; [now rewrite <- app_assoc|]. repeat split.
  - cbv zeta. destruct type.
    + unfold dispatchRequest. rewrite incomingBuffers_run_handlers. fields.
      apply delete_insert_eq.
    + fields. destruct (pendingRequests s !! id) as [p|].
      * fields. unfold resolver. rewrite incomingBuffers_processQueue. fields.
        apply delete_insert_eq.
      * fields. apply delete_insert_eq.
Qed.

(** *** Dispatch *)









(** *** One request in flight, in the order of submission *)

Lemma settled_processQueue s : settled (log (processQueue s)) = settled (log s).
Proof.
  unfold processQueue. destruct (isSending s); [reflexivity|].
  destruct (sendQueue s); [reflexivity|].
  destruct (secret_falsy (secret s)); [reflexivity|].
  fields. rewrite settled_app. apply app_nil_r.
Qed.

Lemma queue_inv_in_flight s :
  queue_inv s ->
  (isSending s = true <-> length (in_flight s) = 1)
  /\ length (in_flight s) <= 1
  /\ size (pendingRequests s) = length (in_flight s).
Proof.
  intros ([[Hs Hp]|[Hs (id & p & Hp)]] & _).
  - rewrite (in_flight_empty _ Hp), Hp, map_size_empty, Hs. cbn.
    repeat split; try lia; discriminate.
  - rewrite (in_flight_singleton _ _ _ Hp), Hp, map_size_singleton, Hs. cbn.
    repeat split; lia.
Qed.

Lemma settled_nodup s : queue_inv s -> NoDup (settled (log s)).
Proof.
  intros (_ & Hfifo & _).
  assert (Hnd : NoDup (seq 0 (promises s))) by apply NoDup_ListNoDup, seq_NoDup.
  rewrite <- Hfifo in Hnd. now apply NoDup_app in Hnd as [Hnd _].
Qed.

Lemma in_flight_not_settled s p :
  queue_inv s -> In p (in_flight s) -> ~ In p (settled (log s)).
Proof.
  intros (_ & Hfifo & _) Hin Hse.
  assert (Hnd : NoDup (seq 0 (promises s))) by apply NoDup_ListNoDup, seq_NoDup.
  rewrite <- Hfifo in Hnd. apply NoDup_app in Hnd as (_ & Hdis & _).
  apply (Hdis p); [now apply list_elem_of_In|].
  apply elem_of_app. left. now apply list_elem_of_In.
Qed.

(** A timer whose request is settled finds no pending entry. *)
Lemma contents_timer_noop s key id p :
  queue_inv s ->
  timers s !! key = Some (id, p) ->
  In p (settled (log s)) ->
  onTimeout key s = set_timers (delete key (timers s)) s.
Proof.
  intros Hinv Ht Hse. unfold onTimeout. rewrite Ht. fields.
  destruct (pendingRequests s !! id) as [p'|] eqn:Hp; [|reflexivity].
  exfalso. apply (in_flight_not_settled s p Hinv); [|exact Hse].
  destruct Hinv as ([[_ He]|[_ (id0 & p0 & He)]] & _ & _ & Htim).
  - rewrite He, lookup_empty in Hp. discriminate.
  - destruct (Htim key id p Ht) as [_ Hm]. pose proof (Hm _ Hp) as ->.
    rewrite He in Hp. apply lookup_singleton_Some in Hp as [_ ->].
    rewrite (in_flight_singleton _ _ _ He). now left.
Qed.

Lemma settled_In_Resolved l p v : In (Resolved p v) l -> In p (settled l).
Proof.
  intros Hin. unfold settled. apply in_flat_map. exists (Resolved p v).
  split; [exact Hin | now left].
Qed.

(** What a callback does to the request in flight: it leaves it, starts
    one when none is in flight, or settles it. *)
Lemma contents_in_flight_step s e :
  queue_inv s ->
  (settled (log (step s e)) = settled (log s)
   /\ (in_flight (step s e) = in_flight s \/ in_flight s = []))
  \/ (exists p, in_flight s = [p]
                /\ settled (log (step s e)) = settled (log s) ++ [p]).
Proof.
  intros Hinv.
  assert (Hcore : forall s', core s = core s' ->
            settled (log s') = settled (log s)
            /\ (in_flight s' = in_flight s \/ in_flight s = [])).
  { unfold core, in_flight. intros s' [= E1 _ _ E4 _ _ _].
    rewrite E1, E4. auto. }
  assert (Hpq : forall s1,
            pendingRequests s1 = pendingRequests s ->
            isSending s1 = isSending s ->
            settled (log s1) = settled (log s) ->
            settled (log (processQueue s1)) = settled (log s)
            /\ (in_flight (processQueue s1) = in_flight s \/ in_flight s = [])).
  { intros s1 Ep Es El. rewrite settled_processQueue. split; [exact El|].
    unfold processQueue. destruct (isSending s1) eqn:Hs.
    - left. unfold in_flight. now rewrite Ep.
    - destruct (sendQueue s1); [|destruct (secret_falsy (secret s1))];
        try (left; unfold in_flight; now rewrite Ep).
      right. destruct Hinv as ([[_ Hp]|[Hs' _]] & _).
      + now apply in_flight_empty.
      + congruence. }
  assert (Hsettle : forall id p, pendingRequests s !! id = Some p ->
            in_flight s = [p]).
  { intros id p Hp. destruct Hinv as ([[_ He]|[_ (id0 & p0 & He)]] & _).
    - rewrite He, lookup_empty in Hp. discriminate.
    - rewrite He in Hp. apply lookup_singleton_Some in Hp as [_ ->].
      now apply in_flight_singleton in He. }
  destruct e as [m|hd|w| |key|key|key]; cbn [step].
  - left. unfold sendMessage. now apply Hpq.
  - left. now apply Hcore.
  - left. now apply Hcore.
  - set (Q := fun s' =>
      (settled (log s') = settled (log s)
       /\ (in_flight s' = in_flight s \/ in_flight s = []))
      \/ (exists p, in_flight s = [p]
                    /\ settled (log s') = settled (log s) ++ [p])).
    change (Q (handleIncoming s)).
    assert (HQ : forall s', core s = core s' -> Q s')
      by (intros s' Hs'; left; now apply Hcore).
    unfold handleIncoming.
    destruct (Str.startsWith (location_hash s) "INIT:").
    { left. apply Hpq; try reflexivity. fields. rewrite settled_app. apply app_nil_r. }
    destruct (negb _); [now apply HQ|].
    destruct (match_msg _) as [[[[[m1 type] id] seq] data]|]; [|now apply HQ].
    destruct (secret_differs _ _); [now apply HQ|].
    destruct (split_seq seq) as [indexStr totalStr].
    set (index := parseInt10 indexStr). set (total := parseInt10_opt totalStr).
    match goal with
    | |- Q (match ?c with _ => _ end) =>
        assert (Hc : match c with Some (s1, _) => core s1 = core s | None => True end)
    end.
    { destruct (incomingBuffers s !! id); [reflexivity|]. now destruct (new_Array total). }
    match goal with
    | |- Q (match ?c with _ => _ end) => destruct c as [[s1 buffer]|]
    end.
    2:{ apply HQ. unfold core. fields. rewrite settled_app. cbn. now rewrite app_nil_r. }
    set (s2 := sendRaw _ _).
    assert (Hs2 : core s = core s2).
    { rewrite <- Hc. subst s2. unfold core. fields. rewrite settled_app. cbn.
      now rewrite app_nil_r. }
    destruct (is_complete _ _); [|now apply HQ].
    destruct (decode_message _) as [e|message].
    { apply HQ. rewrite Hs2. unfold core. fields.
      rewrite !settled_app. cbn. now rewrite !app_nil_r. }
    set (s3 := set_incomingBuffers _ s2).
    assert (Hs3 : core s = core s3) by exact Hs2.
    destruct type.
    + apply HQ. rewrite Hs3. symmetry. apply core_dispatchRequest.
    + destruct (pendingRequests s3 !! id) as [p|] eqn:Hp; [|now apply HQ].
      right. exists p. unfold core in Hs3. injection Hs3 as E1 _ _ E4 _ _ _.
      split; [apply (Hsettle id); now rewrite E1|].
      fields. unfold resolver. rewrite settled_processQueue. fields.
      rewrite settled_app, E4. reflexivity.
  - left. apply Hcore. symmetry. apply core_handleAck.
  - unfold onTimeout.
    destruct (timers s !! key) as [[id p]|] eqn:Ht; [|left; now apply Hcore].
    fields. destruct (pendingRequests s !! id) as [p'|] eqn:Hp.
    + right. exists p.
      assert (p' = p) as ->.
      { destruct Hinv as (_ & _ & _ & Htim). now apply (Htim key id p). }
      split; [now apply (Hsettle id)|].
      rewrite settled_processQueue. fields. now rewrite settled_app.
    + left. split; [reflexivity|]. now left.
  - left. apply Hcore. symmetry. apply core_resume.
Qed.

(** A send while a request is in flight only queues. *)
Lemma contents_send_while_busy s m :
  isSending s = true ->
  sendMessage m s
  = set_sendQueue
      (sendQueue s ++ [{| q_message := m; q_promise := promises s |}])
      (set_promises (S (promises s)) s).
Proof. intros Hs. unfold sendMessage. now apply processQueue_busy. Qed.

End ContentsCallbacks.

(** ** The background script *)

(** The projections of a state built by the setters, and the calls that
    only set fields. *)
Ltac bg_fields :=
  unfold BG.same_core;
  cbn [BG.pendingRequests BG.incomingBuffers BG.messageHandlers BG.tabState
       BG.senders BG.timers BG.dispatches BG.handles BG.uuid_calls
       BG.promises BG.log BG.q_promise BG.q_message BG.queue BG.isSending
       BG.set_pendingRequests BG.set_incomingBuffers BG.set_messageHandlers
       BG.set_tabState BG.set_senders BG.set_timers BG.set_dispatches
       BG.set_handles BG.set_uuid_calls BG.set_promises BG.set_log
       BG.resolver BG.start_request BG.sendChunks BG.sendNext
       BG.updateTabHash BG.emit BG.dispatchRequest BG.set_tab_isSending
       BG.set_tab_queue].

Tactic Notation "bg_fields" "in" hyp(H) :=
  cbn [BG.pendingRequests BG.incomingBuffers BG.messageHandlers BG.tabState
       BG.senders BG.timers BG.dispatches BG.handles BG.uuid_calls
       BG.promises BG.log BG.q_promise BG.q_message BG.queue BG.isSending
       BG.set_pendingRequests BG.set_incomingBuffers BG.set_messageHandlers
       BG.set_tabState BG.set_senders BG.set_timers BG.set_dispatches
       BG.set_handles BG.set_uuid_calls BG.set_promises BG.set_log
       BG.resolver BG.start_request BG.sendChunks BG.sendNext
       BG.updateTabHash BG.emit BG.dispatchRequest BG.set_tab_isSending
       BG.set_tab_queue] in H.

Section BGFacts.

Context `{Platform}.

Import BG.

Lemma bg_settled_app t l1 l2 : settled t (l1 ++ l2) = settled t l1 ++ settled t l2.
Proof. unfold settled. apply flat_map_app. Qed.

Lemma bg_submitted_app t l1 l2 :
  submitted t (l1 ++ l2) = submitted t l1 ++ submitted t l2.
Proof. unfold submitted. apply flat_map_app. Qed.

Lemma bg_written_app t l1 l2 : written t (l1 ++ l2) = written t l1 ++ written t l2.
Proof. unfold written. apply flat_map_app. Qed.

Lemma bg_queue_inv_core s s' : same_core s s' -> queue_inv s -> queue_inv s'.
Proof.
  intros (E1 & E2 & E3 & E4 & E5 & E6 & _).
  unfold queue_inv, tab_inv, issued, in_flight.
  rewrite <- E1, <- E5, <- E6. intros (H1 & H2 & H3).
  split; [|auto]. intros t. rewrite <- E2, <- E3, <- E4. apply H1.
Qed.

Lemma same_core_refl s : same_core s s.
Proof. unfold same_core. repeat split. Qed.

Lemma same_core_trans s1 s2 s3 :
  same_core s1 s2 -> same_core s2 s3 -> same_core s1 s3.
Proof.
  unfold same_core.
  intros (A1 & A2 & A3 & A4 & A5 & A6 & A7) (B1 & B2 & B3 & B4 & B5 & B6 & B7).
  split; [congruence|]. split; [intros t; now rewrite A2|].
  split; [intros t; now rewrite A3|]. split; [intros t; now rewrite A4|].
  repeat split; congruence.
Qed.

Lemma same_core_emit e s :
  match e with Wrote _ _ _ | Uncaught _ => True | _ => False end ->
  same_core s (emit e s).
Proof.
  intros He. bg_fields.
  split; [reflexivity|]. split; [reflexivity|].
  split; [|split; [|repeat split; reflexivity]]; intros t;
    rewrite ?bg_settled_app, ?bg_submitted_app;
    destruct e; try contradiction; cbn; now rewrite app_nil_r.
Qed.

Lemma same_core_wrote tab base payload s :
  same_core s (updateTabHash tab base payload s).
Proof. now apply same_core_emit. Qed.

Lemma same_core_uncaught e s : same_core s (emit (Uncaught e) s).
Proof. now apply same_core_emit. Qed.

Lemma same_core_sendChunks tab type id data s :
  same_core s (sendChunks tab type id data s).
Proof. bg_fields. repeat split. Qed.

Lemma same_core_onUpdated key tab base h s : same_core s (onUpdated key tab base h s).
Proof.
  unfold onUpdated. destruct (senders s !! key) as [sd|]; [|apply same_core_refl].
  destruct (negb (s_listening sd)); [apply same_core_refl|].
  destruct (negb (tab =? s_tab sd)); [apply same_core_refl|].
  destruct (String.eqb h (expected_ack sd)); [|apply same_core_refl].
  destruct (s_index sd <? s_total sd).
  - unfold sendNext. eapply same_core_trans; [apply same_core_wrote|].
    unfold same_core. repeat split.
  - unfold same_core. repeat split.
Qed.

Lemma same_core_onTabGot key base s : same_core s (onTabGot key base s).
Proof.
  unfold onTabGot. destruct (senders s !! key) as [sd|]; [|apply same_core_refl].
  destruct (s_getting sd); [|apply same_core_refl].
  unfold sendNext. eapply same_core_trans; [apply same_core_wrote|].
  unfold same_core. repeat split.
Qed.

Lemma same_core_run_handlers key tab id m r n s :
  same_core s (run_handlers key tab id m r n s).
Proof.
  unfold run_handlers. destruct first_response as [[? ?]|]; unfold same_core; repeat split.
Qed.

Lemma same_core_resume key s : same_core s (resume key s).
Proof.
  unfold resume. destruct (dispatches s !! key) as [d|]; [|apply same_core_refl].
  destruct (d_awaited d) as [v|]; [|apply same_core_run_handlers].
  eapply same_core_trans; [|apply same_core_run_handlers].
  destruct (d_responded d); [apply same_core_refl|apply same_core_sendChunks].
Qed.

Lemma same_core_dispatchRequest tab id m s :
  same_core s (dispatchRequest tab id m s).
Proof. unfold same_core. repeat split. Qed.

Lemma tab_state_ensure t t' s : tab_state t' (ensureTabState t s) = tab_state t' s.
Proof.
  unfold ensureTabState, tab_state.
  destruct (tabState s !! t) eqn:E; [reflexivity|]. cbn.
  destruct (decide (t' = t)) as [->|Hne].
  - now rewrite lookup_insert_eq, E.
  - now rewrite lookup_insert_ne.
Qed.

Lemma same_core_ensure t s : same_core s (ensureTabState t s).
Proof.
  unfold same_core. repeat split; try (intros t'; now rewrite ?tab_state_ensure);
    unfold ensureTabState; now destruct (tabState s !! t).
Qed.


Lemma tab_state_set_isSending t b t' s :
  tab_state t' (set_tab_isSending t b s)
  = if decide (t' = t)
    then {| queue := queue (tab_state t s); isSending := b |}
    else tab_state t' s.
Proof.
  unfold set_tab_isSending, tab_state at 1. cbn [tabState set_tabState].
  destruct (decide (t' = t)) as [->|Hne].
  - now rewrite lookup_insert_eq.
  - now rewrite lookup_insert_ne.
Qed.

Lemma tab_state_set_queue t q t' s :
  tab_state t' (set_tab_queue t q s)
  = if decide (t' = t)
    then {| queue := q; isSending := isSending (tab_state t s) |}
    else tab_state t' s.
Proof.
  unfold set_tab_queue, tab_state at 1. cbn [tabState set_tabState].
  destruct (decide (t' = t)) as [->|Hne].
  - now rewrite lookup_insert_eq.
  - now rewrite lookup_insert_ne.
Qed.

Lemma in_flight_ext t s s' :
  (forall id p, pendingRequests s' !! id = Some (t, p)
                <-> pendingRequests s !! id = Some (t, p)) ->
  in_flight t s' = in_flight t s.
Proof.
  intros Hext. unfold in_flight. do 3 f_equal. apply map_eq. intros i.
  apply option_eq. intros [t0 p].
  rewrite !map_lookup_filter_Some. cbn.
  split; intros [Hl ->]; (split; [|reflexivity]); now apply Hext.
Qed.

Lemma in_flight_idle t s :
  (forall id p, pendingRequests s !! id <> Some (t, p)) -> in_flight t s = [].
Proof.
  intros Hno. unfold in_flight.
  replace (filter _ (pendingRequests s)) with (∅ : gmap string (nat * nat));
    [now rewrite map_to_list_empty|].
  symmetry. apply map_empty. intros i. apply map_lookup_filter_None.
  destruct (pendingRequests s !! i) as [[t0 p]|] eqn:E; [right|now left].
  intros x [= <-]. cbn. intros ->. now apply (Hno i p).
Qed.

Lemma in_flight_busy t s id p :
  pendingRequests s !! id = Some (t, p) ->
  (forall id' p', pendingRequests s !! id' = Some (t, p') -> id' = id) ->
  in_flight t s = [p].
Proof.
  intros Hl Huniq. unfold in_flight.
  replace (filter _ (pendingRequests s))
    with ({[id := (t, p)]} : gmap string (nat * nat));
    [now rewrite map_to_list_singleton|].
  apply map_eq. intros i. apply option_eq. intros [t0 p0].
  rewrite lookup_singleton_Some, map_lookup_filter_Some. cbn. split.
  - intros [<- [= <- <-]]. auto.
  - intros [Hi ->]. pose proof (Huniq _ _ Hi) as ->. split; congruence.
Qed.

Lemma tab_inv_ext t s s' :
  (forall id p, pendingRequests s' !! id = Some (t, p)
                <-> pendingRequests s !! id = Some (t, p)) ->
  tab_state t s' = tab_state t s ->
  settled t (log s') = settled t (log s) ->
  submitted t (log s') = submitted t (log s) ->
  tab_inv t s -> tab_inv t s'.
Proof.
  intros Hext Ets Ese Esu [Hcase Hfifo]. unfold tab_inv.
  rewrite Ets, Ese, Esu, (in_flight_ext t s s' Hext). split; [|exact Hfifo].
  destruct Hcase as [[Hs Hno]|[Hs (id & p & Hl & Hu)]].
  - left. split; [exact Hs|]. intros id p Hl. apply (Hno id p). now apply Hext.
  - right. split; [exact Hs|]. exists id, p. split; [now apply Hext|].
    intros id' p' Hl'. apply (Hu id' p'). now apply Hext.
Qed.

Hypothesis uuid_unique : unique_ids.

Lemma bg_issued_fresh s id : issued s id -> id <> randomUUID (uuid_calls s).
Proof. intros (n & Hn & ->) E. apply uuid_unique in E. lia. Qed.

(** The state between the guards of [processQueue] and [start_request]:
    the session of [t] is idle and [entry] heads its queue. *)
Lemma bg_queue_inv_start_request t entry rest s :
  queue_inv s ->
  isSending (tab_state t s) = false ->
  queue (tab_state t s) = entry :: rest ->
  queue_inv (start_request t entry rest s).
Proof.
  intros (Htabs & Hids & Htim) Hidle Hq.
  remember (randomUUID (uuid_calls s)) as id' eqn:Eid'.
  set (s' := start_request t entry rest s).
  assert (Hfresh : pendingRequests s !! id' = None).
  { destruct (pendingRequests s !! id') as [tp|] eqn:E; [|reflexivity].
    exfalso. apply (bg_issued_fresh s id'); [eauto | exact Eid']. }
  assert (Epend : pendingRequests s'
                  = <[id' := (t, q_promise entry)]> (pendingRequests s)).
  { subst s'. bg_fields. now rewrite <- Eid'. }
  assert (Elog : log s' = log s) by reflexivity.
  assert (Euuid : uuid_calls s' = S (uuid_calls s)) by reflexivity.
  assert (Etim : timers s'
                 = <[S (handles s) := (id', t, q_promise entry)]> (timers s)).
  { subst s'. bg_fields. now rewrite <- Eid'. }
  assert (Ets : forall t', tab_state t' s'
                = if decide (t' = t)
                  then {| queue := rest; isSending := true |}
                  else tab_state t' s).
  { intros t'. subst s'. unfold start_request.
    change (tab_state t' (set_tab_queue t rest (set_tab_isSending t true s))
            = if decide (t' = t)
              then {| queue := rest; isSending := true |}
              else tab_state t' s).
    rewrite tab_state_set_queue, !tab_state_set_isSending.
    destruct (decide (t' = t)) as [->|Hne]; [|reflexivity].
    destruct (decide (t = t)); [reflexivity | congruence]. }
  assert (Hiss_mono : forall id, issued s id -> issued s' id).
  { intros id (n & Hn & ->). exists n. rewrite Euuid. split; [lia|reflexivity]. }
  assert (Hnew : issued s' id').
  { exists (uuid_calls s). rewrite Euuid. split; [lia | exact Eid']. }
  destruct (Htabs t) as [Hcase Hfifo].
  destruct Hcase as [[_ Hno]|[Hbusy _]]; [|congruence].
  split; [|split].
  - intros t'. destruct (decide (t' = t)) as [->|Hne].
    + unfold tab_inv. rewrite Ets, Elog.
      destruct (decide (t = t)); [|congruence]. cbn [queue isSending].
      assert (Hl : pendingRequests s' !! id' = Some (t, q_promise entry)).
      { rewrite Epend. apply lookup_insert_eq. }
      assert (Hu : forall id1 p1, pendingRequests s' !! id1 = Some (t, p1) ->
                                  id1 = id').
      { intros id1 p1. rewrite Epend.
        intros [[<- _]|[_ Hl1]]%lookup_insert_Some; [reflexivity|].
        now destruct (Hno id1 p1). }
      split.
      * right. split; [reflexivity|]. eauto.
      * rewrite (in_flight_busy t s' id' _ Hl Hu).
        rewrite (in_flight_idle t s Hno), Hq in Hfifo. exact Hfifo.
    + apply (tab_inv_ext t' s s'); try (rewrite ?Elog; reflexivity).
      * intros id p. rewrite Epend. rewrite lookup_insert_Some. split.
        -- intros [[_ [= -> _]]|[_ Hl]]; [congruence | exact Hl].
        -- intros Hl. right. split; [|exact Hl]. intros <-. congruence.
      * rewrite Ets. destruct (decide (t' = t)); [congruence | reflexivity].
      * apply Htabs.
  - intros id tp. rewrite Epend.
    intros [[<- _]|[_ Hl]]%lookup_insert_Some; [exact Hnew|].
    apply Hiss_mono. eauto.
  - intros key id t0 p Hk. rewrite Etim in Hk.
    apply lookup_insert_Some in Hk as [[_ [= <- <- <-]]|[_ Hk]].
    + split; [exact Hnew|]. intros tp. rewrite Epend, lookup_insert_eq.
      congruence.
    + destruct (Htim _ _ _ _ Hk) as [Hi Hm]. split; [now apply Hiss_mono|].
      intros tp. rewrite Epend.
      intros [[<- _]|[_ Hl]]%lookup_insert_Some; [|now apply Hm].
      exfalso. apply (bg_issued_fresh s id'); [exact Hi | exact Eid'].
Qed.

Lemma bg_queue_inv_processQueue t s : queue_inv s -> queue_inv (processQueue t s).
Proof.
  intros Hinv. unfold processQueue.
  assert (Hinv' : queue_inv (ensureTabState t s)).
  { revert Hinv. apply bg_queue_inv_core, same_core_ensure. }
  destruct (isSending (tab_state t (ensureTabState t s))) eqn:Hs; [exact Hinv'|].
  destruct (queue (tab_state t (ensureTabState t s))) as [|entry rest] eqn:Hq;
    [exact Hinv'|].
  now apply bg_queue_inv_start_request.
Qed.


Lemma tab_state_start_request t entry rest t' s :
  tab_state t' (start_request t entry rest s)
  = if decide (t' = t)
    then {| queue := rest; isSending := true |}
    else tab_state t' s.
Proof.
  unfold start_request.
  change (tab_state t' (set_tab_queue t rest (set_tab_isSending t true s))
          = if decide (t' = t)
            then {| queue := rest; isSending := true |}
            else tab_state t' s).
  rewrite tab_state_set_queue, !tab_state_set_isSending.
  destruct (decide (t' = t)) as [->|Hne]; [|reflexivity].
  destruct (decide (t = t)); [reflexivity | congruence].
Qed.

Lemma ensure_set_pendingRequests t v s :
  ensureTabState t (set_pendingRequests v s)
  = set_pendingRequests v (ensureTabState t s).
Proof.
  unfold ensureTabState. cbn [tabState set_pendingRequests].
  destruct (tabState s !! t); reflexivity.
Qed.

Lemma ensure_fields t s :
  pendingRequests (ensureTabState t s) = pendingRequests s
  /\ uuid_calls (ensureTabState t s) = uuid_calls s
  /\ log (ensureTabState t s) = log s
  /\ timers (ensureTabState t s) = timers s
  /\ promises (ensureTabState t s) = promises s.
Proof. unfold ensureTabState. destruct (tabState s !! t); repeat split. Qed.

(** Deleting another identifier commutes with [processQueue], as far as
    [queue_inv] can tell. *)
Lemma processQueue_delete t id s :
  id <> randomUUID (uuid_calls s) ->
  same_core
    (processQueue t (set_pendingRequests (delete id (pendingRequests s)) s))
    (let s' := processQueue t s in
     set_pendingRequests (delete id (pendingRequests s')) s').
Proof.
  intros Hne. cbv zeta. unfold processQueue.
  rewrite ensure_set_pendingRequests.
  destruct (ensure_fields t s) as (Ep & Eu & _).
  rewrite <- Ep, <- Eu in *.
  set (s0 := ensureTabState t s) in *.
  change (tab_state t (set_pendingRequests (delete id (pendingRequests s0)) s0))
    with (tab_state t s0).
  destruct (isSending (tab_state t s0)); [apply same_core_refl|].
  destruct (queue (tab_state t s0)) as [|entry rest]; [apply same_core_refl|].
  unfold same_core. split; [|split; [|repeat split]].
  - bg_fields. symmetry. apply delete_insert_ne. exact Hne.
  - intros t'.
    change (tab_state t' (start_request t entry rest
                            (set_pendingRequests
                               (delete id (pendingRequests s0)) s0))
            = tab_state t' (start_request t entry rest s0)).
    rewrite !tab_state_start_request.
    destruct (decide (t' = t)); reflexivity.
Qed.


(** The request [id] of tab [t] is settled: the session of [t] is idle. *)
Lemma bg_queue_inv_settled s s1 id t p :
  queue_inv s ->
  pendingRequests s !! id = Some (t, p) ->
  pendingRequests s1 = delete id (pendingRequests s) ->
  (forall t', tab_state t' s1
              = if decide (t' = t)
                then {| queue := queue (tab_state t s); isSending := false |}
                else tab_state t' s) ->
  (forall t', settled t' (log s1)
              = settled t' (log s) ++ if decide (t' = t) then [p] else []) ->
  (forall t', submitted t' (log s1) = submitted t' (log s)) ->
  uuid_calls s1 = uuid_calls s ->
  timers s1 ⊆ timers s ->
  queue_inv s1.
Proof.
  intros (Htabs & Hids & Htim) Hl Ep Ets Ese Esu Eu Eti.
  split; [|split].
  - intros t'. destruct (decide (t' = t)) as [->|Hne].
    + destruct (Htabs t) as [[[_ Hno]|[_ (id0 & p0 & Hl0 & Hu)]] Hfifo].
      { now destruct (Hno id p). }
      pose proof (Hu _ _ Hl) as ->. rewrite Hl0 in Hl. injection Hl as ->.
      assert (Hno : forall id' p', pendingRequests s1 !! id' <> Some (t, p')).
      { intros id' p'. rewrite Ep. intros [Hd Hl']%lookup_delete_Some.
        apply Hd. symmetry. now apply (Hu id' p'). }
      unfold tab_inv. rewrite Ets, Ese, Esu, (in_flight_idle t s1 Hno).
      destruct (decide (t = t)); [|congruence]. cbn [queue isSending].
      split; [left; split; [reflexivity | exact Hno]|].
      rewrite (in_flight_busy t s id0 p Hl0 Hu) in Hfifo.
      rewrite <- app_assoc. exact Hfifo.
    + apply (tab_inv_ext t' s s1).
      * intros i q. rewrite Ep, lookup_delete_Some. split; [tauto|].
        intros Hi. split; [|exact Hi]. intros <-. congruence.
      * rewrite Ets. destruct (decide (t' = t)); [congruence | reflexivity].
      * rewrite Ese. destruct (decide (t' = t)); [congruence|].
        apply app_nil_r.
      * apply Esu.
      * apply Htabs.
  - intros i tp. rewrite Ep. intros [_ Hi]%lookup_delete_Some.
    destruct (Hids _ _ Hi) as (n & Hn & ->). exists n. rewrite Eu. auto.
  - intros key i t0 q Hk. apply (lookup_weaken _ _ _ _ Hk) in Eti.
    destruct (Htim _ _ _ _ Eti) as [(n & Hn & ->) Hm]. split.
    + exists n. rewrite Eu. auto.
    + intros tp. rewrite Ep. intros [_ Hi]%lookup_delete_Some. now apply Hm.
Qed.

Lemma bg_log_settle_fields t p (e : Effect) s :
  (e = Rejected t p \/ exists v, e = Resolved t p v) ->
  (forall t', settled t' (log s ++ [e])
              = settled t' (log s) ++ if decide (t' = t) then [p] else [])
  /\ (forall t', submitted t' (log s ++ [e]) = submitted t' (log s)).
Proof.
  intros He. split; intros t'.
  - rewrite bg_settled_app. f_equal.
    assert (E : settled t' [e] = if t =? t' then [p] else []).
    { destruct He as [->|[v ->]]; cbn; now rewrite app_nil_r. }
    rewrite E. destruct (decide (t' = t)) as [->|Hne].
    + now rewrite Nat.eqb_refl.
    + replace (t =? t') with false; [reflexivity|].
      symmetry. apply Nat.eqb_neq. congruence.
  - rewrite bg_submitted_app.
    destruct He as [->|[v ->]]; cbn; now rewrite app_nil_r.
Qed.

Lemma bg_queue_inv_onTimeout key s : queue_inv s -> queue_inv (onTimeout key s).
Proof.
  intros Hinv. unfold onTimeout.
  destruct (timers s !! key) as [[[id t] p]|] eqn:Ht; [|exact Hinv].
  cbn [pendingRequests set_timers].
  destruct (pendingRequests s !! id) as [tp|] eqn:Hp.
  - assert (tp = (t, p)) as ->.
    { destruct Hinv as (_ & _ & Htim). now apply (Htim key id t p). }
    apply bg_queue_inv_processQueue.
    destruct (bg_log_settle_fields t p (Rejected t p) s) as [Ese Esu]; [auto|].
    apply (bg_queue_inv_settled s _ id t p); try assumption; try reflexivity.
    + intros t'. rewrite tab_state_set_isSending. reflexivity.
    + bg_fields. apply delete_subseteq.
  - destruct Hinv as (H1 & H2 & H3). split; [exact H1|]. split; [exact H2|].
    intros key' id' t' q Hk. cbn [timers set_timers] in Hk.
    apply lookup_delete_Some in Hk as [_ Hk]. now apply (H3 key' id' t' q).
Qed.

Lemma bg_queue_inv_resolve s id t p result :
  queue_inv s ->
  pendingRequests s !! id = Some (t, p) ->
  let s' := resolver t p result s in
  queue_inv (set_pendingRequests (delete id (pendingRequests s')) s').
Proof.
  intros Hinv Hp s'. subst s'. unfold resolver.
  set (Y := set_tab_isSending t false (emit (Resolved t p result) s)).
  assert (Hne : id <> randomUUID (uuid_calls Y)).
  { destruct Hinv as (_ & Hids & _). apply (bg_issued_fresh s id). eauto. }
  apply (bg_queue_inv_core _ _ (processQueue_delete t id Y Hne)).
  apply bg_queue_inv_processQueue.
  destruct (bg_log_settle_fields t p (Resolved t p result) s) as [Ese Esu];
    [eauto|].
  apply (bg_queue_inv_settled s _ id t p); try assumption; try reflexivity.
  intros t'. subst Y.
  change (tab_state t' (set_tab_isSending t false (emit (Resolved t p result) s))
          = if decide (t' = t)
            then {| queue := queue (tab_state t s); isSending := false |}
            else tab_state t' s).
  rewrite tab_state_set_isSending. reflexivity.
Qed.

Lemma bg_queue_inv_handleIncoming tab base h s :
  queue_inv s -> queue_inv (handleIncoming tab base h s).
Proof.
  intros Hinv. unfold handleIncoming.
  destruct (negb _); [assumption|].
  destruct (match_msg h) as [[[[type id] seq] data]|]; [|assumption].
  destruct (split_seq seq) as [indexStr totalStr].
  set (index := parseInt10 indexStr). set (total := parseInt10_opt totalStr).
  match goal with
  | |- queue_inv (match ?c with _ => _ end) =>
      assert (Hc : match c with
                   | Some (s1, _) => same_core s s1
                   | None => True
                   end)
  end.
  { destruct (incomingBuffers s !! id); [apply same_core_refl|].
    destruct (new_Array total); [|exact I]. unfold same_core. repeat split. }
  match goal with
  | |- queue_inv (match ?c with _ => _ end) => destruct c as [[s1 buffer]|]
  end.
  2:{ revert Hinv. apply bg_queue_inv_core, same_core_uncaught. }
  set (s2 := updateTabHash _ _ _ _).
  assert (Hs2 : queue_inv s2).
  { revert Hinv. apply bg_queue_inv_core.
    eapply same_core_trans; [exact Hc|].
    eapply same_core_trans; [|apply same_core_wrote].
    unfold same_core. repeat split. }
  destruct (is_complete _ _); [|assumption].
  destruct (decode_message _) as [e|message].
  { revert Hs2. apply bg_queue_inv_core, same_core_uncaught. }
  set (s3 := set_incomingBuffers _ s2).
  assert (Hs3 : queue_inv s3).
  { revert Hs2. apply bg_queue_inv_core. unfold same_core. repeat split. }
  destruct type.
  - revert Hs3. apply bg_queue_inv_core, same_core_dispatchRequest.
  - destruct (pendingRequests s3 !! id) as [[t p]|] eqn:Hp; [|assumption].
    now apply bg_queue_inv_resolve.
Qed.

Lemma bg_queue_inv_sendMessage t m s :
  queue_inv s -> queue_inv (sendMessage t m s).
Proof.
  intros Hinv. unfold sendMessage. apply bg_queue_inv_processQueue.
  assert (Hinv' : queue_inv (ensureTabState t s)).
  { revert Hinv. apply bg_queue_inv_core, same_core_ensure. }
  set (s0 := ensureTabState t s) in *.
  destruct Hinv' as (Htabs & Hids & Htim).
  set (p := promises s0).
  set (s1 := set_tab_queue t _ _).
  assert (Ets : forall t', tab_state t' s1
                = if decide (t' = t)
                  then {| queue := queue (tab_state t s0)
                                   ++ [{| q_message := m; q_promise := p |}];
                          isSending := isSending (tab_state t s0) |}
                  else tab_state t' s0).
  { intros t'. subst s1. rewrite tab_state_set_queue. reflexivity. }
  assert (Elog : log s1 = log s0 ++ [Promised t p]) by reflexivity.
  split; [|split].
  - intros t'. destruct (decide (t' = t)) as [->|Hne].
    + destruct (Htabs t) as [Hcase Hfifo]. unfold tab_inv.
      rewrite Ets, Elog, bg_settled_app, bg_submitted_app.
      destruct (decide (t = t)); [|congruence]. cbn [queue isSending].
      rewrite (in_flight_ext t s0 s1) by (intros; reflexivity).
      split; [exact Hcase|].
      cbn [settled submitted flat_map]. rewrite Nat.eqb_refl, !app_nil_r.
      rewrite map_app, !app_assoc. cbn [map q_promise]. f_equal.
      rewrite <- app_assoc. exact Hfifo.
    + apply (tab_inv_ext t' s0 s1).
      * intros; reflexivity.
      * rewrite Ets. destruct (decide (t' = t)); [congruence | reflexivity].
      * rewrite Elog, bg_settled_app. cbn. apply app_nil_r.
      * rewrite Elog, bg_submitted_app. cbn [submitted flat_map].
        replace (t =? t') with false; [now rewrite !app_nil_r|].
        symmetry. apply Nat.eqb_neq. congruence.
      * apply Htabs.
  - exact Hids.
  - exact Htim.
Qed.

Lemma bg_queue_inv_step s e : queue_inv s -> queue_inv (step s e).
Proof.
  destruct e; cbn [step].
  - apply bg_queue_inv_sendMessage.
  - apply bg_queue_inv_core. unfold same_core. repeat split.
  - apply bg_queue_inv_handleIncoming.
  - apply bg_queue_inv_core, same_core_onUpdated.
  - apply bg_queue_inv_core, same_core_onTabGot.
  - apply bg_queue_inv_onTimeout.
  - apply bg_queue_inv_core, same_core_resume.
Qed.

Lemma bg_queue_inv_init : queue_inv init.
Proof.
  split; [|split].
  - intros t. unfold tab_inv.
    assert (Hno : forall id p, pendingRequests init !! id <> Some (t, p)).
    { intros id p. cbn [init pendingRequests]. now rewrite lookup_empty. }
    rewrite (in_flight_idle t init Hno). split; [|reflexivity].
    left. split; [reflexivity | exact Hno].
  - intros id tp. cbn [init pendingRequests]. now rewrite lookup_empty.
  - intros key id t p. cbn [init timers]. now rewrite lookup_empty.
Qed.

Lemma bg_queue_inv_fold evs :
  forall s, queue_inv s -> queue_inv (fold_left step evs s).
Proof.
  induction evs as [|e evs IH]; intros s Hs; [assumption|].
  cbn [fold_left]. apply IH, bg_queue_inv_step, Hs.
Qed.

Lemma bg_queue_inv_run evs : queue_inv (run evs).
Proof. apply bg_queue_inv_fold, bg_queue_inv_init. Qed.


End BGFacts.

Section BGQueue.
Context `{Platform}.
Import BG.

(** What [handleIncoming] does to the queues: nothing, or it resolves a
    pending request. *)
Lemma bg_handleIncoming_cases tab base h s :
  same_core s (handleIncoming tab base h s)
  \/ exists s3 id t p v,
       same_core s s3
       /\ pendingRequests s3 !! id = Some (t, p)
       /\ handleIncoming tab base h s
          = set_pendingRequests
              (delete id (pendingRequests (resolver t p v s3)))
              (resolver t p v s3).
Proof.
  unfold handleIncoming.
  destruct (negb _); [left; apply same_core_refl|].
  destruct (match_msg h) as [[[[type id] seq] data]|];
    [|left; apply same_core_refl].
  destruct (split_seq seq) as [indexStr totalStr].
  set (index := parseInt10 indexStr). set (total := parseInt10_opt totalStr).
  match goal with
  | |- _ (match ?c with _ => _ end) \/ _ =>
      assert (Hc : match c with
                   | Some (s1, _) => same_core s s1
                   | None => True
                   end);
      [|destruct c as [[s1 buffer]|]]
  end.
  { destruct (incomingBuffers s !! id); [apply same_core_refl|].
    destruct (new_Array total); [|exact I]. unfold same_core. repeat split. }
  2:{ left. apply same_core_uncaught. }
  set (s2 := updateTabHash _ _ _ _).
  assert (Hs2 : same_core s s2).
  { eapply same_core_trans; [exact Hc|].
    eapply same_core_trans; [|apply same_core_wrote].
    unfold same_core. repeat split. }
  destruct (is_complete _ _); [|left; exact Hs2].
  destruct (decode_message _) as [e|message].
  { left. eapply same_core_trans; [exact Hs2|]. apply same_core_uncaught. }
  set (s3 := set_incomingBuffers _ s2).
  assert (Hs3 : same_core s s3).
  { eapply same_core_trans; [exact Hs2|]. unfold same_core. repeat split. }
  destruct type.
  - left. eapply same_core_trans; [exact Hs3|]. apply same_core_dispatchRequest.
  - destruct (pendingRequests s3 !! id) as [[t p]|] eqn:Hp; [|left; exact Hs3].
    right. exists s3, id, t, p, message. auto.
Qed.

Lemma bg_processQueue_log t s :
  log (processQueue t s) = log s /\ promises (processQueue t s) = promises s.
Proof.
  unfold processQueue. destruct (ensure_fields t s) as (_ & _ & El & _ & Ep).
  destruct (isSending _); [auto|]. destruct (queue _); [auto|].
  rewrite <- El, <- Ep. split; reflexivity.
Qed.


Lemma bg_processQueue_pending t s :
  pendingRequests (processQueue t s) = pendingRequests s
  \/ (isSending (tab_state t s) = false
      /\ exists q,
           pendingRequests (processQueue t s)
           = <[randomUUID (uuid_calls s) := (t, q)]> (pendingRequests s)).
Proof.
  unfold processQueue. destruct (ensure_fields t s) as (Ep & Eu & _).
  rewrite <- Ep, <- Eu, <- (tab_state_ensure t t s).
  destruct (isSending _) eqn:Hs; [now left|].
  destruct (queue _) as [|entry rest]; [now left|].
  right. split; [reflexivity|]. exists (q_promise entry). reflexivity.
Qed.

Lemma in_flight_same_pending t s s' :
  pendingRequests s' = pendingRequests s -> in_flight t s' = in_flight t s.
Proof. unfold in_flight. now intros ->. Qed.

Hypothesis uuid_unique : unique_ids.

Lemma bg_in_flight_processQueue t t' s0 s1 :
  queue_inv s0 ->
  pendingRequests s1 = pendingRequests s0 ->
  uuid_calls s1 = uuid_calls s0 ->
  isSending (tab_state t s1) = isSending (tab_state t s0) ->
  in_flight t' (processQueue t s1) = in_flight t' s0 \/ in_flight t' s0 = [].
Proof.
  intros (Htabs & Hids & _) Ep Eu Es.
  destruct (bg_processQueue_pending t s1) as [E|[Hidle [q E]]].
  { left. apply in_flight_same_pending. congruence. }
  rewrite Ep, Eu in E. rewrite Es in Hidle.
  destruct (decide (t' = t)) as [->|Hne].
  - right. destruct (Htabs t) as [[[_ Hno]|[Hb _]] _]; [|congruence].
    now apply in_flight_idle.
  - left. apply in_flight_ext. intros id p. rewrite E, lookup_insert_Some.
    split.
    + intros [[_ [= -> _]]|[_ Hl]]; [congruence | exact Hl].
    + intros Hl. right. split; [|exact Hl]. intros <-.
      apply (bg_issued_fresh uuid_unique s0 _ (Hids _ _ Hl)). reflexivity.
Qed.


(** How one step moves the session of tab [t']: see [bg_in_flight_step]. *)
Lemma bg_settle_step s s1 F id t p t' :
  queue_inv s -> queue_inv s1 ->
  pendingRequests s !! id = Some (t, p) ->
  pendingRequests s1 = delete id (pendingRequests s) ->
  (forall t', settled t' (log s1)
              = settled t' (log s) ++ if decide (t' = t) then [p] else []) ->
  pendingRequests F = pendingRequests (processQueue t s1) ->
  (forall t', settled t' (log F) = settled t' (log s1)) ->
  (settled t' (log F) = settled t' (log s)
   /\ (in_flight t' F = in_flight t' s \/ in_flight t' s = []))
  \/ (exists p, in_flight t' s = [p]
                /\ settled t' (log F) = settled t' (log s) ++ [p]).
Proof.
  intros Hinv Hinv1 Hp Ep Ese EF EseF.
  destruct (decide (t' = t)) as [->|Hne].
  - right. exists p. split.
    + destruct Hinv as (Htabs & _).
      destruct (Htabs t) as [[[_ Hno]|[_ (id0 & p0 & Hl0 & Hu)]] _].
      { now destruct (Hno id p). }
      pose proof (Hu _ _ Hp) as ->. rewrite Hl0 in Hp. injection Hp as ->.
      now apply (in_flight_busy t s id0).
    + rewrite EseF, Ese. destruct (decide (t = t)); [reflexivity | congruence].
  - left. split.
    + rewrite EseF, Ese. destruct (decide (t' = t)); [congruence|].
      apply app_nil_r.
    + assert (E1 : in_flight t' s1 = in_flight t' s).
      { apply in_flight_ext. intros i q. rewrite Ep, lookup_delete_Some.
        split; [tauto|]. intros Hi. split; [|exact Hi]. intros <-. congruence. }
      rewrite (in_flight_same_pending t' _ _ EF), <- E1.
      now apply bg_in_flight_processQueue.
Qed.

Lemma bg_settled_same_core t s s' :
  same_core s s' ->
  settled t (log s') = settled t (log s) /\ in_flight t s' = in_flight t s.
Proof.
  intros (E1 & _ & E3 & _). split; [now rewrite E3|].
  now apply in_flight_same_pending.
Qed.

Lemma bg_in_flight_step s e t :
  queue_inv s ->
  (settled t (log (step s e)) = settled t (log s)
   /\ (in_flight t (step s e) = in_flight t s \/ in_flight t s = []))
  \/ (exists p, in_flight t s = [p]
                /\ settled t (log (step s e)) = settled t (log s) ++ [p]).
Proof.
  intros Hinv.
  assert (Hcore : forall s', same_core s s' ->
            settled t (log s') = settled t (log s)
            /\ (in_flight t s' = in_flight t s \/ in_flight t s = [])).
  { intros s' Hs'. destruct (bg_settled_same_core t s s' Hs'). auto. }
  destruct e as [t0 m|hd|t0 base h|key t0 base h|key base|key|key]; cbn [step].
  - left. unfold sendMessage.
    destruct (ensure_fields t0 s) as (Ep & Eu & El & _).
    split.
    + rewrite (proj1 (bg_processQueue_log _ _)). bg_fields.
      rewrite El, bg_settled_app. cbn. apply app_nil_r.
    + apply bg_in_flight_processQueue; try assumption.
      rewrite tab_state_set_queue. destruct (decide (t0 = t0)); [|congruence].
      cbn [isSending].
      change (isSending (tab_state t0 (ensureTabState t0 s))
              = isSending (tab_state t0 s)).
      now rewrite tab_state_ensure.
  - left. apply Hcore. unfold same_core. repeat split.
  - destruct (bg_handleIncoming_cases t0 base h s)
      as [Hs|(s3 & id & t1 & p & v & Hs3 & Hp & ->)]; [left; now apply Hcore|].
    assert (Hinv3 : queue_inv s3) by (revert Hinv; now apply bg_queue_inv_core).
    destruct (bg_settled_same_core t s s3 Hs3) as [E1 E2].
    rewrite <- E1, <- E2.
    set (Y := set_tab_isSending t1 false (emit (Resolved t1 p v) s3)).
    set (s1 := set_pendingRequests (delete id (pendingRequests Y)) Y).
    destruct (bg_log_settle_fields t1 p (Resolved t1 p v) s3) as [Ese Esu];
      [eauto|].
    assert (Hne : id <> randomUUID (uuid_calls Y)).
    { destruct Hinv3 as (_ & Hids & _).
      apply (bg_issued_fresh uuid_unique s3 id). eauto. }
    pose proof (processQueue_delete t1 id Y Hne) as HF. cbv zeta in HF.
    apply (bg_settle_step s3 s1 _ id t1 p t); try assumption; try reflexivity.
    + apply (bg_queue_inv_settled s3 s1 id t1 p);
        try assumption; try reflexivity.
      intros t'. subst s1 Y.
      change (tab_state t' (set_tab_isSending t1 false
                              (emit (Resolved t1 p v) s3))
              = if decide (t' = t1)
                then {| queue := queue (tab_state t1 s3); isSending := false |}
                else tab_state t' s3).
      rewrite tab_state_set_isSending. reflexivity.
    + symmetry. apply HF.
    + intros t'. destruct HF as (_ & _ & E3 & _). rewrite <- E3.
      now rewrite (proj1 (bg_processQueue_log _ _)).
  - left. apply Hcore, same_core_onUpdated.
  - left. apply Hcore, same_core_onTabGot.
  - unfold onTimeout.
    destruct (timers s !! key) as [[[id t1] p]|] eqn:Ht;
      [|left; apply Hcore, same_core_refl].
    cbn [pendingRequests set_timers].
    destruct (pendingRequests s !! id) as [tp|] eqn:Hp.
    + assert (tp = (t1, p)) as ->.
      { destruct Hinv as (_ & _ & Htim). now apply (Htim key id t1 p). }
      destruct (bg_log_settle_fields t1 p (Rejected t1 p) s) as [Ese Esu];
        [auto|].
      set (s1 := set_tab_isSending t1 false
                   (emit (Rejected t1 p)
                      (set_pendingRequests (delete id (pendingRequests s))
                         (set_timers (delete key (timers s)) s)))).
      apply (bg_settle_step s s1 _ id t1 p t); try assumption;
        try reflexivity.
      * apply (bg_queue_inv_settled s _ id t1 p);
          try assumption; try reflexivity.
        -- intros t'. subst s1. rewrite tab_state_set_isSending. reflexivity.
        -- subst s1. bg_fields. apply delete_subseteq.
      * intros t'. now rewrite (proj1 (bg_processQueue_log _ _)).
    + left. split; [reflexivity|]. now left.
  - left. apply Hcore, same_core_resume.
Qed.


(** Only [sendMessage] hands out a promise. *)
Lemma bg_submitted_step s e t :
  submitted t (log (step s e))
  = submitted t (log s)
    ++ match e with
       | SendMessage t0 _ => if t0 =? t then [promises s] else []
       | _ => []
       end
  /\ promises (step s e)
     = match e with
       | SendMessage _ _ => S (promises s)
       | _ => promises s
       end.
Proof.
  assert (Hcore : forall s', same_core s s' ->
            submitted t (log s') = submitted t (log s) ++ []
            /\ promises s' = promises s).
  { intros s' (_ & _ & _ & E4 & _ & _ & E7). now rewrite app_nil_r, E4, E7. }
  destruct e as [t0 m|hd|t0 base h|key t0 base h|key base|key|key]; cbn [step].
  - unfold sendMessage. destruct (ensure_fields t0 s) as (_ & _ & El & _ & Ep).
    destruct (bg_processQueue_log t0
                (set_tab_queue t0
                   (queue (tab_state t0
                      (emit (Promised t0 (promises (ensureTabState t0 s)))
                         (set_promises (S (promises (ensureTabState t0 s)))
                            (ensureTabState t0 s))))
                    ++ [{| q_message := m;
                           q_promise := promises (ensureTabState t0 s) |}])
                   (emit (Promised t0 (promises (ensureTabState t0 s)))
                      (set_promises (S (promises (ensureTabState t0 s)))
                         (ensureTabState t0 s))))) as [E1 E2].
    cbv zeta. rewrite E1, E2. bg_fields. rewrite El, Ep, bg_submitted_app.
    split; [|reflexivity]. f_equal. cbn. now rewrite app_nil_r.
  - apply Hcore. unfold same_core. repeat split.
  - destruct (bg_handleIncoming_cases t0 base h s)
      as [Hs|(s3 & id & t1 & p & v & Hs3 & Hp & ->)]; [now apply Hcore|].
    destruct (Hcore s3 Hs3) as [E1 E2]. rewrite <- E1, <- E2.
    cbn [log promises set_pendingRequests]. unfold resolver.
    destruct (bg_processQueue_log t1
                (set_tab_isSending t1 false (emit (Resolved t1 p v) s3)))
      as [-> ->].
    bg_fields. rewrite bg_submitted_app. cbn. now rewrite !app_nil_r.
  - apply Hcore, same_core_onUpdated.
  - apply Hcore, same_core_onTabGot.
  - unfold onTimeout.
    destruct (timers s !! key) as [[[id t1] p]|] eqn:Ht;
      [|apply Hcore, same_core_refl].
    cbn [pendingRequests set_timers].
    destruct (pendingRequests s !! id) as [tp|] eqn:Hp.
    + match goal with
      | |- context [processQueue t1 ?X] =>
          destruct (bg_processQueue_log t1 X) as [-> ->]
      end.
      bg_fields. rewrite bg_submitted_app. cbn. now rewrite !app_nil_r.
    + cbn [log promises set_timers]. now rewrite app_nil_r.
  - apply Hcore, same_core_resume.
Qed.

Lemma bg_submitted_fresh evs t :
  NoDup (submitted t (log (run evs)))
  /\ Forall (fun p => p < promises (run evs)) (submitted t (log (run evs))).
Proof.
  unfold run.
  assert (Hfold : forall s,
            NoDup (submitted t (log s))
            /\ Forall (fun p => p < promises s) (submitted t (log s)) ->
            NoDup (submitted t (log (fold_left step evs s)))
            /\ Forall (fun p => p < promises (fold_left step evs s))
                 (submitted t (log (fold_left step evs s)))).
  { induction evs as [|e evs IH]; intros s Hs; [exact Hs|].
    cbn [fold_left]. apply IH. destruct Hs as [Hnd Hlt].
    destruct (bg_submitted_step s e t) as [-> ->].
    assert (Hmono : Forall (fun p => p < S (promises s)) (submitted t (log s))).
    { eapply Forall_impl; [exact Hlt|]. cbn. intros; lia. }
    destruct e as [t0 m| | | | | | ]; rewrite ?app_nil_r; try (split; assumption).
    destruct (t0 =? t); rewrite ?app_nil_r; [|split; assumption].
    split.
    - apply NoDup_app. split; [exact Hnd|]. split; [|apply NoDup_singleton].
      intros p Hp [->|Hn]%elem_of_cons; [|now apply elem_of_nil in Hn].
      rewrite Forall_forall in Hlt. apply Hlt in Hp. lia.
    - apply Forall_app. split; [exact Hmono|]. apply Forall_singleton. lia. }
  apply Hfold. cbn. split; constructor.
Qed.


Lemma bg_queue_inv_in_flight s t :
  queue_inv s ->
  (isSending (tab_state t s) = true <-> length (in_flight t s) = 1)
  /\ length (in_flight t s) <= 1.
Proof.
  intros (Htabs & _).
  destruct (Htabs t) as [[[Hs Hno]|[Hs (id & p & Hl & Hu)]] _].
  - rewrite (in_flight_idle t s Hno), Hs. cbn.
    repeat split; try lia; discriminate.
  - rewrite (in_flight_busy t s id p Hl Hu), Hs. cbn. repeat split; lia.
Qed.

Lemma bg_settled_nodup s t :
  queue_inv s -> NoDup (submitted t (log s)) -> NoDup (settled t (log s)).
Proof.
  intros (Htabs & _) Hnd. destruct (Htabs t) as [_ Hfifo].
  rewrite <- Hfifo in Hnd. now apply NoDup_app in Hnd as [Hnd _].
Qed.

Lemma bg_in_flight_not_settled s t p :
  queue_inv s -> NoDup (submitted t (log s)) ->
  In p (in_flight t s) -> ~ In p (settled t (log s)).
Proof.
  intros (Htabs & _) Hnd Hin Hse. destruct (Htabs t) as [_ Hfifo].
  rewrite <- Hfifo in Hnd. apply NoDup_app in Hnd as (_ & Hdis & _).
  apply (Hdis p); [now apply list_elem_of_In|].
  apply elem_of_app. left. now apply list_elem_of_In.
Qed.

(** A timer whose request is settled finds no pending entry. *)
Lemma bg_timer_noop s key id t p :
  queue_inv s -> NoDup (submitted t (log s)) ->
  timers s !! key = Some (id, t, p) ->
  In p (settled t (log s)) ->
  onTimeout key s = set_timers (delete key (timers s)) s.
Proof.
  intros Hinv Hnd Ht Hse. unfold onTimeout. rewrite Ht.
  cbn [pendingRequests set_timers].
  destruct (pendingRequests s !! id) as [tp|] eqn:Hp; [|reflexivity].
  exfalso. apply (bg_in_flight_not_settled s t p Hinv Hnd); [|exact Hse].
  destruct Hinv as (Htabs & _ & Htim).
  destruct (Htim key id t p Ht) as [_ Hm]. pose proof (Hm _ Hp) as ->.
  destruct (Htabs t) as [[[_ Hno]|[_ (id0 & p0 & Hl & Hu)]] _].
  - now destruct (Hno id p).
  - pose proof (Hu _ _ Hp) as ->. rewrite Hl in Hp. injection Hp as ->.
    rewrite (in_flight_busy t s id0 p Hl Hu). now left.
Qed.

Lemma bg_settled_In_Resolved l t p v :
  In (Resolved t p v) l -> In p (settled t l).
Proof.
  intros Hin. unfold settled. apply in_flat_map. exists (Resolved t p v).
  split; [exact Hin|]. rewrite Nat.eqb_refl. now left.
Qed.

(** *** Sending while busy, and the timeout *)

Lemma bg_processQueue_busy t s :
  tabState s !! t = Some (tab_state t s) ->
  isSending (tab_state t s) = true -> processQueue t s = s.
Proof.
  intros Ht Hb. unfold processQueue, ensureTabState. rewrite Ht.
  now rewrite Hb.
Qed.

Lemma bg_processQueue_empty t s :
  tabState s !! t = Some (tab_state t s) ->
  queue (tab_state t s) = [] -> processQueue t s = s.
Proof.
  intros Ht Hq. unfold processQueue, ensureTabState. rewrite Ht, Hq.
  now destruct (isSending _).
Qed.

Lemma bg_processQueue_fire t s entry rest :
  tabState s !! t = Some (tab_state t s) ->
  isSending (tab_state t s) = false ->
  queue (tab_state t s) = entry :: rest ->
  processQueue t s = start_request t entry rest s.
Proof.
  intros Ht Hb Hq. unfold processQueue, ensureTabState.
  now rewrite Ht, Hb, Hq.
Qed.

Lemma tabState_set_isSending t b s :
  let s' := set_tab_isSending t b s in
  tabState s' !! t = Some (tab_state t s').
Proof.
  cbv zeta. unfold tab_state, set_tab_isSending. cbn [tabState set_tabState].
  now rewrite lookup_insert_eq.
Qed.

Lemma tabState_set_queue t q s :
  let s' := set_tab_queue t q s in
  tabState s' !! t = Some (tab_state t s').
Proof.
  cbv zeta. unfold tab_state, set_tab_queue. cbn [tabState set_tabState].
  now rewrite lookup_insert_eq.
Qed.

(** A send to a busy tab only queues: nothing is written. *)
Lemma bg_send_while_busy t m s :
  isSending (tab_state t s) = true ->
  sendMessage t m s
  = let s0 := ensureTabState t s in
    set_tab_queue t
      (queue (tab_state t s0)
       ++ [{| q_message := m; q_promise := promises s0 |}])
      (emit (Promised t (promises s0)) (set_promises (S (promises s0)) s0)).
Proof.
  intros Hb. unfold sendMessage. cbv zeta.
  apply bg_processQueue_busy; [apply tabState_set_queue|].
  rewrite tab_state_set_queue. destruct (decide (t = t)); [|congruence].
  cbn [isSending].
  change (isSending (tab_state t (ensureTabState t s)) = true).
  now rewrite tab_state_ensure.
Qed.

Lemma bg_timeout s key id t p tp :
  timers s !! key = Some (id, t, p) ->
  pendingRequests s !! id = Some tp ->
  let s1 := set_tab_isSending t false
              (emit (Rejected t p)
                 (set_pendingRequests (delete id (pendingRequests s))
                    (set_timers (delete key (timers s)) s))) in
  onTimeout key s = processQueue t s1
  /\ pendingRequests s1 = delete id (pendingRequests s)
  /\ log s1 = log s ++ [Rejected t p]
  /\ isSending (tab_state t s1) = false
  /\ queue (tab_state t s1) = queue (tab_state t s)
  /\ (queue (tab_state t s) = [] -> onTimeout key s = s1)
  /\ (forall entry rest,
        queue (tab_state t s) = entry :: rest ->
        onTimeout key s = start_request t entry rest s1).
Proof.
  intros Ht Hp s1.
  assert (E : onTimeout key s = processQueue t s1).
  { unfold onTimeout. rewrite Ht. cbn [pendingRequests set_timers].
    now rewrite Hp. }
  assert (Ets : tab_state t s1
                = {| queue := queue (tab_state t s); isSending := false |}).
  { subst s1. rewrite tab_state_set_isSending.
    destruct (decide (t = t)); [reflexivity | congruence]. }
  split; [exact E|]. do 2 (split; [reflexivity|]).
  split; [now rewrite Ets|]. split; [now rewrite Ets|]. split.
  - intros Hq. rewrite E. apply bg_processQueue_empty.
    + apply tabState_set_isSending.
    + now rewrite Ets.
  - intros entry rest Hq. rewrite E. apply bg_processQueue_fire.
    + apply tabState_set_isSending.
    + now rewrite Ets.
    + now rewrite Ets.
Qed.

End BGQueue.

Section BGSenders.
Context `{Platform}.
Import BG.

Lemma bg_stable_refl s : stable s s.
Proof.
  intros Hk. split; [exact Hk|]. split; [lia|]. split; [auto|].
  intros key sd Hle Hs. assert (key < handles s) by (apply Hk; eauto). lia.
Qed.

Lemma bg_stable_trans s1 s2 s3 : stable s1 s2 -> stable s2 s3 -> stable s1 s3.
Proof.
  intros H12 H23 Hk. destruct (H12 Hk) as (Hk2 & Hle2 & Hs2 & Hn2).
  destruct (H23 Hk2) as (Hk3 & Hle3 & Hs3 & Hn3).
  split; [exact Hk3|]. split; [lia|]. split.
  - intros key Hlt. rewrite Hs3 by lia. now apply Hs2.
  - intros key sd Hle Hs. destruct (decide (key < handles s2)) as [Hlt|Hge].
    + rewrite Hs3 in Hs by exact Hlt. now apply (Hn2 key).
    + apply (Hn3 key); [lia | exact Hs].
Qed.

Lemma bg_stable_same s s' :
  senders s' = senders s -> handles s' = handles s -> stable s s'.
Proof.
  intros Es Eh Hk. unfold keys_inv. rewrite Es, Eh.
  split; [exact Hk|]. split; [lia|]. split; [auto|].
  intros key sd Hle Hs. assert (key < handles s) by (apply Hk; eauto). lia.
Qed.

Lemma bg_stable_ensure t s : stable s (ensureTabState t s).
Proof.
  unfold ensureTabState. destruct (tabState s !! t); now apply bg_stable_same.
Qed.

Lemma bg_stable_sendChunks t type id data s :
  stable s (sendChunks t type id data s).
Proof.
  intros Hk. unfold keys_inv. bg_fields. split; [|split; [lia|split]].
  - intros key [sd Hsd].
    apply lookup_insert_Some in Hsd as [[<- _]|[_ Hsd]]; [lia|].
    apply le_S. apply Hk. eauto.
  - intros key Hlt. apply lookup_insert_ne. lia.
  - intros key sd Hle Hsd.
    apply lookup_insert_Some in Hsd as [[_ <-]|[_ Hsd]]; [reflexivity|].
    assert (key < handles s) by (apply Hk; eauto). lia.
Qed.

Lemma bg_stable_start_request t entry rest s :
  stable s (start_request t entry rest s).
Proof.
  intros Hk. unfold keys_inv. bg_fields. split; [|split; [lia|split]].
  - intros key [sd Hsd].
    apply lookup_insert_Some in Hsd as [[<- _]|[_ Hsd]]; [lia|].
    do 2 apply le_S. apply Hk. eauto.
  - intros key Hlt. apply lookup_insert_ne. lia.
  - intros key sd Hle Hsd.
    apply lookup_insert_Some in Hsd as [[_ <-]|[_ Hsd]]; [reflexivity|].
    assert (key < handles s) by (apply Hk; eauto). lia.
Qed.

Lemma bg_stable_processQueue t s : stable s (processQueue t s).
Proof.
  unfold processQueue.
  eapply bg_stable_trans; [apply (bg_stable_ensure t)|].
  destruct (isSending _); [apply bg_stable_refl|].
  destruct (queue _); [apply bg_stable_refl|].
  apply bg_stable_start_request.
Qed.

Lemma bg_stable_resolver t p v s : stable s (resolver t p v s).
Proof.
  unfold resolver. eapply bg_stable_trans; [|apply bg_stable_processQueue].
  now apply bg_stable_same.
Qed.

Lemma bg_stable_onTimeout key s : stable s (onTimeout key s).
Proof.
  unfold onTimeout.
  destruct (timers s !! key) as [[[id t] p]|]; [|apply bg_stable_refl].
  cbn [pendingRequests set_timers]. destruct (pendingRequests s !! id).
  - eapply bg_stable_trans; [|apply bg_stable_processQueue].
    now apply bg_stable_same.
  - now apply bg_stable_same.
Qed.

Lemma bg_stable_sendMessage t m s : stable s (sendMessage t m s).
Proof.
  unfold sendMessage. eapply bg_stable_trans; [apply (bg_stable_ensure t)|].
  eapply bg_stable_trans; [|apply bg_stable_processQueue].
  now apply bg_stable_same.
Qed.

Lemma bg_stable_run_handlers key t id m r n s :
  stable s (run_handlers key t id m r n s).
Proof.
  unfold run_handlers.
  destruct first_response as [[? ?]|]; now apply bg_stable_same.
Qed.

Lemma bg_stable_dispatchRequest t id m s : stable s (dispatchRequest t id m s).
Proof.
  intros Hk. unfold keys_inv. bg_fields. split; [|split; [lia|split]].
  - intros key Hs. apply le_S. now apply Hk.
  - reflexivity.
  - intros key sd Hle Hs. assert (key < handles s) by (apply Hk; eauto). lia.
Qed.

Lemma bg_stable_resume key s : stable s (resume key s).
Proof.
  unfold resume. destruct (dispatches s !! key) as [d|]; [|apply bg_stable_refl].
  destruct (d_awaited d); [|apply bg_stable_run_handlers].
  eapply bg_stable_trans; [|apply bg_stable_run_handlers].
  destruct (d_responded d); [apply bg_stable_refl | apply bg_stable_sendChunks].
Qed.

Lemma bg_stable_handleIncoming tab base h s :
  stable s (handleIncoming tab base h s).
Proof.
  unfold handleIncoming.
  destruct (negb _); [apply bg_stable_refl|].
  destruct (match_msg _) as [[[[type id] seq] data]|]; [|apply bg_stable_refl].
  destruct (split_seq seq) as [indexStr totalStr].
  set (index := parseInt10 indexStr). set (total := parseInt10_opt totalStr).
  match goal with
  | |- stable s (match ?c with _ => _ end) =>
      assert (Hc : match c with
                   | Some (s1, _) => senders s1 = senders s /\ handles s1 = handles s
                   | None => True
                   end)
  end.
  { destruct (incomingBuffers s !! id); [auto|]. now destruct (new_Array total). }
  match goal with
  | |- stable s (match ?c with _ => _ end) => destruct c as [[s1 buffer]|]
  end.
  2:{ now apply bg_stable_same. }
  destruct Hc as [Hc1 Hc2].
  set (s2 := updateTabHash _ _ _ _).
  assert (Hs2 : stable s s2) by now apply bg_stable_same.
  destruct (is_complete _ _); [|assumption].
  destruct (decode_message _) as [e|message].
  { eapply bg_stable_trans; [exact Hs2|]. now apply bg_stable_same. }
  set (s3 := set_incomingBuffers _ s2).
  assert (Hs3 : stable s s3).
  { eapply bg_stable_trans; [exact Hs2|]. now apply bg_stable_same. }
  destruct type.
  - eapply bg_stable_trans; [exact Hs3|]. apply bg_stable_dispatchRequest.
  - destruct (pendingRequests s3 !! id) as [[t p]|]; [|assumption].
    eapply bg_stable_trans; [exact Hs3|].
    eapply bg_stable_trans; [apply bg_stable_resolver|]. now apply bg_stable_same.
Qed.

End BGSenders.

Section BGGating.
Context `{Platform}.
Import BG.

(** [onUpdated] touches the sender it belongs to, and no other. *)
Lemma onUpdated_cases key tab base h s :
  match senders s !! key with
  | None => onUpdated key tab base h s = s
  | Some sd =>
      if s_listening sd && (tab =? s_tab sd) && String.eqb h (expected_ack sd)
      then
        if s_index sd <? s_total sd then
          onUpdated key tab base h s = sendNext key sd base s
        else onUpdated key tab base h s
             = set_senders (<[key := stop_listening sd]> (senders s)) s
      else onUpdated key tab base h s = s
  end.
Proof.
  unfold onUpdated. destruct (senders s !! key) as [sd|]; [|reflexivity].
  destruct (s_listening sd); [|reflexivity].
  destruct (tab =? s_tab sd); [|reflexivity].
  destruct (String.eqb _ _); [|reflexivity].
  destruct (s_index sd <? s_total sd); reflexivity.
Qed.

Lemma onUpdated_other key key' tab base h s :
  key' <> key ->
  senders (onUpdated key tab base h s) !! key' = senders s !! key'.
Proof.
  intros Hne. pose proof (onUpdated_cases key tab base h s) as Hc.
  destruct (senders s !! key) as [sd|]; [|now rewrite Hc].
  destruct (_ && _); [|now rewrite Hc].
  destruct (s_index sd <? s_total sd); rewrite Hc; bg_fields;
    now apply lookup_insert_ne.
Qed.

Lemma keys_inv_onUpdated key tab base h s :
  keys_inv s -> keys_inv (onUpdated key tab base h s).
Proof.
  intros Hk. pose proof (onUpdated_cases key tab base h s) as Hc.
  destruct (senders s !! key) as [sd|] eqn:E; [|now rewrite Hc].
  destruct (_ && _); [|now rewrite Hc].
  destruct (s_index sd <? s_total sd); rewrite Hc;
    intros key' [sd' Hs]; bg_fields in Hs; bg_fields;
    apply lookup_insert_Some in Hs as [[<- _]|[_ Hs]]; apply Hk; eauto.
Qed.

Lemma onTabGot_other key key' base s :
  key' <> key -> senders (onTabGot key base s) !! key' = senders s !! key'.
Proof.
  intros Hne. unfold onTabGot.
  destruct (senders s !! key) as [sd|]; [|reflexivity].
  destruct (s_getting sd); [|reflexivity].
  bg_fields. now apply lookup_insert_ne.
Qed.

Lemma keys_inv_onTabGot key base s : keys_inv s -> keys_inv (onTabGot key base s).
Proof.
  intros Hk. unfold onTabGot.
  destruct (senders s !! key) as [sd|] eqn:E; [|exact Hk].
  destruct (s_getting sd); [|exact Hk].
  intros key' [sd' Hs]; bg_fields in Hs; bg_fields.
  apply lookup_insert_Some in Hs as [[<- _]|[_ Hs]]; apply Hk; eauto.
Qed.

Lemma bg_keys_inv_step s e : keys_inv s -> keys_inv (step s e).
Proof.
  intros Hk. destruct e; cbn [step].
  - now apply bg_stable_sendMessage.
  - exact Hk.
  - now apply bg_stable_handleIncoming.
  - now apply keys_inv_onUpdated.
  - now apply keys_inv_onTabGot.
  - now apply bg_stable_onTimeout.
  - now apply bg_stable_resume.
Qed.

Lemma bg_keys_inv_run evs : keys_inv (run evs).
Proof.
  unfold run.
  assert (Hinit : keys_inv init).
  { intros key [sd Hs]. cbn [init senders] in Hs.
    now rewrite lookup_empty in Hs. }
  revert Hinit. generalize init.
  induction evs as [|e evs IH]; intros s Hs; [exact Hs|].
  cbn [fold_left]. apply IH, bg_keys_inv_step, Hs.
Qed.

(** Unless it is the listener or the [tabs.get] callback of the sender
    itself, a callback leaves a registered sender as it is. *)
Lemma bg_sender_untouched s e key sd :
  keys_inv s ->
  senders s !! key = Some sd ->
  match e with
  | AckListener key' _ _ _ | TabGot key' _ => key' <> key
  | _ => True
  end ->
  senders (step s e) !! key = Some sd.
Proof.
  intros Hk Hs He.
  assert (Hlt : key < handles s) by (apply Hk; eauto).
  destruct e; cbn [step].
  - destruct (bg_stable_sendMessage tabId message s Hk) as (_ & _ & E & _).
    now rewrite E.
  - exact Hs.
  - destruct (bg_stable_handleIncoming tabId baseUrl h s Hk) as (_ & _ & E & _).
    now rewrite E.
  - rewrite onUpdated_other; [exact Hs | congruence].
  - rewrite onTabGot_other; [exact Hs | congruence].
  - destruct (bg_stable_onTimeout key0 s Hk) as (_ & _ & E & _). now rewrite E.
  - destruct (bg_stable_resume key0 s Hk) as (_ & _ & E & _). now rewrite E.
Qed.

(** *** Stop and wait *)

Lemma bg_sendNext_spec key sd base s :
  log (sendNext key sd base s) = log s ++ [Wrote (s_tab sd) base (msg_frame sd)]
  /\ senders (sendNext key sd base s) = <[key := bump_index sd]> (senders s).
Proof. repeat split. Qed.

Lemma bg_sendChunks_spec t type id data s :
  log (sendChunks t type id data s) = log s
  /\ senders (sendChunks t type id data s)
     = <[handles s := new_sender t type id data]> (senders s)
  /\ handles (sendChunks t type id data s) = S (handles s).
Proof. repeat split. Qed.

(** The variables of a sender change in two callbacks only: its
    [tabs.get] callback, once, and its listener when the tab shows the
    acknowledgement of the chunk written last. *)
Lemma bg_ack_gating s e key sd :
  keys_inv s ->
  senders s !! key = Some sd ->
  senders (step s e) !! key <> Some sd ->
  (exists base,
     e = TabGot key base /\ s_getting sd = true
     /\ step s e = sendNext key (got_tab sd) base s)
  \/ (exists base,
        e = AckListener key (s_tab sd) base (expected_ack sd)
        /\ s_listening sd = true
        /\ step s e = if s_index sd <? s_total sd
                      then sendNext key sd base s
                      else set_senders
                             (<[key := stop_listening sd]> (senders s)) s).
Proof.
  intros Hk Hs Hch.
  destruct e as [t0 m|hd|t0 base h|key0 t0 base h|key0 base|key0|key0];
    try (destruct Hch; now apply bg_sender_untouched).
  - destruct (decide (key0 = key)) as [->|Hne];
      [|destruct Hch; now apply bg_sender_untouched].
    right. exists base. cbn [step] in *.
    pose proof (onUpdated_cases key t0 base h s) as Hc. rewrite Hs in Hc.
    destruct (s_listening sd) eqn:E1; [|rewrite Hc in Hch; contradiction].
    destruct (t0 =? s_tab sd) eqn:E2; [|rewrite Hc in Hch; contradiction].
    destruct (String.eqb h (expected_ack sd)) eqn:E3;
      [|rewrite Hc in Hch; contradiction].
    apply Nat.eqb_eq in E2 as ->. apply String.eqb_eq in E3 as ->.
    split; [reflexivity|]. split; [reflexivity|].
    cbn [andb] in Hc. destruct (s_index sd <? s_total sd); exact Hc.
  - destruct (decide (key0 = key)) as [->|Hne];
      [|destruct Hch; now apply bg_sender_untouched].
    left. exists base. cbn [step] in *. unfold onTabGot in *. rewrite Hs in *.
    destruct (s_getting sd); [auto | contradiction].
Qed.

Lemma bg_ack_mismatch s key sd tab base h :
  senders s !! key = Some sd ->
  tab <> s_tab sd \/ h <> expected_ack sd ->
  onUpdated key tab base h s = s.
Proof.
  intros Hs Hne. pose proof (onUpdated_cases key tab base h s) as Hc.
  rewrite Hs in Hc.
  assert (E : s_listening sd && (tab =? s_tab sd)
              && String.eqb h (expected_ack sd) = false).
  { destruct Hne as [Hne|Hne].
    - apply Nat.eqb_neq in Hne. rewrite Hne. now rewrite andb_false_r.
    - apply String.eqb_neq in Hne. rewrite Hne. now rewrite andb_false_r. }
  now rewrite E in Hc.
Qed.

Lemma bg_ack_frame_expected (sd : Sender) id i :
  no_colon id -> no_colon (s_id sd) ->
  "ACK:" +:+ id +:+ ":" +:+ Number_toString i = expected_ack sd ->
  id = s_id sd /\ i = (Z.of_nat (s_index sd) - 1)%Z.
Proof.
  unfold expected_ack.
  intros Hid Hsd E. apply append_inv_head in E.
  apply colon_separated_inj in E as [-> E]; [|assumption..].
  split; [reflexivity|]. now apply Number_toString_inj.
Qed.

Lemma bg_ack_not_incoming tab base h s :
  Str.startsWith h "ACK:" = true -> handleIncoming tab base h s = s.
Proof.
  intros Hp. unfold handleIncoming.
  now rewrite (startsWith_ACK_not_MSG _ Hp).
Qed.

End BGGating.

Section BGFresh.
Context `{Platform}.
Import BG.

Lemma bg_fresh_stable s s' :
  keys_inv s -> stable s s' -> fresh_senders s -> fresh_senders s'.
Proof.
  intros Hk Hst Hf key sd Hs Hg. destruct (Hst Hk) as (_ & _ & Hold & Hnew).
  destruct (decide (key < handles s)) as [Hlt|Hge].
  - rewrite Hold in Hs by exact Hlt. now apply (Hf key).
  - apply (Hnew key); [lia | exact Hs].
Qed.

Lemma expected_ack_first (sd : Sender) :
  s_index sd = 0 -> expected_ack sd = "ACK:" +:+ s_id sd +:+ ":-1".
Proof. unfold expected_ack. now intros ->. Qed.

Lemma bg_fresh_step s e :
  keys_inv s -> fresh_senders s -> no_early_ack e -> fresh_senders (step s e).
Proof.
  intros Hk Hf He.
  destruct e as [t0 m|hd|t0 base h|key0 t0 base h|key0 base|key0|key0];
    cbn [step].
  - apply (bg_fresh_stable s); [assumption | apply bg_stable_sendMessage | assumption].
  - exact Hf.
  - apply (bg_fresh_stable s); [assumption | apply bg_stable_handleIncoming | assumption].
  - pose proof (onUpdated_cases key0 t0 base h s) as Hc.
    destruct (senders s !! key0) as [sd0|] eqn:Hs0; [|now rewrite Hc].
    destruct (s_listening sd0 && (t0 =? s_tab sd0)); cbn [andb] in Hc;
      [|now rewrite Hc].
    destruct (String.eqb h (expected_ack sd0)) eqn:Eh; [|now rewrite Hc].
    apply String.eqb_eq in Eh.
    assert (Hng : s_getting sd0 = false).
    { destruct (s_getting sd0) eqn:Hg; [|reflexivity].
      exfalso. apply (He (s_id sd0)). rewrite Eh.
      apply expected_ack_first. now apply (Hf key0). }
    destruct (s_index sd0 <? s_total sd0); rewrite Hc;
      intros key sd Hs Hg; cbn [senders sendNext set_senders updateTabHash emit
                                 set_log] in Hs;
      apply lookup_insert_Some in Hs as [[_ <-]|[_ Hs]];
      try (now apply (Hf key)); cbn in Hg; congruence.
  - unfold onTabGot. destruct (senders s !! key0) as [sd0|] eqn:Hs0; [|exact Hf].
    destruct (s_getting sd0); [|exact Hf].
    intros key sd Hs Hg.
    cbn [senders sendNext set_senders updateTabHash emit set_log] in Hs.
    apply lookup_insert_Some in Hs as [[_ <-]|[_ Hs]];
      [discriminate | now apply (Hf key)].
  - apply (bg_fresh_stable s); [assumption | apply bg_stable_onTimeout | assumption].
  - apply (bg_fresh_stable s); [assumption | apply bg_stable_resume | assumption].
Qed.

Lemma bg_fresh_run evs : Forall no_early_ack evs -> fresh_senders (run evs).
Proof.
  unfold run.
  assert (Hfold : forall s, keys_inv s -> fresh_senders s ->
            Forall no_early_ack evs -> fresh_senders (fold_left step evs s)).
  { induction evs as [|e evs IH]; intros s Hk Hf Hev; [exact Hf|].
    apply Forall_cons in Hev as [He Hev]. cbn [fold_left].
    apply IH; [now apply bg_keys_inv_step | now apply bg_fresh_step | exact Hev]. }
  apply Hfold.
  - intros key [sd Hs]. cbn [init senders] in Hs. now rewrite lookup_empty in Hs.
  - intros key sd Hs. cbn [init senders] in Hs. now rewrite lookup_empty in Hs.
Qed.

End BGFresh.

Section BGCallbacks.
Context `{Platform}.
Import BG.

Lemma bg_match_msg_startsWith h g :
  match_msg h = Some g -> Str.startsWith h "MSG:" = true.
Proof.
  unfold match_msg. destruct (Str.startsWith h "MSG:"); [reflexivity|discriminate].
Qed.

(** What [start_request] leaves behind: the entry is off the queue, the
    session is busy, the request is pending under a new identifier, its
    sender is registered and has asked for the tab, its timer is armed. *)
Lemma bg_start_request_spec t entry rest s :
  let id := randomUUID (uuid_calls s) in
  let s' := start_request t entry rest s in
  tab_state t s' = {| queue := rest; isSending := true |}
  /\ pendingRequests s' = <[id := (t, q_promise entry)]> (pendingRequests s)
  /\ log s' = log s
  /\ senders s'
     = <[handles s := new_sender t REQ id (q_message entry)]> (senders s)
  /\ timers s' = <[S (handles s) := (id, t, q_promise entry)]> (timers s).
Proof.
  cbv zeta. split; [|repeat split].
  rewrite tab_state_start_request. destruct (decide (t = t)); [reflexivity | congruence].
Qed.

(** *** Reassembly *)

(** [handleIncoming] on a frame it accepts; [buffer0] is the array the
    chunk goes into: the entry of [id], or a new array. *)
Lemma bg_handleIncoming_accepted tab base h s type id seq data buffer0 :
  match_msg h = Some (type, id, seq, data) ->
  let index := parseInt10 (split_seq seq).1 in
  let total := parseInt10_opt (split_seq seq).2 in
  (incomingBuffers s !! id = Some buffer0
   \/ (incomingBuffers s !! id = None /\ new_Array total = Some buffer0)) ->
  let buffer := array_set buffer0 index data in
  let s2 := updateTabHash tab base (ack_frame id index)
              (set_incomingBuffers (<[id := buffer]> (incomingBuffers s)) s) in
  handleIncoming tab base h s
  = if is_complete buffer total then
      match decode_message (join buffer) with
      | inl e => emit (Uncaught e) s2
      | inr message =>
          let s3 := set_incomingBuffers (delete id (incomingBuffers s2)) s2 in
          match type with
          | REQ => dispatchRequest tab id message s3
          | RES =>
              match pendingRequests s3 !! id with
              | Some (t, p) =>
                  let s4 := resolver t p message s3 in
                  set_pendingRequests (delete id (pendingRequests s4)) s4
              | None => s3
              end
          end
      end
    else s2.
Proof.
  intros Hm index total Hbuf buffer s2.
  pose proof (bg_match_msg_startsWith _ _ Hm) as Hp.
  unfold handleIncoming. rewrite Hp, Hm. cbn [negb].
  subst index total buffer s2.
  destruct (split_seq seq) as [indexStr totalStr]. cbn [fst snd] in *.
  destruct Hbuf as [Hb|[Hb Hnew]]; rewrite Hb; [reflexivity|].
  rewrite Hnew. bg_fields. rewrite insert_insert_eq. reflexivity.
Qed.

Lemma bg_incomingBuffers_processQueue t s :
  incomingBuffers (processQueue t s) = incomingBuffers s.
Proof.
  unfold processQueue, ensureTabState.
  destruct (tabState s !! t); destruct (isSending _); try reflexivity;
    now destruct (queue _).
Qed.

(** A chunk for an identifier that has an entry goes into that entry and
    is acknowledged, whatever total it reports; the entry is complete
    when its filled slots are as many as the total of this chunk. *)
Lemma bg_chunk_into_entry tab base h s type id seq data buffer0 :
  match_msg h = Some (type, id, seq, data) ->
  incomingBuffers s !! id = Some buffer0 ->
  let index := parseInt10 (split_seq seq).1 in
  let total := parseInt10_opt (split_seq seq).2 in
  let buffer := array_set buffer0 index data in
  is_complete buffer total = false ->
  incomingBuffers (handleIncoming tab base h s)
  = <[id := buffer]> (incomingBuffers s)
  /\ log (handleIncoming tab base h s)
     = log s ++ [Wrote tab base (ack_frame id index)].
Proof.
  intros Hm Hb index total buffer Hinc.
  rewrite (bg_handleIncoming_accepted tab base h s type id seq data buffer0
             Hm (or_introl Hb)).
  fold index total buffer. rewrite Hinc. split; reflexivity.
Qed.

(** A completed entry: it is removed when its text decodes; when it does
    not, the callback ends by the exception, after the acknowledgement,
    and the entry stays. *)
Lemma bg_completed_entry tab base h s type id seq data buffer0 :
  match_msg h = Some (type, id, seq, data) ->
  let index := parseInt10 (split_seq seq).1 in
  let total := parseInt10_opt (split_seq seq).2 in
  (incomingBuffers s !! id = Some buffer0
   \/ (incomingBuffers s !! id = None /\ new_Array total = Some buffer0)) ->
  let buffer := array_set buffer0 index data in
  is_complete buffer total = true ->
  match decode_message (join buffer) with
  | inr message =>
      incomingBuffers (handleIncoming tab base h s)
      = delete id (incomingBuffers s)
  | inl e =>
      handleIncoming tab base h s
      = emit (Uncaught e)
          (updateTabHash tab base (ack_frame id index)
             (set_incomingBuffers (<[id := buffer]> (incomingBuffers s)) s))
      /\ incomingBuffers (handleIncoming tab base h s) !! id = Some buffer
      /\ (forall id', id' <> id ->
            incomingBuffers (handleIncoming tab base h s) !! id'
            = incomingBuffers s !! id')
      /\ log (handleIncoming tab base h s)
         = log s ++ [Wrote tab base (ack_frame id index); Uncaught e]
      /\ pendingRequests (handleIncoming tab base h s) = pendingRequests s
      /\ tabState (handleIncoming tab base h s) = tabState s
      /\ dispatches (handleIncoming tab base h s) = dispatches s
      /\ senders (handleIncoming tab base h s) = senders s
  end.
Proof.
  intros Hm index total Hbuf buffer Hc.
  rewrite (bg_handleIncoming_accepted tab base h s type id seq data buffer0
             Hm Hbuf).
  fold index total buffer. rewrite Hc.
  destruct (decode_message (join buffer)) as [e|message].
  - split; [reflexivity|]. bg_fields. split; [apply lookup_insert_eq|].
    split; [intros id' Hne; now apply lookup_insert_ne|].
    split; [now rewrite <- app_assoc|]. repeat split.
  - cbv zeta. destruct type.
    + bg_fields. apply delete_insert_eq.
    + bg_fields. destruct (pendingRequests s !! id) as [[t p]|].
      * bg_fields. unfold resolver. rewrite bg_incomingBuffers_processQueue. bg_fields.
        apply delete_insert_eq.
      * bg_fields. apply delete_insert_eq.
Qed.


(** *** Dispatch *)






End BGCallbacks.

Lemma join_map_Some chunks : join (map Some chunks) = Str.concat chunks.
Proof.
  unfold join. rewrite map_map. f_equal.
  induction chunks as [|c l IH]; [reflexivity|]. cbn [map]. now rewrite IH.
Qed.

(** * The codec, the frames and the sessions in detail *)

(** ** The transport encoding: its alphabet, its length, what it refuses *)

Lemma urlsafe_char_facts k :
  (k < 64)%N ->
  is_urlsafe_char (to_urlsafe (b64_char k)) = true
  /\ from_urlsafe (b64_char k) = b64_char k.
Proof.
  intros Hk.
  assert (H : urlsafe_char_ok k = true).
  { apply (N_forall_below_spec 64); [vm_compute; reflexivity | exact Hk]. }
  unfold urlsafe_char_ok in H. apply andb_true_iff in H as [H1 H2].
  apply Ascii.eqb_eq in H2. auto.
Qed.

Ltac btoa_group2 :=
  btoa_group;
  match goal with
  | |- context [b64_char (?n / 262144)] =>
      destruct (urlsafe_char_facts (n / 262144)) as (? & ?); [assumption|];
      destruct (urlsafe_char_facts ((n / 4096) mod 64)) as (? & ?);
        [assumption|];
      destruct (urlsafe_char_facts ((n / 64) mod 64)) as (? & ?);
        [assumption|];
      destruct (urlsafe_char_facts (n mod 64)) as (? & ?); [assumption|]
  end.

Lemma encodeBase64_bin_alphabet s :
  Str.forallb is_urlsafe_char
    (strip_trailing_eq (Str.map to_urlsafe (btoa s))) = true.
Proof.
  induction s as [|a|a b|a b c rest IH] using string_ind3;
    [reflexivity | btoa_group2 .. ]; cbn [Str.map];
    rewrite !strip_trailing_eq_cons by assumption; cbn [Str.forallb];
    repeat match goal with
           | H : is_urlsafe_char _ = true |- _ => rewrite H; clear H
           end; cbn [andb]; try reflexivity.
  exact IH.
Qed.

Lemma urlsafe_char_plain c :
  is_urlsafe_char c = true ->
  Ascii.eqb c ":"%char = false /\ Ascii.eqb c "/"%char = false
  /\ is_eq_sign c = false /\ is_line_terminator c = false
  /\ is_ascii_whitespace c = false /\ Ascii.eqb c "+"%char = false.
Proof.
  destruct c as [[] [] [] [] [] [] [] []]; vm_compute; intros H;
    try discriminate H; repeat split.
Qed.

Lemma forallb_impl (f g : ascii -> bool) s :
  (forall c, f c = true -> g c = true) ->
  Str.forallb f s = true -> Str.forallb g s = true.
Proof.
  intros Hfg. induction s as [|c s IH]; cbn; [auto|].
  intros [H1 H2]%andb_true_iff. rewrite (Hfg c H1). cbn. auto.
Qed.

(** *** The length of the encoded text *)

Lemma encodeBase64_bin_length s :
  String.length (strip_trailing_eq (Str.map to_urlsafe (btoa s)))
  = ceil_div (4 * String.length s) 3.
Proof.
  induction s as [|a|a b|a b c rest IH] using string_ind3;
    [reflexivity | btoa_group .. ]; cbn [Str.map];
    rewrite !strip_trailing_eq_cons by assumption; try reflexivity.
  cbn [String.length]. rewrite IH. unfold ceil_div.
  replace (4 * S (S (S (String.length rest))) + (3 - 1))
    with (4 * String.length rest + (3 - 1) + 4 * 3) by lia.
  rewrite Nat.div_add by lia. lia.
Qed.

Lemma utf8_encode_cp_length c :
  1 <= String.length (utf8_encode_cp c) <= 4.
Proof.
  unfold utf8_encode_cp.
  destruct (c <? 128)%N; [cbn; lia|]. destruct (c <? 2048)%N; [cbn; lia|].
  destruct (c <? 65536)%N; cbn; lia.
Qed.

Lemma utf8_encode_length t :
  length t <= String.length (utf8_encode t) <= 4 * length t.
Proof.
  induction t as [|c t IH]; [cbn; lia|].
  cbn [utf8_encode length]. rewrite str_length_append.
  pose proof (utf8_encode_cp_length c). lia.
Qed.

(** *** What [decodeBase64] accepts, and what it refuses *)

Lemma from_to_urlsafe c : from_urlsafe (to_urlsafe c) = from_urlsafe c.
Proof. destruct c as [[] [] [] [] [] [] [] []]; reflexivity. Qed.

Lemma map_from_to_urlsafe s :
  Str.map from_urlsafe (Str.map to_urlsafe s) = Str.map from_urlsafe s.
Proof.
  induction s as [|c s IH]; [reflexivity|]. cbn [Str.map].
  now rewrite from_to_urlsafe, IH.
Qed.

Lemma map_from_urlsafe_btoa s : Str.map from_urlsafe (btoa s) = btoa s.
Proof.
  induction s as [|a|a b|a b c rest IH] using string_ind3;
    [reflexivity | btoa_group2 .. ]; cbn [Str.map];
    repeat match goal with
           | H : from_urlsafe (b64_char _) = _ |- _ => rewrite H; clear H
           end; try reflexivity.
  now rewrite IH.
Qed.

Lemma pad_loop_aligned fuel s :
  String.length s mod 4 = 0 -> pad_loop fuel s = s.
Proof. intros E. destruct fuel; cbn [pad_loop]; now rewrite E. Qed.

Lemma foreign_unreadable c :
  is_foreign_char c = true -> unreadable (from_urlsafe c) = true.
Proof. destruct c as [[] [] [] [] [] [] [] []]; vm_compute; auto. Qed.

Lemma unreadable_facts c :
  unreadable c = true ->
  b64_index c = None /\ is_eq_sign c = false /\ is_ascii_whitespace c = false.
Proof.
  unfold unreadable. intros [[H1 H2]%andb_true_iff H3]%andb_true_iff.
  apply negb_true_iff in H2, H3. destruct (b64_index c); [discriminate|]. auto.
Qed.

Lemma existsb_map_foreign s :
  Str.existsb is_foreign_char s = true ->
  Str.existsb unreadable (Str.map from_urlsafe s) = true.
Proof.
  induction s as [|c s IH]; cbn; [auto|].
  intros [H|H]%orb_true_iff.
  - now rewrite (foreign_unreadable c H).
  - rewrite (IH H). apply orb_true_r.
Qed.

Lemma existsb_append_l f s t :
  Str.existsb f s = true -> Str.existsb f (s +:+ t) = true.
Proof.
  induction s as [|c s IH]; cbn; [discriminate|].
  intros [H|H]%orb_true_iff; [now rewrite H|].
  rewrite (IH H). apply orb_true_r.
Qed.

Lemma existsb_pad_loop f fuel s :
  Str.existsb f s = true -> Str.existsb f (pad_loop fuel s) = true.
Proof.
  revert s. induction fuel as [|fuel IH]; intros s H; cbn [pad_loop];
    destruct (_ =? 0); try assumption.
  apply IH. now apply existsb_append_l.
Qed.

Lemma existsb_filter_ws s :
  Str.existsb unreadable s = true ->
  Str.existsb unreadable
    (Str.filter (fun c => negb (is_ascii_whitespace c)) s) = true.
Proof.
  induction s as [|c s IH]; cbn; [auto|].
  intros [H|H]%orb_true_iff.
  - destruct (unreadable_facts c H) as (_ & _ & ->). cbn. now rewrite H.
  - destruct (negb (is_ascii_whitespace c)); cbn; rewrite (IH H);
      [apply orb_true_r | reflexivity].
Qed.

Lemma existsb_remove_padding s :
  Str.existsb unreadable s = true ->
  Str.existsb unreadable (remove_padding s) = true.
Proof.
  induction s as [|c s IH]; [discriminate|]. intros H.
  destruct (is_eq_sign c) eqn:Ec.
  - assert (Hs : Str.existsb unreadable s = true).
    { cbn in H. apply orb_true_iff in H as [H|H]; [|exact H].
      destruct (unreadable_facts c H) as (_ & E & _). congruence. }
    cbn [remove_padding].
    destruct (String.eqb (String c s) "=" || String.eqb (String c s) "==")
      eqn:E.
    + exfalso. apply orb_true_iff in E as [E|E]; apply String.eqb_eq in E;
        injection E as _ ->; discriminate Hs.
    + cbn. rewrite (IH Hs). apply orb_true_r.
  - rewrite (remove_padding_cons c s Ec). cbn in *.
    apply orb_true_iff in H as [H|H]; [now rewrite H|].
    rewrite (IH H). apply orb_true_r.
Qed.

Lemma sextets_unreadable s :
  Str.existsb unreadable s = true -> sextets s = None.
Proof.
  induction s as [|c s IH]; [discriminate|]. cbn.
  intros [H|H]%orb_true_iff.
  - destruct (unreadable_facts c H) as (-> & _). reflexivity.
  - rewrite (IH H). now destruct (b64_index c).
Qed.

Lemma atob_unreadable s : Str.existsb unreadable s = true -> atob s = None.
Proof.
  intros H. unfold atob. apply existsb_filter_ws in H.
  set (d := Str.filter _ s) in *.
  assert (H' : Str.existsb unreadable
                 (if String.length d mod 4 =? 0 then remove_padding d else d)
               = true).
  { destruct (_ =? 0); [now apply existsb_remove_padding | exact H]. }
  destruct (_ =? 1); [reflexivity|]. now rewrite (sextets_unreadable _ H').
Qed.

Lemma filter_append f a b :
  Str.filter f (a +:+ b) = Str.filter f a +:+ Str.filter f b.
Proof.
  induction a as [|c a IH]; [reflexivity|]. cbn [append Str.filter].
  destruct (f c); cbn [append]; now rewrite IH.
Qed.

Lemma pad_loop_one_mod_four m :
  String.length m mod 4 = 1 -> pad_loop 3 m = m +:+ "===".
Proof.
  intros E.
  assert (L : exists q, String.length m = 1 + q * 4).
  { exists (String.length m / 4).
    pose proof (Nat.div_mod_eq (String.length m) 4). lia. }
  destruct L as [q L].
  assert (M : forall r, (r + q * 4) mod 4 = r mod 4)
    by (intros r; apply Nat.Div0.mod_add).
  cbn [pad_loop]. rewrite !str_length_append, L. cbn [String.length].
  replace (1 + q * 4 + 1) with (2 + q * 4) by lia.
  replace (2 + q * 4 + 1) with (3 + q * 4) by lia.
  replace (3 + q * 4 + 1) with (0 + (S q) * 4) by lia.
  rewrite !M, Nat.Div0.mod_add. cbn [Nat.modulo Nat.eqb].
  change (1 mod 4 =? 0) with false. change (2 mod 4 =? 0) with false.
  change (3 mod 4 =? 0) with false. cbv iota.
  now rewrite !str_append_assoc.
Qed.

Lemma remove_padding_three f : remove_padding (f +:+ "===") = f +:+ "=".
Proof.
  induction f as [|c f IH]; [reflexivity|].
  cbn [append remove_padding].
  assert (E1 : String.eqb (String c (f +:+ "===")) "=" = false).
  { apply String.eqb_neq. intros E. apply (f_equal String.length) in E.
    cbn in E. rewrite str_length_append in E. cbn in E. lia. }
  assert (E2 : String.eqb (String c (f +:+ "===")) "==" = false).
  { apply String.eqb_neq. intros E. apply (f_equal String.length) in E.
    cbn in E. rewrite str_length_append in E. cbn in E. lia. }
  rewrite E1, E2. cbn [orb]. now rewrite IH.
Qed.

Lemma sextets_eq_sign f rest : sextets (f +:+ String "="%char rest) = None.
Proof.
  induction f as [|c f IH]; [reflexivity|].
  cbn [append sextets]. rewrite IH. now destruct (b64_index c).
Qed.

Lemma decodeBase64_one_mod_four str :
  String.length str mod 4 = 1 -> decodeBase64 str = None.
Proof.
  intros E. unfold decodeBase64.
  assert (Em : String.length (Str.map from_urlsafe str) mod 4 = 1).
  { replace (String.length (Str.map from_urlsafe str)) with (String.length str);
      [exact E|].
    clear E. induction str as [|c s IH]; cbn; congruence. }
  rewrite (pad_loop_one_mod_four _ Em). unfold atob.
  rewrite filter_append. change (Str.filter _ "===") with "===".
  set (f := Str.filter _ (Str.map from_urlsafe str)).
  assert (S1 : sextets (f +:+ "===") = None) by apply sextets_eq_sign.
  assert (S2 : sextets (f +:+ "=") = None) by apply sextets_eq_sign.
  destruct (String.length (f +:+ "===") mod 4 =? 0).
  - rewrite remove_padding_three, S2. now destruct (_ =? 1).
  - rewrite S1. now destruct (_ =? 1).
Qed.

(** ** Numbers in frames *)

Lemma parse_digits_uint_acc d : forall acc,
  parse_digits (NilEmpty.string_of_uint d) (Zpos acc)
  = Zpos (Pos.of_uint_acc d acc).
Proof.
  induction d; intros acc;
    cbn [NilEmpty.string_of_uint parse_digits Pos.of_uint_acc];
    [reflexivity | ..];
    change (is_digit _) with true; cbv iota; rewrite <- IHd; f_equal;
    match goal with
    | |- context [Z.of_N (code_of ?c)] =>
        let v := eval vm_compute in (Z.of_N (code_of c)) in
        change (Z.of_N (code_of c)) with v
    end; lia.
Qed.

Lemma parse_digits_uint d :
  parse_digits (NilEmpty.string_of_uint d) 0 = Z.of_N (Pos.of_uint d).
Proof.
  induction d; cbn [NilEmpty.string_of_uint parse_digits Pos.of_uint];
    [reflexivity | ..];
    change (is_digit _) with true; cbv iota;
    match goal with
    | |- context [Z.of_N (code_of ?c)] =>
        let v := eval vm_compute in (Z.of_N (code_of c)) in
        change (Z.of_N (code_of c)) with v
    end; cbn [Z.mul Z.add Z.sub Z.opp Z.pos_sub Z.succ_double Z.pred_double
              Z.double Pos.pred_double];
    [exact IHd | apply parse_digits_uint_acc ..].
Qed.

Lemma string_of_uint_digits d :
  Str.forallb is_digit (NilEmpty.string_of_uint d) = true.
Proof. induction d; cbn; auto. Qed.

Lemma string_of_uint_nonnil d :
  d <> Nil ->
  NilZero.string_of_uint d = NilEmpty.string_of_uint d
  /\ exists c s, NilEmpty.string_of_uint d = String c s /\ is_digit c = true.
Proof.
  intros Hd. split; [now destruct d|].
  destruct d; [congruence | ..]; cbn; eauto.
Qed.

Lemma parseInt10_digits c s :
  is_digit c = true ->
  parseInt10 (String c s) = Num (parse_digits (String c s) 0).
Proof.
  intros Hc. unfold parseInt10. cbn [trim_left].
  assert (E1 : is_StrWhiteSpaceChar c = false).
  { revert Hc. destruct c as [[] [] [] [] [] [] [] []]; vm_compute; congruence. }
  assert (E2 : Ascii.eqb c "-"%char = false).
  { revert Hc. destruct c as [[] [] [] [] [] [] [] []]; vm_compute; congruence. }
  assert (E3 : Ascii.eqb c "+"%char = false).
  { revert Hc. destruct c as [[] [] [] [] [] [] [] []]; vm_compute; congruence. }
  rewrite E1, E2, E3. cbn [starts_with_digit]. now rewrite Hc.
Qed.

(** The decimal text of an integer reads back as the integer. *)
Lemma parseInt10_Number_toString z : parseInt10 (Number_toString z) = Num z.
Proof.
  unfold Number_toString. destruct z as [|p|p]; [reflexivity | |].
  - cbn [Z.to_int NilZero.string_of_int].
    destruct (string_of_uint_nonnil (Pos.to_uint p))
      as (-> & c & s & E & Hc); [apply Unsigned.to_uint_nonnil|].
    rewrite E, (parseInt10_digits c s Hc), <- E, parse_digits_uint.
    now rewrite Unsigned.of_to.
  - cbn [Z.to_int NilZero.string_of_int].
    destruct (string_of_uint_nonnil (Pos.to_uint p))
      as (-> & c & s & E & Hc); [apply Unsigned.to_uint_nonnil|].
    unfold parseInt10. cbn [trim_left].
    change (is_StrWhiteSpaceChar "-") with false. cbv iota.
    change (Ascii.eqb "-" "-") with true. cbv iota.
    rewrite E. cbn [starts_with_digit]. rewrite Hc, <- E, parse_digits_uint.
    now rewrite Unsigned.of_to.
Qed.

Lemma Number_toString_nat n :
  Str.forallb is_digit (Number_toString (Z.of_nat n)) = true
  /\ Number_toString (Z.of_nat n) <> "".
Proof.
  unfold Number_toString. destruct (Z.of_nat n) as [|p|p] eqn:E;
    [split; [reflexivity | discriminate] | | lia].
  cbn [Z.to_int NilZero.string_of_int].
  destruct (string_of_uint_nonnil (Pos.to_uint p))
    as (-> & c & s & E' & Hc); [apply Unsigned.to_uint_nonnil|].
  split; [apply string_of_uint_digits | rewrite E'; discriminate].
Qed.

(** ** Frames: what is written is what is read *)

Lemma forallb_append f a b :
  Str.forallb f (a +:+ b) = Str.forallb f a && Str.forallb f b.
Proof.
  induction a as [|c a IH]; [reflexivity|]. cbn [append Str.forallb].
  now rewrite IH, andb_assoc.
Qed.

Lemma forallb_concat f chunks :
  Str.forallb f (Str.concat chunks) = true ->
  Forall (fun c => Str.forallb f c = true) chunks.
Proof.
  induction chunks as [|c l IH]; cbn [Str.concat]; [constructor|].
  rewrite forallb_append. intros [H1 H2]%andb_true_iff. constructor; auto.
Qed.

Lemma chunks_of_spec str :
  chunkString str chunkSize = Some (chunks_of str)
  /\ Str.concat (chunks_of str) = str
  /\ Forall (fun c => 0 < String.length c <= chunkSize) (chunks_of str)
  /\ length (chunks_of str) = ceil_div (String.length str) chunkSize.
Proof.
  assert (Hpos : 0 < chunkSize) by (vm_compute; lia).
  destruct (chunkString_spec str chunkSize Hpos) as (chunks & H1 & H2 & H3 & H4 & _).
  unfold chunks_of. rewrite H1. auto.
Qed.

Lemma split_at_append c a b :
  Str.forallb (fun x => negb (Ascii.eqb x c)) a = true ->
  split_at c (a +:+ String c b) = Some (a, b).
Proof.
  induction a as [|x a IH]; cbn [append split_at Str.forallb].
  - now rewrite Ascii.eqb_refl.
  - intros [H1 H2]%andb_true_iff. apply negb_true_iff in H1.
    now rewrite H1, (IH H2).
Qed.

Lemma colon_field_append a b :
  no_colon a -> a <> "" -> colon_field (a +:+ ":" +:+ b) = Some (a, b).
Proof.
  intros Ha Hne. unfold colon_field.
  change (":" +:+ b) with (String ":"%char b).
  rewrite (split_at_append _ a b Ha).
  destruct a; [congruence | reflexivity].
Qed.

Lemma digits_plain s :
  Str.forallb is_digit s = true ->
  no_colon s /\ Str.forallb (fun x => negb (Ascii.eqb x "/"%char)) s = true.
Proof.
  unfold no_colon. intros H. split; revert H; apply forallb_impl;
    intros c; destruct c as [[] [] [] [] [] [] [] []]; vm_compute; congruence.
Qed.

Lemma split_seq_append a b :
  Str.forallb (fun x => negb (Ascii.eqb x "/"%char)) a = true ->
  Str.forallb (fun x => negb (Ascii.eqb x "/"%char)) b = true ->
  split_seq (a +:+ "/" +:+ b) = (a, Some b).
Proof.
  intros Ha Hb. unfold split_seq.
  change ("/" +:+ b) with (String "/"%char b).
  rewrite (split_at_append _ a b Ha).
  replace (split_at "/"%char b) with (@None (string * string)); [reflexivity|].
  symmetry. clear Ha. induction b as [|x b IH]; [reflexivity|].
  cbn in *. apply andb_true_iff in Hb as [H1 H2]. apply negb_true_iff in H1.
  now rewrite H1, (IH H2).
Qed.

Lemma seq_text_read index total :
  no_colon (seq_text index total)
  /\ seq_text index total <> ""
  /\ parseInt10 (split_seq (seq_text index total)).1 = Num (Z.of_nat index)
  /\ parseInt10_opt (split_seq (seq_text index total)).2
     = Num (Z.of_nat total).
Proof.
  destruct (Number_toString_nat index) as [Di Ni].
  destruct (Number_toString_nat total) as [Dt Nt].
  destruct (digits_plain _ Di) as [Ci Si]. destruct (digits_plain _ Dt) as [Ct St].
  unfold seq_text. split; [|split].
  - unfold no_colon in *. rewrite !forallb_append, Ci, Ct. reflexivity.
  - destruct (Number_toString (Z.of_nat index)); [congruence | discriminate].
  - rewrite (split_seq_append _ _ Si St). cbn [fst snd parseInt10_opt].
    now rewrite !parseInt10_Number_toString.
Qed.

Lemma dot_plus_end_plain s :
  s <> "" -> Str.forallb (fun c => negb (is_line_terminator c)) s = true ->
  dot_plus_end s = Some s.
Proof. intros Hne H. unfold dot_plus_end. rewrite H. now destruct s. Qed.

(** The chunk a sender puts into a frame can be read back: a chunk of an
    encoded message, or the text [undefined] beyond the last chunk. *)
Lemma chunk_text_readable t k :
  dot_plus_end (chunk_text (chunks_of (encodeBase64 t)) k)
  = Some (chunk_text (chunks_of (encodeBase64 t)) k).
Proof.
  unfold chunk_text.
  destruct (chunks_of (encodeBase64 t) !! k) as [c|] eqn:E; [|reflexivity].
  destruct (chunks_of_spec (encodeBase64 t)) as (_ & Hcat & Hlen & _).
  pose proof (encodeBase64_bin_alphabet (utf8_encode t)) as Ha.
  fold (encodeBase64 t) in Ha. rewrite <- Hcat in Ha.
  apply forallb_concat in Ha.
  rewrite Forall_forall in Ha, Hlen.
  apply list_elem_of_lookup_2 in E.
  apply dot_plus_end_plain.
  - specialize (Hlen c E). destruct c; [cbn in Hlen; lia | discriminate].
  - revert c E Ha. intros c E Ha. specialize (Ha c E). revert Ha.
    apply forallb_impl. intros x Hx.
    destruct (urlsafe_char_plain x Hx) as (_ & _ & _ & -> & _). reflexivity.
Qed.

Section FrameRoundTrip.
Context `{Platform}.

Lemma split_at_type ty x :
  split_at ":"%char (FrameType_text ty +:+ ":" +:+ x)
  = Some (FrameType_text ty, x).
Proof. now destruct ty. Qed.

Lemma FrameType_of_text_text ty : FrameType_of_text (FrameType_text ty) = Some ty.
Proof. now destruct ty. Qed.

Lemma contents_match_msg_fields sec ty id seq data :
  no_colon sec -> sec <> "" -> no_colon id -> id <> "" ->
  no_colon seq -> seq <> "" -> dot_plus_end data = Some data ->
  Contents.match_msg
    ("MSG:" +:+ sec +:+ ":" +:+ FrameType_text ty +:+ ":" +:+ id +:+ ":"
     +:+ seq +:+ ":" +:+ data)
  = Some (sec, ty, id, seq, data).
Proof.
  intros Hsec Nsec Hid Nid Hseq Nseq Hdata.
  unfold Contents.match_msg, Str.startsWith. rewrite prefix_append.
  cbn [negb].
  change (Str.drop 4 ("MSG:" +:+ ?x)) with x.
  rewrite (colon_field_append sec _ Hsec Nsec), split_at_type,
    FrameType_of_text_text, (colon_field_append id _ Hid Nid),
    (colon_field_append seq _ Hseq Nseq), Hdata.
  reflexivity.
Qed.

Lemma bg_match_msg_fields ty id seq data :
  no_colon id -> id <> "" ->
  no_colon seq -> seq <> "" -> dot_plus_end data = Some data ->
  BG.match_msg
    ("MSG:" +:+ FrameType_text ty +:+ ":" +:+ id +:+ ":"
     +:+ seq +:+ ":" +:+ data)
  = Some (ty, id, seq, data).
Proof.
  intros Hid Nid Hseq Nseq Hdata.
  unfold BG.match_msg, Str.startsWith. rewrite prefix_append.
  cbn [negb].
  change (Str.drop 4 ("MSG:" +:+ ?x)) with x.
  rewrite split_at_type, FrameType_of_text_text,
    (colon_field_append id _ Hid Nid),
    (colon_field_append seq _ Hseq Nseq), Hdata.
  reflexivity.
Qed.

Lemma seq_text_assoc k n x :
  Number_toString (Z.of_nat k) +:+ "/" +:+ Number_toString (Z.of_nat n) +:+ x
  = seq_text k n +:+ x.
Proof.
  unfold seq_text. rewrite str_append_assoc. reflexivity.
Qed.

End FrameRoundTrip.

(** ** The reassembly array *)

Lemma new_Array_nat n :
  (Z.of_nat n <= 4294967295)%Z -> new_Array (Num (Z.of_nat n)) = Some (replicate n None).
Proof.
  intros Hn. unfold new_Array.
  replace ((0 <=? Z.of_nat n) && (Z.of_nat n <=? 4294967295))%Z with true
    by (symmetry; apply andb_true_iff; split; apply Z.leb_le; lia).
  now rewrite Nat2Z.id.
Qed.

Lemma array_set_in_range b i d :
  i < length b -> (Z.of_nat (length b) <= 4294967295)%Z ->
  array_set b (Num (Z.of_nat i)) d = <[i := Some d]> b.
Proof.
  intros Hi Hb. unfold array_set.
  replace ((0 <=? Z.of_nat i) && (Z.of_nat i <? 4294967295))%Z with true
    by (symmetry; apply andb_true_iff; split;
        [apply Z.leb_le | apply Z.ltb_lt]; lia).
  rewrite Nat2Z.id. apply Nat.ltb_lt in Hi. now rewrite Hi.
Qed.

Lemma filled_le b : filled b <= length b.
Proof.
  unfold filled. induction b as [|[x|] b IH]; cbn; lia.
Qed.

Lemma filled_hole b i : b !! i = Some None -> filled b < length b.
Proof.
  unfold filled. revert i. induction b as [|x b IH]; intros i; [discriminate|].
  destruct i as [|i]; cbn.
  - intros [= ->]. pose proof (filled_le b). unfold filled in *. lia.
  - intros Hi. specialize (IH i Hi). destruct x; cbn; lia.
Qed.

Lemma filled_map_Some chunks : filled (map Some chunks) = length chunks.
Proof. unfold filled. induction chunks; cbn; congruence. Qed.

Section Fill.
Variable chunks : list string.
Let n := length chunks.
Hypothesis n_small : (Z.of_nat n <= 4294967295)%Z.

Lemma fill_spec arrived : forall b,
  length b = n ->
  Forall (fun i => i < n) arrived ->
  length (fill chunks arrived b) = n
  /\ forall j, fill chunks arrived b !! j
               = if decide (j ∈ arrived) then Some <$> chunks !! j else b !! j.
Proof.
  induction arrived as [|i l IH]; intros b Hb Hl.
  - split; [exact Hb|]. intros j. destruct (decide (j ∈ [])) as [Hin|_];
      [now apply elem_of_nil in Hin | reflexivity].
  - apply Forall_cons in Hl as [Hi Hl]. unfold fill. cbn [fold_left].
    fold (fill chunks l (array_set b (Num (Z.of_nat i)) (chunk_text chunks i))).
    rewrite array_set_in_range by (rewrite ?Hb; lia).
    destruct (IH (<[i := Some (chunk_text chunks i)]> b)) as [E1 E2];
      [now rewrite length_insert | exact Hl |].
    split; [exact E1|]. intros j. rewrite E2.
    destruct (decide (j ∈ l)) as [Hjl|Hjl].
    + rewrite decide_True by (right; exact Hjl). reflexivity.
    + destruct (decide (j = i)) as [->|Hne].
      * rewrite decide_True by left.
        rewrite list_lookup_insert_eq by lia. unfold chunk_text.
        destruct (lookup_lt_is_Some_2 chunks i Hi) as [c ->]. reflexivity.
      * rewrite decide_False by (intros [?|?]%elem_of_cons; contradiction).
        now rewrite list_lookup_insert_ne.
Qed.

(** Once every chunk has arrived, in whatever order and however often,
    the array holds the chunks. *)
Lemma fill_all arrived :
  Forall (fun i => i < n) arrived ->
  (forall i, i < n -> i ∈ arrived) ->
  fill chunks arrived (replicate n None) = map Some chunks.
Proof.
  intros Hl Hall.
  destruct (fill_spec arrived (replicate n None)) as [E1 E2];
    [apply length_replicate | exact Hl |].
  apply list_eq. intros j. rewrite E2, list_lookup_fmap.
  destruct (decide (j ∈ arrived)) as [Hj|Hj]; [reflexivity|].
  destruct (decide (j < n)) as [Hlt|Hge]; [now destruct Hj; apply Hall|].
  assert (E3 : replicate n (@None string) !! j = None)
    by (apply lookup_replicate_None; lia).
  rewrite E3, (lookup_ge_None_2 chunks j) by (fold n; lia). reflexivity.
Qed.

(** While a chunk is missing, the array is not complete. *)
Lemma fill_missing arrived i :
  Forall (fun i => i < n) arrived ->
  i < n -> i ∉ arrived ->
  is_complete (fill chunks arrived (replicate n None)) (Num (Z.of_nat n))
  = false.
Proof.
  intros Hl Hi Hni.
  destruct (fill_spec arrived (replicate n None)) as [E1 E2];
    [apply length_replicate | exact Hl |].
  assert (Hh : fill chunks arrived (replicate n None) !! i = Some None).
  { rewrite E2, decide_False by exact Hni. now apply lookup_replicate_2. }
  apply filled_hole in Hh. rewrite E1 in Hh.
  unfold is_complete, jsnum_eqb. apply Z.eqb_neq. lia.
Qed.

Lemma fill_snoc l k b :
  k < n -> length b = n -> Forall (fun i => i < n) l ->
  fill chunks (l ++ [k]) b
  = <[k := Some (chunk_text chunks k)]> (fill chunks l b).
Proof.
  intros Hk Hb Hl. unfold fill. rewrite fold_left_app. cbn [fold_left].
  fold (fill chunks l b).
  destruct (fill_spec l b Hb Hl) as [E _].
  apply array_set_in_range; rewrite E; [exact Hk | exact n_small].
Qed.

Lemma fill_complete :
  is_complete (map Some chunks) (Num (Z.of_nat n)) = true.
Proof.
  unfold is_complete, jsnum_eqb. rewrite filled_map_Some. apply Z.eqb_refl.
Qed.

End Fill.

(** ** Receiving a message (content script) *)

Section ContentsReceive.
Context `{Platform}.
Import Contents.

Variables (sec id : string) (type : FrameType) (M : JSValue).
Hypothesis sec_plain : no_colon sec.
Hypothesis sec_nonempty : sec <> "".
Hypothesis id_plain : no_colon id.
Hypothesis id_nonempty : id <> "".

Let sd := new_sender type id M.
Let chunks := s_chunks sd.
Let n := s_total sd.
Hypothesis n_small : (Z.of_nat n <= 4294967295)%Z.

Let frame (k : nat) : string := msg_frame (Some sec) (at_index k sd).
Let ack (k : nat) : Effect := Wrote (ack_frame (Some sec) id (Num (Z.of_nat k))).

Lemma frame_fields k :
  frame k
  = "MSG:" +:+ sec +:+ ":" +:+ FrameType_text type +:+ ":" +:+ id +:+ ":"
    +:+ seq_text k n +:+ ":" +:+ chunk_text chunks k.
Proof.
  unfold frame, msg_frame. cbn [at_index s_type s_id s_index s_total s_chunks
                                 secret_text sd new_sender].
  now rewrite seq_text_assoc.
Qed.

Lemma frame_read k :
  match_msg (frame k)
  = Some (sec, type, id, seq_text k n, chunk_text chunks k).
Proof.
  rewrite frame_fields.
  destruct (seq_text_read k n) as (Hs & Ns & _).
  apply contents_match_msg_fields; try assumption.
  subst chunks sd. cbn [new_sender s_chunks]. unfold encode_message.
  apply chunk_text_readable.
Qed.

(** One frame of the message arrives. *)
Lemma receive_frame s k b :
  secret s = Some sec ->
  k < n -> length b = n ->
  incomingBuffers s !! id = Some b
  \/ (incomingBuffers s !! id = None /\ b = replicate n None) ->
  let b' := <[k := Some (chunk_text chunks k)]> b in
  let s2 := sendRaw (ack_frame (Some sec) id (Num (Z.of_nat k)))
              (set_incomingBuffers (<[id := b']> (incomingBuffers s))
                 (set_location_hash (frame k) s)) in
  receive (frame k) s
  = if is_complete b' (Num (Z.of_nat n)) then
      match decode_message (join b') with
      | inl e => emit (Uncaught e) s2
      | inr m =>
          deliver type id m
            (set_incomingBuffers (delete id (incomingBuffers s2)) s2)
      end
    else s2.
Proof.
  intros Hsec Hk Hb Hbuf b' s2. unfold receive.
  set (s0 := set_location_hash (frame k) s).
  destruct (seq_text_read k n) as (_ & _ & Ei & Et).
  assert (Hbuf0 : incomingBuffers s0 !! id = Some b
                  \/ (incomingBuffers s0 !! id = None
                      /\ new_Array (parseInt10_opt (split_seq (seq_text k n)).2)
                         = Some b)).
  { destruct Hbuf as [Hb1|[Hb1 ->]]; [now left|]. right. split; [exact Hb1|].
    rewrite Et. now apply new_Array_nat. }
  pose proof (handleIncoming_accepted s0 sec type id (seq_text k n)
                (chunk_text chunks k) b (frame_read k) Hsec Hbuf0) as E.
  cbv zeta in E. rewrite Ei, Et in E.
  rewrite array_set_in_range in E by (rewrite Hb; assumption).
  rewrite E. fold b'. subst s2 s0. cbn [secret set_location_hash].
  rewrite Hsec.
  destruct (is_complete b' (Num (Z.of_nat n))); [|reflexivity].
  destruct (decode_message (join b')); [reflexivity|].
  unfold deliver. destruct type; reflexivity.
Qed.

Hypothesis M_serializable : JSON_serializable M.

Lemma chunks_join : decode_message (join (map Some chunks)) = inr M.
Proof.
  destruct M_serializable as [Hwf Hparse].
  subst chunks sd. cbn [new_sender s_chunks].
  destruct (chunks_of_spec (encode_message M)) as (_ & Hcat & _).
  rewrite join_map_Some, Hcat. unfold decode_message, encode_message.
  now rewrite (decodeBase64_encodeBase64 _ Hwf), Hparse.
Qed.

(** The frames of the indices [arrived] have come in and a chunk is still
    missing: they are stored and acknowledged, nothing else has changed. *)
Lemma receive_partial r arrived :
  secret r = Some sec ->
  incomingBuffers r !! id = None ->
  Forall (fun i => i < n) arrived ->
  (exists i, i < n /\ i ∉ arrived) ->
  let s := receive_all (map frame arrived) r in
  undisturbed r s
  /\ log s = log r ++ map ack arrived
  /\ incomingBuffers s
     = match arrived with
       | [] => incomingBuffers r
       | _ => <[id := fill chunks arrived (replicate n None)]>
                (incomingBuffers r)
       end.
Proof.
  intros Hsec Hfresh. induction arrived as [|k l IH] using rev_ind;
    intros Hl Hmiss; cbv zeta.
  { split; [repeat split|]. split; [now rewrite app_nil_r | reflexivity]. }
  apply Forall_app in Hl as [Hl Hk]. rewrite Forall_singleton in Hk.
  assert (Hmiss' : exists i, i < n /\ i ∉ l).
  { destruct Hmiss as (i & Hi & Hni). exists i. split; [exact Hi|].
    intros Hin. apply Hni, elem_of_app. now left. }
  specialize (IH Hl Hmiss'). cbv zeta in IH.
  unfold receive_all in *. rewrite map_app, fold_left_app. cbn [map fold_left].
  set (s := fold_left _ (map frame l) r) in *.
  destruct IH as (Hu & Hlog & Hib).
  set (b := fill chunks l (replicate n None)).
  assert (Hb : length b = n).
  { apply (fill_spec chunks n_small l); [apply length_replicate | exact Hl]. }
  assert (Hbuf : incomingBuffers s !! id = Some b
                 \/ (incomingBuffers s !! id = None /\ b = replicate n None)).
  { rewrite Hib. destruct l as [|k0 l0]; [right; now split|].
    left. apply lookup_insert_eq. }
  assert (Hsec' : secret s = Some sec).
  { destruct Hu as (_ & _ & _ & _ & -> & _). exact Hsec. }
  pose proof (receive_frame s k b Hsec' Hk Hb Hbuf) as E. cbv zeta in E.
  rewrite E. clear E. subst b.
  match goal with
  | |- context [is_complete ?x _] =>
      replace x with (fill chunks (l ++ [k]) (replicate n None))
        by (apply (fill_snoc chunks n_small);
            [exact Hk | apply length_replicate | exact Hl])
  end.
  destruct Hmiss as (i & Hi & Hni).
  replace (is_complete (fill chunks (l ++ [k]) (replicate n None))
             (Num (Z.of_nat n))) with false
    by (symmetry; apply (fill_missing chunks n_small (l ++ [k]) i);
        [apply Forall_app; split; [exact Hl | now rewrite Forall_singleton]
        | exact Hi | exact Hni]).
  destruct Hu as (U1 & U2 & U3 & U4 & U5 & U6 & U7 & U8 & U9 & U10 & U11).
  split; [repeat split; assumption|]. split.
  - fields. rewrite Hlog, map_app, <- app_assoc. reflexivity.
  - fields. rewrite Hib. destruct l as [|k0 l0]; [reflexivity|].
    cbn [app]. apply insert_insert_eq.
Qed.

(** The last missing chunk arrives: the message is put together, the entry
    is removed and the message is handed on. *)
Lemma receive_message r arrived last :
  secret r = Some sec ->
  incomingBuffers r !! id = None ->
  Forall (fun i => i < n) arrived ->
  last < n -> last ∉ arrived ->
  (forall i, i < n -> i ∈ arrived ++ [last]) ->
  exists mid,
    receive_all (map frame (arrived ++ [last])) r = deliver type id M mid
    /\ undisturbed r mid
    /\ log mid = log r ++ map ack (arrived ++ [last])
    /\ incomingBuffers mid = incomingBuffers r.
Proof.
  intros Hsec Hfresh Hl Hk Hni Hall.
  destruct (receive_partial r arrived Hsec Hfresh Hl) as (Hu & Hlog & Hib);
    [now exists last|].
  unfold receive_all in *. rewrite map_app, fold_left_app. cbn [map fold_left].
  set (s := fold_left _ (map frame arrived) r) in *.
  set (b := fill chunks arrived (replicate n None)).
  assert (Hb : length b = n).
  { apply (fill_spec chunks n_small arrived);
      [apply length_replicate | exact Hl]. }
  assert (Hbuf : incomingBuffers s !! id = Some b
                 \/ (incomingBuffers s !! id = None /\ b = replicate n None)).
  { rewrite Hib. destruct arrived as [|k0 l0]; [right; now split|].
    left. apply lookup_insert_eq. }
  assert (Hsec' : secret s = Some sec).
  { destruct Hu as (_ & _ & _ & _ & -> & _). exact Hsec. }
  pose proof (receive_frame s last b Hsec' Hk Hb Hbuf) as E. cbv zeta in E.
  rewrite E. clear E. subst b.
  assert (Hfull : forall x : jsarray,
            x = <[last := Some (chunk_text chunks last)]>
                  (fill chunks arrived (replicate n None)) ->
            x = map Some chunks).
  { intros x ->.
    rewrite <- (fill_snoc chunks n_small arrived last (replicate n None) Hk
                  (length_replicate _ _) Hl).
    apply (fill_all chunks n_small).
    - apply Forall_app. split; [exact Hl | now rewrite Forall_singleton].
    - exact Hall. }
  match goal with
  | |- context [is_complete ?x _] => rewrite (Hfull x eq_refl)
  end.
  replace (is_complete (map Some chunks) (Num (Z.of_nat n))) with true
    by (symmetry; apply (fill_complete chunks)).
  rewrite chunks_join.
  eexists. split; [reflexivity|].
  destruct Hu as (U1 & U2 & U3 & U4 & U5 & U6 & U7 & U8 & U9 & U10 & U11).
  split; [repeat split; assumption|]. split.
  - fields. rewrite Hlog, map_app, <- app_assoc. reflexivity.
  - fields. rewrite delete_insert_eq, Hib.
    destruct arrived as [|k0 l0]; [now apply delete_id|].
    rewrite delete_insert_eq. now apply delete_id.
Qed.

End ContentsReceive.

(** *** The length of an encoded message *)

Lemma encodeBase64_nonempty t : t <> [] -> encodeBase64 t <> "".
Proof.
  intros Ht E. apply (f_equal String.length) in E.
  unfold encodeBase64 in E. rewrite encodeBase64_bin_length in E.
  pose proof (utf8_encode_length t) as [L _].
  assert (0 < length t) by (destruct t; [congruence | cbn; lia]).
  cbn [String.length] in E. unfold ceil_div in E.
  assert (1 <= (4 * String.length (utf8_encode t) + (3 - 1)) / 3).
  { apply Nat.div_le_lower_bound; lia. }
  lia.
Qed.

Lemma chunks_of_nonempty str : str <> "" -> 1 <= length (chunks_of str).
Proof.
  intros Hs. destruct (chunks_of_spec str) as (_ & _ & _ & ->).
  assert (0 < String.length str) by (destruct str; [congruence | cbn; lia]).
  unfold ceil_div. apply Nat.div_le_lower_bound; [vm_compute; lia|].
  change chunkSize with 3880. lia.
Qed.

(** ** Sending a message (content script) *)

Section ContentsTransmit.
Context `{Platform}.
Import Contents.

(** The text the peer writes for chunk [j] is the one the listener of a
    sender at chunk [S j] waits for. *)
Lemma acknowledge_expected (sd : Sender) (j : nat) (sec : option string) :
  expected_ack sec (at_index (S j) sd)
  = "ACK:" +:+ secret_text sec +:+ ":" +:+ s_id sd +:+ ":"
    +:+ Number_toString (Z.of_nat j).
Proof.
  unfold expected_ack. cbn [at_index s_id s_index].
  replace (Z.of_nat (S j) - 1)%Z with (Z.of_nat j) by lia. reflexivity.
Qed.

(** A registered sender whose first chunk is written: the
    acknowledgements of the chunks 0 to [j - 1] make it write the chunks
    1 to [j]. *)
Lemma acknowledged_partial (sd : Sender) (key : nat) (s1 : State) (j : nat) :
  senders s1 !! key = Some (at_index 1 sd) ->
  j < s_total sd ->
  let s := fold_left (fun s k => acknowledge key (s_id sd) k s) (seq 0 j)
             s1 in
  senders s = <[key := at_index (S j) sd]> (senders s1)
  /\ log s = log s1 ++ map (fun k => Wrote (msg_frame (secret s1)
                                              (at_index k sd))) (seq 1 j)
  /\ secret s = secret s1
  /\ handles s = handles s1.
Proof.
  intros Hsd. induction j as [|j IH]; intros Hj; cbv zeta.
  { cbn [seq fold_left map]. rewrite app_nil_r, insert_id by exact Hsd.
    repeat split. }
  specialize (IH (Nat.lt_succ_l _ _ Hj)). cbv zeta in IH.
  rewrite seq_S, fold_left_app. cbn [fold_left Nat.add].
  set (s := fold_left _ (seq 0 j) _) in *.
  destruct IH as (Es & El & Ec & Eh).
  unfold acknowledge, handleAck. cbn [senders set_location_hash].
  rewrite Es, lookup_insert_eq.
  cbn [location_hash set_location_hash secret].
  rewrite acknowledge_expected, String.eqb_refl.
  cbn [at_index s_index s_total].
  apply Nat.ltb_lt in Hj. rewrite Hj.
  fields. rewrite Es, El, Ec, Eh, insert_insert_eq.
  split; [reflexivity|]. split; [|split; reflexivity].
  rewrite (seq_S j 1), map_app, <- app_assoc. reflexivity.
Qed.

(** With the acknowledgement of the last chunk the listener is removed. *)
Lemma acknowledged_all (sd : Sender) (key : nat) (s1 : State) :
  senders s1 !! key = Some (at_index 1 sd) ->
  1 <= s_total sd ->
  let s := fold_left (fun s k => acknowledge key (s_id sd) k s)
             (seq 0 (s_total sd)) s1 in
  log s = log s1 ++ map (fun k => Wrote (msg_frame (secret s1)
                                           (at_index k sd)))
                      (seq 1 (s_total sd - 1))
  /\ senders s = delete key (senders s1)
  /\ secret s = secret s1
  /\ handles s = handles s1.
Proof.
  intros Hsd Hn. cbv zeta.
  destruct (s_total sd) as [|m] eqn:En; [lia|].
  destruct (acknowledged_partial sd key s1 m Hsd) as (Es & El & Ec & Eh);
    [lia|].
  rewrite seq_S, fold_left_app. cbn [fold_left Nat.add].
  set (s := fold_left _ (seq 0 m) _) in *.
  unfold acknowledge, handleAck. cbn [senders set_location_hash].
  rewrite Es, lookup_insert_eq.
  cbn [location_hash set_location_hash secret].
  rewrite acknowledge_expected, String.eqb_refl.
  cbn [at_index s_index s_total].
  rewrite En, Nat.ltb_irrefl.
  fields. rewrite El, delete_insert_eq.
  replace (S m - 1) with m by lia. repeat split; assumption.
Qed.

Variables (type : FrameType) (id : string) (data : JSValue) (s0 : State).
Hypothesis data_text : JSON_stringify data <> [].

Let sd := new_sender type id data.
Let n := s_total sd.
Let key := handles s0.
Let sec := secret s0.
Let frame (k : nat) : string := msg_frame sec (at_index k sd).

Lemma total_positive : 1 <= n.
Proof.
  subst n sd. cbn [new_sender s_total]. apply chunks_of_nonempty.
  unfold encode_message. now apply encodeBase64_nonempty.
Qed.

Lemma sendChunks_registers :
  senders (sendChunks type id data s0) !! key = Some (at_index 1 sd)
  /\ senders (sendChunks type id data s0)
     = <[key := at_index 1 sd]> (senders s0)
  /\ log (sendChunks type id data s0) = log s0 ++ [Wrote (frame 0)]
  /\ secret (sendChunks type id data s0) = sec
  /\ handles (sendChunks type id data s0) = S key.
Proof.
  unfold sendChunks, sendNext. cbv zeta. fields.
  split; [apply lookup_insert_eq|]. repeat split.
Qed.

Lemma transmit_partial j :
  j < n ->
  let s := fold_left (fun s k => acknowledge key id k s) (seq 0 j)
             (sendChunks type id data s0) in
  senders s = <[key := at_index (S j) sd]> (senders s0)
  /\ log s = log s0 ++ map (fun k => Wrote (frame k)) (seq 0 (S j))
  /\ secret s = sec
  /\ handles s = S key.
Proof.
  intros Hj. cbv zeta.
  destruct sendChunks_registers as (E1 & E2 & E3 & E4 & E5).
  destruct (acknowledged_partial sd key _ j E1 Hj) as (Es & El & Ec & Eh).
  change (s_id sd) with id in *. cbv zeta in *.
  rewrite Es, El, Ec, Eh, E2, E3, E4, E5, insert_insert_eq, <- app_assoc.
  repeat split.
Qed.

(** A message whose chunks are acknowledged in turn is written frame by
    frame, in order and once each; the listener is then removed. *)
Lemma transmit_all :
  let s := fold_left (fun s k => acknowledge key id k s) (seq 0 n)
             (sendChunks type id data s0) in
  log s = log s0 ++ map Wrote (frames_of sec sd)
  /\ senders s = delete key (senders s0)
  /\ senders s !! key = None.
Proof.
  pose proof total_positive as Hn. cbv zeta.
  destruct sendChunks_registers as (E1 & E2 & E3 & E4 & E5).
  destruct (acknowledged_all sd key _ E1 Hn) as (El & Es & _).
  change (s_id sd) with id in *. cbv zeta in *. fold n in El, Es |- *.
  rewrite Es, El, E2, E3, E4, delete_insert_eq, <- app_assoc.
  split; [|split; [reflexivity | apply lookup_delete_eq]].
  unfold frames_of. fold n. destruct n as [|m]; [lia|].
  replace (S m - 1) with m by lia.
  rewrite map_map. cbn [seq map app]. rewrite <- seq_shift, !map_map.
  reflexivity.
Qed.

End ContentsTransmit.

(** *** The codec, as its callers see it *)

(** X1: every character of [encodeBase64 t] is one of [A-Za-z0-9_-].  The
    encoded text therefore holds none of the characters the frames use as
    separators ([:], [/]), no padding and no white space. *)
Theorem encodeBase64_alphabet t :
  Str.forallb is_urlsafe_char (encodeBase64 t) = true.
Proof. apply encodeBase64_bin_alphabet. Qed.

(** X2: for a text of [b] UTF-8 bytes [encodeBase64] returns
    [ceil (4 * b / 3)] characters, where [b] lies between the number of
    scalar values of the text and four times that number; the result is
    empty only for the empty text. *)
Theorem encodeBase64_length t :
  String.length (encodeBase64 t)
  = ceil_div (4 * String.length (utf8_encode t)) 3
  /\ length t <= String.length (utf8_encode t) <= 4 * length t
  /\ (encodeBase64 t = "" <-> t = []).
Proof.
  split; [apply encodeBase64_bin_length|].
  split; [apply utf8_encode_length|].
  split; [|now intros ->].
  intros E. destruct t as [|c t]; [reflexivity|].
  exfalso. now apply (encodeBase64_nonempty (c :: t)).
Qed.

(** X3: [decodeBase64] also reads what [btoa] returns for the UTF-8 bytes
    of a well-formed text, with its padding, in the standard alphabet and
    with [+] and [/] replaced by [-] and [_]. *)
Theorem decodeBase64_accepts_padding t :
  Forall is_scalar t ->
  decodeBase64 (btoa (utf8_encode t)) = Some t
  /\ decodeBase64 (Str.map to_urlsafe (btoa (utf8_encode t))) = Some t.
Proof.
  intros Ht.
  assert (E : decodeBase64 (btoa (utf8_encode t)) = Some t).
  { unfold decodeBase64.
    rewrite map_from_urlsafe_btoa, pad_loop_aligned by apply length_btoa.
    rewrite atob_btoa. cbn [mbind option_bind].
    now apply utf8_decode_encode. }
  split; [exact E|].
  unfold decodeBase64 in *. now rewrite map_from_to_urlsafe.
Qed.

(** X4: [decodeBase64] throws for every text whose length is 1 modulo 4:
    the loop pads it with [===] and [atob] refuses the result. *)
Theorem decodeBase64_refuses_length str :
  String.length str mod 4 = 1 -> decodeBase64 str = None.
Proof. apply decodeBase64_one_mod_four. Qed.

(** X5: [decodeBase64] throws for every text that holds a character which
    is in neither alphabet, is not [=] and is not white space. *)
Theorem decodeBase64_refuses_foreign str :
  Str.existsb is_foreign_char str = true -> decodeBase64 str = None.
Proof.
  intros H. unfold decodeBase64.
  apply existsb_map_foreign in H.
  apply (existsb_pad_loop _ 3) in H.
  now rewrite (atob_unreadable _ H).
Qed.

(** *** The sizes of the chunks *)

(** X6: for a positive size [chunkString] returns chunks of which every
    one but the last has exactly [size] characters; the last has the rest
    of the string, between 1 and [size] characters. *)
Theorem chunkString_sizes str size :
  0 < size ->
  exists chunks,
    chunkString str size = Some chunks
    /\ forall k c, chunks !! k = Some c ->
         (S k < length chunks -> String.length c = size)
         /\ (S k = length chunks ->
             String.length c = String.length str - k * size
             /\ 0 < String.length c <= size).
Proof.
  intros Hsize.
  destruct (chunkString_spec str size Hsize)
    as (chunks & H1 & _ & H3 & H4 & H5).
  exists chunks. split; [exact H1|]. intros k c Ec.
  destruct (ceil_div_spec (String.length str) size Hsize) as [Hup Hlow].
  rewrite <- H4 in Hup, Hlow.
  assert (Hk : k < length chunks) by (apply lookup_lt_is_Some; eauto).
  assert (Hpos : 0 < String.length str).
  { destruct (String.length str); [|lia]. rewrite ceil_div_zero in H4; lia. }
  specialize (Hlow Hpos).
  assert (El : String.length c
               = Nat.min size (String.length str - k * size)).
  { rewrite (H5 k Hk) in Ec. injection Ec as <-.
    rewrite slice_take_drop, str_length_take, str_length_drop. lia. }
  split; intros Hn.
  - rewrite El. nia.
  - split; [rewrite El; nia|].
    rewrite Forall_forall in H3. apply H3.
    now apply list_elem_of_lookup_2 in Ec.
Qed.

(** ** The frames of both scripts *)

Lemma split_at_none c s :
  Str.forallb (fun x => negb (Ascii.eqb x c)) s = true -> split_at c s = None.
Proof.
  induction s as [|x s IH]; [reflexivity|]. cbn [Str.forallb split_at].
  intros [H1 H2]%andb_true_iff. apply negb_true_iff in H1.
  now rewrite H1, (IH H2).
Qed.

Section FramesOfBoth.
Context `{Platform}.

Lemma contents_frame_fields sec ty id data k :
  Contents.msg_frame (Some sec) (Contents.at_index k (Contents.new_sender ty id data))
  = "MSG:" +:+ sec +:+ ":" +:+ FrameType_text ty +:+ ":" +:+ id +:+ ":"
    +:+ seq_text k (length (chunks_of (encode_message data))) +:+ ":"
    +:+ chunk_text (chunks_of (encode_message data)) k.
Proof.
  unfold Contents.msg_frame.
  cbn [Contents.at_index Contents.new_sender Contents.s_type Contents.s_id
       Contents.s_index Contents.s_total Contents.s_chunks
       Contents.secret_text].
  now rewrite seq_text_assoc.
Qed.

Lemma bg_frame_fields tab ty id data k :
  BG.msg_frame (BG.at_index k (BG.new_sender tab ty id data))
  = "MSG:" +:+ FrameType_text ty +:+ ":" +:+ id +:+ ":"
    +:+ seq_text k (length (chunks_of (encode_message data))) +:+ ":"
    +:+ chunk_text (chunks_of (encode_message data)) k.
Proof.
  unfold BG.msg_frame.
  cbn [BG.at_index BG.new_sender BG.s_type BG.s_id
       BG.s_index BG.s_total BG.s_chunks].
  now rewrite seq_text_assoc.
Qed.

Lemma message_chunk_readable data k :
  dot_plus_end (chunk_text (chunks_of (encode_message data)) k)
  = Some (chunk_text (chunks_of (encode_message data)) k).
Proof. unfold encode_message. apply chunk_text_readable. Qed.

(** X7: the frame [sendNext] writes for chunk [k] of a message is matched
    by the pattern of [handleIncoming] of the same script, in both scripts;
    the groups are the secret (content script), the type, the identifier,
    a sequence text that [parseInt] reads as [k] and as the number of
    chunks, and the chunk ([undefined] past the last chunk).  The
    identifier is not empty and has no colon, as [crypto.randomUUID()]
    returns it and as the pattern matches it. *)
Theorem frame_round_trip ty id data k :
  no_colon id -> id <> "" ->
  let chunks := chunks_of (encode_message data) in
  exists seq,
    parseInt10 (split_seq seq).1 = Num (Z.of_nat k)
    /\ parseInt10_opt (split_seq seq).2 = Num (Z.of_nat (length chunks))
    /\ (forall sec, no_colon sec -> sec <> "" ->
          Contents.match_msg
            (Contents.msg_frame (Some sec)
               (Contents.at_index k (Contents.new_sender ty id data)))
          = Some (sec, ty, id, seq, chunk_text chunks k))
    /\ (forall tab,
          BG.match_msg
            (BG.msg_frame (BG.at_index k (BG.new_sender tab ty id data)))
          = Some (ty, id, seq, chunk_text chunks k)).
Proof.
  intros Hid Nid chunks. exists (seq_text k (length chunks)).
  destruct (seq_text_read k (length chunks)) as (Hs & Ns & Ei & Et).
  split; [exact Ei|]. split; [exact Et|]. split.
  - intros sec Hsec Nsec. rewrite contents_frame_fields.
    apply contents_match_msg_fields; try assumption.
    apply message_chunk_readable.
  - intros tab. rewrite bg_frame_fields.
    apply bg_match_msg_fields; try assumption.
    apply message_chunk_readable.
Qed.

(** *** The two scripts do not read each other's frames *)

Lemma chunk_text_no_colon data k :
  no_colon (chunk_text (chunks_of (encode_message data)) k).
Proof.
  unfold chunk_text.
  destruct (chunks_of (encode_message data) !! k) as [c|] eqn:E;
    [|reflexivity].
  destruct (chunks_of_spec (encode_message data)) as (_ & Hcat & _).
  pose proof (encodeBase64_bin_alphabet (utf8_encode (JSON_stringify data)))
    as Ha.
  fold (encodeBase64 (JSON_stringify data)) in Ha.
  fold (encode_message data) in Ha. rewrite <- Hcat in Ha.
  apply forallb_concat in Ha. rewrite Forall_forall in Ha.
  apply list_elem_of_lookup_2 in E. specialize (Ha c E).
  revert Ha. apply forallb_impl. intros x Hx.
  destruct (urlsafe_char_plain x Hx) as (-> & _). reflexivity.
Qed.

Lemma FrameType_text_plain ty :
  no_colon (FrameType_text ty) /\ FrameType_text ty <> "".
Proof. now destruct ty. Qed.

Lemma contents_rejects_bg_frame tab ty id data k :
  no_colon id ->
  Contents.match_msg
    (BG.msg_frame (BG.at_index k (BG.new_sender tab ty id data))) = None.
Proof.
  intros Hid. rewrite bg_frame_fields.
  unfold Contents.match_msg, Str.startsWith. rewrite prefix_append.
  cbn [negb]. change (Str.drop 4 ("MSG:" +:+ ?x)) with x.
  destruct (FrameType_text_plain ty) as [Hty Nty].
  rewrite (colon_field_append _ _ Hty Nty).
  change (":" +:+ ?x) with (String ":"%char x).
  rewrite (split_at_append _ id _ Hid).
  destruct (FrameType_of_text id); [|reflexivity].
  destruct (seq_text_read k (length (chunks_of (encode_message data))))
    as (Hs & Ns & _).
  change (String ":"%char ?x) with (":" +:+ x).
  rewrite (colon_field_append _ _ Hs Ns).
  unfold colon_field.
  now rewrite (split_at_none _ _ (chunk_text_no_colon data k)).
Qed.

Lemma first_field_of (S T : string) :
  exists a b,
    split_at ":"%char (S +:+ String ":"%char T) = Some (a, b)
    /\ (a = S \/ exists S', S = a +:+ ":" +:+ S').
Proof.
  induction S as [|c S IH]; cbn [append split_at].
  - exists "", T. auto.
  - destruct (Ascii.eqb c ":") eqn:Ec.
    + apply Ascii.eqb_eq in Ec as ->. exists "", (S +:+ String ":"%char T).
      split; [reflexivity|]. right. now exists S.
    + destruct IH as (a & b & -> & Ha). exists (String c a), b.
      split; [reflexivity|]. destruct Ha as [-> | [S' ->]]; [now left|].
      right. now exists S'.
Qed.

Lemma bg_rejects_contents_frame sec ty id data k :
  Contents.secret_text sec <> "REQ" -> Contents.secret_text sec <> "RES" ->
  Str.startsWith (Contents.secret_text sec) "REQ:" = false ->
  Str.startsWith (Contents.secret_text sec) "RES:" = false ->
  BG.match_msg
    (Contents.msg_frame sec
       (Contents.at_index k (Contents.new_sender ty id data))) = None.
Proof.
  intros N1 N2 P1 P2. unfold Contents.msg_frame.
  unfold BG.match_msg. unfold Str.startsWith at 1. rewrite prefix_append.
  cbn [negb]. change (Str.drop 4 ("MSG:" +:+ ?x)) with x.
  set (T := FrameType_text _ +:+ _).
  destruct (first_field_of (Contents.secret_text sec) T)
    as (a & b & E & Ha).
  change (Contents.secret_text sec +:+ ":" +:+ T)
    with (Contents.secret_text sec +:+ String ":"%char T).
  rewrite E.
  destruct (FrameType_of_text a) as [t|] eqn:Et; [exfalso|reflexivity].
  assert (Ea : a = "REQ" \/ a = "RES").
  { unfold FrameType_of_text in Et.
    destruct (String.eqb a "REQ") eqn:E1;
      [left; now apply String.eqb_eq|].
    destruct (String.eqb a "RES") eqn:E2;
      [right; now apply String.eqb_eq | discriminate]. }
  destruct Ha as [Ea' | [S' ES]]; [destruct Ea; congruence|].
  unfold Str.startsWith in P1, P2. rewrite ES in P1, P2.
  destruct Ea as [-> | ->].
  - change ("REQ" +:+ ":" +:+ S') with ("REQ:" +:+ S') in P1.
    rewrite prefix_append in P1. discriminate.
  - change ("RES" +:+ ":" +:+ S') with ("RES:" +:+ S') in P2.
    rewrite prefix_append in P2. discriminate.
Qed.

End FramesOfBoth.

Lemma Number_toString_plain z : no_colon (Number_toString z).
Proof.
  assert (D : forall d, no_colon (NilEmpty.string_of_uint d)).
  { intros d. apply digits_plain, string_of_uint_digits. }
  unfold Number_toString. destruct z as [|p|p]; [reflexivity | |];
    cbn [Z.to_int NilZero.string_of_int];
    destruct (string_of_uint_nonnil (Pos.to_uint p)) as (-> & _);
    try apply Unsigned.to_uint_nonnil; [apply D|].
  unfold no_colon. cbn [Str.forallb]. apply D.
Qed.

Lemma no_colon_append a b : no_colon a -> no_colon b -> no_colon (a +:+ b).
Proof.
  unfold no_colon. intros Ha Hb. now rewrite forallb_append, Ha, Hb.
Qed.

Lemma strip_trailing_zeros_plain s :
  no_colon s -> no_colon (strip_trailing_zeros s).
Proof.
  unfold no_colon. induction s as [|c s IH]; [reflexivity|].
  cbn [Str.forallb strip_trailing_zeros]. intros Hs.
  apply andb_true_iff in Hs as [Hc Hs].
  destruct (Ascii.eqb c "0" && String.eqb (strip_trailing_zeros s) "");
    [reflexivity|].
  cbn [Str.forallb]. now rewrite Hc, IH.
Qed.

Lemma exponent_text_plain v : no_colon (exponent_text v).
Proof.
  unfold exponent_text. pose proof (Number_toString_plain v) as Hv.
  destruct (_ <=? 21); [exact Hv|].
  apply strip_trailing_zeros_plain in Hv.
  destruct (strip_trailing_zeros (Number_toString v)) as [|c rest];
    [apply Number_toString_plain|].
  unfold no_colon in Hv. cbn [Str.forallb] in Hv.
  apply andb_true_iff in Hv as [Hc Hrest].
  assert (He : forall k, no_colon ("e+" +:+ Number_toString k)).
  { intros k. apply no_colon_append;
      [reflexivity | apply Number_toString_plain]. }
  destruct rest as [|c' rest'].
  - unfold no_colon. cbn [Str.forallb]. rewrite Hc. apply He.
  - unfold no_colon. cbn [Str.forallb]. rewrite Hc. cbn [andb].
    apply (no_colon_append "."); [reflexivity|].
    apply no_colon_append; [exact Hrest | apply He].
Qed.

Lemma large_Number_text_plain z : no_colon (large_Number_text z).
Proof.
  unfold large_Number_text.
  assert (Hs : no_colon (if (z <? 0)%Z then "-" else ""))
    by (destruct (z <? 0)%Z; reflexivity).
  destruct (double_of_pos (Z.abs z)); apply no_colon_append;
    solve [exact Hs | apply exponent_text_plain | reflexivity].
Qed.

Lemma jsnum_toString_plain n : no_colon (jsnum_toString n).
Proof.
  destruct n as [|z]; [reflexivity|]. cbn [jsnum_toString].
  destruct (Z.abs z <? 2 ^ 53)%Z;
    [apply Number_toString_plain | apply large_Number_text_plain].
Qed.

Lemma colon_inside a b : ~ no_colon (a +:+ ":" +:+ b).
Proof.
  unfold no_colon. rewrite forallb_append.
  change (":" +:+ b) with (String ":"%char b). cbn [Str.forallb].
  change (negb (Ascii.eqb ":" ":")) with false.
  rewrite andb_false_l, andb_false_r. discriminate.
Qed.

Section Strangers.
Context `{Platform}.

Lemma bg_frame_startsWith sd : Str.startsWith (BG.msg_frame sd) "MSG:" = true.
Proof. unfold BG.msg_frame, Str.startsWith. apply prefix_append. Qed.

Lemma contents_frame_startsWith sec sd :
  Str.startsWith (Contents.msg_frame sec sd) "MSG:" = true.
Proof. unfold Contents.msg_frame, Str.startsWith. apply prefix_append. Qed.

Lemma contents_ignores_bg_frame tab ty id data k s :
  no_colon id ->
  let frame := BG.msg_frame (BG.at_index k (BG.new_sender tab ty id data)) in
  Contents.receive frame s = Contents.set_location_hash frame s.
Proof.
  intros Hid frame. unfold Contents.receive, Contents.handleIncoming.
  cbn [Contents.location_hash Contents.set_location_hash].
  pose proof (bg_frame_startsWith
                (BG.at_index k (BG.new_sender tab ty id data))) as Hp.
  fold frame in Hp. rewrite (startsWith_MSG_not_INIT _ Hp), Hp. cbn [negb].
  subst frame. now rewrite contents_rejects_bg_frame.
Qed.

Lemma bg_ignores_contents_frame sec ty id data k tab base s :
  Contents.secret_text sec <> "REQ" -> Contents.secret_text sec <> "RES" ->
  Str.startsWith (Contents.secret_text sec) "REQ:" = false ->
  Str.startsWith (Contents.secret_text sec) "RES:" = false ->
  BG.handleIncoming tab base
    (Contents.msg_frame sec
       (Contents.at_index k (Contents.new_sender ty id data))) s = s.
Proof.
  intros N1 N2 P1 P2. unfold BG.handleIncoming.
  rewrite contents_frame_startsWith. cbn [negb].
  now rewrite bg_rejects_contents_frame.
Qed.

(** A text of two fields is not a text of three: the first has one colon
    where the second has two or more. *)
Lemma two_fields_not_three a b S t u :
  no_colon a -> no_colon b ->
  a +:+ ":" +:+ b <> S +:+ ":" +:+ t +:+ ":" +:+ u.
Proof.
  intros Ha Hb. revert S. induction a as [|c a IH]; intros [|d S] E.
  - injection E as E. subst b. exact (colon_inside t u Hb).
  - injection E as _ E. subst b.
    exact (colon_inside S (t +:+ ":" +:+ u) Hb).
  - injection E as E _. subst c. discriminate Ha.
  - injection E as _ E. unfold no_colon in Ha. cbn [Str.forallb] in Ha.
    apply andb_true_iff in Ha as [_ Ha]. exact (IH Ha S E).
Qed.

Lemma contents_ignores_bg_ack key id index s :
  no_colon id ->
  let h := BG.ack_frame id index in
  Contents.handleAck key (Contents.set_location_hash h s)
  = Contents.set_location_hash h s.
Proof.
  intros Hid h. unfold Contents.handleAck.
  cbn [Contents.senders Contents.set_location_hash Contents.location_hash
       Contents.secret].
  destruct (Contents.senders s !! key) as [sd|]; [|reflexivity].
  destruct (String.eqb h _) eqn:E; [|reflexivity].
  exfalso. apply String.eqb_eq in E.
  unfold h, BG.ack_frame, Contents.expected_ack in E.
  apply append_inv_head in E.
  exact (two_fields_not_three _ _ _ _ _ Hid (jsnum_toString_plain index) E).
Qed.

Lemma bg_ignores_contents_ack key tab base sec id index s :
  (forall sd, BG.senders s !! key = Some sd -> no_colon (BG.s_id sd)) ->
  BG.onUpdated key tab base (Contents.ack_frame sec id index) s = s.
Proof.
  intros Hsd. unfold BG.onUpdated.
  destruct (BG.senders s !! key) as [sd|] eqn:Es; [|reflexivity].
  destruct (negb (BG.s_listening sd)); [reflexivity|].
  destruct (negb (tab =? BG.s_tab sd)); [reflexivity|].
  destruct (String.eqb _ _) eqn:E; [|reflexivity].
  exfalso. apply String.eqb_eq in E.
  unfold Contents.ack_frame, BG.expected_ack in E.
  apply append_inv_head in E. symmetry in E.
  exact (two_fields_not_three _ _ _ _ _ (Hsd sd eq_refl)
           (Number_toString_plain _) E).
Qed.

(** X8: the two scripts as they stand do not read each other's frames.
    (1) A [MSG] frame written by [sendNext] of the background script for
    an identifier without a colon (as [crypto.randomUUID()] returns it and
    as its pattern reads it) does not match the pattern of the content
    script, whose [handleIncoming] then changes nothing.  (2) An [ACK]
    frame the background script writes for such an identifier is never the
    acknowledgement a sender of the content script waits for, whatever the
    secret.  (3) A [MSG] frame written by the content script is ignored by
    the background script if the secret text is not [REQ] or [RES] and
    does not start with [REQ:] or [RES:]; a secret may hold colons, and
    one that starts with [REQ:] can make the frame read as a frame of the
    background script.  (4) An [ACK] frame of the content script, whatever
    the secret, never advances a sender of the background script whose
    identifier has no colon. *)
Theorem scripts_reject_each_other :
  (forall tab ty id data k s,
     no_colon id ->
     let frame :=
       BG.msg_frame (BG.at_index k (BG.new_sender tab ty id data)) in
     Contents.receive frame s = Contents.set_location_hash frame s)
  /\ (forall key id index s,
        no_colon id ->
        let h := BG.ack_frame id index in
        Contents.handleAck key (Contents.set_location_hash h s)
        = Contents.set_location_hash h s)
  /\ (forall sec ty id data k tab base s,
        Contents.secret_text sec <> "REQ" ->
        Contents.secret_text sec <> "RES" ->
        Str.startsWith (Contents.secret_text sec) "REQ:" = false ->
        Str.startsWith (Contents.secret_text sec) "RES:" = false ->
        BG.handleIncoming tab base
          (Contents.msg_frame sec
             (Contents.at_index k (Contents.new_sender ty id data))) s = s)
  /\ (forall key tab base sec id index s,
        (forall sd, BG.senders s !! key = Some sd -> no_colon (BG.s_id sd)) ->
        BG.onUpdated key tab base (Contents.ack_frame sec id index) s = s).
Proof.
  split; [exact contents_ignores_bg_frame|].
  split; [exact contents_ignores_bg_ack|].
  split; [exact bg_ignores_contents_frame | exact bg_ignores_contents_ack].
Qed.

End Strangers.

(** ** Receiving a message (background script) *)

Section BGReceive.
Context `{Platform}.
Import BG.

Variables (tab : nat) (base id : string) (type : FrameType) (M : JSValue).
Hypothesis id_plain : no_colon id.
Hypothesis id_nonempty : id <> "".

Let sd := new_sender tab type id M.
Let chunks := s_chunks sd.
Let n := s_total sd.
Hypothesis n_small : (Z.of_nat n <= 4294967295)%Z.

Let frame (k : nat) : string := msg_frame (at_index k sd).
Let ack (k : nat) : Effect :=
  Wrote tab base (ack_frame id (Num (Z.of_nat k))).

Lemma bg_frame_read k :
  match_msg (frame k) = Some (type, id, seq_text k n, chunk_text chunks k).
Proof.
  unfold frame, sd. rewrite bg_frame_fields.
  destruct (seq_text_read k n) as (Hs & Ns & _).
  apply bg_match_msg_fields; try assumption.
  apply message_chunk_readable.
Qed.

(** One frame of the message arrives. *)
Lemma bg_receive_frame s k b :
  k < n -> length b = n ->
  incomingBuffers s !! id = Some b
  \/ (incomingBuffers s !! id = None /\ b = replicate n None) ->
  let b' := <[k := Some (chunk_text chunks k)]> b in
  let s2 := updateTabHash tab base (ack_frame id (Num (Z.of_nat k)))
              (set_incomingBuffers (<[id := b']> (incomingBuffers s)) s) in
  handleIncoming tab base (frame k) s
  = if is_complete b' (Num (Z.of_nat n)) then
      match decode_message (join b') with
      | inl e => emit (Uncaught e) s2
      | inr m =>
          deliver tab type id m
            (set_incomingBuffers (delete id (incomingBuffers s2)) s2)
      end
    else s2.
Proof.
  intros Hk Hb Hbuf b' s2.
  destruct (seq_text_read k n) as (_ & _ & Ei & Et).
  assert (Hbuf0 : incomingBuffers s !! id = Some b
                  \/ (incomingBuffers s !! id = None
                      /\ new_Array (parseInt10_opt (split_seq (seq_text k n)).2)
                         = Some b)).
  { destruct Hbuf as [Hb1|[Hb1 ->]]; [now left|]. right. split; [exact Hb1|].
    rewrite Et. now apply new_Array_nat. }
  pose proof (bg_handleIncoming_accepted tab base (frame k) s type id
                (seq_text k n) (chunk_text chunks k) b (bg_frame_read k)
                Hbuf0) as E.
  cbv zeta in E. rewrite Ei, Et in E.
  rewrite array_set_in_range in E by (rewrite Hb; assumption).
  rewrite E. fold b'. subst s2.
  destruct (is_complete b' (Num (Z.of_nat n))); [|reflexivity].
  destruct (decode_message (join b')); [reflexivity|].
  unfold deliver. destruct type; reflexivity.
Qed.

(** The frames of the indices [arrived] have come in and a chunk is still
    missing: they are stored and acknowledged, nothing else has changed. *)
Lemma bg_receive_partial r arrived :
  incomingBuffers r !! id = None ->
  Forall (fun i => i < n) arrived ->
  (exists i, i < n /\ i ∉ arrived) ->
  let s := receive_all tab base (map frame arrived) r in
  undisturbed r s
  /\ log s = log r ++ map ack arrived
  /\ incomingBuffers s
     = match arrived with
       | [] => incomingBuffers r
       | _ => <[id := fill chunks arrived (replicate n None)]>
                (incomingBuffers r)
       end.
Proof.
  intros Hfresh. induction arrived as [|k l IH] using rev_ind;
    intros Hl Hmiss; cbv zeta.
  { split; [repeat split|]. split; [now rewrite app_nil_r | reflexivity]. }
  apply Forall_app in Hl as [Hl Hk]. rewrite Forall_singleton in Hk.
  assert (Hmiss' : exists i, i < n /\ i ∉ l).
  { destruct Hmiss as (i & Hi & Hni). exists i. split; [exact Hi|].
    intros Hin. apply Hni, elem_of_app. now left. }
  specialize (IH Hl Hmiss'). cbv zeta in IH.
  unfold receive_all in *. rewrite map_app, fold_left_app. cbn [map fold_left].
  set (s := fold_left _ (map frame l) r) in *.
  destruct IH as (Hu & Hlog & Hib).
  set (b := fill chunks l (replicate n None)).
  assert (Hb : length b = n).
  { apply (fill_spec chunks n_small l); [apply length_replicate | exact Hl]. }
  assert (Hbuf : incomingBuffers s !! id = Some b
                 \/ (incomingBuffers s !! id = None /\ b = replicate n None)).
  { rewrite Hib. destruct l as [|k0 l0]; [right; now split|].
    left. apply lookup_insert_eq. }
  pose proof (bg_receive_frame s k b Hk Hb Hbuf) as E. cbv zeta in E.
  rewrite E. clear E. subst b.
  match goal with
  | |- context [is_complete ?x _] =>
      replace x with (fill chunks (l ++ [k]) (replicate n None))
        by (apply (fill_snoc chunks n_small);
            [exact Hk | apply length_replicate | exact Hl])
  end.
  destruct Hmiss as (i & Hi & Hni).
  replace (is_complete (fill chunks (l ++ [k]) (replicate n None))
             (Num (Z.of_nat n))) with false
    by (symmetry; apply (fill_missing chunks n_small (l ++ [k]) i);
        [apply Forall_app; split; [exact Hl | now rewrite Forall_singleton]
        | exact Hi | exact Hni]).
  destruct Hu as (U1 & U2 & U3 & U4 & U5 & U6 & U7 & U8 & U9).
  split; [repeat split; assumption|]. split.
  - bg_fields. rewrite Hlog, map_app, <- app_assoc. reflexivity.
  - bg_fields. rewrite Hib. destruct l as [|k0 l0]; [reflexivity|].
    cbn [app]. apply insert_insert_eq.
Qed.

Hypothesis M_serializable : JSON_serializable M.

Lemma bg_chunks_join : decode_message (join (map Some chunks)) = inr M.
Proof.
  destruct M_serializable as [Hwf Hparse].
  subst chunks sd. cbn [new_sender s_chunks].
  destruct (chunks_of_spec (encode_message M)) as (_ & Hcat & _).
  rewrite join_map_Some, Hcat. unfold decode_message, encode_message.
  now rewrite (decodeBase64_encodeBase64 _ Hwf), Hparse.
Qed.

(** The last missing chunk arrives: the message is put together, the entry
    is removed and the message is handed on. *)
Lemma bg_receive_message r arrived last :
  incomingBuffers r !! id = None ->
  Forall (fun i => i < n) arrived ->
  last < n -> last ∉ arrived ->
  (forall i, i < n -> i ∈ arrived ++ [last]) ->
  exists mid,
    receive_all tab base (map frame (arrived ++ [last])) r
    = deliver tab type id M mid
    /\ undisturbed r mid
    /\ log mid = log r ++ map ack (arrived ++ [last])
    /\ incomingBuffers mid = incomingBuffers r.
Proof.
  intros Hfresh Hl Hk Hni Hall.
  destruct (bg_receive_partial r arrived Hfresh Hl) as (Hu & Hlog & Hib);
    [now exists last|].
  unfold receive_all in *. rewrite map_app, fold_left_app. cbn [map fold_left].
  set (s := fold_left _ (map frame arrived) r) in *.
  set (b := fill chunks arrived (replicate n None)).
  assert (Hb : length b = n).
  { apply (fill_spec chunks n_small arrived);
      [apply length_replicate | exact Hl]. }
  assert (Hbuf : incomingBuffers s !! id = Some b
                 \/ (incomingBuffers s !! id = None /\ b = replicate n None)).
  { rewrite Hib. destruct arrived as [|k0 l0]; [right; now split|].
    left. apply lookup_insert_eq. }
  pose proof (bg_receive_frame s last b Hk Hb Hbuf) as E. cbv zeta in E.
  rewrite E. clear E. subst b.
  assert (Hfull : forall x : jsarray,
            x = <[last := Some (chunk_text chunks last)]>
                  (fill chunks arrived (replicate n None)) ->
            x = map Some chunks).
  { intros x ->.
    rewrite <- (fill_snoc chunks n_small arrived last (replicate n None) Hk
                  (length_replicate _ _) Hl).
    apply (fill_all chunks n_small).
    - apply Forall_app. split; [exact Hl | now rewrite Forall_singleton].
    - exact Hall. }
  match goal with
  | |- context [is_complete ?x _] => rewrite (Hfull x eq_refl)
  end.
  replace (is_complete (map Some chunks) (Num (Z.of_nat n))) with true
    by (symmetry; apply (fill_complete chunks)).
  rewrite bg_chunks_join.
  eexists. split; [reflexivity|].
  destruct Hu as (U1 & U2 & U3 & U4 & U5 & U6 & U7 & U8 & U9).
  split; [repeat split; assumption|]. split.
  - bg_fields. rewrite Hlog, map_app, <- app_assoc. reflexivity.
  - bg_fields. rewrite delete_insert_eq, Hib.
    destruct arrived as [|k0 l0]; [now apply delete_id|].
    rewrite delete_insert_eq. now apply delete_id.
Qed.

End BGReceive.

(** ** Sending a message (background script) *)

Section BGTransmit.
Context `{Platform}.
Import BG.

Variables (tab : nat) (base : string) (type : FrameType) (id : string)
  (data : JSValue).
Hypothesis data_text : JSON_stringify data <> [].

Let sd := new_sender tab type id data.
Let n := s_total sd.
Let frame (k : nat) : string := msg_frame (at_index k sd).

Lemma bg_total_positive : 1 <= n.
Proof.
  subst n sd. cbn [new_sender s_total]. apply chunks_of_nonempty.
  unfold encode_message. now apply encodeBase64_nonempty.
Qed.

(** The text the tab shows for chunk [j] is the one the listener of a
    sender at chunk [S j] waits for. *)
Lemma bg_acknowledge_expected j :
  expected_ack (at_index (S j) (got_tab sd))
  = "ACK:" +:+ id +:+ ":" +:+ Number_toString (Z.of_nat j).
Proof.
  unfold expected_ack.
  cbn [at_index got_tab s_id s_index sd new_sender].
  replace (Z.of_nat (S j) - 1)%Z with (Z.of_nat j) by lia. reflexivity.
Qed.

(** A sender registered by [sendChunks], in any state: the callback of
    [tabs.get] writes chunk 0 and the acknowledgements of the chunks 0 to
    [j - 1] make it write the chunks 1 to [j]. *)
Lemma bg_acknowledged_partial (key : nat) (s1 : State) j :
  senders s1 !! key = Some sd ->
  j < n ->
  let s := fold_left (fun s k => acknowledge key tab base id k s) (seq 0 j)
             (onTabGot key base s1) in
  senders s = <[key := at_index (S j) (got_tab sd)]> (senders s1)
  /\ log s = log s1 ++ map (fun k => Wrote tab base (frame k)) (seq 0 (S j))
  /\ handles s = handles s1.
Proof.
  intros Hs1. induction j as [|j IH]; intros Hj; cbv zeta.
  { cbn [seq fold_left map]. unfold onTabGot. rewrite Hs1.
    cbn [s_getting sd new_sender]. unfold sendNext, updateTabHash.
    bg_fields. repeat split. }
  specialize (IH (Nat.lt_succ_l _ _ Hj)). cbv zeta in IH.
  rewrite seq_S, fold_left_app. cbn [fold_left Nat.add].
  set (s := fold_left _ (seq 0 j) _) in *.
  destruct IH as (Es & El & Eh).
  unfold acknowledge, onUpdated.
  rewrite Es, lookup_insert_eq.
  cbn [at_index got_tab s_listening s_tab sd new_sender negb].
  rewrite Nat.eqb_refl. cbn [negb].
  fold sd. rewrite bg_acknowledge_expected, String.eqb_refl.
  cbn [at_index got_tab s_index s_total].
  fold n. apply Nat.ltb_lt in Hj. rewrite Hj.
  bg_fields. rewrite Es, El, Eh, insert_insert_eq.
  split; [reflexivity|]. split; [|reflexivity].
  rewrite (seq_S (S j)), map_app, <- app_assoc. reflexivity.
Qed.

(** With the acknowledgement of the last chunk the listener stops. *)
Lemma bg_acknowledged_all (key : nat) (s1 : State) :
  senders s1 !! key = Some sd ->
  let s := fold_left (fun s k => acknowledge key tab base id k s) (seq 0 n)
             (onTabGot key base s1) in
  log s = log s1 ++ map (Wrote tab base) (frames_of sd)
  /\ (exists sd', senders s !! key = Some sd' /\ s_listening sd' = false)
  /\ forall tab' base' h, onUpdated key tab' base' h s = s.
Proof.
  intros Hs1. pose proof bg_total_positive as Hn. cbv zeta.
  destruct n as [|m] eqn:En; [lia|].
  destruct (bg_acknowledged_partial key s1 m Hs1) as (Es & El & Eh); [lia|].
  rewrite seq_S, fold_left_app. cbn [fold_left Nat.add].
  set (s := fold_left _ (seq 0 m) _) in *.
  assert (E : acknowledge key tab base id m s
              = set_senders
                  (<[key := stop_listening (at_index (S m) (got_tab sd))]>
                     (senders s)) s).
  { unfold acknowledge, onUpdated.
    rewrite Es, lookup_insert_eq.
    cbn [at_index got_tab s_listening s_tab sd new_sender negb].
    rewrite Nat.eqb_refl. cbn [negb].
    fold sd. rewrite bg_acknowledge_expected, String.eqb_refl.
    cbn [at_index got_tab s_index s_total].
    fold n. rewrite En, Nat.ltb_irrefl. reflexivity. }
  rewrite E. split; [|split].
  - bg_fields. rewrite El. unfold frames_of. fold n. rewrite En, map_map.
    reflexivity.
  - eexists. bg_fields. split; [apply lookup_insert_eq | reflexivity].
  - intros tab' base' h. unfold onUpdated. bg_fields.
    rewrite lookup_insert_eq. reflexivity.
Qed.

Variable s0 : State.
Let key := handles s0.

Lemma bg_sendChunks_registers :
  senders (sendChunks tab type id data s0) !! key = Some sd
  /\ senders (sendChunks tab type id data s0) = <[key := sd]> (senders s0)
  /\ log (sendChunks tab type id data s0) = log s0
  /\ handles (sendChunks tab type id data s0) = S key.
Proof.
  unfold sendChunks. cbv zeta. bg_fields.
  split; [apply lookup_insert_eq|]. repeat split.
Qed.

Lemma bg_transmit_partial j :
  j < n ->
  let s := fold_left (fun s k => acknowledge key tab base id k s) (seq 0 j)
             (onTabGot key base (sendChunks tab type id data s0)) in
  senders s = <[key := at_index (S j) (got_tab sd)]> (senders s0)
  /\ log s = log s0 ++ map (fun k => Wrote tab base (frame k)) (seq 0 (S j))
  /\ handles s = S key.
Proof.
  intros Hj. cbv zeta.
  destruct bg_sendChunks_registers as (E1 & E2 & E3 & E4).
  destruct (bg_acknowledged_partial key _ j E1 Hj) as (Es & El & Eh).
  cbv zeta in *. rewrite Es, El, Eh, E2, E3, E4, insert_insert_eq.
  repeat split.
Qed.

(** A message whose chunks are acknowledged in turn is written frame by
    frame, in order and once each; the listener then stops. *)
Lemma bg_transmit_all :
  let s := fold_left (fun s k => acknowledge key tab base id k s) (seq 0 n)
             (onTabGot key base (sendChunks tab type id data s0)) in
  log s = log s0 ++ map (Wrote tab base) (frames_of sd)
  /\ (exists sd', senders s !! key = Some sd' /\ s_listening sd' = false)
  /\ forall tab' base' h, onUpdated key tab' base' h s = s.
Proof.
  cbv zeta. destruct bg_sendChunks_registers as (E1 & _ & E3 & _).
  destruct (bg_acknowledged_all key _ E1) as (El & Hsd & Hst).
  cbv zeta in *. rewrite El, E3. auto.
Qed.

End BGTransmit.

(** ** The handshake of the content script *)

Section ContentsHandshake.
Context `{Platform}.
Import Contents.

Lemma secret_processQueue s : secret (processQueue s) = secret s.
Proof.
  unfold processQueue. destruct (isSending s); [reflexivity|].
  destruct (sendQueue s); [reflexivity|].
  now destruct (secret_falsy (secret s)).
Qed.

Lemma secret_run_handlers key id m r n s :
  secret (run_handlers key id m r n s) = secret s.
Proof. unfold run_handlers. now destruct (first_response _ _ _) as [[]|]. Qed.

Lemma secret_resolved id p m s :
  secret (set_pendingRequests (delete id (pendingRequests (resolver p m s)))
            (resolver p m s))
  = secret s.
Proof. unfold resolver. fields. now rewrite secret_processQueue. Qed.

(** Only an [INIT:] frame changes the secret, and it sets one. *)
Lemma secret_step s e :
  secret (step s e) = secret s
  \/ (e = HashChange /\ Str.startsWith (location_hash s) "INIT:" = true
      /\ secret (step s e) = Some (Str.slice_from (location_hash s) 5)).
Proof.
  destruct e as [m|hd|h| |key|key|key]; cbn [step].
  - left. unfold sendMessage. now rewrite secret_processQueue.
  - now left.
  - now left.
  - unfold handleIncoming.
    destruct (Str.startsWith (location_hash s) "INIT:") eqn:Ei.
    { right. rewrite secret_processQueue. auto. }
    left. destruct (negb _); [reflexivity|].
    destruct (match_msg _) as [[[[[m1 ty] id] sq] data]|]; [|reflexivity].
    destruct (secret_differs _ _); [reflexivity|].
    destruct (split_seq sq) as [a b].
    destruct (incomingBuffers s !! id) as [b0|];
      [|destruct (new_Array _); [|reflexivity]];
      (destruct (is_complete _ _); [|reflexivity]);
      (destruct (decode_message _); [reflexivity|]);
      (destruct ty;
       [ unfold dispatchRequest; now rewrite secret_run_handlers
       | cbv zeta;
         match goal with
         | |- context [match ?m !! id with _ => _ end] => destruct (m !! id)
         end;
         [ etransitivity; [apply secret_resolved | reflexivity]
         | reflexivity ] ]).
  - left. pose proof (handleAck_cases key s) as Hc.
    destruct (senders s !! key) as [sd|]; [|now rewrite Hc].
    destruct (String.eqb _ _); [|now rewrite Hc].
    destruct (s_index sd <? s_total sd); now rewrite Hc.
  - left. unfold onTimeout. destruct (timers s !! key) as [[id p]|];
      [|reflexivity].
    fields. destruct (pendingRequests s !! id); [|reflexivity].
    now rewrite secret_processQueue.
  - left. unfold resume. destruct (dispatches s !! key) as [d|];
      [|reflexivity].
    rewrite secret_run_handlers. now destruct (d_responded d).
Qed.

(** The state of a script that has seen no [INIT:] frame. *)
Let waiting (events : list Event) (s : State) : Prop :=
  log s = [] /\ pendingRequests s = ∅ /\ senders s = ∅ /\ timers s = ∅
  /\ dispatches s = ∅ /\ isSending s = false /\ incomingBuffers s = ∅
  /\ uuid_calls s = 0
  /\ map q_message (sendQueue s) = submitted_messages events
  /\ map q_promise (sendQueue s) = seq 0 (promises s).

Lemma waiting_init h : secret (init h) = None -> waiting [] (init h).
Proof.
  unfold init, handleIncoming. cbn [location_hash blank].
  destruct (Str.startsWith h "INIT:").
  { rewrite secret_processQueue. discriminate. }
  intros _. destruct (negb _); [repeat split|].
  destruct (match_msg h) as [[[[[m1 ty] id] sq] data]|]; repeat split.
Qed.

Lemma waiting_step events s e :
  secret s = None -> waiting events s -> secret (step s e) = None ->
  waiting (events ++ [e]) (step s e).
Proof.
  intros Hs (W1 & W2 & W3 & W4 & W5 & W6 & W7 & W8 & W9 & W10) Hs'.
  assert (Hsub : forall e', (forall m, e' <> SendMessage m) ->
            submitted_messages (events ++ [e']) = submitted_messages events).
  { intros e' He'. unfold submitted_messages. rewrite omap_app.
    destruct e'; cbn; try apply app_nil_r. now destruct (He' message). }
  destruct e as [m|hd|h| |key|key|key]; cbn [step] in *.
  - unfold sendMessage, processQueue. fields. rewrite W6.
    destruct (sendQueue s ++ _) eqn:Eq;
      [now destruct (sendQueue s)|]. rewrite Hs. cbn [secret_falsy].
    rewrite <- Eq. unfold waiting. fields.
    rewrite !map_app, W9, W10. cbn [map q_message q_promise].
    unfold submitted_messages. rewrite omap_app. cbn [omap].
    rewrite seq_S. repeat split; assumption.
  - unfold onMessage, waiting. fields. rewrite Hsub by discriminate.
    repeat split; assumption.
  - unfold waiting. fields. rewrite Hsub by discriminate.
    repeat split; assumption.
  - unfold handleIncoming in *.
    destruct (Str.startsWith (location_hash s) "INIT:").
    { rewrite secret_processQueue in Hs'. discriminate. }
    assert (E : forall x : State, x = s -> waiting (events ++ [HashChange]) x).
    { intros x ->. unfold waiting. rewrite Hsub by discriminate.
      repeat split; assumption. }
    destruct (negb _); [now apply E|].
    destruct (match_msg _) as [[[[[m1 ty] id] sq] data]|]; [|now apply E].
    rewrite Hs. cbn [secret_differs]. now apply E.
  - unfold handleAck. rewrite W3, lookup_empty. unfold waiting.
    rewrite Hsub by discriminate. repeat split; assumption.
  - unfold onTimeout. rewrite W4, lookup_empty. unfold waiting.
    rewrite Hsub by discriminate. repeat split; assumption.
  - unfold resume. rewrite W5, lookup_empty. unfold waiting.
    rewrite Hsub by discriminate. repeat split; assumption.
Qed.

Lemma waiting_run h events :
  secret (run h events) = None ->
  waiting events (run h events).
Proof.
  unfold run. induction events as [|e events IH] using rev_ind.
  - apply waiting_init.
  - rewrite fold_left_app. cbn [fold_left]. intros Hs'.
    assert (Hs : secret (fold_left step events (init h)) = None).
    { destruct (secret_step (fold_left step events (init h)) e)
        as [E|(_ & _ & E)]; congruence. }
    apply waiting_step; auto.
Qed.

Lemma INIT_received sec s :
  receive ("INIT:" +:+ sec) s
  = processQueue
      (sendRaw ("ACK-INIT:" +:+ sec)
         (set_secret (Some sec) (set_location_hash ("INIT:" +:+ sec) s))).
Proof.
  unfold receive, handleIncoming. cbn [location_hash set_location_hash].
  unfold Str.startsWith. rewrite prefix_append. reflexivity.
Qed.

(** X13 (content script): as long as no [INIT:] frame has been handled
    ([secret] is [null]), nothing was written, no timeout is armed, no
    request is in flight and every message handed to [sendMessage] is
    still queued, in the order of the calls: such a request cannot time
    out.  An [INIT:] frame with a non-empty secret is acknowledged by
    [ACK-INIT:] and the first queued request, if any, starts with the
    first identifier. *)
Theorem nothing_before_INIT h events :
  let s := run h events in
  secret s = None ->
  log s = [] /\ timers s = ∅ /\ pendingRequests s = ∅
  /\ map q_message (sendQueue s) = submitted_messages events
  /\ forall sec, sec <> "" ->
       let s' := receive ("INIT:" +:+ sec) s in
       secret s' = Some sec
       /\ log s'
          = Wrote ("ACK-INIT:" +:+ sec)
            :: match sendQueue s with
               | [] => []
               | entry :: _ =>
                   [Wrote (msg_frame (Some sec)
                             (new_sender REQ (randomUUID 0)
                                (q_message entry)))]
               end.
Proof.
  intros s Hs.
  destruct (waiting_run h events Hs)
    as (W1 & W2 & W3 & W4 & W5 & W6 & W7 & W8 & W9 & W10).
  fold s in W1, W2, W3, W4, W5, W6, W7, W8, W9, W10.
  repeat (split; [assumption|]).
  intros sec Hsec s'. subst s'. rewrite INIT_received.
  rewrite secret_processQueue. split; [reflexivity|].
  unfold processQueue. fields. rewrite W6.
  destruct (sendQueue s) as [|entry rest]; [fields; now rewrite W1|].
  cbn [secret_falsy]. apply String.eqb_neq in Hsec. rewrite Hsec.
  fields. rewrite W1, W8. reflexivity.
Qed.

End ContentsHandshake.

(** ** Requests in flight and their timeouts *)

Section ContentsTimers.
Context `{Platform}.
Import Contents.

Let timed (s : State) : Prop :=
  (forall id p, pendingRequests s !! id = Some p ->
     exists key, timers s !! key = Some (id, p))
  /\ (forall key, is_Some (timers s !! key) -> key < handles s).

Lemma timed_ext s s' :
  pendingRequests s' = pendingRequests s -> timers s' = timers s ->
  handles s <= handles s' -> timed s -> timed s'.
Proof.
  intros Ep Et Hh [T1 T2]. split.
  - intros id p. rewrite Ep, Et. apply T1.
  - intros key. rewrite Et. intros Hk. specialize (T2 key Hk). lia.
Qed.

Lemma timed_delete id s :
  timed s -> timed (set_pendingRequests (delete id (pendingRequests s)) s).
Proof.
  intros [T1 T2]. split; [|exact T2]. intros id' p. fields.
  intros Hl. apply lookup_delete_Some in Hl as [_ Hl]. now apply T1.
Qed.

Lemma timed_start_request entry rest s :
  timed s -> timed (start_request entry rest s).
Proof.
  intros [T1 T2].
  destruct (start_request_spec entry rest s) as (_ & _ & Ep & _ & _ & Et).
  cbv zeta in Ep, Et. split.
  - intros id p. rewrite Ep, Et.
    destruct (decide (id = randomUUID (uuid_calls s))) as [->|Hne].
    + rewrite lookup_insert_eq. intros [= <-].
      exists (S (handles s)). apply lookup_insert_eq.
    + rewrite lookup_insert_ne by congruence. intros Hl.
      destruct (T1 id p Hl) as [key Hk]. exists key.
      rewrite lookup_insert_ne; [exact Hk|].
      assert (key < handles s) by (apply T2; eauto). lia.
  - intros key. rewrite Et.
    change (handles (start_request entry rest s)) with (S (S (handles s))).
    destruct (decide (key = S (handles s))) as [->|Hne]; [lia|].
    rewrite lookup_insert_ne by congruence. intros Hk.
    specialize (T2 key Hk). lia.
Qed.

Lemma timed_processQueue s : timed s -> timed (processQueue s).
Proof.
  intros T. unfold processQueue. destruct (isSending s); [exact T|].
  destruct (sendQueue s) as [|entry rest]; [exact T|].
  destruct (secret_falsy (secret s)); [exact T|].
  now apply timed_start_request.
Qed.

Lemma timed_run_handlers key id m r n s :
  timed s -> timed (run_handlers key id m r n s).
Proof.
  unfold run_handlers. destruct (first_response _ _ _) as [[]|];
    apply timed_ext; reflexivity.
Qed.

Lemma timed_handleIncoming s : timed s -> timed (handleIncoming s).
Proof.
  intros T. unfold handleIncoming.
  destruct (Str.startsWith (location_hash s) "INIT:").
  { apply timed_processQueue. revert T. apply timed_ext; reflexivity. }
  destruct (negb _); [exact T|].
  destruct (match_msg _) as [[[[[m1 ty] id] sq] data]|]; [|exact T].
  destruct (secret_differs _ _); [exact T|].
  destruct (split_seq sq) as [a b].
  destruct (incomingBuffers s !! id) as [b0|];
    [|destruct (new_Array _); [|revert T; apply timed_ext; reflexivity]];
    (destruct (is_complete _ _);
       [|revert T; apply timed_ext; reflexivity]);
    (destruct (decode_message _);
       [revert T; apply timed_ext; reflexivity|]);
    (destruct ty;
     [ unfold dispatchRequest; apply timed_run_handlers;
       revert T; apply timed_ext; try reflexivity; fields; lia
     | fields;
       match goal with
       | |- context [match ?m !! id with _ => _ end] => destruct (m !! id)
       end;
       [ apply timed_delete; unfold resolver; apply timed_processQueue
       | ]; revert T; apply timed_ext; reflexivity ]).
Qed.

Lemma timed_onTimeout key s : timed s -> timed (onTimeout key s).
Proof.
  intros [T1 T2]. unfold onTimeout.
  destruct (timers s !! key) as [[id p]|] eqn:Ek; [|now split].
  fields.
  assert (Tk : forall key', is_Some (delete key (timers s) !! key') ->
            key' < handles s).
  { intros key' [x Hx]. apply lookup_delete_Some in Hx as [_ Hx].
    apply T2. eauto. }
  destruct (pendingRequests s !! id) as [p0|] eqn:Ep.
  - apply timed_processQueue. split; [|exact Tk].
    intros id' p'. fields. intros Hl.
    apply lookup_delete_Some in Hl as [Hne Hl].
    destruct (T1 id' p' Hl) as [key' Hk']. exists key'.
    apply lookup_delete_Some. split; [congruence | exact Hk'].
  - split; [|exact Tk]. intros id' p'. fields. intros Hl.
    destruct (T1 id' p' Hl) as [key' Hk']. exists key'.
    apply lookup_delete_Some. split; [congruence | exact Hk'].
Qed.

Lemma timed_step s e : timed s -> timed (step s e).
Proof.
  intros T. destruct e as [m|hd|h| |key|key|key]; cbn [step].
  - unfold sendMessage. apply timed_processQueue.
    revert T. apply timed_ext; reflexivity.
  - revert T. apply timed_ext; reflexivity.
  - revert T. apply timed_ext; reflexivity.
  - now apply timed_handleIncoming.
  - pose proof (handleAck_cases key s) as Hc.
    destruct (senders s !! key) as [sd|]; [|now rewrite Hc].
    destruct (String.eqb _ _); [|now rewrite Hc].
    destruct (s_index sd <? s_total sd); rewrite Hc;
      revert T; apply timed_ext; reflexivity.
  - now apply timed_onTimeout.
  - unfold resume. destruct (dispatches s !! key) as [d|]; [|exact T].
    apply timed_run_handlers. destruct (d_responded d); [exact T|].
    revert T. apply timed_ext; try reflexivity; fields; lia.
Qed.

Lemma timed_run h events : timed (run h events).
Proof.
  unfold run. induction events as [|e events IH] using rev_ind.
  - cbn [fold_left]. apply timed_handleIncoming. split.
    + intros id p. cbn. now rewrite lookup_empty.
    + intros key [x Hx]. cbn in Hx. now rewrite lookup_empty in Hx.
  - rewrite fold_left_app. cbn [fold_left]. now apply timed_step.
Qed.

End ContentsTimers.

Section BGTimers.
Context `{Platform}.
Import BG.

Let timed (s : State) : Prop :=
  (forall id t p, pendingRequests s !! id = Some (t, p) ->
     exists key, timers s !! key = Some (id, t, p))
  /\ (forall key, is_Some (timers s !! key) -> key < handles s).

Lemma bg_timed_ext s s' :
  pendingRequests s' = pendingRequests s -> timers s' = timers s ->
  handles s <= handles s' -> timed s -> timed s'.
Proof.
  intros Ep Et Hh [T1 T2]. split.
  - intros id t p. rewrite Ep, Et. apply T1.
  - intros key. rewrite Et. intros Hk. specialize (T2 key Hk). lia.
Qed.

Lemma bg_timed_delete id s :
  timed s -> timed (set_pendingRequests (delete id (pendingRequests s)) s).
Proof.
  intros [T1 T2]. split; [|exact T2]. intros id' t p. bg_fields.
  intros Hl. apply lookup_delete_Some in Hl as [_ Hl]. now apply T1.
Qed.

Lemma bg_timed_ensure t s : timed s -> timed (ensureTabState t s).
Proof.
  unfold ensureTabState. destruct (tabState s !! t); [auto|].
  apply bg_timed_ext; reflexivity.
Qed.

Lemma bg_timed_start_request t entry rest s :
  timed s -> timed (start_request t entry rest s).
Proof.
  intros [T1 T2].
  destruct (bg_start_request_spec t entry rest s) as (_ & Ep & _ & _ & Et).
  cbv zeta in Ep, Et. split.
  - intros id t' p. rewrite Ep, Et.
    destruct (decide (id = randomUUID (uuid_calls s))) as [->|Hne].
    + rewrite lookup_insert_eq. intros [= <- <-].
      exists (S (handles s)). apply lookup_insert_eq.
    + rewrite lookup_insert_ne by congruence. intros Hl.
      destruct (T1 id t' p Hl) as [key Hk]. exists key.
      rewrite lookup_insert_ne; [exact Hk|].
      assert (key < handles s) by (apply T2; eauto). lia.
  - intros key. rewrite Et.
    change (handles (start_request t entry rest s)) with (S (S (handles s))).
    destruct (decide (key = S (handles s))) as [->|Hne]; [lia|].
    rewrite lookup_insert_ne by congruence. intros Hk.
    specialize (T2 key Hk). lia.
Qed.

Lemma bg_timed_processQueue t s : timed s -> timed (processQueue t s).
Proof.
  intros T. unfold processQueue. apply (bg_timed_ensure t) in T.
  destruct (isSending _); [exact T|].
  destruct (queue _) as [|entry rest]; [exact T|].
  now apply bg_timed_start_request.
Qed.

Lemma bg_timed_run_handlers key t id m r n s :
  timed s -> timed (run_handlers key t id m r n s).
Proof.
  unfold run_handlers. destruct (first_response _ _ _) as [[]|];
    apply bg_timed_ext; reflexivity.
Qed.

Lemma bg_timed_handleIncoming tab base h s :
  timed s -> timed (handleIncoming tab base h s).
Proof.
  intros T. unfold handleIncoming.
  destruct (negb _); [exact T|].
  destruct (match_msg _) as [[[[ty id] sq] data]|]; [|exact T].
  destruct (split_seq sq) as [a b].
  destruct (incomingBuffers s !! id) as [b0|];
    [|destruct (new_Array _); [|revert T; apply bg_timed_ext; reflexivity]];
    (destruct (is_complete _ _);
       [|revert T; apply bg_timed_ext; reflexivity]);
    (destruct (decode_message _);
       [revert T; apply bg_timed_ext; reflexivity|]);
    (destruct ty;
     [ revert T; apply bg_timed_ext; try reflexivity; bg_fields; lia
     | bg_fields;
       match goal with
       | |- context [match ?m !! id with _ => _ end] =>
           destruct (m !! id) as [[t p]|]
       end;
       [ apply bg_timed_delete; unfold resolver; apply bg_timed_processQueue
       | ]; revert T; apply bg_timed_ext; reflexivity ]).
Qed.

Lemma bg_timed_onTimeout key s : timed s -> timed (onTimeout key s).
Proof.
  intros [T1 T2]. unfold onTimeout.
  destruct (timers s !! key) as [[[id t] p]|] eqn:Ek; [|now split].
  bg_fields.
  assert (Tk : forall key', is_Some (delete key (timers s) !! key') ->
            key' < handles s).
  { intros key' [x Hx]. apply lookup_delete_Some in Hx as [_ Hx].
    apply T2. eauto. }
  destruct (pendingRequests s !! id) as [p0|] eqn:Ep.
  - apply bg_timed_processQueue. split; [|exact Tk].
    intros id' t' p'. bg_fields. intros Hl.
    apply lookup_delete_Some in Hl as [Hne Hl].
    destruct (T1 id' t' p' Hl) as [key' Hk']. exists key'.
    apply lookup_delete_Some. split; [congruence | exact Hk'].
  - split; [|exact Tk]. intros id' t' p'. bg_fields. intros Hl.
    destruct (T1 id' t' p' Hl) as [key' Hk']. exists key'.
    apply lookup_delete_Some. split; [congruence | exact Hk'].
Qed.

Lemma bg_timed_step s e : timed s -> timed (step s e).
Proof.
  intros T. destruct e as [t m|hd|t b h|key t b h|key b|key|key];
    cbn [step].
  - unfold sendMessage. apply bg_timed_processQueue.
    apply (bg_timed_ensure t) in T.
    revert T. apply bg_timed_ext; reflexivity.
  - revert T. apply bg_timed_ext; reflexivity.
  - now apply bg_timed_handleIncoming.
  - pose proof (onUpdated_cases key t b h s) as Hc.
    destruct (senders s !! key) as [sd|]; [|now rewrite Hc].
    destruct (_ && _); [|now rewrite Hc].
    destruct (s_index sd <? s_total sd); rewrite Hc;
      revert T; apply bg_timed_ext; reflexivity.
  - unfold onTabGot. destruct (senders s !! key) as [sd|]; [|exact T].
    destruct (s_getting sd); [|exact T].
    revert T. apply bg_timed_ext; reflexivity.
  - now apply bg_timed_onTimeout.
  - unfold resume. destruct (dispatches s !! key) as [d|]; [|exact T].
    destruct (d_awaited d) as [v|]; apply bg_timed_run_handlers; [|exact T].
    destruct (d_responded d); [exact T|].
    revert T. apply bg_timed_ext; try reflexivity; bg_fields; lia.
Qed.

Lemma bg_timed_run events : timed (run events).
Proof.
  unfold run. induction events as [|e events IH] using rev_ind.
  - cbn [fold_left]. split.
    + intros id t p. cbn. now rewrite lookup_empty.
    + intros key [x Hx]. cbn in Hx. now rewrite lookup_empty in Hx.
  - rewrite fold_left_app. cbn [fold_left]. now apply bg_timed_step.
Qed.

End BGTimers.

Section Timers.
Context `{Platform}.

(** X14: in every run of either script, every request in
    [pendingRequests] has an armed timeout for its identifier and
    promise: it is settled when that timer fires at the latest. *)
Theorem pending_request_has_timer :
  (forall h events id p,
     Contents.pendingRequests (Contents.run h events) !! id = Some p ->
     exists key,
       Contents.timers (Contents.run h events) !! key = Some (id, p))
  /\ (forall events id tab p,
        BG.pendingRequests (BG.run events) !! id = Some (tab, p) ->
        exists key,
          BG.timers (BG.run events) !! key = Some (id, tab, p)).
Proof.
  split.
  - intros h events. apply (timed_run h events).
  - intros events. apply (bg_timed_run events).
Qed.

End Timers.

(** ** What is written *)

Section ContentsWritten.
Context `{Platform}.
Import Contents.

Let ok (e : Effect) : Prop :=
  match e with
  | Wrote payload =>
      Str.startsWith payload "ACK-INIT:" = true
      \/ Str.startsWith payload "MSG:" = true
      \/ Str.startsWith payload "ACK:" = true
  | _ => True
  end.

Let shaped (s : State) : Prop := Forall ok (log s).

Lemma shaped_ext s s' : shaped s -> log s' = log s -> shaped s'.
Proof. unfold shaped. now intros Hs ->. Qed.

Lemma ok_msg sec sd : ok (Wrote (msg_frame sec sd)).
Proof. right. left. apply prefix_append. Qed.

Lemma ok_ack sec id index : ok (Wrote (ack_frame sec id index)).
Proof. right. right. apply prefix_append. Qed.

Lemma ok_ack_init x : ok (Wrote ("ACK-INIT:" +:+ x)).
Proof. left. apply prefix_append. Qed.

Lemma shaped_one s s' a :
  shaped s -> log s' = log s ++ [a] -> ok a -> shaped s'.
Proof.
  unfold shaped. intros Hs -> Ha. apply Forall_app. split; [exact Hs|].
  now apply List.Forall_cons.
Qed.

Lemma shaped_two s s' a b :
  shaped s -> log s' = (log s ++ [a]) ++ [b] -> ok a -> ok b -> shaped s'.
Proof.
  intros Hs E Ha Hb. apply (shaped_one (emit a s) s' b); [|exact E|exact Hb].
  now apply (shaped_one s (emit a s) a).
Qed.

Ltac grow T :=
  first [ eapply (shaped_one _ _ _ T); [reflexivity|]
        | eapply (shaped_two _ _ _ _ T); [reflexivity| |] ];
  first [ apply ok_msg | apply ok_ack | apply ok_ack_init | exact I ].

Lemma shaped_delete id s :
  shaped s -> shaped (set_pendingRequests (delete id (pendingRequests s)) s).
Proof. intros T. exact T. Qed.

Lemma shaped_processQueue s : shaped s -> shaped (processQueue s).
Proof.
  intros T. unfold processQueue. destruct (isSending s); [exact T|].
  destruct (sendQueue s) as [|entry rest]; [exact T|].
  destruct (secret_falsy (secret s)); [exact T|]. grow T.
Qed.

Lemma shaped_run_handlers key id m r n s :
  shaped s -> shaped (run_handlers key id m r n s).
Proof.
  intros T. unfold run_handlers. destruct (first_response _ _ _) as [[]|];
    now apply (shaped_ext _ _ T).
Qed.

Lemma shaped_handleIncoming s : shaped s -> shaped (handleIncoming s).
Proof.
  intros T. unfold handleIncoming.
  destruct (Str.startsWith (location_hash s) "INIT:").
  { apply shaped_processQueue. grow T. }
  destruct (negb _); [exact T|].
  destruct (match_msg _) as [[[[[m1 ty] id] sq] data]|]; [|exact T].
  destruct (secret_differs _ _); [exact T|].
  destruct (split_seq sq) as [a b].
  destruct (incomingBuffers s !! id) as [b0|];
    [|destruct (new_Array _); [|grow T]];
    (destruct (is_complete _ _); [|grow T]);
    (destruct (decode_message _); [grow T|]);
    (destruct ty;
     [ unfold dispatchRequest; apply shaped_run_handlers; grow T
     | cbv zeta;
       match goal with
       | |- context [match ?m !! id with _ => _ end] => destruct (m !! id)
       end;
       [ apply shaped_delete; unfold resolver;
         apply shaped_processQueue; grow T
       | grow T ] ]).
Qed.

Lemma shaped_step s e : shaped s -> shaped (step s e).
Proof.
  intros T. destruct e as [m|hd|h| |key|key|key]; cbn [step].
  - unfold sendMessage. apply shaped_processQueue.
    now apply (shaped_ext _ _ T).
  - now apply (shaped_ext _ _ T).
  - now apply (shaped_ext _ _ T).
  - now apply shaped_handleIncoming.
  - pose proof (handleAck_cases key s) as Hc.
    destruct (senders s !! key) as [sd|]; [|now rewrite Hc].
    destruct (String.eqb _ _); [|now rewrite Hc].
    destruct (s_index sd <? s_total sd); rewrite Hc;
      [grow T | now apply (shaped_ext _ _ T)].
  - unfold onTimeout. destruct (timers s !! key) as [[id p]|]; [|exact T].
    fields. destruct (pendingRequests s !! id);
      [|now apply (shaped_ext _ _ T)].
    apply shaped_processQueue. grow T.
  - unfold resume. destruct (dispatches s !! key) as [d|]; [|exact T].
    apply shaped_run_handlers. destruct (d_responded d); [exact T|]. grow T.
Qed.

Lemma shaped_run h events : shaped (run h events).
Proof.
  unfold run. induction events as [|e events IH] using rev_ind.
  - cbn [fold_left]. apply shaped_handleIncoming. constructor.
  - rewrite fold_left_app. cbn [fold_left]. now apply shaped_step.
Qed.

End ContentsWritten.

Section BGWritten.
Context `{Platform}.
Import BG.

Let ok (e : Effect) : Prop :=
  match e with
  | Wrote _ _ payload =>
      Str.startsWith payload "MSG:" = true
      \/ Str.startsWith payload "ACK:" = true
  | _ => True
  end.

Let shaped (s : State) : Prop := Forall ok (log s).

Lemma bg_shaped_ext s s' : shaped s -> log s' = log s -> shaped s'.
Proof. unfold shaped. now intros Hs ->. Qed.

Lemma bg_ok_msg tab base sd : ok (Wrote tab base (msg_frame sd)).
Proof. left. apply prefix_append. Qed.

Lemma bg_ok_ack tab base id index : ok (Wrote tab base (ack_frame id index)).
Proof. right. apply prefix_append. Qed.

Lemma bg_shaped_one s s' a :
  shaped s -> log s' = log s ++ [a] -> ok a -> shaped s'.
Proof.
  unfold shaped. intros Hs -> Ha. apply Forall_app. split; [exact Hs|].
  now apply List.Forall_cons.
Qed.

Lemma bg_shaped_two s s' a b :
  shaped s -> log s' = (log s ++ [a]) ++ [b] -> ok a -> ok b -> shaped s'.
Proof.
  intros Hs E Ha Hb.
  apply (bg_shaped_one (emit a s) s' b); [|exact E|exact Hb].
  now apply (bg_shaped_one s (emit a s) a).
Qed.

Ltac bg_grow T :=
  first [ eapply (bg_shaped_one _ _ _ T); [reflexivity|]
        | eapply (bg_shaped_two _ _ _ _ T); [reflexivity| |] ];
  first [ apply bg_ok_msg | apply bg_ok_ack | exact I ].

Lemma bg_shaped_delete id s :
  shaped s -> shaped (set_pendingRequests (delete id (pendingRequests s)) s).
Proof. intros T. exact T. Qed.

Lemma bg_shaped_processQueue t s : shaped s -> shaped (processQueue t s).
Proof.
  intros T. apply (bg_shaped_ext _ _ T). apply bg_processQueue_log.
Qed.

Lemma bg_shaped_run_handlers key t id m r n s :
  shaped s -> shaped (run_handlers key t id m r n s).
Proof.
  intros T. unfold run_handlers. destruct (first_response _ _ _) as [[]|];
    now apply (bg_shaped_ext _ _ T).
Qed.

Lemma bg_shaped_handleIncoming tab base h s :
  shaped s -> shaped (handleIncoming tab base h s).
Proof.
  intros T. unfold handleIncoming.
  destruct (negb _); [exact T|].
  destruct (match_msg _) as [[[[ty id] sq] data]|]; [|exact T].
  destruct (split_seq sq) as [a b].
  destruct (incomingBuffers s !! id) as [b0|];
    [|destruct (new_Array _); [|bg_grow T]];
    (destruct (is_complete _ _); [|bg_grow T]);
    (destruct (decode_message _); [bg_grow T|]);
    (destruct ty;
     [ bg_grow T
     | cbv zeta;
       match goal with
       | |- context [match ?m !! id with _ => _ end] =>
           destruct (m !! id) as [[t p]|]
       end;
       [ apply bg_shaped_delete; unfold resolver;
         apply bg_shaped_processQueue; bg_grow T
       | bg_grow T ] ]).
Qed.

Lemma bg_shaped_step s e : shaped s -> shaped (step s e).
Proof.
  intros T. destruct e as [t m|hd|t b h|key t b h|key b|key|key];
    cbn [step].
  - unfold sendMessage. apply bg_shaped_processQueue.
    unfold shaped. bg_fields. rewrite Forall_app. split.
    + destruct (ensure_fields t s) as (_ & _ & -> & _). exact T.
    + apply List.Forall_cons; [exact I | apply List.Forall_nil].
  - now apply (bg_shaped_ext _ _ T).
  - now apply bg_shaped_handleIncoming.
  - pose proof (onUpdated_cases key t b h s) as Hc.
    destruct (senders s !! key) as [sd|]; [|now rewrite Hc].
    destruct (_ && _); [|now rewrite Hc].
    destruct (s_index sd <? s_total sd); rewrite Hc;
      [bg_grow T | now apply (bg_shaped_ext _ _ T)].
  - unfold onTabGot. destruct (senders s !! key) as [sd|]; [|exact T].
    destruct (s_getting sd); [|exact T]. bg_grow T.
  - unfold onTimeout. destruct (timers s !! key) as [[[id t] p]|];
      [|exact T].
    bg_fields. destruct (pendingRequests s !! id);
      [|now apply (bg_shaped_ext _ _ T)].
    apply bg_shaped_processQueue. bg_grow T.
  - unfold resume. destruct (dispatches s !! key) as [d|]; [|exact T].
    destruct (d_awaited d) as [v|]; apply bg_shaped_run_handlers;
      [|exact T].
    destruct (d_responded d); [exact T|]. now apply (bg_shaped_ext _ _ T).
Qed.

Lemma bg_shaped_run events : shaped (run events).
Proof.
  unfold run. induction events as [|e events IH] using rev_ind.
  - constructor.
  - rewrite fold_left_app. cbn [fold_left]. now apply bg_shaped_step.
Qed.

End BGWritten.

Section Written.
Context `{Platform}.

(** X15: in every run, every payload the content script writes starts
    with [ACK-INIT:], [MSG:] or [ACK:], and every payload the background
    script writes starts with [MSG:] or [ACK:]; in particular the
    background script never writes an [INIT:] frame. *)
Theorem written_frames_shapes :
  (forall h events payload,
     In (Contents.Wrote payload) (Contents.log (Contents.run h events)) ->
     Str.startsWith payload "ACK-INIT:" = true
     \/ Str.startsWith payload "MSG:" = true
     \/ Str.startsWith payload "ACK:" = true)
  /\ (forall events tab base payload,
        In (BG.Wrote tab base payload) (BG.log (BG.run events)) ->
        Str.startsWith payload "MSG:" = true
        \/ Str.startsWith payload "ACK:" = true).
Proof.
  split.
  - intros h events payload Hin.
    pose proof (shaped_run h events) as Hs. cbv zeta in Hs.
    rewrite List.Forall_forall in Hs. exact (Hs _ Hin).
  - intros events tab base payload Hin.
    pose proof (bg_shaped_run events) as Hs. cbv zeta in Hs.
    rewrite List.Forall_forall in Hs. exact (Hs _ Hin).
Qed.

End Written.

(** ** A first frame without a usable total *)

Section MissingTotal.
Context `{Platform}.

(** X16: a frame for an identifier without a reassembly entry whose total
    is not an integer in [0, 2^32 - 1] (no [/] in the sequence field, not
    a number, negative, too large) makes [new Array(total)] throw
    [RangeError]: the callback ends there, nothing is stored and nothing
    is acknowledged.  In both scripts. *)
Theorem unusable_total_throws ty id seq data :
  no_colon id -> id <> "" -> no_colon seq -> seq <> "" ->
  dot_plus_end data = Some data ->
  new_Array (parseInt10_opt (split_seq seq).2) = None ->
  (forall sec s,
     no_colon sec -> sec <> "" ->
     Contents.secret s = Some sec ->
     Contents.incomingBuffers s !! id = None ->
     let frame := "MSG:" +:+ sec +:+ ":" +:+ FrameType_text ty +:+ ":" +:+ id
                  +:+ ":" +:+ seq +:+ ":" +:+ data in
     Contents.receive frame s
     = Contents.emit (Contents.Uncaught RangeError)
         (Contents.set_location_hash frame s))
  /\ (forall tab base s,
        BG.incomingBuffers s !! id = None ->
        BG.handleIncoming tab base
          ("MSG:" +:+ FrameType_text ty +:+ ":" +:+ id +:+ ":" +:+ seq
           +:+ ":" +:+ data) s
        = BG.emit (BG.Uncaught RangeError) s).
Proof.
  intros Hid Nid Hseq Nseq Hdata Hnew. split.
  - intros sec s Hsec Nsec Es Eb frame.
    unfold Contents.receive, Contents.handleIncoming.
    cbn [Contents.location_hash Contents.set_location_hash Contents.secret
         Contents.incomingBuffers].
    assert (Hp : Str.startsWith frame "MSG:" = true) by apply prefix_append.
    rewrite (startsWith_MSG_not_INIT _ Hp), Hp. cbn [negb].
    unfold frame at 1.
    rewrite (contents_match_msg_fields sec ty id seq data) by assumption.
    rewrite Es. cbn [Contents.secret_differs]. rewrite String.eqb_refl.
    cbn [negb]. destruct (split_seq seq) as [a b]. cbn [snd] in Hnew.
    now rewrite Eb, Hnew.
  - intros tab base s Eb. unfold BG.handleIncoming.
    set (frame := "MSG:" +:+ _).
    assert (Hp : Str.startsWith frame "MSG:" = true) by apply prefix_append.
    rewrite Hp. cbn [negb]. unfold frame.
    rewrite (bg_match_msg_fields ty id seq data) by assumption.
    destruct (split_seq seq) as [a b]. cbn [snd] in Hnew.
    now rewrite Eb, Hnew.
Qed.

End MissingTotal.

(** ** Messages in transit *)

Section Transit.
Context `{Platform}.

(** X9 (content script): the frames of a message may arrive in any order
    and repeatedly.  While a chunk is missing, every frame is stored and
    acknowledged and nothing else changes; with the last missing chunk the
    message is put together, its entry is removed from [incomingBuffers],
    and the message is dispatched ([REQ]) or handed to the resolver of the
    pending request ([RES]) in a state that differs from the first one by
    the acknowledgements only. *)
Theorem contents_reassembles_message sec id type M r arrived last :
  no_colon sec -> sec <> "" -> no_colon id -> id <> "" ->
  JSON_serializable M ->
  let sd := Contents.new_sender type id M in
  let n := Contents.s_total sd in
  let frame k := Contents.msg_frame (Some sec) (Contents.at_index k sd) in
  let ack k :=
    Contents.Wrote (Contents.ack_frame (Some sec) id (Num (Z.of_nat k))) in
  (Z.of_nat n <= 4294967295)%Z ->
  Contents.secret r = Some sec ->
  Contents.incomingBuffers r !! id = None ->
  Forall (fun i => i < n) arrived -> last < n -> last ∉ arrived ->
  (forall i, i < n -> i ∈ arrived ++ [last]) ->
  (let s := Contents.receive_all (map frame arrived) r in
   Contents.undisturbed r s
   /\ Contents.log s = Contents.log r ++ map ack arrived)
  /\ exists mid,
       Contents.receive_all (map frame (arrived ++ [last])) r
       = Contents.deliver type id M mid
       /\ Contents.undisturbed r mid
       /\ Contents.log mid = Contents.log r ++ map ack (arrived ++ [last])
       /\ Contents.incomingBuffers mid = Contents.incomingBuffers r.
Proof.
  intros Hsec Nsec Hid Nid HM sd n frame ack Hn Es Eb Hl Hk Hni Hall. split.
  - destruct (receive_partial sec id type M Hsec Nsec Hid Nid Hn r arrived
                Es Eb Hl) as (Hu & Hlog & _); [now exists last|].
    split; [exact Hu | exact Hlog].
  - exact (receive_message sec id type M Hsec Nsec Hid Nid Hn HM r arrived
             last Es Eb Hl Hk Hni Hall).
Qed.

(** X10 (background script): as X9, for the frames a tab shows.  The
    resolver of a response is the one stored for the identifier, whatever
    tab the frames came from. *)
Theorem bg_reassembles_message tab base id type M r arrived last :
  no_colon id -> id <> "" ->
  JSON_serializable M ->
  let sd := BG.new_sender tab type id M in
  let n := BG.s_total sd in
  let frame k := BG.msg_frame (BG.at_index k sd) in
  let ack k := BG.Wrote tab base (BG.ack_frame id (Num (Z.of_nat k))) in
  (Z.of_nat n <= 4294967295)%Z ->
  BG.incomingBuffers r !! id = None ->
  Forall (fun i => i < n) arrived -> last < n -> last ∉ arrived ->
  (forall i, i < n -> i ∈ arrived ++ [last]) ->
  (let s := BG.receive_all tab base (map frame arrived) r in
   BG.undisturbed r s /\ BG.log s = BG.log r ++ map ack arrived)
  /\ exists mid,
       BG.receive_all tab base (map frame (arrived ++ [last])) r
       = BG.deliver tab type id M mid
       /\ BG.undisturbed r mid
       /\ BG.log mid = BG.log r ++ map ack (arrived ++ [last])
       /\ BG.incomingBuffers mid = BG.incomingBuffers r.
Proof.
  intros Hid Nid HM sd n frame ack Hn Eb Hl Hk Hni Hall. split.
  - destruct (bg_receive_partial tab base id type M Hid Nid Hn r arrived
                Eb Hl) as (Hu & Hlog & _); [now exists last|].
    split; [exact Hu | exact Hlog].
  - exact (bg_receive_message tab base id type M Hid Nid Hn HM r arrived
             last Eb Hl Hk Hni Hall).
Qed.

(** X11 (content script): a message has at least one chunk; when each
    chunk is acknowledged in turn, [sendChunks] and its listener write the
    frames of the message in order, once each and nothing else, and the
    listener is then removed: a later [hashchange] finds no listener. *)
Theorem contents_sends_in_order type id data s0 :
  JSON_stringify data <> [] ->
  let sd := Contents.new_sender type id data in
  let key := Contents.handles s0 in
  let s := fold_left (fun s k => Contents.acknowledge key id k s)
             (seq 0 (Contents.s_total sd))
             (Contents.sendChunks type id data s0) in
  1 <= Contents.s_total sd
  /\ Contents.log s
     = Contents.log s0
       ++ map Contents.Wrote (Contents.frames_of (Contents.secret s0) sd)
  /\ Contents.senders s = delete key (Contents.senders s0)
  /\ forall s', Contents.senders s' = Contents.senders s ->
       Contents.handleAck key s' = s'.
Proof.
  intros Hdata sd key s.
  split; [exact (total_positive type id data Hdata)|].
  destruct (transmit_all type id data s0 Hdata) as (E1 & E2 & E3).
  split; [exact E1|]. split; [exact E2|].
  intros s' Es'. unfold Contents.handleAck. rewrite Es'.
  subst s key sd. now rewrite E3.
Qed.

(** X12 (background script): [sendChunks] itself writes nothing; once
    [browser.tabs.get] has answered and each chunk is acknowledged in
    turn, the frames of the message are written to the tab in order, once
    each and nothing else, and the listener then ignores every update. *)
Theorem bg_sends_in_order tab base type id data s0 :
  JSON_stringify data <> [] ->
  let sd := BG.new_sender tab type id data in
  let key := BG.handles s0 in
  let s := fold_left (fun s k => BG.acknowledge key tab base id k s)
             (seq 0 (BG.s_total sd))
             (BG.onTabGot key base (BG.sendChunks tab type id data s0)) in
  1 <= BG.s_total sd
  /\ BG.log (BG.sendChunks tab type id data s0) = BG.log s0
  /\ BG.log s = BG.log s0 ++ map (BG.Wrote tab base) (BG.frames_of sd)
  /\ forall tab' base' h, BG.onUpdated key tab' base' h s = s.
Proof.
  intros Hdata sd key s.
  split; [exact (bg_total_positive tab type id data Hdata)|].
  split; [reflexivity|].
  destruct (bg_transmit_all tab base type id data Hdata s0) as (E1 & _ & E3).
  split; [exact E1 | exact E3].
Qed.

End Transit.

(** ** A response resolves its request *)

Section Responses.
Context `{Platform}.

Lemma log_processQueue s :
  exists rest,
    Contents.log (Contents.processQueue s) = Contents.log s ++ rest.
Proof.
  unfold Contents.processQueue.
  destruct (Contents.isSending s); [exists []; now rewrite app_nil_r|].
  destruct (Contents.sendQueue s); [exists []; now rewrite app_nil_r|].
  destruct (Contents.secret_falsy _); [exists []; now rewrite app_nil_r|].
  eexists. reflexivity.
Qed.

Lemma contents_deliver_response id p M s :
  Contents.pendingRequests s !! id = Some p ->
  let s' := Contents.deliver RES id M s in
  Contents.settled (Contents.log s') = Contents.settled (Contents.log s) ++ [p]
  /\ In (Contents.Resolved p M) (Contents.log s')
  /\ Contents.pendingRequests s' !! id = None
  /\ Contents.incomingBuffers s' = Contents.incomingBuffers s.
Proof.
  intros Hp s'. subst s'. unfold Contents.deliver. rewrite Hp. cbv zeta.
  unfold Contents.resolver. fields.
  match goal with |- context [Contents.processQueue ?y] => set (x := y) end.
  split; [|split; [|split]].
  - rewrite settled_processQueue. subst x. fields.
    now rewrite settled_app.
  - destruct (log_processQueue x) as [rest ->]. subst x. fields.
    apply in_or_app. left. apply in_or_app. right. now left.
  - apply lookup_delete_eq.
  - now rewrite incomingBuffers_processQueue.
Qed.

Lemma bg_deliver_response tab id to p M s :
  BG.pendingRequests s !! id = Some (to, p) ->
  let s' := BG.deliver tab RES id M s in
  BG.log s' = BG.log s ++ [BG.Resolved to p M]
  /\ BG.pendingRequests s' !! id = None
  /\ BG.incomingBuffers s' = BG.incomingBuffers s.
Proof.
  intros Hp s'. subst s'. unfold BG.deliver. rewrite Hp. cbv zeta.
  unfold BG.resolver. bg_fields.
  match goal with |- context [BG.processQueue to ?y] => set (x := y) end.
  split; [|split].
  - destruct (bg_processQueue_log to x) as [-> _]. reflexivity.
  - apply lookup_delete_eq.
  - now rewrite bg_incomingBuffers_processQueue.
Qed.

(** X17: when the frames of a response to a pending request have all
    arrived, in any order and repeatedly, the promise of the request is
    resolved with the decoded message and the request leaves
    [pendingRequests]; in the background script this is the request the
    identifier was stored for, whatever tab showed the frames. *)
Theorem response_resolves_request id M arrived last :
  no_colon id -> id <> "" -> JSON_serializable M -> last ∉ arrived ->
  (forall sec r p,
     no_colon sec -> sec <> "" ->
     let sd := Contents.new_sender RES id M in
     let n := Contents.s_total sd in
     let frame k := Contents.msg_frame (Some sec) (Contents.at_index k sd) in
     (Z.of_nat n <= 4294967295)%Z ->
     Contents.secret r = Some sec ->
     Contents.incomingBuffers r !! id = None ->
     Contents.pendingRequests r !! id = Some p ->
     Forall (fun i => i < n) arrived -> last < n ->
     (forall i, i < n -> i ∈ arrived ++ [last]) ->
     let s := Contents.receive_all (map frame (arrived ++ [last])) r in
     Contents.settled (Contents.log s)
     = Contents.settled (Contents.log r) ++ [p]
     /\ In (Contents.Resolved p M) (Contents.log s)
     /\ Contents.pendingRequests s !! id = None
     /\ Contents.incomingBuffers s = Contents.incomingBuffers r)
  /\ (forall tab base r to p,
        let sd := BG.new_sender tab RES id M in
        let n := BG.s_total sd in
        let frame k := BG.msg_frame (BG.at_index k sd) in
        let ack k := BG.Wrote tab base (BG.ack_frame id (Num (Z.of_nat k))) in
        (Z.of_nat n <= 4294967295)%Z ->
        BG.incomingBuffers r !! id = None ->
        BG.pendingRequests r !! id = Some (to, p) ->
        Forall (fun i => i < n) arrived -> last < n ->
        (forall i, i < n -> i ∈ arrived ++ [last]) ->
        let s := BG.receive_all tab base (map frame (arrived ++ [last])) r in
        BG.log s
        = BG.log r ++ map ack (arrived ++ [last]) ++ [BG.Resolved to p M]
        /\ BG.pendingRequests s !! id = None
        /\ BG.incomingBuffers s = BG.incomingBuffers r).
Proof.
  intros Hid Nid HM Hni. split.
  - intros sec r p Hsec Nsec sd n frame Hn Es Eb Ep Hl Hk Hall s.
    destruct (receive_message sec id RES M Hsec Nsec Hid Nid Hn HM r arrived
                last Es Eb Hl Hk Hni Hall)
      as (mid & E & (Up & _) & Elog & Eib).
    subst s. fold sd n frame in E. rewrite E.
    assert (Hp : Contents.pendingRequests mid !! id = Some p)
      by now rewrite Up.
    destruct (contents_deliver_response id p M mid Hp) as (D1 & D2 & D3 & D4).
    cbv zeta in D1, D2, D3, D4.
    rewrite D1, D4, Eib, Elog, settled_app.
    replace (Contents.settled (map _ (arrived ++ [last]))) with (@nil nat).
    + rewrite app_nil_r. auto.
    + clear. induction (arrived ++ [last]) as [|k l IH]; [reflexivity|].
      exact IH.
  - intros tab base r to p sd n frame ack Hn Eb Ep Hl Hk Hall s.
    destruct (bg_receive_message tab base id RES M Hid Nid Hn HM r arrived
                last Eb Hl Hk Hni Hall)
      as (mid & E & (Up & _) & Elog & Eib).
    subst s. fold sd n frame in E. rewrite E.
    assert (Hp : BG.pendingRequests mid !! id = Some (to, p))
      by now rewrite Up.
    destruct (bg_deliver_response tab id to p M mid Hp) as (D1 & D2 & D3).
    cbv zeta in D1, D2, D3.
    rewrite D1, D3, Eib, Elog, <- app_assoc. auto.
Qed.

End Responses.

(** ** The response of a dispatched request, to its last frame *)

Section ResponseSent.
Context `{Platform}.



End ResponseSent.

(** * The claims *)

Section Claims.

Context `{Platform}.

(** C1: for every JSON-serializable message [M] and every positive chunk
    size [S] below the length of the transport encoding of [M], the
    encoding is split into chunks (the loop of [chunkString] terminates),
    and joining the chunks in index order, reversing the transport
    encoding and parsing yields [M] again. *)
Theorem chunked_round_trip (M : JSValue) (S : nat) :
  JSON_serializable M ->
  0 < S ->
  S < String.length (encode_message M) ->
  exists chunks,
    chunkString (encode_message M) S = Some chunks
    /\ decode_message (join (map Some chunks)) = inr M.
Proof.
  intros [Hwf Hparse] HS _.
  destruct (chunkString_spec (encode_message M) S HS)
    as (chunks & Hrun & Hcat & _).
  exists chunks. split; [exact Hrun|].
  rewrite join_map_Some, Hcat. unfold decode_message, encode_message.
  rewrite (decodeBase64_encodeBase64 _ Hwf), Hparse. reflexivity.
Qed.

(** X18: one pending request for a destination.  A request is in flight
    here while its entry is in [pendingRequests], that is from
    [processQueue] to its response or its timeout.  In every reachable
    state of either script, the sending flag of a destination is set
    exactly when one request to it is in flight, and never more than one
    is; a [sendMessage] to a busy destination only appends to its queue
    (it writes nothing and registers no sender); a callback leaves the
    request in flight as it is, starts one when none is in flight, or
    settles the one in flight; and the promises settled, in flight and
    queued, in this order, are the promises in the order of their
    submission.  The sender of a request that timed out is not covered:
    its listener stays registered. *)
Theorem single_flight_fifo :
  unique_ids ->
  (forall h evs,
     let s := Contents.run h evs in
     (Contents.isSending s = true <-> length (Contents.in_flight s) = 1)
     /\ length (Contents.in_flight s) <= 1
     /\ Contents.settled (Contents.log s) ++ Contents.in_flight s
          ++ map Contents.q_promise (Contents.sendQueue s)
        = seq 0 (Contents.promises s)
     /\ (forall m,
           Contents.isSending s = true ->
           let s' := Contents.sendMessage m s in
           Contents.log s' = Contents.log s
           /\ Contents.senders s' = Contents.senders s
           /\ Contents.sendQueue s'
              = Contents.sendQueue s
                ++ [{| Contents.q_message := m;
                       Contents.q_promise := Contents.promises s |}])
     /\ (forall e,
           let s' := Contents.step s e in
           (Contents.settled (Contents.log s')
            = Contents.settled (Contents.log s)
            /\ (Contents.in_flight s' = Contents.in_flight s
                \/ Contents.in_flight s = []))
           \/ (exists p,
                 Contents.in_flight s = [p]
                 /\ Contents.settled (Contents.log s')
                    = Contents.settled (Contents.log s) ++ [p])))
  /\ (forall evs t,
        let s := BG.run evs in
        (BG.isSending (BG.tab_state t s) = true
         <-> length (BG.in_flight t s) = 1)
        /\ length (BG.in_flight t s) <= 1
        /\ BG.settled t (BG.log s) ++ BG.in_flight t s
             ++ map BG.q_promise (BG.queue (BG.tab_state t s))
           = BG.submitted t (BG.log s)
        /\ (forall m,
              BG.isSending (BG.tab_state t s) = true ->
              let s' := BG.sendMessage t m s in
              BG.log s' = BG.log s ++ [BG.Promised t (BG.promises s)]
              /\ BG.senders s' = BG.senders s
              /\ BG.queue (BG.tab_state t s')
                 = BG.queue (BG.tab_state t s)
                   ++ [{| BG.q_message := m;
                          BG.q_promise := BG.promises s |}])
        /\ (forall e,
              let s' := BG.step s e in
              (BG.settled t (BG.log s') = BG.settled t (BG.log s)
               /\ (BG.in_flight t s' = BG.in_flight t s
                   \/ BG.in_flight t s = []))
              \/ (exists p,
                    BG.in_flight t s = [p]
                    /\ BG.settled t (BG.log s')
                       = BG.settled t (BG.log s) ++ [p]))).
Proof.
  intros Huu. split.
  - intros h evs s.
    pose proof (queue_inv_run Huu h evs) as Hinv. fold s in Hinv.
    destruct (queue_inv_in_flight s Hinv) as (H1 & H2 & _).
    split; [exact H1|]. split; [exact H2|].
    split; [apply Hinv|]. split.
    + intros m Hb s'. subst s'. rewrite (contents_send_while_busy s m Hb).
      repeat split.
    + intros e. apply contents_in_flight_step. exact Hinv.
  - intros evs t s.
    pose proof (bg_queue_inv_run Huu evs) as Hinv. fold s in Hinv.
    destruct (bg_queue_inv_in_flight s t Hinv) as (H1 & H2).
    split; [exact H1|]. split; [exact H2|].
    split; [destruct Hinv as (Htabs & _); apply (Htabs t)|]. split.
    + intros m Hb s'. subst s'. rewrite (bg_send_while_busy t m s Hb).
      cbv zeta. destruct (ensure_fields t s) as (_ & _ & El & _ & Ep).
      rewrite tab_state_set_queue. destruct (decide (t = t)); [|congruence].
      cbn [BG.queue BG.log BG.senders BG.set_tab_queue BG.set_tabState
           BG.emit BG.set_log BG.set_promises].
      rewrite El, Ep. split; [reflexivity|]. split.
      * unfold BG.ensureTabState. now destruct (BG.tabState s !! t).
      * f_equal.
        change (BG.queue (BG.tab_state t (BG.ensureTabState t s))
                = BG.queue (BG.tab_state t s)).
        now rewrite tab_state_ensure.
    + intros e. apply bg_in_flight_step; assumption.
Qed.


(** Stop and wait.  In a reachable state, the variables of a registered
    sender change in the callback of its own listener, when the slot
    shows the acknowledgement of the chunk written last (this message's
    identifier and the index of that chunk): then the next chunk is
    written or, after the last one, the listener is removed.  Any other
    text in the slot, an acknowledgement for another identifier or index
    among them, leaves the state as it is and writes nothing.  The
    content script writes chunk 0 in [sendChunks] itself.  The background
    script writes the first chunk in the callback of [browser.tabs.get],
    at the index the sender has then: this is chunk 0 as long as no tab
    showed the acknowledgement of a chunk before the first. *)
Theorem ack_gating :
  (forall h evs key sd,
     let s := Contents.run h evs in
     Contents.senders s !! key = Some sd ->
     (forall e,
        Contents.senders (Contents.step s e) !! key <> Some sd ->
        e = Contents.AckListener key
        /\ Contents.location_hash s
           = Contents.expected_ack (Contents.secret s) sd
        /\ Contents.step s e
           = if Contents.s_index sd <? Contents.s_total sd
             then Contents.sendNext key sd s
             else Contents.set_senders
                    (delete key (Contents.senders s)) s)
     /\ (Contents.location_hash s
         <> Contents.expected_ack (Contents.secret s) sd ->
         Contents.handleAck key s = s)
     /\ (forall id i,
           no_colon id -> no_colon (Contents.s_id sd) ->
           id <> Contents.s_id sd
           \/ i <> (Z.of_nat (Contents.s_index sd) - 1)%Z ->
           Contents.location_hash s
           = "ACK:" +:+ Contents.secret_text (Contents.secret s) +:+ ":"
             +:+ id +:+ ":" +:+ Number_toString i ->
           Contents.handleAck key s = s /\ Contents.handleIncoming s = s))
  /\ (forall evs key sd,
        let s := BG.run evs in
        BG.senders s !! key = Some sd ->
        (forall e,
           BG.senders (BG.step s e) !! key <> Some sd ->
           (exists base,
              e = BG.TabGot key base /\ BG.s_getting sd = true
              /\ BG.step s e = BG.sendNext key (BG.got_tab sd) base s)
           \/ (exists base,
                 e = BG.AckListener key (BG.s_tab sd) base
                       (BG.expected_ack sd)
                 /\ BG.s_listening sd = true
                 /\ BG.step s e
                    = if BG.s_index sd <? BG.s_total sd
                      then BG.sendNext key sd base s
                      else BG.set_senders
                             (<[key := BG.stop_listening sd]>
                                (BG.senders s)) s))
        /\ (forall tab base h,
              tab <> BG.s_tab sd \/ h <> BG.expected_ack sd ->
              BG.onUpdated key tab base h s = s)
        /\ (forall tab base id i,
              no_colon id -> no_colon (BG.s_id sd) ->
              id <> BG.s_id sd
              \/ i <> (Z.of_nat (BG.s_index sd) - 1)%Z ->
              let h := "ACK:" +:+ id +:+ ":" +:+ Number_toString i in
              BG.onUpdated key tab base h s = s
              /\ BG.handleIncoming tab base h s = s)
        /\ (Forall BG.no_early_ack evs ->
            BG.s_getting sd = true -> BG.s_index sd = 0)).
Proof.
  split.
  - intros h evs key sd s Hs.
    pose proof (keys_inv_run h evs) as Hk. fold s in Hk.
    split; [|split].
    + intros e Hch. now apply contents_ack_gating.
    + intros Hne. now apply (contents_ack_mismatch s key sd).
    + intros id i Hid Hsd Hne Eh.
      assert (Hx : Contents.location_hash s
                   <> Contents.expected_ack (Contents.secret s) sd).
      { rewrite Eh. intros E.
        destruct (ack_frame_expected _ sd id i Hid Hsd E) as [E1 E2].
        destruct Hne; contradiction. }
      split; [now apply (contents_ack_mismatch s key sd)|].
      apply contents_ack_not_incoming. rewrite Eh.
      unfold Str.startsWith. apply prefix_append.
  - intros evs key sd s Hs.
    pose proof (bg_keys_inv_run evs) as Hk. fold s in Hk.
    split; [|split; [|split]].
    + intros e Hch. now apply bg_ack_gating.
    + intros tab base h Hne. now apply (bg_ack_mismatch s key sd).
    + intros tab base id i Hid Hsd Hne h. split.
      * apply (bg_ack_mismatch s key sd); [exact Hs|]. right. intros E.
        destruct (bg_ack_frame_expected sd id i Hid Hsd E) as [E1 E2].
        destruct Hne; contradiction.
      * apply bg_ack_not_incoming. unfold h, Str.startsWith.
        apply prefix_append.
    + intros Hev Hg. now apply (bg_fresh_run evs Hev key sd).
Qed.


(** C4, as the code has it: when the timer of a request fires and its
    entry is still pending, the entry is removed, the promise is rejected,
    the sending flag of the destination is cleared and [processQueue]
    runs.  The background script then starts the head of the queue of the
    tab, if there is one; the content script starts it only while a
    non-empty secret is stored, and leaves the queue as it is otherwise. *)
Theorem timeout_rejects_and_drives_queue :
  (forall s key id p p',
     Contents.timers s !! key = Some (id, p) ->
     Contents.pendingRequests s !! id = Some p' ->
     let s1 := Contents.set_isSending false
                 (Contents.emit (Contents.Rejected p)
                    (Contents.set_pendingRequests
                       (delete id (Contents.pendingRequests s))
                       (Contents.set_timers
                          (delete key (Contents.timers s)) s))) in
     Contents.onTimeout key s = Contents.processQueue s1
     /\ Contents.pendingRequests s1 = delete id (Contents.pendingRequests s)
     /\ Contents.log s1 = Contents.log s ++ [Contents.Rejected p]
     /\ Contents.isSending s1 = false
     /\ Contents.sendQueue s1 = Contents.sendQueue s
     /\ (Contents.sendQueue s = [] -> Contents.onTimeout key s = s1)
     /\ (Contents.secret_falsy (Contents.secret s) = true ->
         Contents.onTimeout key s = s1)
     /\ (forall entry rest,
           Contents.sendQueue s = entry :: rest ->
           Contents.secret_falsy (Contents.secret s) = false ->
           let s2 := Contents.start_request entry rest s1 in
           Contents.onTimeout key s = s2
           /\ Contents.sendQueue s2 = rest
           /\ Contents.isSending s2 = true
           /\ Contents.log s2
              = Contents.log s1
                ++ [Contents.Wrote
                      (Contents.msg_frame (Contents.secret s)
                         (Contents.new_sender REQ
                            (randomUUID (Contents.uuid_calls s))
                            (Contents.q_message entry)))]))
  /\ (forall s key id t p tp,
        BG.timers s !! key = Some (id, t, p) ->
        BG.pendingRequests s !! id = Some tp ->
        let s1 := BG.set_tab_isSending t false
                    (BG.emit (BG.Rejected t p)
                       (BG.set_pendingRequests
                          (delete id (BG.pendingRequests s))
                          (BG.set_timers (delete key (BG.timers s)) s))) in
        BG.onTimeout key s = BG.processQueue t s1
        /\ BG.pendingRequests s1 = delete id (BG.pendingRequests s)
        /\ BG.log s1 = BG.log s ++ [BG.Rejected t p]
        /\ BG.isSending (BG.tab_state t s1) = false
        /\ BG.queue (BG.tab_state t s1) = BG.queue (BG.tab_state t s)
        /\ (BG.queue (BG.tab_state t s) = [] -> BG.onTimeout key s = s1)
        /\ (forall entry rest,
              BG.queue (BG.tab_state t s) = entry :: rest ->
              let s2 := BG.start_request t entry rest s1 in
              BG.onTimeout key s = s2
              /\ BG.tab_state t s2
                 = {| BG.queue := rest; BG.isSending := true |}
              /\ BG.senders s2
                 = <[BG.handles s :=
                       BG.new_sender t REQ (randomUUID (BG.uuid_calls s))
                         (BG.q_message entry)]> (BG.senders s))).
Proof.
  split.
  - intros s key id p p' Ht Hp s1.
    destruct (contents_timeout s key id p p' Ht Hp)
      as (E1 & E2 & E3 & E4 & E5 & E6 & E7 & E8).
    fold s1 in E1, E2, E3, E4, E5, E6, E7, E8.
    repeat (split; [assumption|]).
    intros entry rest Hq Hsec s2. subst s2.
    split; [now apply E8|]. repeat split.
  - intros s key id t p tp Ht Hp s1.
    destruct (bg_timeout s key id t p tp Ht Hp)
      as (E1 & E2 & E3 & E4 & E5 & E6 & E7).
    fold s1 in E1, E2, E3, E4, E5, E6, E7.
    repeat (split; [assumption|]).
    intros entry rest Hq s2. subst s2.
    split; [now apply E7|].
    destruct (bg_start_request_spec t entry rest s1) as (F1 & _ & _ & F4 & _).
    split; [exact F1|]. exact F4.
Qed.


(** [chunkString] with the chunk size [MAX_HASH_BYTES - OVERHEAD]
    (4000 - 120) returns for every text chunks of that length at most,
    which are the consecutive slices of the text, in order; their number
    is the length of the text divided by the chunk size, rounded up, and
    is 0 for no text but the empty one. *)
Lemma chunkString_frames (str : string) :
  exists chunks,
    chunkString str (MAX_HASH_BYTES - OVERHEAD) = Some chunks
    /\ Forall (fun c => String.length c <= MAX_HASH_BYTES - OVERHEAD) chunks
    /\ Str.concat chunks = str
    /\ (forall k, k < length chunks ->
          chunks !! k = Some (Str.slice str (k * (MAX_HASH_BYTES - OVERHEAD))
                                (k * (MAX_HASH_BYTES - OVERHEAD)
                                 + (MAX_HASH_BYTES - OVERHEAD))))
    /\ length chunks
       = ceil_div (String.length str) (MAX_HASH_BYTES - OVERHEAD)
    /\ (length chunks = 0 <-> str = "").
Proof.
  assert (Hpos : 0 < MAX_HASH_BYTES - OVERHEAD)
    by (unfold MAX_HASH_BYTES, OVERHEAD; lia).
  destruct (chunkString_spec str _ Hpos) as (chunks & H1 & H2 & H3 & H4 & H5).
  exists chunks. split; [exact H1|]. split.
  { eapply Forall_impl; [exact H3|]. cbn. intros c Hc. lia. }
  split; [exact H2|]. split; [exact H5|]. split; [exact H4|].
  split.
  - intros Hz. destruct chunks; [|discriminate]. now rewrite <- H2.
  - intros ->. rewrite H4. apply ceil_div_zero, Hpos.
Qed.

(** C5: [sendChunks] splits the encoded message,
    [encodeBase64(JSON.stringify(data))], by [chunkString] with the chunk
    size [MAX_HASH_BYTES - OVERHEAD] (4000 - 120).  For every text the
    chunks have that length at most and are the consecutive slices of the
    text, in order, and their number is the length of the text divided by
    the chunk size, rounded up.  The encoded message is never the empty
    text: the JSON text of a value holds a character at least
    ([undefined] is encoded as the text [undefined]).  So a message has
    one chunk at least, and the total of the sender [sendChunks]
    registers, in both scripts, is the number of its chunks and is never
    0. *)
Theorem encoder_chunks :
  (forall str,
     exists chunks,
       chunkString str (MAX_HASH_BYTES - OVERHEAD) = Some chunks
       /\ Forall (fun c => String.length c <= 4000 - 120) chunks
       /\ Str.concat chunks = str
       /\ (forall k, k < length chunks ->
             chunks !! k
             = Some (Str.slice str (k * (MAX_HASH_BYTES - OVERHEAD))
                       (k * (MAX_HASH_BYTES - OVERHEAD)
                        + (MAX_HASH_BYTES - OVERHEAD))))
       /\ length chunks
          = ceil_div (String.length str) (MAX_HASH_BYTES - OVERHEAD)
       /\ (str <> "" -> 1 <= length chunks))
  /\ (forall data,
        JSON_stringify data <> [] ->
        let base64 := encode_message data in
        base64 <> ""
        /\ chunkString base64 (MAX_HASH_BYTES - OVERHEAD)
           = Some (chunks_of base64)
        /\ 1 <= length (chunks_of base64)
        /\ (forall type id s,
              exists sd,
                Contents.senders (Contents.sendChunks type id data s)
                  !! Contents.handles s = Some sd
                /\ Contents.s_chunks sd = chunks_of base64
                /\ Contents.s_total sd = length (chunks_of base64)
                /\ 1 <= Contents.s_total sd)
        /\ (forall tab type id s,
              exists sd,
                BG.senders (BG.sendChunks tab type id data s)
                  !! BG.handles s = Some sd
                /\ BG.s_chunks sd = chunks_of base64
                /\ BG.s_total sd = length (chunks_of base64)
                /\ 1 <= BG.s_total sd)).
Proof.
  split.
  - intros str.
    destruct (chunkString_frames str) as (chunks & H1 & H2 & H3 & H4 & H5 & H6).
    exists chunks. repeat (split; [assumption|]).
    intros Hne. destruct (Nat.eq_dec (length chunks) 0) as [E|E]; [|lia].
    now apply H6 in E.
  - intros data Hdata base64.
    assert (Hne : base64 <> "")
      by (unfold base64, encode_message; now apply encodeBase64_nonempty).
    pose proof (chunks_of_nonempty base64 Hne) as Hn.
    split; [exact Hne|]. split.
    { unfold chunks_of, chunkSize.
      destruct (chunkString_frames base64) as (chunks & -> & _).
      reflexivity. }
    split; [exact Hn|]. split.
    + intros type id s. eexists. split.
      * unfold Contents.sendChunks, Contents.sendNext. cbv zeta.
        cbn [Contents.senders Contents.set_senders].
        apply lookup_insert_eq.
      * repeat split. exact Hn.
    + intros tab type id s. eexists. split.
      * unfold BG.sendChunks. cbv zeta.
        cbn [BG.senders BG.set_senders]. apply lookup_insert_eq.
      * repeat split. exact Hn.
Qed.

(** C6, as the code has it: a chunk of an accepted frame goes into the
    reassembly entry of its identifier.  When the identifier has no
    entry, the entry is a new array of as many holes as the total of this
    chunk says; when it has one, that entry is used, whatever total the
    chunk reports: no total is compared with an earlier one.  The chunk
    is written at its index, the entry is stored and the acknowledgement
    is written.  The entry is then taken for complete exactly when its
    filled slots are as many as the total of the chunk at hand: its text
    is then decoded and the message delivered (or the exception of the
    decoding ends the callback), and nothing more happens otherwise. *)
Theorem chunk_written_into_entry :
  (forall s m1 type id seq data buffer0,
     Contents.match_msg (Contents.location_hash s)
     = Some (m1, type, id, seq, data) ->
     Contents.secret s = Some m1 ->
     let index := parseInt10 (split_seq seq).1 in
     let total := parseInt10_opt (split_seq seq).2 in
     Contents.incomingBuffers s !! id = Some buffer0
     \/ (Contents.incomingBuffers s !! id = None
         /\ new_Array total = Some buffer0) ->
     let buffer := array_set buffer0 index data in
     let s2 := Contents.sendRaw
                 (Contents.ack_frame (Contents.secret s) id index)
                 (Contents.set_incomingBuffers
                    (<[id := buffer]> (Contents.incomingBuffers s)) s) in
     (Contents.incomingBuffers s !! id = None ->
      exists n, total = Num (Z.of_nat n) /\ buffer0 = replicate n None)
     /\ Contents.handleIncoming s
        = (if is_complete buffer total then
             match decode_message (join buffer) with
             | inl e => Contents.emit (Contents.Uncaught e) s2
             | inr message =>
                 Contents.deliver type id message
                   (Contents.set_incomingBuffers
                      (delete id (Contents.incomingBuffers s2)) s2)
             end
           else s2)
     /\ (is_complete buffer total = false ->
         Contents.incomingBuffers (Contents.handleIncoming s)
         = <[id := buffer]> (Contents.incomingBuffers s)
         /\ Contents.log (Contents.handleIncoming s)
            = Contents.log s
              ++ [Contents.Wrote
                    (Contents.ack_frame (Contents.secret s) id index)]))
  /\ (forall tab base h s type id seq data buffer0,
        BG.match_msg h = Some (type, id, seq, data) ->
        let index := parseInt10 (split_seq seq).1 in
        let total := parseInt10_opt (split_seq seq).2 in
        BG.incomingBuffers s !! id = Some buffer0
        \/ (BG.incomingBuffers s !! id = None
            /\ new_Array total = Some buffer0) ->
        let buffer := array_set buffer0 index data in
        let s2 := BG.updateTabHash tab base (BG.ack_frame id index)
                    (BG.set_incomingBuffers
                       (<[id := buffer]> (BG.incomingBuffers s)) s) in
        (BG.incomingBuffers s !! id = None ->
         exists n, total = Num (Z.of_nat n) /\ buffer0 = replicate n None)
        /\ BG.handleIncoming tab base h s
           = (if is_complete buffer total then
                match decode_message (join buffer) with
                | inl e => BG.emit (BG.Uncaught e) s2
                | inr message =>
                    BG.deliver tab type id message
                      (BG.set_incomingBuffers
                         (delete id (BG.incomingBuffers s2)) s2)
                end
              else s2)
        /\ (is_complete buffer total = false ->
            BG.incomingBuffers (BG.handleIncoming tab base h s)
            = <[id := buffer]> (BG.incomingBuffers s)
            /\ BG.log (BG.handleIncoming tab base h s)
               = BG.log s ++ [BG.Wrote tab base (BG.ack_frame id index)])).
Proof.
  assert (Hnew : forall total buffer0,
            new_Array total = Some buffer0 ->
            exists n, total = Num (Z.of_nat n) /\ buffer0 = replicate n None).
  { intros [|z] buffer0; cbn [new_Array]; [discriminate|].
    destruct ((0 <=? z)%Z && (z <=? 4294967295)%Z) eqn:Ez; [|discriminate].
    intros [= <-]. exists (Z.to_nat z). split; [|reflexivity].
    apply andb_true_iff in Ez as [Ez _]. apply Z.leb_le in Ez.
    now rewrite Z2Nat.id. }
  split.
  - intros s m1 type id seq data buffer0 Hm Hsec index total Hbuf buffer s2.
    pose proof (handleIncoming_accepted s m1 type id seq data buffer0
                  Hm Hsec Hbuf) as E.
    cbv zeta in E. fold index total buffer s2 in E.
    split; [|split].
    + intros Hnone. destruct Hbuf as [Hb|[_ Hb]]; [congruence|].
      now apply Hnew.
    + rewrite E. destruct (is_complete buffer total); [|reflexivity].
      destruct (decode_message (join buffer)); [reflexivity|].
      unfold Contents.deliver. destruct type; reflexivity.
    + intros Hc. rewrite E, Hc. split; reflexivity.
  - intros tab base h s type id seq data buffer0 Hm index total Hbuf
      buffer s2.
    pose proof (bg_handleIncoming_accepted tab base h s type id seq data
                  buffer0 Hm Hbuf) as E.
    cbv zeta in E. fold index total buffer s2 in E.
    split; [|split].
    + intros Hnone. destruct Hbuf as [Hb|[_ Hb]]; [congruence|].
      now apply Hnew.
    + rewrite E. destruct (is_complete buffer total); [|reflexivity].
      destruct (decode_message (join buffer)); [reflexivity|].
      unfold BG.deliver. destruct type; reflexivity.
    + intros Hc. rewrite E, Hc. split; reflexivity.
Qed.

(** C7, as the code has it: when the chunk at hand completes the entry of
    its identifier (an existing entry, or the one just created) and the
    joined text decodes and parses, the entry is removed.  When it does
    not, the callback ends by the exception of [atob],
    [decodeURIComponent] or [JSON.parse], which nothing catches: the
    acknowledgement is written already, the entry stays in the
    reassembly buffer, and the entries of other identifiers, the pending
    requests, the queue and the senders are as before. *)
Theorem entry_completion :
  (forall s m1 type id seq data buffer0,
     Contents.match_msg (Contents.location_hash s)
     = Some (m1, type, id, seq, data) ->
     Contents.secret s = Some m1 ->
     let index := parseInt10 (split_seq seq).1 in
     let total := parseInt10_opt (split_seq seq).2 in
     Contents.incomingBuffers s !! id = Some buffer0
     \/ (Contents.incomingBuffers s !! id = None
         /\ new_Array total = Some buffer0) ->
     let buffer := array_set buffer0 index data in
     is_complete buffer total = true ->
     match decode_message (join buffer) with
     | inr message =>
         Contents.incomingBuffers (Contents.handleIncoming s)
         = delete id (Contents.incomingBuffers s)
     | inl e =>
         let s' := Contents.handleIncoming s in
         s' = Contents.emit (Contents.Uncaught e)
                (Contents.sendRaw
                   (Contents.ack_frame (Contents.secret s) id index)
                   (Contents.set_incomingBuffers
                      (<[id := buffer]> (Contents.incomingBuffers s)) s))
         /\ Contents.incomingBuffers s' !! id = Some buffer
         /\ (forall id', id' <> id ->
               Contents.incomingBuffers s' !! id'
               = Contents.incomingBuffers s !! id')
         /\ Contents.log s'
            = Contents.log s
              ++ [Contents.Wrote
                    (Contents.ack_frame (Contents.secret s) id index);
                  Contents.Uncaught e]
         /\ Contents.pendingRequests s' = Contents.pendingRequests s
         /\ Contents.sendQueue s' = Contents.sendQueue s
         /\ Contents.isSending s' = Contents.isSending s
         /\ Contents.dispatches s' = Contents.dispatches s
         /\ Contents.senders s' = Contents.senders s
     end)
  /\ (forall tab base h s type id seq data buffer0,
        BG.match_msg h = Some (type, id, seq, data) ->
        let index := parseInt10 (split_seq seq).1 in
        let total := parseInt10_opt (split_seq seq).2 in
        BG.incomingBuffers s !! id = Some buffer0
        \/ (BG.incomingBuffers s !! id = None
            /\ new_Array total = Some buffer0) ->
        let buffer := array_set buffer0 index data in
        is_complete buffer total = true ->
        match decode_message (join buffer) with
        | inr message =>
            BG.incomingBuffers (BG.handleIncoming tab base h s)
            = delete id (BG.incomingBuffers s)
        | inl e =>
            let s' := BG.handleIncoming tab base h s in
            s' = BG.emit (BG.Uncaught e)
                   (BG.updateTabHash tab base (BG.ack_frame id index)
                      (BG.set_incomingBuffers
                         (<[id := buffer]> (BG.incomingBuffers s)) s))
            /\ BG.incomingBuffers s' !! id = Some buffer
            /\ (forall id', id' <> id ->
                  BG.incomingBuffers s' !! id' = BG.incomingBuffers s !! id')
            /\ BG.log s'
               = BG.log s ++ [BG.Wrote tab base (BG.ack_frame id index);
                              BG.Uncaught e]
            /\ BG.pendingRequests s' = BG.pendingRequests s
            /\ BG.tabState s' = BG.tabState s
            /\ BG.dispatches s' = BG.dispatches s
            /\ BG.senders s' = BG.senders s
        end).
Proof.
  split.
  - intros s m1 type id seq data buffer0 Hm Hsec index total Hbuf buffer Hc.
    exact (contents_completed_entry s m1 type id seq data buffer0
             Hm Hsec Hbuf Hc).
  - intros tab base h s type id seq data buffer0 Hm index total Hbuf buffer Hc.
    exact (bg_completed_entry tab base h s type id seq data buffer0
             Hm Hbuf Hc).
Qed.



(** C9: in the content script, a [MSG] frame whose secret group is not
    the stored secret (none is stored before [INIT]) changes nothing:
    the listener [handleIncoming] and the listeners of all senders return
    the state they found, so no entry is created or written, no request
    is resolved, no handler runs and nothing is written to the slot. *)
Theorem foreign_secret_ignored (s : Contents.State) m1 type id seq data :
  Contents.match_msg (Contents.location_hash s)
  = Some (m1, type, id, seq, data) ->
  Contents.secret s <> Some m1 ->
  Contents.handleIncoming s = s
  /\ (forall key, Contents.handleAck key s = s).
Proof.
  intros Hm Hsec. pose proof (match_msg_startsWith _ _ Hm) as Hp. split.
  - unfold Contents.handleIncoming.
    rewrite (startsWith_MSG_not_INIT _ Hp), Hp, Hm. cbn [negb].
    replace (Contents.secret_differs m1 (Contents.secret s)) with true;
      [reflexivity|].
    unfold Contents.secret_differs.
    destruct (Contents.secret s) as [x|]; [|reflexivity].
    symmetry. apply negb_true_iff, String.eqb_neq. congruence.
  - intros key. unfold Contents.handleAck.
    destruct (Contents.senders s !! key) as [sd|]; [|reflexivity].
    replace (String.eqb (Contents.location_hash s)
               (Contents.expected_ack (Contents.secret s) sd)) with false;
      [reflexivity|].
    symmetry. apply String.eqb_neq. intros E. rewrite E in Hp. discriminate.
Qed.

(** C10: in every reachable state of either script no promise is settled
    twice, and the timer of a request that is settled finds no pending
    entry: its callback rejects nothing, leaves the sending flag and the
    queue as they are and does not call [processQueue]. *)
Theorem settles_once :
  unique_ids ->
  (forall h evs,
     let s := Contents.run h evs in
     NoDup (Contents.settled (Contents.log s))
     /\ (forall key id p,
           Contents.timers s !! key = Some (id, p) ->
           In p (Contents.settled (Contents.log s)) ->
           Contents.pendingRequests s !! id = None
           /\ Contents.onTimeout key s
              = Contents.set_timers (delete key (Contents.timers s)) s)
     /\ (forall p v,
           In (Contents.Resolved p v) (Contents.log s) ->
           In p (Contents.settled (Contents.log s))))
  /\ (forall evs,
        let s := BG.run evs in
        (forall t, NoDup (BG.settled t (BG.log s)))
        /\ (forall key id t p,
              BG.timers s !! key = Some (id, t, p) ->
              In p (BG.settled t (BG.log s)) ->
              BG.pendingRequests s !! id = None
              /\ BG.onTimeout key s
                 = BG.set_timers (delete key (BG.timers s)) s)
        /\ (forall t p v,
              In (BG.Resolved t p v) (BG.log s) ->
              In p (BG.settled t (BG.log s)))).
Proof.
  intros Huu. split.
  - intros h evs s.
    pose proof (queue_inv_run Huu h evs) as Hinv. fold s in Hinv.
    split; [now apply settled_nodup|]. split.
    + intros key id p Ht Hse.
      pose proof (contents_timer_noop s key id p Hinv Ht Hse) as E.
      split; [|exact E].
      destruct (Contents.pendingRequests s !! id) as [p'|] eqn:Hp;
        [|reflexivity].
      exfalso. apply (in_flight_not_settled s p Hinv); [|exact Hse].
      destruct Hinv as ([[_ He]|[_ (id0 & p0 & He)]] & _ & _ & Htim).
      * rewrite He, lookup_empty in Hp. discriminate.
      * destruct (Htim key id p Ht) as [_ Hm]. pose proof (Hm _ Hp) as ->.
        rewrite He in Hp. apply lookup_singleton_Some in Hp as [_ ->].
        rewrite (in_flight_singleton _ _ _ He). now left.
    + intros p v. apply settled_In_Resolved.
  - intros evs s.
    pose proof (bg_queue_inv_run Huu evs) as Hinv. fold s in Hinv.
    assert (Hnd : forall t, NoDup (BG.submitted t (BG.log s)))
      by (intros t; apply bg_submitted_fresh).
    split; [intros t; now apply bg_settled_nodup|]. split.
    + intros key id t p Ht Hse.
      pose proof (bg_timer_noop s key id t p Hinv (Hnd t) Ht Hse) as E.
      split; [|exact E].
      destruct (BG.pendingRequests s !! id) as [tp|] eqn:Hp; [|reflexivity].
      exfalso.
      apply (bg_in_flight_not_settled s t p Hinv (Hnd t)); [|exact Hse].
      destruct Hinv as (Htabs & _ & Htim).
      destruct (Htim key id t p Ht) as [_ Hm]. pose proof (Hm _ Hp) as ->.
      destruct (Htabs t) as [[[_ Hno]|[_ (id0 & p0 & Hl & Hu)]] _].
      * now destruct (Hno id p).
      * pose proof (Hu _ _ Hp) as ->. rewrite Hl in Hp. injection Hp as ->.
        rewrite (in_flight_busy t s id0 p Hl Hu). now left.
    + intros t p v. apply bg_settled_In_Resolved.
Qed.

End Claims.

(** * Runs of the sample host *)

Section Runs.

Import Sample.

Lemma sample_unique_ids : unique_ids.
Proof.
  intros m n E. cbn [randomUUID host] in E. unfold uuid in E.
  apply append_inv_head, Number_toString_inj in E. lia.
Qed.

(** Three requests answered in turn settle in the order of submission. *)
Example three_requests_in_order :
  let respond id := [Contents.PeerWrites ("MSG:k:RES:" +:+ id +:+ ":0/1:bnVsbA");
                     Contents.HashChange] in
  let s := Contents.run "INIT:k"
             ([Contents.SendMessage Null; Contents.SendMessage True_;
               Contents.SendMessage False_]
              ++ respond "id-0" ++ respond "id-1" ++ respond "id-2") in
  Contents.settled (Contents.log s) = [0; 1; 2]
  /\ Contents.written (Contents.log s)
     = ["ACK-INIT:k";
        "MSG:k:REQ:id-0:0/1:bnVsbA"; "ACK:k:id-0:0";
        "MSG:k:REQ:id-1:0/1:dHJ1ZQ"; "ACK:k:id-1:0";
        "MSG:k:REQ:id-2:0/1:ZmFsc2U"; "ACK:k:id-2:0"]
  /\ Contents.isSending s = false.
Proof. vm_compute. repeat split. Qed.

(** The timer of the first request fires: the second one is started. *)
Example timeout_starts_next :
  (let s := Contents.run "INIT:k"
              [Contents.SendMessage Null; Contents.SendMessage True_;
               Contents.Timeout 1] in
   Contents.log s
   = [Contents.Wrote "ACK-INIT:k"; Contents.Wrote "MSG:k:REQ:id-0:0/1:bnVsbA";
      Contents.Rejected 0; Contents.Wrote "MSG:k:REQ:id-1:0/1:dHJ1ZQ"]
   /\ Contents.sendQueue s = [] /\ Contents.in_flight s = [1])
  /\ (let s := BG.run [BG.SendMessage 7 Null; BG.SendMessage 7 True_;
                       BG.TabGot 0 "u"; BG.Timeout 1; BG.TabGot 2 "u"] in
      BG.log s
      = [BG.Promised 7 0; BG.Promised 7 1;
         BG.Wrote 7 "u" "MSG:REQ:id-0:0/1:bnVsbA"; BG.Rejected 7 0;
         BG.Wrote 7 "u" "MSG:REQ:id-1:0/1:dHJ1ZQ"]
      /\ BG.queue (BG.tab_state 7 s) = [] /\ BG.in_flight 7 s = [1]).
Proof. vm_compute. repeat split. Qed.

(** A request of two chunks is reassembled, its entry is removed, and the
    first handler that answers decides the response. *)
Example request_reassembled_and_answered :
  let s := Contents.run "INIT:k"
             [Contents.OnMessage (fun _ => None);
              Contents.OnMessage (fun _ => Some True_);
              Contents.OnMessage (fun _ => Some False_);
              Contents.PeerWrites "MSG:k:REQ:x:0/2:bnV"; Contents.HashChange;
              Contents.PeerWrites "MSG:k:REQ:x:1/2:sbA"; Contents.HashChange;
              Contents.Resume 0; Contents.Resume 0; Contents.Resume 0] in
  Contents.incomingBuffers s !! "x" = None
  /\ Contents.written (Contents.log s)
     = ["ACK-INIT:k"; "ACK:k:x:0"; "ACK:k:x:1"; "MSG:k:RES:x:0/1:dHJ1ZQ"]
  /\ Contents.dispatches s !! 0 = None.
Proof. vm_compute. repeat split. Qed.

(** Stop and wait: the second chunk follows the acknowledgement of the
    first, and a stale acknowledgement changes nothing. *)
Example second_chunk_after_ack :
  let s := Contents.run "INIT:k" [Contents.SendMessage (Letters 4000)] in
  let stale := fold_left Contents.step
                 [Contents.PeerWrites "ACK:k:id-0:7"; Contents.HashChange;
                  Contents.AckListener 0] s in
  let acked := fold_left Contents.step
                 [Contents.PeerWrites "ACK:k:id-0:0"; Contents.HashChange;
                  Contents.AckListener 0] s in
  map (Str.take 19) (Contents.written (Contents.log s))
  = ["ACK-INIT:k"; "MSG:k:REQ:id-0:0/2:"]
  /\ Contents.log stale = Contents.log s
  /\ map (Str.take 19) (Contents.written (Contents.log acked))
     = ["ACK-INIT:k"; "MSG:k:REQ:id-0:0/2:"; "MSG:k:REQ:id-0:1/2:"].
Proof. vm_compute. repeat split. Qed.

(** C1 at the message ["aaa"] and the chunk size 4. *)
Lemma chunked_round_trip_witness :
  exists chunks,
    chunkString (@encode_message host (Letters 3)) 4 = Some chunks
    /\ @decode_message host (join (map Some chunks)) = inr (Letters 3).
Proof.
  apply (@chunked_round_trip host (Letters 3) 4).
  - split.
    + repeat constructor; unfold is_scalar; cbn; lia.
    + vm_compute. reflexivity.
  - lia.
  - vm_compute. lia.
Defined.

(** X18 for the sample host: after two calls of [sendMessage] the first
    request is in flight and the second is queued. *)
Lemma single_flight_fifo_witness :
  unique_ids
  /\ let s := Contents.run "INIT:k"
                [Contents.SendMessage Null; Contents.SendMessage True_] in
     (Contents.isSending s = true <-> length (Contents.in_flight s) = 1)
     /\ Contents.in_flight s = [0]
     /\ map Contents.q_promise (Contents.sendQueue s) = [1].
Proof.
  split; [exact sample_unique_ids|]. cbv zeta. split.
  - exact (proj1 (proj1 (single_flight_fifo sample_unique_ids)
                    "INIT:k"
                    [Contents.SendMessage Null; Contents.SendMessage True_])).
  - split; vm_compute; reflexivity.
Defined.

(** C4: the timer of the first request fires after [INIT:] has emptied
    the secret; the second request stays queued and nothing is written. *)
Lemma timeout_without_secret_keeps_queue :
  let s := Contents.run "INIT:k"
             [Contents.SendMessage Null; Contents.SendMessage True_;
              Contents.PeerWrites "INIT:"; Contents.HashChange] in
  let s' := Contents.step s (Contents.Timeout 1) in
  Contents.timers s !! 1 = Some ("id-0", 0)
  /\ Contents.pendingRequests s !! "id-0" = Some 0
  /\ Contents.secret s = Some ""
  /\ Contents.log s' = Contents.log s ++ [Contents.Rejected 0]
  /\ Contents.isSending s' = false
  /\ Contents.in_flight s' = []
  /\ Contents.sendQueue s'
     = [{| Contents.q_message := True_; Contents.q_promise := 1 |}].
Proof. vm_compute. repeat split. Qed.

(** C5 at the message of 4000 letters: its encoding has 5336 characters
    and goes out in two chunks. *)
Lemma encoder_chunks_witness :
  String.length (@encode_message host (Letters 4000)) = 5336
  /\ length (chunks_of (@encode_message host (Letters 4000))) = 2
  /\ 1 <= length (chunks_of (@encode_message host (Letters 4000))).
Proof.
  split; [vm_compute; reflexivity|]. split; [vm_compute; reflexivity|].
  apply (proj2 (@encoder_chunks host) (Letters 4000)).
  vm_compute. discriminate.
Defined.

(** C6: a second chunk reporting the total 5, for an entry created with
    the total 3, is written into the entry and acknowledged. *)
Lemma total_mismatch_written_into_entry :
  (let s := Contents.run "INIT:k"
              [Contents.PeerWrites "MSG:k:REQ:x:0/3:AA"; Contents.HashChange;
               Contents.PeerWrites "MSG:k:REQ:x:1/5:BB";
               Contents.HashChange] in
   Contents.incomingBuffers s !! "x" = Some [Some "AA"; Some "BB"; None]
   /\ Contents.log s
      = [Contents.Wrote "ACK-INIT:k"; Contents.Wrote "ACK:k:x:0";
         Contents.Wrote "ACK:k:x:1"])
  /\ (let s := BG.run [BG.Updated 7 "u" "MSG:REQ:x:0/3:AA";
                       BG.Updated 7 "u" "MSG:REQ:x:1/5:BB"] in
      BG.incomingBuffers s !! "x" = Some [Some "AA"; Some "BB"; None]
      /\ BG.log s = [BG.Wrote 7 "u" "ACK:x:0"; BG.Wrote 7 "u" "ACK:x:1"]).
Proof. vm_compute. repeat split. Qed.

(** The acknowledgement carries the text of the Number [parseInt]
    returned: an index of 2^53 + 1 is acknowledged as 2^53, one of 10^21
    in the exponent form, and a total plays no part in it. *)
Lemma large_index_ack_text :
  jsnum_toString (Num 9007199254740993) = "9007199254740992"
  /\ jsnum_toString (Num (2 ^ 64)) = "18446744073709552000"
  /\ jsnum_toString (Num (10 ^ 21)) = "1e+21"
  /\ jsnum_toString (Num (2 ^ 70)) = "1.1805916207174113e+21"
  /\ jsnum_toString (Num (- 2 ^ 1024)) = "-Infinity"
  /\ Contents.log
       (Contents.run "INIT:k"
          [Contents.PeerWrites "MSG:k:REQ:x:9007199254740993/3:AA";
           Contents.HashChange;
           Contents.PeerWrites "MSG:k:REQ:x:1000000000000000000000/3:AA";
           Contents.HashChange])
     = [Contents.Wrote "ACK-INIT:k";
        Contents.Wrote "ACK:k:x:9007199254740992";
        Contents.Wrote "ACK:k:x:1e+21"]
  /\ BG.log (BG.run [BG.Updated 7 "u" "MSG:REQ:x:9007199254740993/3:AA"])
     = [BG.Wrote 7 "u" "ACK:x:9007199254740992"].
Proof. vm_compute. repeat split. Qed.

(** C7: the only chunk of a message is not base64: the callback ends by
    the exception and the completed entry stays. *)
Lemma decode_failure_uncaught_entry_stays :
  (let s := Contents.run "INIT:k"
              [Contents.PeerWrites "MSG:k:REQ:x:0/1:!"; Contents.HashChange] in
   Contents.incomingBuffers s !! "x" = Some [Some "!"]
   /\ Contents.log s
      = [Contents.Wrote "ACK-INIT:k"; Contents.Wrote "ACK:k:x:0";
         Contents.Uncaught DecodeError])
  /\ (let s := BG.run [BG.Updated 7 "u" "MSG:REQ:x:0/1:!"] in
      BG.incomingBuffers s !! "x" = Some [Some "!"]
      /\ BG.log s = [BG.Wrote 7 "u" "ACK:x:0"; BG.Uncaught DecodeError]).
Proof. vm_compute. repeat split. Qed.

(** C2, at a run of each script: two messages of two chunks each are
    submitted and the timer of the first request fires before the peer
    has acknowledged its first chunk.  The timeout rejects the request
    and starts the second one, but the listener of the first sender is
    still registered: when the peer now acknowledges chunk 0 of the
    first request, its chunk 1 is written over chunk 0 of the second
    request, and the chunks of the two requests go out in turn.  Each
    change of the slot reaches all listeners, in the order of their
    registration. *)
Lemma timed_out_sender_still_sends :
  (let s := Contents.run "INIT:k"
              [Contents.SendMessage (Letters 4000);
               Contents.SendMessage (Letters 4000);
               Contents.Timeout 1] in
   let s' := fold_left Contents.step
               [Contents.PeerWrites "ACK:k:id-0:0"; Contents.HashChange;
                Contents.AckListener 0; Contents.AckListener 2;
                Contents.PeerWrites "ACK:k:id-1:0"; Contents.HashChange;
                Contents.AckListener 0; Contents.AckListener 2] s in
   Contents.settled (Contents.log s) = [0]
   /\ Contents.in_flight s = [1]
   /\ Contents.senders s !! 0
      = Some (Contents.at_index 1
                (Contents.new_sender REQ "id-0" (Letters 4000)))
   /\ Contents.senders s !! 2
      = Some (Contents.at_index 1
                (Contents.new_sender REQ "id-1" (Letters 4000)))
   /\ map (Str.take 19) (Contents.written (Contents.log s))
      = ["ACK-INIT:k"; "MSG:k:REQ:id-0:0/2:"; "MSG:k:REQ:id-1:0/2:"]
   /\ map (Str.take 19) (Contents.written (Contents.log s'))
      = ["ACK-INIT:k"; "MSG:k:REQ:id-0:0/2:"; "MSG:k:REQ:id-1:0/2:";
         "MSG:k:REQ:id-0:1/2:"; "MSG:k:REQ:id-1:1/2:"])
  /\ (let s := BG.run
                 [BG.SendMessage 7 (Letters 4000);
                  BG.SendMessage 7 (Letters 4000);
                  BG.TabGot 0 "u"; BG.Timeout 1; BG.TabGot 2 "u"] in
      let s' := fold_left BG.step
                  [BG.Updated 7 "u" "ACK:id-0:0";
                   BG.AckListener 0 7 "u" "ACK:id-0:0";
                   BG.AckListener 2 7 "u" "ACK:id-0:0";
                   BG.Updated 7 "u" "ACK:id-1:0";
                   BG.AckListener 0 7 "u" "ACK:id-1:0";
                   BG.AckListener 2 7 "u" "ACK:id-1:0"] s in
      BG.settled 7 (BG.log s) = [0]
      /\ BG.in_flight 7 s = [1]
      /\ (exists sd, BG.senders s !! 0 = Some sd
                     /\ BG.s_id sd = "id-0" /\ BG.s_listening sd = true)
      /\ (exists sd, BG.senders s !! 2 = Some sd
                     /\ BG.s_id sd = "id-1" /\ BG.s_listening sd = true)
      /\ map (Str.take 17) (BG.written 7 (BG.log s))
         = ["MSG:REQ:id-0:0/2:"; "MSG:REQ:id-1:0/2:"]
      /\ map (Str.take 17) (BG.written 7 (BG.log s'))
         = ["MSG:REQ:id-0:0/2:"; "MSG:REQ:id-1:0/2:";
            "MSG:REQ:id-0:1/2:"; "MSG:REQ:id-1:1/2:"]).
Proof.
  split; cbv zeta.
  - repeat (split; [vm_compute; reflexivity|]). vm_compute. reflexivity.
  - split; [vm_compute; reflexivity|]. split; [vm_compute; reflexivity|].
    split; [eexists; split; [vm_compute; reflexivity|]; split; reflexivity|].
    split; [eexists; split; [vm_compute; reflexivity|]; split; reflexivity|].
    split; vm_compute; reflexivity.
Qed.

(** C3, at a run of the background script: the page asks with the
    identifier [x], the handler answers with a text of two chunks, and
    the page shows [ACK:x:-1] once the sender of the response is
    registered and before [browser.tabs.get] has answered it.  The
    listener takes this for the acknowledgement of the chunk written
    last and writes chunk 0; the callback of [browser.tabs.get] then
    writes chunk 1, although no acknowledgement of chunk 0 was seen. *)
Lemma early_ack_writes_next_chunk :
  let s := BG.run [BG.OnMessage (fun _ => Some (Letters 4000));
                   BG.Updated 7 "u" "MSG:REQ:x:0/1:bnVsbA";
                   BG.Resume 0; BG.Resume 0] in
  let s' := fold_left BG.step
              [BG.AckListener 1 7 "u" "ACK:x:-1"; BG.TabGot 1 "u"] s in
  let sd := BG.new_sender 7 RES "x" (Letters 4000) in
  BG.senders s !! 1 = Some sd
  /\ BG.s_total sd = 2
  /\ BG.written 7 (BG.log s) = ["ACK:x:0"]
  /\ BG.written 7 (BG.log s')
     = ["ACK:x:0"; BG.msg_frame sd; BG.msg_frame (BG.bump_index sd)]
  /\ map (fun frame => Str.take 14 frame) (BG.written 7 (BG.log s'))
     = ["ACK:x:0"; "MSG:RES:x:0/2:"; "MSG:RES:x:1/2:"].
Proof. vm_compute. repeat split. Qed.


(** C9 at a frame with the secret [z] while [k] is stored. *)
Lemma foreign_secret_ignored_witness :
  let s := Contents.run "INIT:k" [Contents.PeerWrites "MSG:z:REQ:x:0/1:AA"] in
  Contents.handleIncoming s = s
  /\ (forall key, Contents.handleAck key s = s).
Proof.
  cbv zeta.
  apply (foreign_secret_ignored _ "z" REQ "x" "0/1" "AA").
  - vm_compute. reflexivity.
  - vm_compute. discriminate.
Defined.

(** C10 for the sample host: the request is resolved by its response, and
    its timer then does nothing. *)
Lemma settles_once_witness :
  unique_ids
  /\ let s := Contents.run "INIT:k"
                [Contents.SendMessage Null;
                 Contents.PeerWrites "MSG:k:RES:id-0:0/1:bnVsbA";
                 Contents.HashChange] in
     Contents.settled (Contents.log s) = [0]
     /\ Contents.timers s !! 1 = Some ("id-0", 0)
     /\ Contents.log (Contents.onTimeout 1 s) = Contents.log s
     /\ NoDup (Contents.settled (Contents.log s)).
Proof.
  split; [exact sample_unique_ids|]. cbv zeta.
  split; [vm_compute; reflexivity|]. split; [vm_compute; reflexivity|].
  split; [vm_compute; reflexivity|].
  exact (proj1 (proj1 (settles_once sample_unique_ids) "INIT:k"
                  [Contents.SendMessage Null;
                   Contents.PeerWrites "MSG:k:RES:id-0:0/1:bnVsbA";
                   Contents.HashChange])).
Defined.

(** ** The properties above on the sample host *)

(** The text of 4000 letters, two chunks when encoded, is
    JSON-serializable on the sample host. *)
Lemma letters_serializable :
  @JSON_serializable host (Letters 4000).
Proof.
  split.
  - change (Forall is_scalar (quote :: replicate 4000 97%N ++ [quote])).
    apply List.Forall_cons; [unfold is_scalar, quote; lia|].
    apply Forall_app. split.
    + apply Forall_replicate. unfold is_scalar. lia.
    + apply List.Forall_cons; [unfold is_scalar, quote; lia | constructor].
  - vm_compute. reflexivity.
Qed.

(** X3 at the text [ok], with the padding of [btoa]. *)
Lemma decodeBase64_accepts_padding_witness :
  decodeBase64 "b2s=" = Some (text_of_string "ok").
Proof.
  apply (proj1 (decodeBase64_accepts_padding (text_of_string "ok")
                  ltac:(repeat constructor; unfold is_scalar; cbn; lia))).
Defined.

(** X4 at a text of five characters. *)
Lemma decodeBase64_refuses_length_witness : decodeBase64 "b2sgb" = None.
Proof. apply decodeBase64_refuses_length. reflexivity. Defined.

(** X5 at a text with an exclamation mark. *)
Lemma decodeBase64_refuses_foreign_witness : decodeBase64 "b2s!" = None.
Proof. apply decodeBase64_refuses_foreign. reflexivity. Defined.

(** X6 at a text of 18 characters and the size 7. *)
Lemma chunkString_sizes_witness :
  exists chunks,
    chunkString "eydvcCc6J3BpbmcnfQ" 7 = Some chunks
    /\ forall k c, chunks !! k = Some c ->
         (S k < length chunks -> String.length c = 7)
         /\ (S k = length chunks ->
             String.length c = 18 - k * 7 /\ 0 < String.length c <= 7).
Proof. apply (chunkString_sizes "eydvcCc6J3BpbmcnfQ" 7). lia. Defined.

(** X7 at the second frame of a response of two chunks. *)
Lemma frame_round_trip_witness :
  exists seq,
    parseInt10 (split_seq seq).1 = Num 1
    /\ parseInt10_opt (split_seq seq).2 = Num 2
    /\ Contents.match_msg
         (Contents.msg_frame (Some "k")
            (Contents.at_index 1 (Contents.new_sender RES "x" (Letters 4000))))
       = Some ("k", RES, "x", seq,
               chunk_text (chunks_of (encode_message (Letters 4000))) 1)
    /\ BG.match_msg
         (BG.msg_frame (BG.at_index 1 (BG.new_sender 7 RES "x" (Letters 4000))))
       = Some (RES, "x", seq,
               chunk_text (chunks_of (encode_message (Letters 4000))) 1).
Proof.
  destruct (@frame_round_trip host RES "x" (Letters 4000) 1)
    as (seq & E1 & E2 & E3 & E4); [reflexivity | discriminate |].
  exists seq. split; [exact E1|]. split.
  - rewrite E2. vm_compute. reflexivity.
  - split; [apply E3; [reflexivity | discriminate] | apply E4].
Defined.

(** X16 at a frame whose sequence field is [0]. *)
Lemma unusable_total_throws_witness :
  let s := Contents.run "INIT:k" [] in
  Contents.receive "MSG:k:REQ:x:0:AA" s
  = Contents.emit (Contents.Uncaught RangeError)
      (Contents.set_location_hash "MSG:k:REQ:x:0:AA" s).
Proof.
  cbv zeta.
  apply (proj1 (@unusable_total_throws host REQ "x" "0" "AA"
                  eq_refl ltac:(discriminate) eq_refl ltac:(discriminate)
                  eq_refl eq_refl) "k");
    [reflexivity | discriminate | reflexivity | reflexivity].
Defined.

(** X13: two requests and a frame with a secret before any [INIT:]; the
    handshake then starts the first request. *)
Lemma nothing_before_INIT_witness :
  let s := Contents.run "" [Contents.SendMessage Null;
                            Contents.SendMessage True_;
                            Contents.PeerWrites "MSG:k:REQ:x:0/1:bnVsbA";
                            Contents.HashChange] in
  Contents.log s = []
  /\ Contents.timers s = ∅
  /\ map (@Contents.q_message host) (Contents.sendQueue s) = [Null; True_]
  /\ Contents.written (Contents.log (Contents.receive "INIT:k" s))
     = ["ACK-INIT:k"; "MSG:k:REQ:id-0:0/1:bnVsbA"].
Proof.
  cbv zeta.
  destruct (@nothing_before_INIT host ""
              [@Contents.SendMessage host Null;
               @Contents.SendMessage host True_;
               Contents.PeerWrites "MSG:k:REQ:x:0/1:bnVsbA";
               Contents.HashChange] eq_refl)
    as (E1 & E2 & _ & E3 & _).
  split; [exact E1|]. split; [exact E2|]. split; [exact E3|].
  vm_compute. reflexivity.
Defined.

(** X11 at a response of two chunks. *)
Lemma contents_sends_in_order_witness :
  let s0 := Contents.run "INIT:k" [] in
  let sd := Contents.new_sender RES "x" (Letters 4000) in
  let s := fold_left (fun s k => Contents.acknowledge 0 "x" k s) [0; 1]
             (Contents.sendChunks RES "x" (Letters 4000) s0) in
  Contents.log s
  = Contents.log s0 ++ map Contents.Wrote (Contents.frames_of (Some "k") sd)
  /\ map (Str.take 16) (Contents.frames_of (Some "k") sd)
     = ["MSG:k:RES:x:0/2:"; "MSG:k:RES:x:1/2:"]
  /\ Contents.senders s !! 0 = None.
Proof.
  cbv zeta.
  destruct (@contents_sends_in_order host RES "x" (Letters 4000)
              (Contents.run "INIT:k" []) ltac:(discriminate))
    as (_ & E1 & E2 & _).
  split; [exact E1|]. split; [vm_compute; reflexivity|].
  vm_compute. reflexivity.
Defined.

(** X12 at a response of two chunks to the tab 7. *)
Lemma bg_sends_in_order_witness :
  let sd := BG.new_sender 7 RES "x" (Letters 4000) in
  let s := fold_left (fun s k => BG.acknowledge 0 7 "u" "x" k s) [0; 1]
             (BG.onTabGot 0 "u" (BG.sendChunks 7 RES "x" (Letters 4000)
                                   BG.init)) in
  BG.log s = map (BG.Wrote 7 "u") (BG.frames_of sd)
  /\ BG.s_total sd = 2
  /\ BG.onUpdated 0 7 "u" "ACK:x:1" s = s.
Proof.
  cbv zeta.
  destruct (@bg_sends_in_order host 7 "u" RES "x" (Letters 4000) BG.init
              ltac:(discriminate)) as (_ & _ & E1 & E2).
  split; [exact E1|]. split; [vm_compute; reflexivity | apply E2].
Defined.

(** X9: the second frame of a request of two chunks arrives twice, then
    the first. *)
Lemma contents_reassembles_message_witness :
  let sd := Contents.new_sender REQ "x" (Letters 4000) in
  let frame k := Contents.msg_frame (Some "k") (Contents.at_index k sd) in
  let r := Contents.run "INIT:k" [] in
  exists mid,
    Contents.receive_all [frame 1; frame 1; frame 0] r
    = Contents.deliver REQ "x" (Letters 4000) mid
    /\ Contents.written (Contents.log mid)
       = ["ACK-INIT:k"; "ACK:k:x:1"; "ACK:k:x:1"; "ACK:k:x:0"]
    /\ Contents.incomingBuffers mid = ∅.
Proof.
  cbv zeta.
  assert (Hn : Contents.s_total (Contents.new_sender REQ "x" (Letters 4000))
               = 2) by (vm_compute; reflexivity).
  destruct (@contents_reassembles_message host "k" "x" REQ (Letters 4000)
              (Contents.run "INIT:k" []) [1; 1] 0
              eq_refl ltac:(discriminate) eq_refl ltac:(discriminate)
              letters_serializable)
    as (_ & mid & E1 & _ & E2 & E3).
  - rewrite Hn. lia.
  - reflexivity.
  - reflexivity.
  - rewrite Hn. repeat constructor.
  - rewrite Hn. lia.
  - rewrite !elem_of_cons, elem_of_nil. lia.
  - rewrite Hn. intros i Hi. cbn [app]. rewrite !elem_of_cons. lia.
  - exists mid. split; [exact E1|]. split; [|exact E3].
    rewrite E2. vm_compute. reflexivity.
Defined.

(** X10: the second frame of a response of two chunks arrives three
    times, then the first. *)
Lemma bg_reassembles_message_witness :
  let sd := BG.new_sender 7 RES "x" (Letters 4000) in
  let frame k := BG.msg_frame (BG.at_index k sd) in
  exists mid,
    BG.receive_all 7 "u" [frame 1; frame 1; frame 1; frame 0] BG.init
    = BG.deliver 7 RES "x" (Letters 4000) mid
    /\ BG.written 7 (BG.log mid) = ["ACK:x:1"; "ACK:x:1"; "ACK:x:1"; "ACK:x:0"]
    /\ BG.incomingBuffers mid = ∅.
Proof.
  cbv zeta.
  assert (Hn : BG.s_total (BG.new_sender 7 RES "x" (Letters 4000)) = 2)
    by (vm_compute; reflexivity).
  destruct (@bg_reassembles_message host 7 "u" "x" RES (Letters 4000)
              BG.init [1; 1; 1] 0
              eq_refl ltac:(discriminate) letters_serializable)
    as (_ & mid & E1 & _ & E2 & E3).
  - rewrite Hn. lia.
  - reflexivity.
  - rewrite Hn. repeat constructor.
  - rewrite Hn. lia.
  - rewrite !elem_of_cons, elem_of_nil. lia.
  - rewrite Hn. intros i Hi. cbn [app]. rewrite !elem_of_cons. lia.
  - exists mid. split; [exact E1|]. split; [|exact E3].
    rewrite E2. vm_compute. reflexivity.
Defined.

(** X17: the response to the first request arrives in two frames, the
    second first. *)
Lemma response_resolves_request_witness :
  let r := Contents.run "INIT:k" [@Contents.SendMessage host Null] in
  let sd := Contents.new_sender RES "id-0" (Letters 4000) in
  let frame k := Contents.msg_frame (Some "k") (Contents.at_index k sd) in
  let s := Contents.receive_all [frame 1; frame 0] r in
  Contents.pendingRequests r !! "id-0" = Some 0
  /\ Contents.settled (Contents.log r) = []
  /\ Contents.settled (Contents.log s) = [0]
  /\ In (Contents.Resolved 0 (Letters 4000)) (Contents.log s)
  /\ Contents.pendingRequests s !! "id-0" = None.
Proof.
  cbv zeta.
  assert (Hn : Contents.s_total (Contents.new_sender RES "id-0" (Letters 4000))
               = 2) by (vm_compute; reflexivity).
  split; [reflexivity|]. split; [reflexivity|].
  destruct (proj1 (@response_resolves_request host "id-0" (Letters 4000)
                     [1] 0 eq_refl ltac:(discriminate) letters_serializable
                     ltac:(rewrite elem_of_cons, elem_of_nil; lia))
              "k" (Contents.run "INIT:k" [@Contents.SendMessage host Null]) 0
              eq_refl ltac:(discriminate))
    as (E1 & E2 & E3 & _).
  - rewrite Hn. lia.
  - reflexivity.
  - reflexivity.
  - reflexivity.
  - rewrite Hn. repeat constructor.
  - rewrite Hn. lia.
  - rewrite Hn. intros i Hi. cbn [app]. rewrite !elem_of_cons. lia.
  - split; [exact E1|]. split; [exact E2 | exact E3].
Defined.

(** X8 at a request frame of the background script, shown to a content
    script that holds the secret [k], and at a request frame of a content
    script with the secret [k:z], shown to the background script. *)
Lemma scripts_reject_each_other_witness :
  let frame := BG.msg_frame (BG.at_index 0 (BG.new_sender 7 REQ "x" Null)) in
  let s := Contents.run "INIT:k" [] in
  let frame' :=
    Contents.msg_frame (Some "k:z")
      (Contents.at_index 0 (Contents.new_sender REQ "x" Null)) in
  (frame = "MSG:REQ:x:0/1:bnVsbA"
   /\ Contents.receive frame s = Contents.set_location_hash frame s)
  /\ (frame' = "MSG:k:z:REQ:x:0/1:bnVsbA"
      /\ BG.handleIncoming 7 "u" frame' (BG.run []) = BG.run []).
Proof.
  cbv zeta. split; (split; [vm_compute; reflexivity|]).
  - apply (proj1 (@scripts_reject_each_other host) 7 REQ "x" Null 0).
    reflexivity.
  - apply (proj1 (proj2 (proj2 (@scripts_reject_each_other host)))
             (Some "k:z") REQ "x" Null 0 7 "u");
      solve [discriminate | reflexivity].
Defined.

(** A secret that starts with [REQ:] makes a frame of the content script
    read as a frame of the background script: with the secret [REQ:zz]
    the request frame of [x] is taken for a chunk of the identifier [zz]
    with the sequence text [REQ], and [new Array(NaN)] throws. *)
Lemma colon_secret_frame_is_read :
  let frame :=
    Contents.msg_frame (Some "REQ:zz")
      (Contents.at_index 0 (Contents.new_sender REQ "x" Null)) in
  frame = "MSG:REQ:zz:REQ:x:0/1:bnVsbA"
  /\ BG.match_msg frame = Some (REQ, "zz", "REQ", "x:0/1:bnVsbA")
  /\ BG.log (BG.handleIncoming 7 "u" frame (BG.run []))
     = [BG.Uncaught RangeError].
Proof. vm_compute. repeat split. Qed.

(** X14 at the first request of the content script. *)
Lemma pending_request_has_timer_witness :
  let s := Contents.run "INIT:k" [@Contents.SendMessage host Null] in
  Contents.pendingRequests s !! "id-0" = Some 0
  /\ exists key, Contents.timers s !! key = Some ("id-0", 0).
Proof.
  cbv zeta. split; [reflexivity|].
  apply (proj1 (@pending_request_has_timer host)). reflexivity.
Defined.

(** X15 at the first frame of the first request. *)
Lemma written_frames_shapes_witness :
  let s := Contents.run "INIT:k" [@Contents.SendMessage host Null] in
  Contents.written (Contents.log s)
  = ["ACK-INIT:k"; "MSG:k:REQ:id-0:0/1:bnVsbA"]
  /\ (Str.startsWith "MSG:k:REQ:id-0:0/1:bnVsbA" "ACK-INIT:" = true
      \/ Str.startsWith "MSG:k:REQ:id-0:0/1:bnVsbA" "MSG:" = true
      \/ Str.startsWith "MSG:k:REQ:id-0:0/1:bnVsbA" "ACK:" = true).
Proof.
  cbv zeta. split; [vm_compute; reflexivity|].
  apply (proj1 (@written_frames_shapes host) "INIT:k"
           [@Contents.SendMessage host Null]).
  vm_compute. right. now left.
Defined.

End Runs.
